(** * skillet: source resolution, installation and lockfile core

    A shallow embedding of the TypeScript sources of the skillet CLI
    (resolvers, skill descriptor parser, installer, lockfile generator and
    check orchestrator) together with the properties the specification
    states about them.

    Conventions of the embedding.
    - A JavaScript string is modelled by the [string] of the bytes of its
      UTF-8 form.  Searching, splitting and slicing at the positions a
      search found read the same on bytes as on characters; what does not
      is written out: the white characters of [trim] and of the regular
      expression [\s] take one to three bytes, and [length] counts UTF-16
      code units.
    - A function that may [throw] returns a [result]; the thrown object is a
      value of [exn], one constructor per error class of the sources.
    - Calls into Node or third-party libraries ([fetch], [execFileSync],
      [JSON.parse], the [yaml] package, [crypto], [localeCompare]) are the
      fields of the [World] record of the module that makes them; the
      functions of a module are defined in a section over its world.
    - [node:fs] and [path.posix.normalize] are not parameters: the disk is a
      tree of files, directories and symbolic links, and the functions of
      [fs] the sources call are functions on that tree. *)

From Stdlib Require Import String Ascii List ZArith Bool Lia Arith.
From Stdlib Require Import Sorting.Sorted Permutation DecimalString OrderedTypeEx.
Import ListNotations.
Local Open Scope string_scope.
Local Open Scope list_scope.

Set Implicit Arguments.
Set Warnings "-register-all".

(* ===================================================================== *)
(** * Errors and results *)
(* ===================================================================== *)

(** The error classes declared in the sources.  [OtherError] stands for any
    exception that is not an instance of one of them (a Node [Error] or
    [TypeError] raised by [fs] or by a stream). *)
Inductive exn : Type :=
| ArchiveResolveError (message : string)
| OciResolveError (message : string)
| SkillParseError (message : string) (field : option string)
| InstallConflictError (message : string) (path : string)
| GenericError (message : string)
| OtherError (message : string).

Inductive result (A : Type) : Type :=
| Ok (a : A)
| Throw (e : exn).
Arguments Ok {A} a.
Arguments Throw {A} e.

Definition bind {A B} (r : result A) (k : A -> result B) : result B :=
  match r with
  | Ok a => k a
  | Throw e => Throw e
  end.

Notation "'let!' x ':=' r 'in' k" := (bind r (fun x => k))
  (at level 10, x pattern, r at level 100, k at level 200).

Definition is_ok {A} (r : result A) : bool :=
  match r with Ok _ => true | Throw _ => false end.

Definition isArchiveResolveError (e : exn) : bool :=
  match e with ArchiveResolveError _ => true | _ => false end.

Definition error_message (e : exn) : string :=
  match e with
  | ArchiveResolveError m | OciResolveError m | SkillParseError m _
  | InstallConflictError m _ | GenericError m | OtherError m => m
  end.

(* ===================================================================== *)
(** * JavaScript string primitives *)
(* ===================================================================== *)

Module Js.

Definition chr (n : nat) : ascii := ascii_of_nat n.

Definition LF : ascii := chr 10.
Definition CR : ascii := chr 13.

(** [String.prototype.startsWith]. *)
Fixpoint startsWith (s p : string) {struct p} : bool :=
  match p with
  | EmptyString => true
  | String a p' =>
      match s with
      | EmptyString => false
      | String b s' => Ascii.eqb a b && startsWith s' p'
      end
  end.

(** [String.prototype.includes]. *)
Fixpoint includes (s needle : string) : bool :=
  startsWith s needle ||
  match s with
  | EmptyString => false
  | String _ s' => includes s' needle
  end.

(** [String.prototype.endsWith]. *)
Fixpoint endsWith (s p : string) : bool :=
  String.eqb s p ||
  match s with
  | EmptyString => false
  | String _ s' => endsWith s' p
  end.

(** [s.replace(/c/g, d)] for a single character [c]. *)
Fixpoint replaceAllChar (c d : ascii) (s : string) : string :=
  match s with
  | EmptyString => EmptyString
  | String a s' => String (if Ascii.eqb a c then d else a) (replaceAllChar c d s')
  end.

(** The white characters of [trim] and [\s] that take one byte: TAB, LF,
    VT, FF, CR and SPACE. *)
Definition isSpace (a : ascii) : bool :=
  let n := nat_of_ascii a in
  (((9 <=? n) && (n <=? 13)) || (n =? 32))%nat.

(** The white character of two bytes: U+00A0, the bytes C2 A0. *)
Definition isSpace2 (a b : ascii) : bool :=
  ((nat_of_ascii a =? 194) && (nat_of_ascii b =? 160))%nat.

(** The white characters of three bytes: U+1680 (E1 9A 80), U+2000 to
    U+200A (E2 80 80 to E2 80 8A), U+2028, U+2029 and U+202F (E2 80 A8,
    E2 80 A9, E2 80 AF), U+205F (E2 81 9F), U+3000 (E3 80 80) and U+FEFF
    (EF BB BF). *)
Definition isSpace3 (a b c : ascii) : bool :=
  let x := nat_of_ascii a in
  let y := nat_of_ascii b in
  let z := nat_of_ascii c in
  (((x =? 225) && (y =? 154) && (z =? 128))
   || ((x =? 226) && (y =? 128)
       && (((128 <=? z) && (z <=? 138)) || (z =? 168) || (z =? 169) || (z =? 175)))
   || ((x =? 226) && (y =? 129) && (z =? 159))
   || ((x =? 227) && (y =? 128) && (z =? 128))
   || ((x =? 239) && (y =? 187) && (z =? 191)))%nat.

(** Whether the text starts with a white character. *)
Definition startsWithSpace (s : string) : bool :=
  match s with
  | EmptyString => false
  | String a s1 =>
      isSpace a
      || match s1 with
         | EmptyString => false
         | String b s2 =>
             isSpace2 a b
             || match s2 with
                | EmptyString => false
                | String c _ => isSpace3 a b c
                end
         end
  end.

(** Whether the text is made of white characters only. *)
Fixpoint allSpace (s : string) : bool :=
  match s with
  | EmptyString => true
  | String a s1 =>
      if isSpace a then allSpace s1
      else match s1 with
           | EmptyString => false
           | String b s2 =>
               if isSpace2 a b then allSpace s2
               else match s2 with
                    | EmptyString => false
                    | String c s3 => isSpace3 a b c && allSpace s3
                    end
           end
  end.

(** Whether a white character occurs in the text. *)
Fixpoint hasSpace (s : string) : bool :=
  startsWithSpace s ||
  match s with
  | EmptyString => false
  | String _ s' => hasSpace s'
  end.

Fixpoint trimStart (s : string) : string :=
  match s with
  | EmptyString => EmptyString
  | String a s1 =>
      if isSpace a then trimStart s1
      else match s1 with
           | EmptyString => s
           | String b s2 =>
               if isSpace2 a b then trimStart s2
               else match s2 with
                    | EmptyString => s
                    | String c s3 => if isSpace3 a b c then trimStart s3 else s
                    end
           end
  end.

(** Drops the trailing white characters: the text ends where what is
    left of it is white only. *)
Fixpoint trimEnd (s : string) : string :=
  match s with
  | EmptyString => EmptyString
  | String a s' => if allSpace s then EmptyString else String a (trimEnd s')
  end.

(** [String.prototype.trim]. *)
Definition trim (s : string) : string := trimEnd (trimStart s).

(** [s.length]: the number of UTF-16 code units of the text.  A character
    of one, two or three bytes is one code unit, a character of four bytes
    a surrogate pair; the bytes 80 to BF continue a character. *)
Fixpoint length (s : string) : nat :=
  match s with
  | EmptyString => 0
  | String a s' =>
      let n := nat_of_ascii a in
      (if (n <? 128)%nat then 1
       else if (n <? 192)%nat then 0
       else if (n <? 240)%nat then 1
       else 2) + length s'
  end.

(** [s.split(c)] for a one-character separator: never the empty list. *)
Fixpoint splitChar (c : ascii) (s : string) : list string :=
  match s with
  | EmptyString => [EmptyString]
  | String a s' =>
      if Ascii.eqb a c then EmptyString :: splitChar c s'
      else match splitChar c s' with
           | [] => [String a EmptyString]
           | h :: t => String a h :: t
           end
  end.

(** Removes one trailing carriage return, the optional [\r] of [/\r?\n/]. *)
Fixpoint dropTrailingCR (s : string) : string :=
  match s with
  | EmptyString => EmptyString
  | String a EmptyString => if Ascii.eqb a CR then EmptyString else s
  | String a s' => String a (dropTrailingCR s')
  end.

(** [s.split(/\r?\n/)]: split at every line feed; a carriage return that
    immediately precedes the line feed belongs to the separator. *)
Definition splitLines (s : string) : list string :=
  match rev (splitChar LF s) with
  | [] => []
  | last :: front => rev (last :: map dropTrailingCR front)
  end.

(** [Array.prototype.join]. *)
Definition join (sep : string) (l : list string) : string := String.concat sep l.

(** Truthiness of an optional string: [undefined] and [""] are falsy. *)
Definition truthy (o : option string) : bool :=
  match o with
  | Some s => negb (String.eqb s "")
  | None => false
  end.

(** [Array.prototype.sort(cmp)]: the sort is stable, and for a comparator
    that is a total preorder its result is the one stable sorted permutation
    whatever algorithm the engine runs; insertion sort computes it. *)
Fixpoint insertBy {A} (cmp : A -> A -> Z) (x : A) (l : list A) : list A :=
  match l with
  | [] => [x]
  | y :: l' => if (cmp x y <=? 0)%Z then x :: y :: l' else y :: insertBy cmp x l'
  end.

Fixpoint sortBy {A} (cmp : A -> A -> Z) (l : list A) : list A :=
  match l with
  | [] => []
  | x :: l' => insertBy cmp x (sortBy cmp l')
  end.

(** The text before the first white character: the first element of
    [s.split(/\s+/)]. *)
Fixpoint firstToken (s : string) : string :=
  match s with
  | EmptyString => EmptyString
  | String a s' => if startsWithSpace s then EmptyString else String a (firstToken s')
  end.

(** [o ?? d]. *)
Definition orElse {A} (o : option A) (d : A) : A :=
  match o with Some a => a | None => d end.

End Js.

(** A text given by its lines. *)
Definition lines (l : list string) : string := String.concat (String Js.LF "") l.

(* ===================================================================== *)
(** * [path.posix.normalize] *)
(* ===================================================================== *)

Module PosixPath.

(** Node's [normalizeString]: walks the segments of the path keeping the
    segments of the answer, last one first.  Empty segments and ["."] are
    dropped; [".."] removes the previous segment unless there is none or
    it is itself [".."], in which case it is kept when [allowAboveRoot]. *)
Fixpoint normalizeSegments (allowAboveRoot : bool) (acc : list string)
         (segs : list string) : list string :=
  match segs with
  | [] => rev acc
  | seg :: rest =>
      if String.eqb seg "" || String.eqb seg "." then
        normalizeSegments allowAboveRoot acc rest
      else if String.eqb seg ".." then
        match acc with
        | top :: acc' =>
            if String.eqb top ".." then
              normalizeSegments allowAboveRoot
                (if allowAboveRoot then ".." :: acc else acc) rest
            else normalizeSegments allowAboveRoot acc' rest
        | [] =>
            normalizeSegments allowAboveRoot
              (if allowAboveRoot then [".."] else []) rest
        end
      else normalizeSegments allowAboveRoot (seg :: acc) rest
  end.

Definition normalizeString (p : string) (allowAboveRoot : bool) : string :=
  Js.join "/" (normalizeSegments allowAboveRoot [] (Js.splitChar "/" p)).

Definition normalize (p : string) : string :=
  if String.eqb p "" then "."
  else
    let isAbsolute := Js.startsWith p "/" in
    let trailingSeparator := Js.endsWith p "/" in
    let body := normalizeString p (negb isAbsolute) in
    if String.eqb body "" then
      if isAbsolute then "/" else if trailingSeparator then "./" else "."
    else
      let body := if trailingSeparator then (body ++ "/")%string else body in
      if isAbsolute then ("/" ++ body)%string else body.

End PosixPath.


(* ===================================================================== *)
(** * The file system of [node:fs] *)
(* ===================================================================== *)

(** Absolute, normalized paths are lists of components ([path.join] appends
    components, [path.dirname] and [path.basename] split off the last one);
    [toString] prints them the POSIX way for messages.  A file system is the
    tree below the root directory.  Name resolution follows symbolic links,
    at most [maxSymlinks] of them as the kernel does, so that an installed
    skill that is a link into the storage root is scanned through it. *)
Module Fs.

Definition path := list string.

Definition toString (p : path) : string :=
  match p with
  | [] => "/"
  | _ => String.concat "" (map (fun c => "/" ++ c)%string p)
  end.

(** [path.join(p, name)] for a single component; an empty one adds nothing. *)
Definition join (p : path) (name : string) : path :=
  if String.eqb name "" then p else p ++ [name].

Definition basename (p : path) : string := last p "".

Definition dirname (p : path) : path := removelast p.

Inductive node : Type :=
| File (content : string)
| Dir (entries : list (string * node))
| Symlink (target : path).

Inductive kind : Type := KFile | KDir | KLink.

Definition kindOf (n : node) : kind :=
  match n with File _ => KFile | Dir _ => KDir | Symlink _ => KLink end.

Definition isDir (n : node) : bool :=
  match n with Dir _ => true | _ => false end.

Definition isFile (n : node) : bool :=
  match n with File _ => true | _ => false end.

Definition isLink (n : node) : bool :=
  match n with Symlink _ => true | _ => false end.

Fixpoint assoc (c : string) (es : list (string * node)) : option node :=
  match es with
  | [] => None
  | (k, n) :: es' => if String.eqb k c then Some n else assoc c es'
  end.

(** Replaces, adds (at the end) or removes the entry named [c]. *)
Fixpoint setEntry (c : string) (v : option node) (es : list (string * node))
  : list (string * node) :=
  match es with
  | [] => match v with Some n => [(c, n)] | None => [] end
  | (k, n) :: es' =>
      if String.eqb k c
      then match v with Some n' => (k, n') :: es' | None => es' end
      else (k, n) :: setEntry c v es'
  end.

Definition maxSymlinks : nat := 40.

Section Resolve.
Variable root : node.
Variable follow : bool.

(** Walks [p] from the directory [n] whose real path is [cur]; a link
    met on the way restarts the walk from the root at its target
    ([rec]).  The last component is followed only when [follow]. *)
Fixpoint walk (rec : path -> option (path * node)) (n : node) (cur p : path)
  : option (path * node) :=
  match p with
  | [] => Some (cur, n)
  | c :: rest =>
      match n with
      | Dir es =>
          match assoc c es with
          | None => None
          | Some (Symlink t) =>
              match rest with
              | [] => if follow then rec t else Some (cur ++ [c], Symlink t)
              | _ => rec (t ++ rest)
              end
          | Some n' => walk rec n' (cur ++ [c]) rest
          end
      | _ => None
      end
  end.

Fixpoint resolveN (fuel : nat) (p : path) : option (path * node) :=
  match fuel with
  | O => None
  | S f => walk (resolveN f) root [] p
  end.
End Resolve.

(** The real path and the node a path names, or [None] (ENOENT, ENOTDIR,
    ELOOP). *)
Definition resolve (root : node) (follow : bool) (p : path) : option (path * node) :=
  resolveN root follow (S maxSymlinks) p.

Definition statSync (root : node) (p : path) : option node :=
  option_map snd (resolve root true p).

Definition lstatSync (root : node) (p : path) : option node :=
  option_map snd (resolve root false p).

Definition existsSync (root : node) (p : path) : bool :=
  match statSync root p with Some _ => true | None => false end.

Definition fsError (code : string) (p : path) : exn :=
  OtherError (code ++ ": " ++ toString p)%string.

(** Rewrites the entry at the real path [p] (no links on the way). *)
Fixpoint alter (f : option node -> result (option node)) (n : node) (p : path)
  : result node :=
  match p with
  | [] => Throw (OtherError "EINVAL")
  | c :: rest =>
      match n with
      | Dir es =>
          match rest with
          | [] => let! v := f (assoc c es) in Ok (Dir (setEntry c v es))
          | _ =>
              match assoc c es with
              | Some n' =>
                  let! n'' := alter f n' rest in
                  Ok (Dir (setEntry c (Some n'') es))
              | None => Throw (OtherError "ENOENT")
              end
          end
      | _ => Throw (OtherError "ENOTDIR")
      end
  end.

Definition put (root : node) (p : path) (n : node) : result node :=
  alter (fun _ => Ok (Some n)) root p.

Definition remove (root : node) (p : path) : result node :=
  alter (fun _ => Ok None) root p.

(** The real path of the entry [p] names in its parent directory. *)
Definition locate (root : node) (p : path) : result path :=
  match p with
  | [] => Ok []
  | _ =>
      match resolve root true (dirname p) with
      | Some (rp, Dir _) => Ok (rp ++ [basename p])
      | Some _ => Throw (fsError "ENOTDIR" p)
      | None => Throw (fsError "ENOENT" p)
      end
  end.

(** [fs.mkdirSync(p, { recursive: true })]. *)
Fixpoint mkdirFrom (root : node) (done todo : path) : result node :=
  match todo with
  | [] => Ok root
  | c :: rest =>
      let q := done ++ [c] in
      match resolve root true q with
      | Some (_, Dir _) => mkdirFrom root q rest
      | Some _ => Throw (fsError "EEXIST" q)
      | None =>
          match resolve root false q with
          | Some _ => Throw (fsError "EEXIST" q)
          | None =>
              match (let! rp := locate root q in put root rp (Dir [])) with
              | Ok root' => mkdirFrom root' q rest
              | Throw e => Throw e
              end
          end
      end
  end.

Definition mkdirSync (root : node) (p : path) : result node :=
  mkdirFrom root [] p.

(** [fs.rmSync(p, { recursive: true, force: true })]: the entry itself is
    removed, a link is not followed, a missing entry is no error. *)
Definition rmSync (root : node) (p : path) : result node :=
  match resolve root false p with
  | None => Ok root
  | Some (rp, _) => remove root rp
  end.

(** What [cpSync] leaves at the destination: a directory is merged into an
    existing directory, anything else replaces what is there ([force]). *)
Fixpoint cpMerge (src : node) (old : option node) : result node :=
  match src, old with
  | Dir es, Some (Dir ds) =>
      let! ds' :=
        (fix each (es : list (string * node)) (ds : list (string * node))
           : result (list (string * node)) :=
           match es with
           | [] => Ok ds
           | (k, n) :: es' =>
               let! m := cpMerge n (assoc k ds) in
               each es' (setEntry k (Some m) ds)
           end) es ds in
      Ok (Dir ds')
  | Dir _, Some _ => Throw (OtherError "ERR_FS_CP_DIR_TO_NON_DIR")
  | _, Some (Dir _) => Throw (OtherError "ERR_FS_CP_NON_DIR_TO_DIR")
  | _, _ => Ok src
  end.

(** [fs.cpSync(src, dst, { recursive: true, force: true })]. *)
Definition cpSync (root : node) (src dst : path) : result node :=
  match resolve root false src with
  | None => Throw (fsError "ENOENT" src)
  | Some (_, n) =>
      let! rd := locate root dst in
      alter (fun old => let! m := cpMerge n old in Ok (Some m)) root rd
  end.

Fixpoint isPrefix (p q : path) : bool :=
  match p, q with
  | [], _ => true
  | a :: p', b :: q' => String.eqb a b && isPrefix p' q'
  | _, [] => false
  end.

(** [fs.renameSync(a, b)]. *)
Definition renameSync (root : node) (a b : path) : result node :=
  match resolve root false a with
  | None => Throw (fsError "ENOENT" a)
  | Some (ra, n) =>
      let! rb := locate root b in
      if isPrefix ra rb && negb (isPrefix rb ra) then Throw (fsError "EINVAL" b)
      else
        let! _ :=
          match resolve root false b, n with
          | None, _ => Ok tt
          | Some (_, Dir []), Dir _ => Ok tt
          | Some (_, Dir _), Dir _ => Throw (fsError "ENOTEMPTY" b)
          | Some (_, Dir _), _ => Throw (fsError "EISDIR" b)
          | Some _, Dir _ => Throw (fsError "ENOTDIR" b)
          | Some _, _ => Ok tt
          end in
        let! root1 := remove root ra in
        put root1 rb n
  end.

(** [fs.symlinkSync(target, linkPath, "dir")]. *)
Definition symlinkSync (root : node) (target linkPath : path) : result node :=
  match resolve root false linkPath with
  | Some _ => Throw (fsError "EEXIST" linkPath)
  | None => let! rl := locate root linkPath in put root rl (Symlink target)
  end.

(** [fs.readdirSync(p, { withFileTypes: true })], in directory order. *)
Definition readdirSync (root : node) (p : path) : result (list (string * kind)) :=
  match statSync root p with
  | Some (Dir es) => Ok (map (fun e => (fst e, kindOf (snd e))) es)
  | Some _ => Throw (fsError "ENOTDIR" p)
  | None => Throw (fsError "ENOENT" p)
  end.

(** [fs.readFileSync(p, "utf8")]. *)
Definition readFileSync (root : node) (p : path) : result string :=
  match statSync root p with
  | Some (File c) => Ok c
  | Some _ => Throw (fsError "EISDIR" p)
  | None => Throw (fsError "ENOENT" p)
  end.

(** [fs.writeFileSync(p, content)]. *)
Definition writeFileSync (root : node) (p : path) (content : string) : result node :=
  match resolve root true p with
  | Some (rp, File _) => put root rp (File content)
  | Some _ => Throw (fsError "EISDIR" p)
  | None =>
      match resolve root false p with
      | Some _ => Throw (fsError "ENOENT" p)
      | None => let! rp := locate root p in put root rp (File content)
      end
  end.

End Fs.

Definition demoFs : Fs.node :=
  Fs.Dir [("store", Fs.Dir [("a", Fs.Dir [("SKILL.md", Fs.File "x")])]);
          ("proj", Fs.Dir [("link", Fs.Symlink ["store"; "a"]);
                           ("loop", Fs.Symlink ["proj"; "loop"])])].


(* ===================================================================== *)
(** * Effects: state that survives a [throw] *)
(* ===================================================================== *)

Definition M (S A : Type) : Type := S -> result A * S.

Definition ret {S A} (a : A) : M S A := fun s => (Ok a, s).

Definition throwM {S A} (e : exn) : M S A := fun s => (Throw e, s).

Definition bindM {S A B} (m : M S A) (k : A -> M S B) : M S B :=
  fun s =>
    match m s with
    | (Ok a, s') => k a s'
    | (Throw e, s') => (Throw e, s')
    end.

(** [try { m } catch (error) { h error }]. *)
Definition tryCatch {S A} (m : M S A) (h : exn -> M S A) : M S A :=
  fun s =>
    match m s with
    | (Ok a, s') => (Ok a, s')
    | (Throw e, s') => h e s'
    end.

Definition lift {S A} (r : result A) : M S A := fun s => (r, s).

Notation "x <- m ;; k" := (bindM m (fun x => k))
  (at level 61, m at next level, right associativity).
Notation "m ;;; k" := (bindM m (fun _ => k))
  (at level 61, right associativity).

(** Numbers in template literals. *)
Definition showZ (z : Z) : string := DecimalString.NilZero.string_of_int (Z.to_int z).

Definition lengthZ (s : string) : Z := Z.of_nat (String.length s).


(** ** The trace of a resolver run *)

(** What a resolver does to the outside, in order: the directories and files
    it creates, the requests it sends, the chunks it reads from a response
    body and the commands it runs. *)
Inductive event : Type :=
| EvMkdir (p : Fs.path)
| EvMkdtemp (created : Fs.path)
| EvFetch (url : string)
| EvRead (chunk : string)
| EvWriteFile (p : Fs.path) (content : string)
| EvExec (cmd : string) (args : list string).

Definition emit (e : event) : M (list event) unit :=
  fun log => (Ok tt, log ++ [e]).

(** The outcome of [execFileSync]: the captured standard output, or an
    error object whose [stderr] may be a string. *)
Inductive ExecOutcome : Type :=
| ExecOk (stdout : string)
| ExecFailed (stderr : option string).

Definition isWriteFile (e : event) : bool :=
  match e with EvWriteFile _ _ => true | _ => false end.

(* ===================================================================== *)
(** * src/resolvers/http-archive.ts *)
(* ===================================================================== *)

Module HttpArchive.

Inductive ArchiveFormat : Type := zip | tar_gz.

Record ResolveHttpArchiveOptions : Type := {
  tempRoot : option Fs.path;
  maxDownloadBytes : option Z;
  maxEntries : option Z;
  maxExtractedBytes : option Z
}.

Record ResolvedHttpArchive : Type := {
  format : ArchiveFormat;
  archivePath : Fs.path;
  extractPath : Fs.path;
  contentPath : Fs.path;
  finalUrl : string
}.

Definition DEFAULT_MAX_DOWNLOAD_BYTES : Z := 50 * 1024 * 1024.
Definition DEFAULT_MAX_ENTRIES : Z := 10000.
Definition DEFAULT_MAX_EXTRACTED_BYTES : Z := 250 * 1024 * 1024.

(** ** The world outside the process *)

(** A [Response]: the body is the sequence of chunks its reader yields. *)
Record Response : Type := {
  ok : bool;
  status : Z;
  statusText : string;
  body : option (list string);
  contentTypeHeader : option string;
  responseUrl : string
}.

Inductive FetchOutcome : Type :=
| FetchRejected (message : string)
| FetchResolved (response : Response).

Record World : Type := {
  tmpdir : Fs.path;
  mkdtemp : Fs.path -> string -> Fs.path;
  fetch : string -> FetchOutcome;
  execFileSync : string -> list string -> ExecOutcome;
  (** the file system as the extraction command leaves it *)
  extracted : Fs.node
}.

Section WithWorld.
Variable w : World.

Record DownloadedArchive : Type := {
  buffer : string;
  contentType : string;
  dlFinalUrl : string
}.

(** The [while (true)] loop of [downloadArchive] over the chunks the
    reader still has to deliver. *)
Fixpoint readLoop (maxDownloadBytes : Z) (stream chunks : list string)
         (totalBytes : Z) : M (list event) (list string) :=
  match stream with
  | [] => ret chunks
  | value :: stream' =>
      emit (EvRead value) ;;;
      let chunk := value in
      let totalBytes := (totalBytes + lengthZ chunk)%Z in
      if (totalBytes >? maxDownloadBytes)%Z then
        throwM (ArchiveResolveError
          ("Archive download exceeds limit (" ++ showZ maxDownloadBytes ++ " bytes)")%string)
      else readLoop maxDownloadBytes stream' (chunks ++ [chunk]) totalBytes
  end.

Definition downloadArchive (url : string) (maxDownloadBytes : Z)
  : M (list event) DownloadedArchive :=
  emit (EvFetch url) ;;;
  match fetch w url with
  | FetchRejected message =>
      throwM (ArchiveResolveError ("Failed to fetch archive: " ++ message)%string)
  | FetchResolved response =>
      if negb (ok response) then
        throwM (ArchiveResolveError
          ("HTTP archive request failed: " ++ showZ (status response) ++ " "
             ++ statusText response)%string)
      else
        match body response with
        | None =>
            throwM (ArchiveResolveError "HTTP archive response did not include a body")
        | Some stream =>
            chunks <- readLoop maxDownloadBytes stream [] 0%Z ;;
            ret {| buffer := String.concat "" chunks;
                   contentType := Js.orElse (contentTypeHeader response) "";
                   dlFinalUrl := responseUrl response |}
        end
  end.

Definition toLowerChar (a : ascii) : ascii :=
  let n := nat_of_ascii a in
  if ((65 <=? n) && (n <=? 90))%nat then ascii_of_nat (n + 32) else a.

Fixpoint toLowerCase (s : string) : string :=
  match s with
  | EmptyString => EmptyString
  | String a s' => String (toLowerChar a) (toLowerCase s')
  end.

(** [buffer[i]] as a number; [None] past the end. *)
Definition byteAt (b : string) (i : nat) : option nat :=
  option_map nat_of_ascii (String.get i b).

Definition byteIs (b : string) (i : nat) (v : nat) : bool :=
  match byteAt b i with Some x => (x =? v)%nat | None => false end.

Definition detectArchiveFormat (finalUrl contentType buffer : string)
  : result ArchiveFormat :=
  let lowerUrl := toLowerCase finalUrl in
  let lowerContentType := toLowerCase contentType in
  if Js.endsWith lowerUrl ".tar.gz" || Js.endsWith lowerUrl ".tgz" then Ok tar_gz
  else if Js.endsWith lowerUrl ".zip" then Ok zip
  else if Js.includes lowerContentType "application/zip" then Ok zip
  else if Js.includes lowerContentType "application/gzip"
          || Js.includes lowerContentType "application/x-gzip" then Ok tar_gz
  else if (2 <=? String.length buffer)%nat && byteIs buffer 0 31 && byteIs buffer 1 139
  then Ok tar_gz
  else if (4 <=? String.length buffer)%nat
          && byteIs buffer 0 80 && byteIs buffer 1 75
          && (byteIs buffer 2 3 || byteIs buffer 2 5 || byteIs buffer 2 7)
          && (byteIs buffer 3 4 || byteIs buffer 3 6 || byteIs buffer 3 8)
  then Ok zip
  else Throw (ArchiveResolveError
                "Unable to detect archive format (expected .zip or .tar.gz)").

Definition runCommand (cmd : string) (args : list string) (errorPrefix : string)
  : M (list event) string :=
  emit (EvExec cmd args) ;;;
  match execFileSync w cmd args with
  | ExecOk stdout => ret (Js.trim stdout)
  | ExecFailed stderr =>
      let stderr := match stderr with Some s => Js.trim s | None => "" end in
      let details := if String.eqb stderr "" then "" else (": " ++ stderr)%string in
      throwM (ArchiveResolveError (errorPrefix ++ details)%string)
  end.

Definition listArgs (archivePath : Fs.path) (format : ArchiveFormat) : list string :=
  match format with
  | zip => ["-Z1"; Fs.toString archivePath]
  | tar_gz => ["-tzf"; Fs.toString archivePath]
  end.

Definition archiveTool (format : ArchiveFormat) : string :=
  match format with zip => "unzip" | tar_gz => "tar" end.

Definition listArchiveEntries (archivePath : Fs.path) (format : ArchiveFormat)
  : M (list event) (list string) :=
  let args := listArgs archivePath format in
  let cmd := archiveTool format in
  output <- runCommand cmd args "Failed to inspect archive contents" ;;
  ret (filter (fun entry => negb (String.eqb entry ""))
         (map Js.trim (Js.splitLines output))).

Definition extractArgs (archivePath : Fs.path) (format : ArchiveFormat)
           (extractPath : Fs.path) : list string :=
  match format with
  | zip => ["-q"; Fs.toString archivePath; "-d"; Fs.toString extractPath]
  | tar_gz => ["-xzf"; Fs.toString archivePath; "-C"; Fs.toString extractPath]
  end.

Definition extractArchive (archivePath : Fs.path) (format : ArchiveFormat)
           (extractPath : Fs.path) : M (list event) unit :=
  match format with
  | zip =>
      runCommand "unzip" (extractArgs archivePath zip extractPath)
        "Failed to extract zip archive" ;;; ret tt
  | tar_gz =>
      runCommand "tar" (extractArgs archivePath tar_gz extractPath)
        "Failed to extract tar.gz archive" ;;; ret tt
  end.

(** [/^[a-zA-Z]:/.test(s)]. *)
Definition hasDriveLetter (s : string) : bool :=
  match s with
  | String a (String b _) =>
      let n := nat_of_ascii a in
      ((((65 <=? n) && (n <=? 90)) || ((97 <=? n) && (n <=? 122)))%nat)
      && Ascii.eqb b ":"
  | _ => false
  end.

Definition validateArchiveEntryPath (entryPath : string) : result unit :=
  let sanitized := Js.replaceAllChar "\" "/" entryPath in
  if (String.length sanitized =? 0)%nat then Ok tt
  else if Js.startsWith sanitized "/" || hasDriveLetter sanitized then
    Throw (ArchiveResolveError ("Archive entry uses absolute path: " ++ entryPath)%string)
  else
    let normalized := PosixPath.normalize sanitized in
    if String.eqb normalized ".." || Js.startsWith normalized "../"
       || Js.includes normalized "/../" then
      Throw (ArchiveResolveError
               ("Archive entry escapes extraction root: " ++ entryPath)%string)
    else Ok tt.

(** [for (const entry of entries) validateArchiveEntryPath(entry)]. *)
Fixpoint validateAll (entries : list string) : result unit :=
  match entries with
  | [] => Ok tt
  | entry :: rest => let! _ := validateArchiveEntryPath entry in validateAll rest
  end.

Definition normalizeContentPath (extractPath : Fs.path) : result Fs.path :=
  let! listing := Fs.readdirSync (extracted w) extractPath in
  let entries :=
    filter (fun entry => negb (String.eqb entry ".DS_Store")
                         && negb (String.eqb entry "__MACOSX"))
           (map fst listing) in
  match entries with
  | [only] =>
      let candidate := Fs.join extractPath only in
      match Fs.statSync (extracted w) candidate with
      | None => Throw (Fs.fsError "ENOENT" candidate)
      | Some n => if Fs.isDir n then Ok candidate else Ok extractPath
      end
  | _ => Ok extractPath
  end.

(** The sizes of the regular files below a directory; links are neither
    files nor directories for [Dirent] and are skipped.  The sources
    walk the tree with an explicit stack, the sum is the same. *)
Fixpoint treeSize (n : Fs.node) : Z :=
  match n with
  | Fs.File c => lengthZ c
  | Fs.Dir es =>
      (fix sum (es : list (string * Fs.node)) : Z :=
         match es with
         | [] => 0
         | (_, n') :: es' => treeSize n' + sum es'
         end)%Z es
  | Fs.Symlink _ => 0%Z
  end.

Definition computeDirectorySize (directoryPath : Fs.path) : result Z :=
  match Fs.statSync (extracted w) directoryPath with
  | Some (Fs.Dir es) => Ok (treeSize (Fs.Dir es))
  | Some _ => Throw (Fs.fsError "ENOTDIR" directoryPath)
  | None => Throw (Fs.fsError "ENOENT" directoryPath)
  end.

Definition archiveFileName (format : ArchiveFormat) : string :=
  match format with zip => "archive.zip" | tar_gz => "archive.tar.gz" end.

Definition resolveHttpArchive (sourceUrl : string) (options : ResolveHttpArchiveOptions)
  : M (list event) ResolvedHttpArchive :=
  let tempRoot := Js.orElse (tempRoot options) (tmpdir w) in
  emit (EvMkdir tempRoot) ;;;
  let workDir := mkdtemp w tempRoot "skillet-archive-" in
  emit (EvMkdtemp workDir) ;;;
  let maxDownloadBytes := Js.orElse (maxDownloadBytes options) DEFAULT_MAX_DOWNLOAD_BYTES in
  let maxEntries := Js.orElse (maxEntries options) DEFAULT_MAX_ENTRIES in
  let maxExtractedBytes :=
    Js.orElse (maxExtractedBytes options) DEFAULT_MAX_EXTRACTED_BYTES in
  downloaded <- downloadArchive sourceUrl maxDownloadBytes ;;
  format <- lift (detectArchiveFormat (dlFinalUrl downloaded) (contentType downloaded)
                    (buffer downloaded)) ;;
  let archivePath := Fs.join workDir (archiveFileName format) in
  emit (EvWriteFile archivePath (buffer downloaded)) ;;;
  entries <- listArchiveEntries archivePath format ;;
  if (Z.of_nat (List.length entries) >? maxEntries)%Z then
    throwM (ArchiveResolveError
              ("Archive entry count exceeds limit (" ++ showZ maxEntries ++ ")")%string)
  else
    lift (validateAll entries) ;;;
    let extractPath := Fs.join workDir "extract" in
    emit (EvMkdir extractPath) ;;;
    extractArchive archivePath format extractPath ;;;
    extractedBytes <- lift (computeDirectorySize extractPath) ;;
    if (extractedBytes >? maxExtractedBytes)%Z then
      throwM (ArchiveResolveError
                ("Extracted archive size exceeds limit (" ++ showZ maxExtractedBytes
                   ++ " bytes)")%string)
    else
      contentPath <- lift (normalizeContentPath extractPath) ;;
      ret {| format := format;
             archivePath := archivePath;
             extractPath := extractPath;
             contentPath := contentPath;
             finalUrl := dlFinalUrl downloaded |}.

End WithWorld.

End HttpArchive.

(* ===================================================================== *)
(** * JSON values *)
(* ===================================================================== *)

(** The values [JSON.parse] produces; numbers are kept to the integers. *)
Inductive json : Type :=
| JNull
| JBool (b : bool)
| JNumber (n : Z)
| JString (s : string)
| JArray (items : list json)
| JObject (members : list (string * json)).

Module Json.

(** [record[key]] on a parsed object: [None] is [undefined]. *)
Fixpoint get (members : list (string * json)) (key : string) : option json :=
  match members with
  | [] => None
  | (k, v) :: rest => if String.eqb k key then Some v else get rest key
  end.

(** [String(value)]. *)
Fixpoint toJsString (v : json) : string :=
  match v with
  | JNull => "null"
  | JBool true => "true"
  | JBool false => "false"
  | JNumber n => showZ n
  | JString s => s
  | JArray items =>
      String.concat ","
        ((fix each (l : list json) : list string :=
            match l with
            | [] => []
            | JNull :: l' => "" :: each l'
            | x :: l' => toJsString x :: each l'
            end) items)
  | JObject _ => "[object Object]"
  end.

(** [value === s] for a string [s]. *)
Definition strictEqString (v : option json) (s : string) : bool :=
  match v with
  | Some (JString t) => String.eqb t s
  | _ => false
  end.

(** [value ?? d] where [value] may be [undefined] or [null]. *)
Definition nullish (v : option json) : bool :=
  match v with None | Some JNull => true | _ => false end.

End Json.

(* ===================================================================== *)
(** * src/resolvers/oci.ts *)
(* ===================================================================== *)

Module Oci.

Inductive ReferenceType : Type := tag | digest.

Record ParsedOciReference : Type := {
  registry : string;
  repository : string;
  referenceType : ReferenceType;
  reference : string
}.

Record ResolveOciSourceOptions : Type := {
  tempRoot : option Fs.path;
  insecureHttp : option bool
}.

Record ResolvedOciSource : Type := {
  parsed : ParsedOciReference;
  resolvedDigest : string;
  extractPath : Fs.path;
  contentPath : Fs.path
}.

Definition SKILLET_ARTIFACT_TYPE : string := "application/vnd.skillet.skill.v1+tar".

(** [s.indexOf(c)] and [s.lastIndexOf(c)]; [None] is [-1]. *)
Fixpoint indexOfChar (c : ascii) (s : string) : option nat :=
  match s with
  | EmptyString => None
  | String a s' => if Ascii.eqb a c then Some 0 else option_map S (indexOfChar c s')
  end.

Fixpoint lastIndexOfChar (c : ascii) (s : string) : option nat :=
  match s with
  | EmptyString => None
  | String a s' =>
      match lastIndexOfChar c s' with
      | Some i => Some (S i)
      | None => if Ascii.eqb a c then Some 0 else None
      end
  end.

(** [s.slice(from)] and [s.slice(0, to)]. *)
Definition sliceFrom (s : string) (from : nat) : string :=
  String.substring from (String.length s - from) s.

Definition sliceTo (s : string) (to : nat) : string := String.substring 0 to s.

Definition parseOciReference (source : string) : result ParsedOciReference :=
  let trimmed := Js.trim source in
  if negb (Js.startsWith trimmed "oci://") then
    Throw (OciResolveError "OCI reference must start with oci://")
  else
    let withoutScheme := sliceFrom trimmed (String.length "oci://") in
    match indexOfChar "/" withoutScheme with
    | None | Some O => Throw (OciResolveError ("Invalid OCI reference: " ++ source)%string)
    | Some slashIndex =>
        let registry := sliceTo withoutScheme slashIndex in
        let remainder := sliceFrom withoutScheme (slashIndex + 1) in
        if String.eqb registry "" || String.eqb remainder "" then
          Throw (OciResolveError ("Invalid OCI reference: " ++ source)%string)
        else if Js.includes remainder "@" then
          let pieces := Js.splitChar "@" remainder in
          let repository := nth 0 pieces "" in
          let digest' := nth 1 pieces "" in
          if String.eqb repository "" || String.eqb digest' "" then
            Throw (OciResolveError ("Invalid OCI digest reference: " ++ source)%string)
          else
            Ok {| registry := registry; repository := repository;
                  referenceType := digest; reference := digest' |}
        else
          match lastIndexOfChar ":" remainder with
          | None | Some O =>
              Throw (OciResolveError
                ("OCI tag reference must include :tag or @digest: " ++ source)%string)
          | Some tagIndex =>
              if (tagIndex =? String.length remainder - 1)%nat then
                Throw (OciResolveError
                  ("OCI tag reference must include :tag or @digest: " ++ source)%string)
              else
                Ok {| registry := registry;
                      repository := sliceTo remainder tagIndex;
                      referenceType := tag;
                      reference := sliceFrom remainder (tagIndex + 1) |}
          end
    end.

(** ** The world outside the process *)

Record Response : Type := {
  ok : bool;
  status : Z;
  statusText : string;
  (** [response.text()], and the bytes of [response.arrayBuffer()] *)
  text : string;
  dockerContentDigest : option string
}.

Inductive FetchOutcome : Type :=
| FetchRejected (message : string)
| FetchResolved (response : Response).

Record World : Type := {
  tmpdir : Fs.path;
  mkdtemp : Fs.path -> string -> Fs.path;
  fetch : string -> FetchOutcome;
  (** [JSON.parse]; [None] when it throws *)
  JSON_parse : string -> option json;
  execFileSync : string -> list string -> ExecOutcome;
  (** the file system as the extraction command leaves it *)
  extracted : Fs.node;
  sha256hex : string -> string
}.

Section WithWorld.
Variable w : World.

Definition fetchWithErrors (url : string) : M (list event) Response :=
  emit (EvFetch url) ;;;
  match fetch w url with
  | FetchRejected message =>
      throwM (OciResolveError
                ("OCI request failed for " ++ url ++ ": " ++ message)%string)
  | FetchResolved response =>
      if negb (ok response) then
        throwM (OciResolveError
                  ("OCI request failed (" ++ showZ (status response) ++ " "
                     ++ statusText response ++ ") for " ++ url)%string)
      else ret response
  end.

Definition runTar (args : list string) (errorPrefix : string) : M (list event) string :=
  emit (EvExec "tar" args) ;;;
  match execFileSync w "tar" args with
  | ExecOk stdout => ret (Js.trim stdout)
  | ExecFailed stderr =>
      let stderr := match stderr with Some s => Js.trim s | None => "" end in
      let details := if String.eqb stderr "" then "" else (": " ++ stderr)%string in
      throwM (OciResolveError (errorPrefix ++ details)%string)
  end.

Definition listTarEntries (archivePath : Fs.path) : M (list event) (list string) :=
  output <- runTar ["-tf"; Fs.toString archivePath] "Failed to list OCI tar entries" ;;
  ret (filter (fun entry => negb (String.eqb entry ""))
         (map Js.trim (Js.splitLines output))).

Definition validateTarEntry (entry : string) : result unit :=
  let normalized := Js.replaceAllChar "\" "/" entry in
  if Js.startsWith normalized "/" || HttpArchive.hasDriveLetter normalized then
    Throw (OciResolveError ("Unsafe absolute path in OCI layer: " ++ entry)%string)
  else
    let safe := PosixPath.normalize normalized in
    if String.eqb safe ".." || Js.startsWith safe "../" || Js.includes safe "/../" then
      Throw (OciResolveError ("Unsafe traversal path in OCI layer: " ++ entry)%string)
    else Ok tt.

Fixpoint validateAll (entries : list string) : result unit :=
  match entries with
  | [] => Ok tt
  | entry :: rest => let! _ := validateTarEntry entry in validateAll rest
  end.

(** The directories below [n] (itself at [here]) that hold a regular file
    named SKILL.md.  The sources collect them with an explicit stack and
    sort the set; the callers use only its size and, when that is one,
    its single element, which no order changes. *)
Fixpoint skillDirsIn (here : Fs.path) (n : Fs.node) : list Fs.path :=
  match n with
  | Fs.Dir es =>
      (if existsb (fun e => String.eqb (fst e) "SKILL.md" && Fs.isFile (snd e)) es
       then [here] else [])
      ++ (fix each (es : list (string * Fs.node)) : list Fs.path :=
            match es with
            | [] => []
            | (name, n') :: es' => skillDirsIn (here ++ [name]) n' ++ each es'
            end) es
  | _ => []
  end.

Definition findSkillDirectories (root : Fs.path) : result (list Fs.path) :=
  match Fs.statSync (extracted w) root with
  | Some (Fs.Dir es) => Ok (skillDirsIn root (Fs.Dir es))
  | Some _ => Throw (Fs.fsError "ENOTDIR" root)
  | None => Throw (Fs.fsError "ENOENT" root)
  end.

Definition digestManifest (manifestJson : string) : string :=
  ("sha256:" ++ sha256hex w manifestJson)%string.

Definition isLocalRegistry (registry : string) : bool :=
  Js.startsWith registry "localhost" || Js.startsWith registry "127.0.0.1".

Definition resolveOciSource (source : string) (options : ResolveOciSourceOptions)
  : M (list event) ResolvedOciSource :=
  parsed <- lift (parseOciReference source) ;;
  let scheme :=
    if Js.orElse (insecureHttp options) false || isLocalRegistry (registry parsed)
    then "http" else "https" in
  let tempRoot := Js.orElse (tempRoot options) (tmpdir w) in
  emit (EvMkdir tempRoot) ;;;
  let workDir := mkdtemp w tempRoot "skillet-oci-" in
  emit (EvMkdtemp workDir) ;;;
  let manifestUrl :=
    (scheme ++ "://" ++ registry parsed ++ "/v2/" ++ repository parsed
       ++ "/manifests/" ++ reference parsed)%string in
  manifestResponse <- fetchWithErrors manifestUrl ;;
  let manifestText := text manifestResponse in
  manifest <- lift match JSON_parse w manifestText with
                   | Some v => Ok v
                   | None => Throw (OciResolveError "Manifest response was not valid JSON")
                   end ;;
  manifestRecord <- lift match manifest with
                         | JObject members => Ok members
                         | _ => Throw (OciResolveError "Manifest body must be a JSON object")
                         end ;;
  let artifactType := Json.get manifestRecord "artifactType" in
  if negb (Json.strictEqString artifactType SKILLET_ARTIFACT_TYPE) then
    throwM (OciResolveError
              ("Unsupported OCI artifact type: "
                 ++ (if Json.nullish artifactType then "missing"
                     else Json.toJsString (Js.orElse artifactType JNull)))%string)
  else
    let layers := Json.get manifestRecord "layers" in
    firstLayer <- lift match layers with
                       | Some (JArray (first :: _)) => Ok first
                       | _ => Throw (OciResolveError
                                       "Manifest must include at least one layer")
                       end ;;
    layerRecord <- lift match firstLayer with
                        | JObject members => Ok members
                        | _ => Throw (OciResolveError "Manifest layer entry is invalid")
                        end ;;
    layerDigest <- lift match Json.get layerRecord "digest" with
                        | Some (JString d) =>
                            if Js.startsWith d "sha256:" then Ok d
                            else Throw (OciResolveError "Manifest layer digest is invalid")
                        | _ => Throw (OciResolveError "Manifest layer digest is invalid")
                        end ;;
    let blobUrl :=
      (scheme ++ "://" ++ registry parsed ++ "/v2/" ++ repository parsed
         ++ "/blobs/" ++ layerDigest)%string in
    blobResponse <- fetchWithErrors blobUrl ;;
    let blobBuffer := text blobResponse in
    let archivePath := Fs.join workDir "layer.tar" in
    emit (EvWriteFile archivePath blobBuffer) ;;;
    tarEntries <- listTarEntries archivePath ;;
    lift (validateAll tarEntries) ;;;
    let extractPath := Fs.join workDir "extract" in
    emit (EvMkdir extractPath) ;;;
    runTar ["-xf"; Fs.toString archivePath; "-C"; Fs.toString extractPath]
      "Failed to extract OCI layer tar" ;;;
    skillPaths <- lift (findSkillDirectories extractPath) ;;
    match skillPaths with
    | [only] =>
        let resolvedDigest :=
          match referenceType parsed with
          | digest => reference parsed
          | tag =>
              Js.orElse (dockerContentDigest manifestResponse)
                (digestManifest manifestText)
          end in
        ret {| parsed := parsed;
               resolvedDigest := resolvedDigest;
               extractPath := extractPath;
               contentPath := only |}
    | _ =>
        throwM (OciResolveError
                  ("OCI artifact must contain exactly one skill, found "
                     ++ showZ (Z.of_nat (List.length skillPaths)))%string)
    end.

End WithWorld.

End Oci.

(* ===================================================================== *)
(** * src/skills/skill.ts *)
(* ===================================================================== *)

(** The [yaml] package parses a document into the same plain values as
    [JSON.parse]; a syntax error is an exception of the package's own. *)
Module Skill.

Record SkillFrontmatter : Type := {
  name : string;
  description : string;
  license : option string;
  compatibility : option string;
  metadata : option (list (string * json));
  allowedTools : option string
}.

Record SkillFile : Type := {
  frontmatter : SkillFrontmatter;
  body : string;
  isInternal : bool
}.

Record ParseOptions : Type := {
  path : option Fs.path;
  expectedName : option string
}.

Definition noOptions : ParseOptions := {| path := None; expectedName := None |}.

Definition isLowerAlnum (a : ascii) : bool :=
  let n := nat_of_ascii a in
  (((97 <=? n) && (n <=? 122)) || ((48 <=? n) && (n <=? 57)))%nat.

Fixpoint allChars (p : ascii -> bool) (s : string) : bool :=
  match s with
  | EmptyString => true
  | String a s' => p a && allChars p s'
  end.

(** [NAME_PATTERN.test(name)] for [/^[a-z0-9]+(?:-[a-z0-9]+)*$/]: hyphens
    separate non-empty runs of lower-case letters and digits. *)
Definition NAME_PATTERN_test (name : string) : bool :=
  forallb (fun run => negb (String.eqb run "") && allChars isLowerAlnum run)
          (Js.splitChar "-" name).

Definition OPENING_MISSING : string :=
  "SKILL.md must start with frontmatter '---' delimiter".

Definition CLOSING_MISSING : string :=
  "SKILL.md frontmatter must be closed with '---' delimiter".

(** The [for] loop of [splitFrontmatter] from index [i] on, [rest] being the
    lines from that index: the first index whose line is a delimiter. *)
Fixpoint findClosing (rest : list string) (i : nat) : option nat :=
  match rest with
  | [] => None
  | line :: rest' =>
      if String.eqb (Js.trim line) "---" then Some i else findClosing rest' (S i)
  end.

(** [lines.slice(from, to)] and [lines.slice(from)]. *)
Definition slice (lines : list string) (from to : nat) : list string :=
  firstn (to - from) (skipn from lines).

Definition LFs : string := String Js.LF "".

Definition splitFrontmatter (markdown : string) : result (string * string) :=
  let lines := Js.splitLines markdown in
  if (List.length lines =? 0)%nat
     || negb (String.eqb (Js.trim (nth 0 lines "")) "---") then
    Throw (SkillParseError OPENING_MISSING None)
  else
    match findClosing (skipn 1 lines) 1 with
    | None => Throw (SkillParseError CLOSING_MISSING None)
    | Some endIndex =>
        let frontmatterText := Js.join LFs (slice lines 1 endIndex) in
        let body := Js.join LFs (skipn (endIndex + 1) lines) in
        Ok (frontmatterText, body)
    end.

Definition readStringField (record : list (string * json)) (key : string)
           (required : bool) : result (option string) :=
  match Json.get record key with
  | None | Some JNull =>
      if required then
        Throw (SkillParseError ("Missing required field: " ++ key)%string (Some key))
      else Ok None
  | Some (JString value) =>
      if required && (String.length (Js.trim value) =? 0)%nat then
        Throw (SkillParseError ("Field " ++ key ++ " must not be empty")%string (Some key))
      else Ok (Some value)
  | Some _ =>
      Throw (SkillParseError ("Field " ++ key ++ " must be a string")%string (Some key))
  end.

(** [a !== b] on parsed values: objects and arrays are compared by
    identity, and two members of one parsed record never are the same
    object. *)
Definition strictNotEqual (a b : json) : bool :=
  match a, b with
  | JNull, JNull => false
  | JBool x, JBool y => negb (Bool.eqb x y)
  | JNumber x, JNumber y => negb (Z.eqb x y)
  | JString x, JString y => negb (String.eqb x y)
  | _, _ => true
  end.

Definition readAllowedTools (record : list (string * json)) : result (option string) :=
  let legacy := Json.get record "allowedTools" in
  let dashed := Json.get record "allowed-tools" in
  let conflict :=
    match legacy, dashed with
    | Some l, Some d => strictNotEqual l d
    | _, _ => false
    end in
  if conflict then
    Throw (SkillParseError "Use only one of allowedTools or allowed-tools"
                           (Some "allowed-tools"))
  else
    let value := if Json.nullish dashed then legacy else dashed in
    match value with
    | None | Some JNull => Ok None
    | Some (JString s) => Ok (Some s)
    | Some _ =>
        Throw (SkillParseError "allowed-tools must be a string" (Some "allowed-tools"))
    end.

(** The loop over [Object.entries(record)] of [normalizeMetadata]. *)
Fixpoint normalizeEntries (entries normalized : list (string * json))
  : result (list (string * json)) :=
  match entries with
  | [] => Ok normalized
  | (key, value) :: rest =>
      if String.eqb key "internal" then
        match value with
        | JBool _ => normalizeEntries rest (normalized ++ [(key, value)])
        | _ => Throw (SkillParseError "metadata.internal must be a boolean"
                                      (Some "metadata.internal"))
        end
      else
        match value with
        | JString _ => normalizeEntries rest (normalized ++ [(key, value)])
        | _ => Throw (SkillParseError ("metadata." ++ key ++ " must be a string")%string
                                      (Some ("metadata." ++ key)%string))
        end
  end.

Definition normalizeMetadata (metadata : option json)
  : result (option (list (string * json))) :=
  match metadata with
  | None | Some JNull => Ok None
  | Some (JObject record) =>
      let! normalized := normalizeEntries record [] in Ok (Some normalized)
  | Some _ => Throw (SkillParseError "metadata must be a mapping" (Some "metadata"))
  end.

Definition validateName (name : string) (expectedName : option string) : result unit :=
  if (Js.length name <? 1)%nat || (64 <? Js.length name)%nat then
    Throw (SkillParseError "name must be 1-64 characters" (Some "name"))
  else if negb (NAME_PATTERN_test name) then
    Throw (SkillParseError
             "name must be lowercase alphanumeric with optional single hyphens"
             (Some "name"))
  else
    match expectedName with
    | Some expected =>
        if negb (String.eqb expected "") && negb (String.eqb name expected) then
          Throw (SkillParseError
                   ("name must match parent directory (" ++ expected ++ ")")%string
                   (Some "name"))
        else Ok tt
    | None => Ok tt
    end.

Definition validateDescription (description : string) : result unit :=
  if (Js.length description <? 1)%nat || (1024 <? Js.length description)%nat then
    Throw (SkillParseError "description must be 1-1024 characters" (Some "description"))
  else Ok tt.

Definition validateCompatibility (compatibility : option string) : result unit :=
  match compatibility with
  | None => Ok tt
  | Some c =>
      if (Js.length c <? 1)%nat || (500 <? Js.length c)%nat then
        Throw (SkillParseError "compatibility must be 1-500 characters"
                               (Some "compatibility"))
      else Ok tt
  end.

Definition deriveExpectedName (filePath : option Fs.path) : option string :=
  match filePath with
  | None | Some [] => None
  | Some p =>
      let dirName := Fs.basename (Fs.dirname p) in
      if String.eqb dirName "" || String.eqb dirName "/" then None else Some dirName
  end.

Section WithYaml.
(** [parse] of the [yaml] package: the error message, or the value. *)
Variable parseYaml : string -> string + json.

Definition parseSkillMarkdown (markdown : string) (options : ParseOptions)
  : result SkillFile :=
  let! (frontmatterText, body) := splitFrontmatter markdown in
  let! data := match parseYaml frontmatterText with
               | inr v => Ok v
               | inl message => Throw (OtherError message)
               end in
  let! record := match data with
                 | JObject members => Ok members
                 | _ => Throw (SkillParseError "Frontmatter must be a YAML object" None)
                 end in
  let! name := readStringField record "name" true in
  let! description := readStringField record "description" true in
  let! license := readStringField record "license" false in
  let! compatibility := readStringField record "compatibility" false in
  let! allowedTools := readAllowedTools record in
  let! metadata := normalizeMetadata (Json.get record "metadata") in
  let name := Js.orElse name "" in
  let description := Js.orElse description "" in
  let expectedName :=
    match expectedName options with
    | Some e => Some e
    | None => deriveExpectedName (path options)
    end in
  let! _ := validateName name expectedName in
  let! _ := validateDescription description in
  let! _ := validateCompatibility compatibility in
  let frontmatter :=
    {| name := name; description := description; license := license;
       compatibility := compatibility; metadata := metadata;
       allowedTools := allowedTools |} in
  Ok {| frontmatter := frontmatter;
        body := body;
        isInternal :=
          match metadata with
          | Some m => match Json.get m "internal" with
                      | Some (JBool true) => true
                      | _ => false
                      end
          | None => false
          end |}.

End WithYaml.

End Skill.

(** A parser for the fragment of YAML the examples use: a sequence of
    [key: value] lines, every value a string. *)
Module ToyYaml.

Fixpoint breakColon (s : string) : option (string * string) :=
  match s with
  | EmptyString => None
  | String a s' =>
      if Ascii.eqb a ":" then Some (EmptyString, s')
      else match breakColon s' with
           | Some (k, v) => Some (String a k, v)
           | None => None
           end
  end.

Fixpoint members (ls : list string) : string + list (string * json) :=
  match ls with
  | [] => inr []
  | l :: rest =>
      if String.eqb (Js.trim l) "" then members rest
      else match breakColon l with
           | None => inl ("not a mapping entry: " ++ l)%string
           | Some (k, v) =>
               match members rest with
               | inl e => inl e
               | inr ms => inr ((Js.trim k, JString (Js.trim v)) :: ms)
               end
           end
  end.

Definition parse (text : string) : string + json :=
  match members (Js.splitLines text) with
  | inl e => inl e
  | inr [] => inr JNull
  | inr ms => inr (JObject ms)
  end.

End ToyYaml.

(* ===================================================================== *)
(** * src/commands/check.ts *)
(* ===================================================================== *)

Module Check.

Record LockfileSourceEntry : Type := {
  type : string;
  url : string;
  ref : option string;
  digest : option string;
  installMethod : string;
  skills : list string;
  agents : list string
}.

Inductive CheckStatus : Type := up_to_date | outdated | unsupported | error.

Record SourceStatus : Type := {
  status : CheckStatus;
  latestDigest : option string;
  message : option string
}.

Record CheckResult : Type := {
  source : LockfileSourceEntry;
  skill : string;
  resultStatus : CheckStatus;
  currentDigest : option string;
  resultLatestDigest : option string;
  resultMessage : option string
}.

Record World : Type := {
  execFileSync : string -> list string -> ExecOutcome;
  fetch : string -> Oci.FetchOutcome;
  sha256hex : string -> string;
  localeCompare : string -> string -> Z
}.

Section WithWorld.
Variable w : World.

Definition runGit (args : list string) : result string :=
  match execFileSync w "git" args with
  | ExecOk stdout => Ok (Js.trim stdout)
  | ExecFailed stderr =>
      let stderr := match stderr with Some s => Js.trim s | None => "" end in
      let details := if String.eqb stderr "" then "" else (": " ++ stderr)%string in
      Throw (GenericError ("git " ++ Js.join " " args ++ " failed" ++ details)%string)
  end.

Definition requestedRefOf (ref : option string) : string :=
  if Js.truthy ref then Js.orElse ref "" else "HEAD".

Definition getLatestGitDigest (url : string) (ref : option string) : result string :=
  let requestedRef := requestedRefOf ref in
  let! output := runGit ["ls-remote"; url; requestedRef] in
  match find (fun line => negb (String.length (Js.trim line) =? 0)%nat)
             (Js.splitLines output) with
  | None =>
      Throw (GenericError ("Unable to resolve latest git digest for " ++ url ++ " ("
                             ++ requestedRef ++ ")")%string)
  | Some firstLine =>
      let digest := Js.firstToken firstLine in
      if String.eqb digest "" || (Js.length digest <? 40)%nat then
        Throw (GenericError ("Unexpected git ls-remote output for " ++ url)%string)
      else Ok digest
  end.

Definition getLatestOciDigest (source : string) : result string :=
  let! parsed := Oci.parseOciReference source in
  match Oci.referenceType parsed with
  | Oci.digest => Ok (Oci.reference parsed)
  | Oci.tag =>
      let scheme :=
        if Js.startsWith (Oci.registry parsed) "localhost"
           || Js.startsWith (Oci.registry parsed) "127.0.0.1"
        then "http" else "https" in
      let url := (scheme ++ "://" ++ Oci.registry parsed ++ "/v2/"
                    ++ Oci.repository parsed ++ "/manifests/"
                    ++ Oci.reference parsed)%string in
      match fetch w url with
      | Oci.FetchRejected message => Throw (OtherError message)
      | Oci.FetchResolved response =>
          if negb (Oci.ok response) then
            Throw (GenericError ("OCI manifest request failed: "
                                   ++ showZ (Oci.status response) ++ " "
                                   ++ Oci.statusText response)%string)
          else if Js.truthy (Oci.dockerContentDigest response) then
            Ok (Js.orElse (Oci.dockerContentDigest response) "")
          else
            let bodyText := Oci.text response in
            Ok ("sha256:" ++ sha256hex w bodyText)%string
      end
  end.

(** [error instanceof Error ? error.message : String(error)]. *)
Definition messageOf (e : exn) : string := error_message e.

Definition checkSource (source : LockfileSourceEntry) : SourceStatus :=
  if String.eqb (type source) "git" then
    match getLatestGitDigest (url source) (ref source) with
    | Ok latestDigest =>
        if Js.truthy (digest source)
           && negb (String.eqb latestDigest (Js.orElse (digest source) "")) then
          {| status := outdated; latestDigest := Some latestDigest; message := None |}
        else
          {| status := up_to_date; latestDigest := Some latestDigest; message := None |}
    | Throw thrown =>
        {| status := error; latestDigest := None; message := Some (messageOf thrown) |}
    end
  else if String.eqb (type source) "oci" then
    match getLatestOciDigest (url source) with
    | Ok latestDigest =>
        if Js.truthy (digest source)
           && negb (String.eqb latestDigest (Js.orElse (digest source) "")) then
          {| status := outdated; latestDigest := Some latestDigest; message := None |}
        else
          {| status := up_to_date; latestDigest := Some latestDigest; message := None |}
    | Throw thrown =>
        {| status := error; latestDigest := None; message := Some (messageOf thrown) |}
    end
  else
    {| status := unsupported;
       latestDigest := None;
       message := Some ("Source type '" ++ type source
                          ++ "' is not checked for updates")%string |}.

Definition collectCheckResults (sources : list LockfileSourceEntry) : list CheckResult :=
  let results :=
    flat_map (fun source =>
                let status := checkSource source in
                map (fun skill =>
                       {| source := source;
                          skill := skill;
                          resultStatus := Check.status status;
                          currentDigest := digest source;
                          resultLatestDigest := latestDigest status;
                          resultMessage := message status |})
                    (skills source))
             sources in
  Js.sortBy (fun left right => localeCompare w (skill left) (skill right)) results.

End WithWorld.

End Check.

(* ===================================================================== *)
(** * src/install/installer.ts *)
(* ===================================================================== *)

Module Installer.

Inductive InstallMethod : Type := symlink | copy.

(** The callback that creates a link may do to the disk what it likes, or
    throw. *)
Definition SymlinkFn : Type := Fs.path -> Fs.path -> Fs.node -> result Fs.node.

Record InstallSkillOptions : Type := {
  sourceId : string;
  sourceSkillPath : Fs.path;
  storageRoot : Fs.path;
  targetSkillsDir : Fs.path;
  preferCopy : option bool;
  symlinkFn : option SymlinkFn
}.

Record InstallSkillResult : Type := {
  skillName : string;
  storagePath : Fs.path;
  installedPath : Fs.path;
  method : InstallMethod;
  changed : bool;
  message : string
}.

Record World : Type := {
  (** [crypto.createHash("sha256").update(s).digest("hex")] *)
  sha256hex : string -> string;
  (** what the n-th call of [randomSuffix] returns *)
  randomSuffix : nat -> string
}.

(** The disk, and how many suffixes have been drawn. *)
Record State : Type := {
  disk : Fs.node;
  drawn : nat
}.

Section WithWorld.
Variable w : World.

Definition onDisk (f : Fs.node -> result Fs.node) : M State unit :=
  fun s =>
    match f (disk s) with
    | Ok d => (Ok tt, {| disk := d; drawn := drawn s |})
    | Throw e => (Throw e, s)
    end.

Definition look {A} (f : Fs.node -> A) : M State A :=
  fun s => (Ok (f (disk s)), s).

Definition nextSuffix : M State string :=
  fun s => (Ok (randomSuffix w (drawn s)), {| disk := disk s; drawn := S (drawn s) |}).

Definition isDirectory (d : Fs.node) (candidatePath : Fs.path) : bool :=
  match Fs.statSync d candidatePath with
  | Some n => Fs.isDir n
  | None => false
  end.

Definition digestSourceId (sourceId : string) : string :=
  String.substring 0 16 (sha256hex w sourceId).

Definition removePathIfExists (targetPath : Fs.path) : M State unit :=
  exists_ <- look (fun d => Fs.existsSync d targetPath) ;;
  if negb exists_ then ret tt
  else onDisk (fun d => Fs.rmSync d targetPath).

Definition replaceDirectoryAtomically (sourcePath destinationPath : Fs.path)
  : M State unit :=
  let destinationParent := Fs.dirname destinationPath in
  onDisk (fun d => Fs.mkdirSync d destinationParent) ;;;
  suffix <- nextSuffix ;;
  let tempPath :=
    Fs.join destinationParent (Fs.basename destinationPath ++ ".tmp-" ++ suffix)%string in
  onDisk (fun d => Fs.cpSync d sourcePath tempPath) ;;;
  tryCatch
    (removePathIfExists destinationPath ;;;
     onDisk (fun d => Fs.renameSync d tempPath destinationPath))
    (fun error => removePathIfExists tempPath ;;; throwM error).

Definition replaceSymlinkAtomically (targetPath linkPath : Fs.path)
           (symlinkFn : SymlinkFn) : M State unit :=
  let linkParent := Fs.dirname linkPath in
  onDisk (fun d => Fs.mkdirSync d linkParent) ;;;
  suffix <- nextSuffix ;;
  let tempLinkPath :=
    Fs.join linkParent (Fs.basename linkPath ++ ".tmp-link-" ++ suffix)%string in
  onDisk (symlinkFn targetPath tempLinkPath) ;;;
  tryCatch
    (removePathIfExists linkPath ;;;
     onDisk (fun d => Fs.renameSync d tempLinkPath linkPath))
    (fun error => removePathIfExists tempLinkPath ;;; throwM error).

Definition fsSymlinkSync : SymlinkFn :=
  fun targetPath linkPath d => Fs.symlinkSync d targetPath linkPath.

Definition installIntoTarget (storagePath installedPath : Fs.path) (preferCopy : bool)
           (symlinkFn : option SymlinkFn) : M State InstallMethod :=
  if preferCopy then
    replaceDirectoryAtomically storagePath installedPath ;;; ret copy
  else
    tryCatch
      (replaceSymlinkAtomically storagePath installedPath
         (Js.orElse symlinkFn fsSymlinkSync) ;;; ret symlink)
      (fun _ => replaceDirectoryAtomically storagePath installedPath ;;; ret copy).

Definition assertReplaceableInstallPath (installPath : Fs.path) : M State unit :=
  exists_ <- look (fun d => Fs.existsSync d installPath) ;;
  if negb exists_ then ret tt
  else
    entry <- look (fun d => Fs.lstatSync d installPath) ;;
    match entry with
    | None => throwM (Fs.fsError "ENOENT" installPath)
    | Some entry =>
        if Fs.isDir entry || Fs.isLink entry then ret tt
        else
          throwM (InstallConflictError
                    ("Install conflict at " ++ Fs.toString installPath
                       ++ ": existing path is not a directory or symlink")%string
                    (Fs.toString installPath))
    end.

Definition installSkill (options : InstallSkillOptions) : M State InstallSkillResult :=
  let sourceSkillPath := sourceSkillPath options in
  let storageRoot := storageRoot options in
  let targetSkillsDir := targetSkillsDir options in
  sourceIsDirectory <- look (fun d => isDirectory d sourceSkillPath) ;;
  if negb sourceIsDirectory then
    throwM (InstallConflictError
              ("Source skill path is not a directory: "
                 ++ Fs.toString sourceSkillPath)%string
              (Fs.toString sourceSkillPath))
  else
    targetIsOtherThing <-
      look (fun d => Fs.existsSync d targetSkillsDir
                     && negb (isDirectory d targetSkillsDir)) ;;
    if targetIsOtherThing then
      throwM (InstallConflictError
                ("Target skills directory must be a directory: "
                   ++ Fs.toString targetSkillsDir)%string
                (Fs.toString targetSkillsDir))
    else
      let skillName := Fs.basename sourceSkillPath in
      let sourceDigest := digestSourceId (sourceId options) in
      let storagePath := Fs.join (Fs.join storageRoot sourceDigest) skillName in
      let installedPath := Fs.join targetSkillsDir skillName in
      assertReplaceableInstallPath installedPath ;;;
      onDisk (fun d => Fs.mkdirSync d targetSkillsDir) ;;;
      replaceDirectoryAtomically sourceSkillPath storagePath ;;;
      method <- installIntoTarget storagePath installedPath
                  (match preferCopy options with Some true => true | _ => false end)
                  (symlinkFn options) ;;
      let action := match method with symlink => "symlinked" | copy => "copied" end in
      ret {| skillName := skillName;
             storagePath := storagePath;
             installedPath := installedPath;
             method := method;
             changed := true;
             message := (action ++ " " ++ skillName ++ " to "
                           ++ Fs.toString installedPath)%string |}.

End WithWorld.

End Installer.

(* ===================================================================== *)
(** * src/lockfile/generate-lock.ts *)
(* ===================================================================== *)

Module Lockfile.

Definition SOURCE_METADATA_FILENAME : string := ".skillet-source.json".

Inductive Scope : Type := project | global.

Record GenerateLockfileOptions : Type := {
  scope : Scope;
  cwd : option Fs.path;
  homeDir : option Fs.path
}.

Record LockfileSource : Type := {
  type : string;
  url : string;
  ref : option string;
  digest : option string;
  installMethod : string;
  skills : list string;
  agents : list string
}.

Record LockfileDocument : Type := {
  version : Z;
  sources : list LockfileSource
}.

Record GenerateLockfileResult : Type := {
  outputPath : Fs.path;
  yaml : string;
  lockfile : LockfileDocument
}.

Definition AGENT_SKILL_DIRS : list (string * Fs.path) :=
  [("claude", [".claude"; "skills"]);
   ("codex", [".codex"; "skills"]);
   ("opencode", [".opencode"; "skills"]);
   ("cursor", [".cursor"; "skills"]);
   ("windsurf", [".windsurf"; "skills"])].

Record SourceMetadata : Type := {
  mType : option string;
  mUrl : option string;
  mRef : option string;
  mDigest : option string;
  mInstallMethod : option string
}.

Definition noMetadata : SourceMetadata :=
  {| mType := None; mUrl := None; mRef := None; mDigest := None;
     mInstallMethod := None |}.

(** [Omit<LockfileSource, "skills" | "agents">]. *)
Record SourceIdentity : Type := {
  sType : string;
  sUrl : string;
  sRef : option string;
  sDigest : option string;
  sInstallMethod : string
}.

(** A value of the [groupedSources] map. *)
Record Group : Type := {
  source : SourceIdentity;
  groupSkills : list string;
  groupAgents : list string
}.

(** [Map.prototype.get] and [set] on a map kept in insertion order. *)
Fixpoint mapGet {V} (key : string) (m : list (string * V)) : option V :=
  match m with
  | [] => None
  | (k, v) :: m' => if String.eqb k key then Some v else mapGet key m'
  end.

Fixpoint mapSet {V} (key : string) (v : V) (m : list (string * V)) : list (string * V) :=
  match m with
  | [] => [(key, v)]
  | (k, v') :: m' =>
      if String.eqb k key then (k, v) :: m' else (k, v') :: mapSet key v m'
  end.

(** [Set.prototype.add] on a set kept in insertion order. *)
Definition setAdd (x : string) (s : list string) : list string :=
  if existsb (String.eqb x) s then s else s ++ [x].

Definition isDirectory (d : Fs.node) (candidatePath : Fs.path) : bool :=
  match Fs.statSync d candidatePath with
  | Some n => Fs.isDir n
  | None => false
  end.

Definition isFile (d : Fs.node) (candidatePath : Fs.path) : bool :=
  match Fs.statSync d candidatePath with
  | Some n => Fs.isFile n
  | None => false
  end.

Definition readOptionalString (value : option json) : option string :=
  match value with
  | Some (JString s) => if (String.length (Js.trim s) =? 0)%nat then None else Some s
  | _ => None
  end.

Record World : Type := {
  processCwd : Fs.path;
  parseYaml : string -> string + json;
  JSON_parse : string -> option json;
  (** [stringify] of the [yaml] package *)
  toYaml : LockfileDocument -> string;
  localeCompare : string -> string -> Z
}.

Section WithWorld.
Variable w : World.

Definition readSourceMetadata (d : Fs.node) (skillDir : Fs.path) : SourceMetadata :=
  let metadataPath := Fs.join skillDir SOURCE_METADATA_FILENAME in
  if negb (isFile d metadataPath) then noMetadata
  else
    match Fs.readFileSync d metadataPath with
    | Throw _ => noMetadata
    | Ok text =>
        match JSON_parse w text with
        | Some (JObject parsed) =>
            {| mType := readOptionalString (Json.get parsed "type");
               mUrl := readOptionalString (Json.get parsed "url");
               mRef := readOptionalString (Json.get parsed "ref");
               mDigest := readOptionalString (Json.get parsed "digest");
               mInstallMethod := readOptionalString (Json.get parsed "installMethod") |}
        | _ => noMetadata
        end
    end.

Definition listSkillDirectories (d : Fs.node) (agentSkillsDir : Fs.path)
  : result (list Fs.path) :=
  let! entries := Fs.readdirSync d agentSkillsDir in
  let directories :=
    flat_map (fun entry =>
                let candidate := Fs.join agentSkillsDir (fst entry) in
                match snd entry with
                | Fs.KDir => [candidate]
                | Fs.KLink => if isDirectory d candidate then [candidate] else []
                | Fs.KFile => []
                end)
             entries in
  Ok (Js.sortBy (fun a b => localeCompare w (Fs.toString a) (Fs.toString b)) directories).

Definition groupingKey (source : SourceIdentity) : string :=
  Js.join "|" [sType source; sUrl source; Js.orElse (sRef source) "";
               Js.orElse (sDigest source) ""; sInstallMethod source].

Definition Groups : Type := list (string * Group).

(** The body of the inner [for] loop: one candidate skill directory. *)
Definition scanSkillDirectory (d : Fs.node) (agent : string) (groupedSources : Groups)
           (skillDir : Fs.path) : result Groups :=
  let skillFile := Fs.join skillDir "SKILL.md" in
  if negb (isFile d skillFile) then Ok groupedSources
  else
    match (let! text := Fs.readFileSync d skillFile in
           let! skill := Skill.parseSkillMarkdown (parseYaml w) text
                           {| Skill.path := Some skillFile;
                              Skill.expectedName := None |} in
           Ok (Skill.name (Skill.frontmatter skill))) with
    | Throw _ => Ok groupedSources
    | Ok skillName =>
        let metadata := readSourceMetadata d skillDir in
        let! installMethod :=
          match mInstallMethod metadata with
          | Some m => Ok m
          | None =>
              match Fs.lstatSync d skillDir with
              | Some n => Ok (if Fs.isLink n then "symlink" else "copy")
              | None => Throw (Fs.fsError "ENOENT" skillDir)
              end
          end in
        let source :=
          {| sType := Js.orElse (mType metadata) "unknown";
             sUrl := Js.orElse (mUrl metadata) ("file://" ++ Fs.toString skillDir)%string;
             sRef := mRef metadata;
             sDigest := mDigest metadata;
             sInstallMethod := installMethod |} in
        let key := groupingKey source in
        let grouped :=
          Js.orElse (mapGet key groupedSources)
            {| source := source; groupSkills := []; groupAgents := [] |} in
        let grouped :=
          {| source := Lockfile.source grouped;
             groupSkills := setAdd skillName (groupSkills grouped);
             groupAgents := setAdd agent (groupAgents grouped) |} in
        Ok (mapSet key grouped groupedSources)
    end.

Fixpoint scanSkillDirectories (d : Fs.node) (agent : string) (groupedSources : Groups)
         (skillDirs : list Fs.path) : result Groups :=
  match skillDirs with
  | [] => Ok groupedSources
  | skillDir :: rest =>
      let! groupedSources := scanSkillDirectory d agent groupedSources skillDir in
      scanSkillDirectories d agent groupedSources rest
  end.

(** The outer [for] loop over [AGENT_SKILL_DIRS]. *)
Fixpoint scanAgents (d : Fs.node) (scanRoot : Fs.path) (groupedSources : Groups)
         (configs : list (string * Fs.path)) : result Groups :=
  match configs with
  | [] => Ok groupedSources
  | (agent, relativePath) :: rest =>
      let agentSkillsDir := scanRoot ++ relativePath in
      if negb (isDirectory d agentSkillsDir) then
        scanAgents d scanRoot groupedSources rest
      else
        let! skillDirs := listSkillDirectories d agentSkillsDir in
        let! groupedSources := scanSkillDirectories d agent groupedSources skillDirs in
        scanAgents d scanRoot groupedSources rest
  end.

Definition normalizeGroup (g : Group) : LockfileSource :=
  {| type := sType (source g);
     url := sUrl (source g);
     installMethod := sInstallMethod (source g);
     skills := Js.sortBy (localeCompare w) (groupSkills g);
     agents := Js.sortBy (localeCompare w) (groupAgents g);
     ref := if Js.truthy (sRef (source g)) then sRef (source g) else None;
     digest := if Js.truthy (sDigest (source g)) then sDigest (source g) else None |}.

(** [left[key] ?? ""] for the five sort keys, in order. *)
Definition sortKeys (s : LockfileSource) : list string :=
  [type s; url s; Js.orElse (ref s) ""; Js.orElse (digest s) ""; installMethod s].

(** The [for] loop of the comparator over the values of the sort keys. *)
Fixpoint compareKeys (left right : list string) : Z :=
  match left, right with
  | leftValue :: left', rightValue :: right' =>
      let compare := localeCompare w leftValue rightValue in
      if negb (compare =? 0)%Z then compare else compareKeys left' right'
  | _, _ => 0%Z
  end.

Definition compareSources (left right : LockfileSource) : Z :=
  compareKeys (sortKeys left) (sortKeys right).

Definition scanRootOf (options : GenerateLockfileOptions) : Fs.path :=
  let cwd := Js.orElse (cwd options) (processCwd w) in
  let homeDir := Js.orElse (homeDir options) cwd in
  match scope options with project => cwd | global => homeDir end.

Definition outputPathOf (options : GenerateLockfileOptions) : Fs.path :=
  let cwd := Js.orElse (cwd options) (processCwd w) in
  let homeDir := Js.orElse (homeDir options) cwd in
  match scope options with
  | project => Fs.join cwd "skillet.lock.yaml"
  | global => Fs.join (Fs.join homeDir ".skillet") "skillet.lock.yaml"
  end.

Definition generateLockfile (options : GenerateLockfileOptions)
  : M Fs.node GenerateLockfileResult :=
  fun d =>
    let scanRoot := scanRootOf options in
    let outputPath := outputPathOf options in
    match scanAgents d scanRoot [] AGENT_SKILL_DIRS with
    | Throw e => (Throw e, d)
    | Ok groupedSources =>
        let sources :=
          Js.sortBy compareSources (map normalizeGroup (map snd groupedSources)) in
        let lockfile := {| version := 1; sources := sources |} in
        let yaml := toYaml w lockfile in
        match Fs.mkdirSync d (Fs.dirname outputPath) with
        | Throw e => (Throw e, d)
        | Ok d1 =>
            match Fs.writeFileSync d1 outputPath yaml with
            | Throw e => (Throw e, d1)
            | Ok d2 =>
                (Ok {| outputPath := outputPath; yaml := yaml; lockfile := lockfile |}, d2)
            end
        end
    end.

End WithWorld.

End Lockfile.

(* ===================================================================== *)
(** * Vocabulary of the statements about the resolvers *)
(* ===================================================================== *)

Module EntrySpec.

(** Backslashes read as separators. *)
Definition toSlashes (entry : string) : string := Js.replaceAllChar "\" "/" entry.

(** An archive entry path is absolute: POSIX, or with a Windows drive. *)
Definition isAbsolute (entry : string) : bool :=
  Js.startsWith entry "/" || HttpArchive.hasDriveLetter entry.

(** The normalized form of an entry path as the validators compute it:
    backslashes first become slashes. *)
Definition normalized (entry : string) : string :=
  PosixPath.normalize (toSlashes entry).

(** That normalized form is, or begins with, the parent directory. *)
Definition traverses (entry : string) : bool :=
  String.eqb (normalized entry) ".." || Js.startsWith (normalized entry) "../".

Definition unsafe (entry : string) : bool := isAbsolute entry || traverses entry.

(** The entry as POSIX reads it, a backslash being a character of a name
    like any other: it is absolute, or its POSIX-normalized form is, or
    begins with, the parent directory. *)
Definition leavesRoot (entry : string) : bool :=
  isAbsolute entry
  || String.eqb (PosixPath.normalize entry) ".."
  || Js.startsWith (PosixPath.normalize entry) "../".

(** How a validation ended. *)
Inductive verdict : Type := Accepted | Absolute | Traversal | Other.

Definition archiveVerdict (entry : string) (r : result unit) : verdict :=
  match r with
  | Ok _ => Accepted
  | Throw (ArchiveResolveError m) =>
      if String.eqb m ("Archive entry uses absolute path: " ++ entry)%string then Absolute
      else if String.eqb m ("Archive entry escapes extraction root: " ++ entry)%string
           then Traversal else Other
  | Throw _ => Other
  end.

Definition tarVerdict (entry : string) (r : result unit) : verdict :=
  match r with
  | Ok _ => Accepted
  | Throw (OciResolveError m) =>
      if String.eqb m ("Unsafe absolute path in OCI layer: " ++ entry)%string then Absolute
      else if String.eqb m ("Unsafe traversal path in OCI layer: " ++ entry)%string
           then Traversal else Other
  | Throw _ => Other
  end.

End EntrySpec.

Definition isExec (e : event) : bool :=
  match e with EvExec _ _ => true | _ => false end.

(** The bytes of a sequence of chunks. *)
Definition totalBytes (chunks : list string) : Z :=
  fold_right (fun c acc => (lengthZ c + acc)%Z) 0%Z chunks.

(** The [artifactType] a manifest declares, if it declares one. *)
Definition declaredArtifactType (manifest : json) : option json :=
  match manifest with
  | JObject members => Json.get members "artifactType"
  | _ => None
  end.

(* ===================================================================== *)
(** * Sample worlds *)
(* ===================================================================== *)

(** A server that answers every request with a three-chunk gzip body, and an
    archive tool that lists a traversal entry. *)
Definition hostileArchiveWorld : HttpArchive.World :=
  {| HttpArchive.tmpdir := ["tmp"];
     HttpArchive.mkdtemp := fun root prefix => root ++ [(prefix ++ "x1")%string];
     HttpArchive.fetch := fun url =>
       HttpArchive.FetchResolved
         {| HttpArchive.ok := true;
            HttpArchive.status := 200;
            HttpArchive.statusText := "OK";
            HttpArchive.body := Some ["ab"; "cde"; "fg"];
            HttpArchive.contentTypeHeader := Some "application/gzip";
            HttpArchive.responseUrl := url |};
     HttpArchive.execFileSync := fun _ _ =>
       ExecOk (lines ["skill/SKILL.md"; "skill/../../evil"; ""]);
     HttpArchive.extracted := Fs.Dir [] |}.

(** A well-behaved server and archive: one top-level folder with a skill. *)
Definition friendlyArchiveWorld : HttpArchive.World :=
  {| HttpArchive.tmpdir := ["tmp"];
     HttpArchive.mkdtemp := fun root prefix => root ++ [(prefix ++ "x1")%string];
     HttpArchive.fetch := fun url =>
       HttpArchive.FetchResolved
         {| HttpArchive.ok := true;
            HttpArchive.status := 200;
            HttpArchive.statusText := "OK";
            HttpArchive.body := Some ["ab"; "cde"; "fg"];
            HttpArchive.contentTypeHeader := None;
            HttpArchive.responseUrl := url |};
     HttpArchive.execFileSync := fun _ _ =>
       ExecOk (lines ["skill/"; "skill/SKILL.md"; ""]);
     HttpArchive.extracted :=
       Fs.Dir [("tmp", Fs.Dir [("skillet-archive-x1",
                 Fs.Dir [("archive.tar.gz", Fs.File "abcdefg");
                         ("extract", Fs.Dir [("skill",
                            Fs.Dir [("SKILL.md", Fs.File "---")])])])])] |}.

(** An archive with a member under the directory [a\b], two levels up: the
    tool lists the member, and unpacks it where its name says, next to the
    extraction root. *)
Definition backslashArchiveWorld : HttpArchive.World :=
  {| HttpArchive.tmpdir := ["tmp"];
     HttpArchive.mkdtemp := fun root prefix => root ++ [(prefix ++ "x1")%string];
     HttpArchive.fetch := fun url =>
       HttpArchive.FetchResolved
         {| HttpArchive.ok := true;
            HttpArchive.status := 200;
            HttpArchive.statusText := "OK";
            HttpArchive.body := Some ["ab"; "cde"; "fg"];
            HttpArchive.contentTypeHeader := Some "application/gzip";
            HttpArchive.responseUrl := url |};
     HttpArchive.execFileSync := fun _ _ =>
       ExecOk (lines ["skill/SKILL.md"; "a\b/../../evil"; ""]);
     HttpArchive.extracted :=
       Fs.Dir [("tmp", Fs.Dir [("skillet-archive-x1",
                 Fs.Dir [("archive.tar.gz", Fs.File "abcdefg");
                         ("extract", Fs.Dir [("skill",
                            Fs.Dir [("SKILL.md", Fs.File "---")]);
                            ("a\b", Fs.Dir [])]);
                         ("evil", Fs.File "evil")])])] |}.

Definition noHttpOptions : HttpArchive.ResolveHttpArchiveOptions :=
  {| HttpArchive.tempRoot := None;
     HttpArchive.maxDownloadBytes := None;
     HttpArchive.maxEntries := None;
     HttpArchive.maxExtractedBytes := None |}.

Definition smallCapOptions : HttpArchive.ResolveHttpArchiveOptions :=
  {| HttpArchive.tempRoot := None;
     HttpArchive.maxDownloadBytes := Some 4%Z;
     HttpArchive.maxEntries := None;
     HttpArchive.maxExtractedBytes := None |}.

(** A registry whose manifest declares a foreign artifact type, with a
    perfectly good layer. *)
Definition foreignManifest : json :=
  JObject [("artifactType", JString "application/vnd.oci.image.config.v1+json");
           ("layers", JArray [JObject [("digest", JString "sha256:00")]])].

Definition foreignRegistryWorld : Oci.World :=
  {| Oci.tmpdir := ["tmp"];
     Oci.mkdtemp := fun root prefix => root ++ [(prefix ++ "x1")%string];
     Oci.fetch := fun _ =>
       Oci.FetchResolved
         {| Oci.ok := true; Oci.status := 200; Oci.statusText := "OK";
            Oci.text := "{}"; Oci.dockerContentDigest := None |};
     Oci.JSON_parse := fun _ => Some foreignManifest;
     Oci.execFileSync := fun _ _ => ExecOk "skill/SKILL.md";
     Oci.extracted := Fs.Dir [];
     Oci.sha256hex := fun _ => "00" |}.

Definition noOciOptions : Oci.ResolveOciSourceOptions :=
  {| Oci.tempRoot := None; Oci.insecureHttp := None |}.

(* ===================================================================== *)
(** * Vocabulary of the statements about SKILL.md *)
(* ===================================================================== *)

Module SkillSpec.

(** A line that is a frontmatter delimiter once trimmed. *)
Definition isDelimiter (line : string) : bool := String.eqb (Js.trim line) "---".

Definition firstLine (markdown : string) : string := nth 0 (Js.splitLines markdown) "".

Definition laterLines (markdown : string) : list string := skipn 1 (Js.splitLines markdown).

(** The first line that is not empty, if there is one. *)
Definition firstNonEmptyLine (markdown : string) : option string :=
  find (fun line => negb (String.eqb line "")) (Js.splitLines markdown).

Definition isDelimiterError (e : exn) : bool :=
  match e with
  | SkillParseError m None =>
      String.eqb m Skill.OPENING_MISSING || String.eqb m Skill.CLOSING_MISSING
  | _ => false
  end.

(** Two white characters beyond ASCII in UTF-8: the byte order mark U+FEFF
    and the no-break space U+00A0. *)
Definition BOM : string :=
  String (Js.chr 239) (String (Js.chr 187) (String (Js.chr 191) "")).

Definition NBSP : string := String (Js.chr 194) (String (Js.chr 160) "").

(** A descriptor whose opening delimiter comes after an empty line. *)
Definition indentedByAnEmptyLine : string :=
  lines [""; "---"; "name: demo"; "description: A demo skill"; "---"; "# Demo"].

Definition withoutTheEmptyLine : string :=
  lines ["---"; "name: demo"; "description: A demo skill"; "---"; "# Demo"].

End SkillSpec.

(* ===================================================================== *)
(** * Vocabulary and samples for the check command *)
(* ===================================================================== *)

Module CheckSpec.

(** The ref a git source is queried at. *)
Definition refOrHead (source : Check.LockfileSourceEntry) : string :=
  match Check.ref source with
  | Some r => if String.eqb r "" then "HEAD" else r
  | None => "HEAD"
  end.

Definition lsRemote (source : Check.LockfileSourceEntry) : list string :=
  ["ls-remote"; Check.url source; refOrHead source].

(** The horizontal tab [git ls-remote] puts between a hash and the name of
    its ref. *)
Definition TAB : ascii := Js.chr 9.

(** The digits of a commit hash. *)
Definition isHexDigit (a : ascii) : bool :=
  let n := nat_of_ascii a in
  (((48 <=? n) && (n <=? 57)) || ((97 <=? n) && (n <=? 102)))%nat.

Definition sha1 : string := "1111111111111111111111111111111111111111".
Definition sha2 : string := "2222222222222222222222222222222222222222".

(** A remote whose every ref is at [sha2]. *)
Definition movedRemote : Check.World :=
  {| Check.execFileSync := fun _ args =>
       ExecOk (sha2 ++ String (Js.chr 9) (nth 2 args "") ++ String Js.LF "")%string;
     Check.fetch := fun _ => Oci.FetchRejected "offline";
     Check.sha256hex := fun _ => "";
     Check.localeCompare := fun _ _ => 0%Z |}.

Definition pinnedAt (recorded : option string) : Check.LockfileSourceEntry :=
  {| Check.type := "git";
     Check.url := "https://github.com/acme/skills.git";
     Check.ref := Some "main";
     Check.digest := recorded;
     Check.installMethod := "symlink";
     Check.skills := ["alpha"];
     Check.agents := ["codex"] |}.

End CheckSpec.

(* ===================================================================== *)
(** * Samples for the installer *)
(* ===================================================================== *)

Module InstallSamples.

Definition world : Installer.World :=
  {| Installer.sha256hex := fun _ => "0123456789abcdef0123456789abcdef";
     Installer.randomSuffix := fun n => ("t" ++ showZ (Z.of_nat n))%string |}.

Definition alpha : Fs.node :=
  Fs.Dir [("SKILL.md",
           Fs.File (lines ["---"; "name: alpha"; "description: First skill"; "---"; ""]));
          ("notes.txt", Fs.File "content")].

(** A source checkout and an empty project. *)
Definition freshDisk : Fs.node :=
  Fs.Dir [("src", Fs.Dir [("alpha", alpha)]); ("proj", Fs.Dir [])].

(** The same, with a regular file where the skill is to be installed. *)
Definition blockedDisk : Fs.node :=
  Fs.Dir [("src", Fs.Dir [("alpha", alpha)]);
          ("proj", Fs.Dir [(".codex", Fs.Dir [("skills",
             Fs.Dir [("alpha", Fs.File "blocking file")])])])].

(** The target is blocked and the source path names a file. *)
Definition blockedDiskFileSource : Fs.node :=
  Fs.Dir [("src", Fs.Dir [("alpha", Fs.File "not a skill directory")]);
          ("proj", Fs.Dir [(".codex", Fs.Dir [("skills",
             Fs.Dir [("alpha", Fs.File "blocking file")])])])].

Definition options (preferCopy : option bool) : Installer.InstallSkillOptions :=
  {| Installer.sourceId := "git:https://github.com/acme/skills.git:main:abc";
     Installer.sourceSkillPath := ["src"; "alpha"];
     Installer.storageRoot := ["proj"; ".skillet"; "storage"];
     Installer.targetSkillsDir := ["proj"; ".codex"; "skills"];
     Installer.preferCopy := preferCopy;
     Installer.symlinkFn := None |}.

Definition start (d : Fs.node) : Installer.State :=
  {| Installer.disk := d; Installer.drawn := 0 |}.

End InstallSamples.

(* ===================================================================== *)
(** * Vocabulary and samples for the lockfile *)
(* ===================================================================== *)

Module LockSpec.

(** The provenance tuple of a lock entry; a missing field counts as the
    empty string. *)
Definition identityTuple (s : Lockfile.LockfileSource) : list string :=
  [Lockfile.type s; Lockfile.url s; Js.orElse (Lockfile.ref s) "";
   Js.orElse (Lockfile.digest s) ""; Lockfile.installMethod s].

Section Order.
Variable compare : string -> string -> Z.

(** The order of strings the comparison gives. *)
Definition stringLe (a b : string) : Prop := (compare a b <= 0)%Z.

(** The lexicographic order of tuples over it. *)
Fixpoint lexLe (l r : list string) : Prop :=
  match l, r with
  | x :: l', y :: r' => (compare x y < 0)%Z \/ ((compare x y = 0)%Z /\ lexLe l' r')
  | _, _ => True
  end.

(** A comparison a sort can rely on: opposite signs for swapped arguments,
    and a transitive order. *)
Definition consistent : Prop :=
  (forall a b, Z.sgn (compare b a) = (- Z.sgn (compare a b))%Z)
  /\ (forall a b c, (compare a b <= 0)%Z -> (compare b c <= 0)%Z -> (compare a c <= 0)%Z).

End Order.

(** A field in which the separator of the grouping key does not occur. *)
Definition barFree (s : string) : bool := negb (Js.includes s "|").

(** The provenance tuple of an installed skill. *)
Definition identityFields (s : Lockfile.SourceIdentity) : list string :=
  [Lockfile.sType s; Lockfile.sUrl s; Js.orElse (Lockfile.sRef s) "";
   Js.orElse (Lockfile.sDigest s) ""; Lockfile.sInstallMethod s].

(** A path below one of the agent skill directories of the scan root. *)
Definition underAgentSkills (scanRoot p : Fs.path) : Prop :=
  exists agent relativePath rest,
    In (agent, relativePath) Lockfile.AGENT_SKILL_DIRS
    /\ p = scanRoot ++ relativePath ++ rest.

(** Two disks that show the same installed skills: every path below an
    agent skill directory names the same thing on both. *)
Definition sameInstalledSkills (scanRoot : Fs.path) (d d' : Fs.node) : Prop :=
  forall p, underAgentSkills scanRoot p ->
            Fs.statSync d p = Fs.statSync d' p /\ Fs.lstatSync d p = Fs.lstatSync d' p.

(** The last step of the generator: the document is written where it
    belongs. *)
Definition writeLockfile (r : Lockfile.GenerateLockfileResult)
  : M Fs.node Lockfile.GenerateLockfileResult :=
  fun d =>
    match Fs.mkdirSync d (Fs.dirname (Lockfile.outputPath r)) with
    | Throw e => (Throw e, d)
    | Ok d1 =>
        match Fs.writeFileSync d1 (Lockfile.outputPath r) (Lockfile.yaml r) with
        | Throw e => (Throw e, d1)
        | Ok d2 => (Ok r, d2)
        end
    end.

(** ** A sample world *)

(** Comparison by code units. *)
Definition codeUnitCompare (a b : string) : Z :=
  match String_as_OT.cmp a b with
  | Lt => (-1)%Z
  | Eq => 0%Z
  | Gt => 1%Z
  end.

Definition showOptional (key : string) (v : option string) : list string :=
  match v with
  | Some s => [("    " ++ key ++ ": " ++ s)%string]
  | None => []
  end.

Definition showList (key : string) (l : list string) : list string :=
  ("    " ++ key ++ ":")%string :: map (fun x => ("      - " ++ x)%string) l.

Definition showSource (s : Lockfile.LockfileSource) : list string :=
  [("  - type: " ++ Lockfile.type s)%string;
   ("    url: " ++ Lockfile.url s)%string;
   ("    installMethod: " ++ Lockfile.installMethod s)%string]
  ++ showList "skills" (Lockfile.skills s)
  ++ showList "agents" (Lockfile.agents s)
  ++ showOptional "ref" (Lockfile.ref s)
  ++ showOptional "digest" (Lockfile.digest s).

(** A plain block-style rendering of the document. *)
Definition showDocument (doc : Lockfile.LockfileDocument) : string :=
  lines (("version: " ++ showZ (Lockfile.version doc))%string
         :: "sources:" :: flat_map showSource (Lockfile.sources doc) ++ [""]).

(** The sidecar files of the samples, as the JSON parser reads them. *)
Definition quoted (s : string) : string :=
  (String (Js.chr 34) s ++ String (Js.chr 34) EmptyString)%string.

Definition sidecar (url ref : string) : string :=
  ("{" ++ quoted "type" ++ ":" ++ quoted "git"
     ++ "," ++ quoted "url" ++ ":" ++ quoted url
     ++ "," ++ quoted "ref" ++ ":" ++ quoted ref
     ++ "," ++ quoted "installMethod" ++ ":" ++ quoted "copy" ++ "}")%string.

Definition sidecarValue (url ref : string) : json :=
  JObject [("type", JString "git"); ("url", JString url); ("ref", JString ref);
           ("installMethod", JString "copy")].

(** A JSON parser that knows the sidecar files of the samples. *)
Fixpoint parseKnown (known : list (string * string)) (text : string) : option json :=
  match known with
  | [] => None
  | (url, ref) :: rest =>
      if String.eqb text (sidecar url ref) then Some (sidecarValue url ref)
      else parseKnown rest text
  end.

Definition knownSidecars : list (string * string) :=
  [("https://github.com/acme/skills.git", "main");
   ("https://github.com/acme/skills.git", "v2");
   ("/repos/skills|x", "main");
   ("/repos/skills", "x|main")].

Definition world : Lockfile.World :=
  {| Lockfile.processCwd := ["proj"];
     Lockfile.parseYaml := ToyYaml.parse;
     Lockfile.JSON_parse := parseKnown knownSidecars;
     Lockfile.toYaml := showDocument;
     Lockfile.localeCompare := codeUnitCompare |}.

Definition skillDir (name url ref : string) : Fs.node :=
  Fs.Dir [("SKILL.md",
           Fs.File (lines ["---"; ("name: " ++ name)%string;
                           "description: A sample skill"; "---"; ""]));
          (".skillet-source.json", Fs.File (sidecar url ref))].

(** Three installed skills from two provenances. *)
Definition installedDisk : Fs.node :=
  Fs.Dir [("proj", Fs.Dir
    [(".claude", Fs.Dir [("skills", Fs.Dir
        [("beta", skillDir "beta" "https://github.com/acme/skills.git" "main");
         ("alpha", skillDir "alpha" "https://github.com/acme/skills.git" "main")])]);
     (".codex", Fs.Dir [("skills", Fs.Dir
        [("gamma", skillDir "gamma" "https://github.com/acme/skills.git" "v2");
         ("alpha", skillDir "alpha" "https://github.com/acme/skills.git" "main")])])])].

(** Two installed skills from two local clones: the directory name of the
    first and the branch name of the second contain a vertical bar. *)
Definition collidingDisk : Fs.node :=
  Fs.Dir [("proj", Fs.Dir
    [(".claude", Fs.Dir [("skills", Fs.Dir
        [("one", skillDir "one" "/repos/skills|x" "main");
         ("two", skillDir "two" "/repos/skills" "x|main")])])])].

Definition projectOptions : Lockfile.GenerateLockfileOptions :=
  {| Lockfile.scope := Lockfile.project;
     Lockfile.cwd := Some ["proj"];
     Lockfile.homeDir := None |}.

(** The disk a first run of the generator leaves. *)
Definition lockedDisk : Fs.node :=
  Eval vm_compute in
    snd (Lockfile.generateLockfile world projectOptions installedDisk).

(** A tree without symbolic links. *)
Fixpoint linkFree (n : Fs.node) : bool :=
  match n with
  | Fs.File _ => true
  | Fs.Symlink _ => false
  | Fs.Dir es =>
      (fix all (es : list (string * Fs.node)) : bool :=
         match es with
         | [] => true
         | (_, n') :: es' => linkFree n' && all es'
         end) es
  end.

End LockSpec.

(* ===================================================================== *)
(** * Vocabulary of the statements about the file system *)
(* ===================================================================== *)

Module FsSpec.

(** The node at a real path: no link is followed. *)
Fixpoint get (n : Fs.node) (p : Fs.path) : option Fs.node :=
  match p with
  | [] => Some n
  | c :: rest =>
      match n with
      | Fs.Dir es =>
          match Fs.assoc c es with
          | Some n' => get n' rest
          | None => None
          end
      | _ => None
      end
  end.

(** A place where a regular file can be written: nothing is there, or a
    regular file is. *)
Definition writable (n : Fs.node) (p : Fs.path) : Prop :=
  match get n p with
  | None | Some (Fs.File _) => True
  | Some _ => False
  end.

(** The node reached from [n] along [rel], every step being an entry of a
    directory: no link is followed. *)
Inductive below : Fs.node -> Fs.path -> Fs.node -> Prop :=
| below_here (n : Fs.node) : below n [] n
| below_step (es : list (string * Fs.node)) (name : string) (child : Fs.node)
             (rel : Fs.path) (n : Fs.node) :
    In (name, child) es -> below child rel n -> below (Fs.Dir es) (name :: rel) n.

(** The regular files of a tree, each with its path from the top and its
    content. *)
Fixpoint regularFiles (n : Fs.node) : list (Fs.path * string) :=
  match n with
  | Fs.File content => [([], content)]
  | Fs.Dir es =>
      (fix each (es : list (string * Fs.node)) : list (Fs.path * string) :=
         match es with
         | [] => []
         | (name, child) :: es' =>
             map (fun file => (name :: fst file, snd file)) (regularFiles child)
             ++ each es'
         end) es
  | Fs.Symlink _ => []
  end.

(** What the regular files of a tree weigh together. *)
Definition regularBytes (n : Fs.node) : Z :=
  fold_right (fun file acc => (lengthZ (snd file) + acc)%Z) 0%Z (regularFiles n).

(** A directory that holds a regular file named SKILL.md. *)
Definition holdsDescriptor (n : Fs.node) : Prop :=
  exists es content, n = Fs.Dir es /\ In ("SKILL.md", Fs.File content) es.

(** [rel] leads from [root] to a directory that holds a SKILL.md. *)
Definition skillDirectory (root : Fs.node) (rel : Fs.path) : Prop :=
  exists dir, below root rel dir /\ holdsDescriptor dir.

(** [p] is [q] or lies above it. *)
Definition above (p q : Fs.path) : Prop := exists rest, q = p ++ rest.

End FsSpec.

(* ===================================================================== *)
(** * src/resolvers/git.ts: the grammar of git sources *)
(* ===================================================================== *)

(** [parseGitSource] and the functions it calls.  Clone URLs and local paths
    are strings here, as in the sources; the [URL] constructor, [path.resolve],
    [path.join] and [os.homedir] are the fields of the world. *)
Module Git.

Record ParsedGitSource : Type := {
  original : string;
  cloneUrl : string;
  ref : option string;
  subdirectory : option string
}.

(** The functions of the grammar throw nothing but [GitSourceError]. *)
Inductive outcome (A : Type) : Type :=
| Return (a : A)
| GitSourceError (message : string).
Arguments Return {A} a.
Arguments GitSourceError {A} message.

Definition andThen {A B} (r : outcome A) (k : A -> outcome B) : outcome B :=
  match r with
  | Return a => k a
  | GitSourceError message => GitSourceError message
  end.

(** The character class [[a-zA-Z0-9._-]]. *)
Definition isNameChar (a : ascii) : bool :=
  let n := nat_of_ascii a in
  ((((97 <=? n) && (n <=? 122)) || ((65 <=? n) && (n <=? 90))
    || ((48 <=? n) && (n <=? 57)))%nat)
  || Ascii.eqb a "." || Ascii.eqb a "_" || Ascii.eqb a "-".

(** [SHORTHAND_PATTERN.test(s)] for [/^[a-zA-Z0-9._-]+\/[a-zA-Z0-9._-]+$/]:
    the class has no slash, so the text has exactly one, between two
    non-empty runs of the class. *)
Definition SHORTHAND_PATTERN_test (s : string) : bool :=
  match Js.splitChar "/" s with
  | [owner; repo] =>
      negb (String.eqb owner "") && Skill.allChars isNameChar owner
      && negb (String.eqb repo "") && Skill.allChars isNameChar repo
  | _ => false
  end.

(** [SSH_PATTERN.test(s)] for [/^git@[^:]+:[^\s]+$/]: after [git@] the first
    colon is not the first character, and what follows it is not empty and
    has no white character. *)
Definition SSH_PATTERN_test (s : string) : bool :=
  Js.startsWith s "git@"
  && let rest := Oci.sliceFrom s 4 in
     match Oci.indexOfChar ":" rest with
     | Some (S colon) =>
         let tail := Oci.sliceFrom rest (S colon + 1) in
         negb (String.eqb tail "")
         && negb (Js.hasSpace tail)
     | _ => false
     end.

(** [s.replace(/^\/+/, "")] and [s.replace(/\/+$/, "")]. *)
Fixpoint stripLeadingSlashes (s : string) : string :=
  match s with
  | EmptyString => EmptyString
  | String a s' => if Ascii.eqb a "/" then stripLeadingSlashes s' else s
  end.

Fixpoint stripTrailingSlashes (s : string) : string :=
  match s with
  | EmptyString => EmptyString
  | String a s' =>
      match stripTrailingSlashes s' with
      | EmptyString => if Ascii.eqb a "/" then EmptyString else String a EmptyString
      | t => String a t
      end
  end.

(** [s.replace(/^\/+|\/+$/g, "")]. *)
Definition stripSlashes (s : string) : string :=
  stripTrailingSlashes (stripLeadingSlashes s).

(** [Array.prototype.indexOf]; [None] is [-1]. *)
Fixpoint indexOf (x : string) (l : list string) : option nat :=
  match l with
  | [] => None
  | y :: l' => if String.eqb y x then Some 0 else option_map S (indexOf x l')
  end.

Definition isLocalPath (source : string) : bool :=
  Js.startsWith source "." || Js.startsWith source "/"
  || Js.startsWith source "~/" || Js.startsWith source "file://".

Definition splitHash (source : string) : string * option string :=
  match Oci.indexOfChar "#" source with
  | None => (source, None)
  | Some hashIndex =>
      (Oci.sliceTo source hashIndex, Some (Oci.sliceFrom source (hashIndex + 1)))
  end.

Definition normalizeCloneUrl (source : string) : outcome string :=
  if SHORTHAND_PATTERN_test source then
    Return ("https://github.com/" ++ source ++ ".git")%string
  else if SSH_PATTERN_test source then
    Return (if Js.endsWith source ".git" then source else (source ++ ".git")%string)
  else if Js.startsWith source "http://" || Js.startsWith source "https://" then
    let withoutTrailingSlash := stripTrailingSlashes source in
    Return (if Js.endsWith withoutTrailingSlash ".git" then withoutTrailingSlash
            else (withoutTrailingSlash ++ ".git")%string)
  else if isLocalPath source then Return source
  else GitSourceError ("Unsupported git source format: " ++ source)%string.

Definition normalizeSubdirectory (subdirectory : string) : outcome string :=
  let normalized := stripSlashes subdirectory in
  if String.eqb normalized "" then Return normalized
  else if Js.includes normalized ".." then
    GitSourceError ("Invalid subdirectory path: " ++ subdirectory)%string
  else Return normalized.

(** What [new URL(source)] exposes of a URL. *)
Record Url : Type := {
  protocol : string;
  host : string;
  pathname : string
}.

Record World : Type := {
  (** [new URL(s)]; [None] when the constructor throws *)
  newURL : string -> option Url;
  (** [path.resolve(p)] *)
  pathResolve : string -> string;
  (** [path.join(os.homedir(), rest)] *)
  joinHome : string -> string
}.

(** The object [parseTreeSource] returns. *)
Record TreeSource : Type := {
  treeCloneUrl : string;
  treeRef : option string;
  treeSubdirectory : option string
}.

Section WithWorld.
Variable w : World.

Definition parseTreeSource (source : string) : outcome (option TreeSource) :=
  if negb (Js.startsWith source "http://") && negb (Js.startsWith source "https://") then
    Return None
  else
    match newURL w source with
    | None => GitSourceError ("Invalid URL source: " ++ source)%string
    | Some parsed =>
        let pathSegments := Js.splitChar "/" (stripSlashes (pathname parsed)) in
        match indexOf "tree" pathSegments with
        | None => Return None
        | Some treeIndex =>
            if (treeIndex <? 2)%nat || (List.length pathSegments <=? treeIndex + 1)%nat then
              GitSourceError ("Invalid tree source format: " ++ source)%string
            else
              let owner := nth 0 pathSegments "" in
              let repo := nth 1 pathSegments "" in
              let ref := nth (treeIndex + 1) pathSegments "" in
              let subdirectorySegments := skipn (treeIndex + 2) pathSegments in
              Return (Some
                {| treeCloneUrl :=
                     (protocol parsed ++ "//" ++ host parsed ++ "/" ++ owner ++ "/"
                        ++ repo ++ ".git")%string;
                   treeRef := if String.eqb ref "" then None else Some ref;
                   treeSubdirectory :=
                     if (0 <? List.length subdirectorySegments)%nat
                     then Some (Js.join "/" subdirectorySegments) else None |})
        end
    end.

Definition resolveLocalPath (source : string) : string :=
  if Js.startsWith source "file://" then
    pathResolve w (Oci.sliceFrom source (String.length "file://"))
  else if Js.startsWith source "~/" then joinHome w (Oci.sliceFrom source 2)
  else pathResolve w source.

Definition parseGitSource (input : string) : outcome ParsedGitSource :=
  let original := Js.trim input in
  if String.eqb original "" then GitSourceError "Git source cannot be empty"
  else
    let (base, hash) := splitHash original in
    andThen (parseTreeSource base) (fun tree =>
    andThen (match tree with
             | Some t => Return (treeCloneUrl t)
             | None => normalizeCloneUrl base
             end) (fun cloneUrl =>
    let ref := match tree with Some t => treeRef t | None => None end in
    let subdirectory := match tree with Some t => treeSubdirectory t | None => None end in
    let pieces := match hash with
                  | Some h => if String.eqb h "" then [] else Js.splitChar ":" h
                  | None => []
                  end in
    let hashRef := nth 0 pieces "" in
    let hashSubdirectory := nth 1 pieces "" in
    let ref := if String.eqb hashRef "" then ref else Some hashRef in
    let subdirectory :=
      if String.eqb hashSubdirectory "" then subdirectory else Some hashSubdirectory in
    andThen (if Js.truthy subdirectory
             then andThen (normalizeSubdirectory (Js.orElse subdirectory ""))
                          (fun s => Return (Some s))
             else Return subdirectory) (fun subdirectory =>
    let cloneUrl := if isLocalPath cloneUrl then resolveLocalPath cloneUrl else cloneUrl in
    Return {| original := original;
              cloneUrl := cloneUrl;
              ref := ref;
              subdirectory := subdirectory |}))).

End WithWorld.

End Git.

(* ===================================================================== *)
(** * src/agents/detection.ts *)
(* ===================================================================== *)

(** Agent names are strings at run time: the command line casts what the
    user typed, and [normalizeAgents] checks it. *)
Module Agents.

Definition KNOWN_AGENTS : list string :=
  ["claude"; "codex"; "opencode"; "cursor"; "windsurf"].

(** [KNOWN_AGENTS.includes(agent)]. *)
Definition isKnown (agent : string) : bool :=
  existsb (String.eqb agent) KNOWN_AGENTS.

Record AgentPaths : Type := {
  project : Fs.path;
  global : Fs.path
}.

Inductive Location : Type := inProject | inGlobal.

Record DetectedAgent : Type := {
  agent : string;
  locations : list Location;
  paths : list Fs.path
}.

Record PathOptions : Type := {
  cwd : option Fs.path;
  homeDir : option Fs.path
}.

Record ResolveTargetAgentsOptions : Type := {
  where_ : PathOptions;
  explicitAgents : option (list string);
  promptWhenNone : option (list string -> list string)
}.

(** The functions of the module throw nothing but [AgentDetectionError]. *)
Inductive outcome (A : Type) : Type :=
| Return (a : A)
| AgentDetectionError (message : string).
Arguments Return {A} a.
Arguments AgentDetectionError {A} message.

Record World : Type := {
  processCwd : Fs.path;
  localeCompare : string -> string -> Z
}.

Section WithWorld.
Variable w : World.

(** The object literal of [getAgentPathMap], one member per agent. *)
Definition getAgentPathMap (options : PathOptions) : list (string * AgentPaths) :=
  let cwd := Js.orElse (cwd options) (processCwd w) in
  let homeDir := Js.orElse (homeDir options) cwd in
  [("claude",
    {| project := Fs.join (Fs.join cwd ".claude") "skills";
       global := Fs.join (Fs.join homeDir ".claude") "skills" |});
   ("codex",
    {| project := Fs.join (Fs.join cwd ".codex") "skills";
       global := Fs.join (Fs.join homeDir ".codex") "skills" |});
   ("opencode",
    {| project := Fs.join (Fs.join cwd ".opencode") "skills";
       global := Fs.join (Fs.join homeDir ".opencode") "skills" |});
   ("cursor",
    {| project := Fs.join (Fs.join cwd ".cursor") "skills";
       global := Fs.join (Fs.join homeDir ".cursor") "skills" |});
   ("windsurf",
    {| project := Fs.join (Fs.join cwd ".windsurf") "skills";
       global := Fs.join (Fs.join homeDir ".windsurf") "skills" |})].

Definition isDirectory (d : Fs.node) (candidatePath : Fs.path) : bool :=
  match Fs.statSync d candidatePath with
  | Some n => Fs.isDir n
  | None => false
  end.

Definition pathAt (paths : AgentPaths) (location : Location) : Fs.path :=
  match location with inProject => project paths | inGlobal => global paths end.

(** The body of the loop over [KNOWN_AGENTS]: what one agent adds to
    [detected].  [pathMap[agent]] is a member of the literal for every
    known agent. *)
Definition detectAgent (d : Fs.node) (pathMap : list (string * AgentPaths))
           (agent : string) : list DetectedAgent :=
  match Lockfile.mapGet agent pathMap with
  | None => []
  | Some agentPaths =>
      let found :=
        filter (fun location => isDirectory d (pathAt agentPaths location))
               [inProject; inGlobal] in
      if (0 <? List.length found)%nat then
        [{| agent := agent;
            locations := found;
            paths := map (pathAt agentPaths) found |}]
      else []
  end.

Definition detectInstalledAgents (d : Fs.node) (options : PathOptions)
  : list DetectedAgent :=
  let pathMap := getAgentPathMap options in
  let detected := flat_map (detectAgent d pathMap) KNOWN_AGENTS in
  Js.sortBy (fun left right => localeCompare w (agent left) (agent right)) detected.

(** [[...new Set(items)]]: the first occurrence of every item, in order. *)
Definition unique (items : list string) : list string :=
  fold_left (fun seen item => Lockfile.setAdd item seen) items [].

Definition normalizeAgents (agents : list string) : outcome (list string) :=
  let invalid := filter (fun agent => negb (isKnown agent)) agents in
  if (0 <? List.length invalid)%nat then
    AgentDetectionError ("Unknown agent(s): " ++ Js.join ", " invalid)%string
  else Return (Js.sortBy (localeCompare w) (unique agents)).

Definition resolveTargetAgents (d : Fs.node) (options : ResolveTargetAgentsOptions)
  : outcome (list string) :=
  match explicitAgents options with
  | Some (first :: more) => normalizeAgents (first :: more)
  | _ =>
      let detected := map agent (detectInstalledAgents d (where_ options)) in
      if (0 <? List.length detected)%nat then normalizeAgents detected
      else
        match promptWhenNone options with
        | Some prompt => normalizeAgents (prompt KNOWN_AGENTS)
        | None =>
            AgentDetectionError
              "No supported agents detected. Specify --agent explicitly or install an agent skills directory."
        end
  end.

End WithWorld.

End Agents.

(* ===================================================================== *)
(** * src/commands/init.ts *)
(* ===================================================================== *)

Module Init.

Record RunInitCommandOptions : Type := {
  cwd : option Fs.path;
  yes : option bool;
  confirmOverwrite : option (Fs.path -> bool)
}.

Record World : Type := {
  processCwd : Fs.path
}.

(** What the command prints. *)
Inductive line : Type :=
| Stdout (text : string)
| Stderr (text : string).

Record State : Type := {
  disk : Fs.node;
  printed : list line
}.

Definition onDisk (f : Fs.node -> result Fs.node) : M State unit :=
  fun s =>
    match f (disk s) with
    | Ok d => (Ok tt, {| disk := d; printed := printed s |})
    | Throw e => (Throw e, s)
    end.

Definition look {A} (f : Fs.node -> A) : M State A :=
  fun s => (Ok (f (disk s)), s).

Definition stdout (text : string) : M State unit :=
  fun s => (Ok tt, {| disk := disk s; printed := printed s ++ [Stdout text] |}).

Definition stderr (text : string) : M State unit :=
  fun s => (Ok tt, {| disk := disk s; printed := printed s ++ [Stderr text] |}).

(** [path.resolve(cwd, arg)] for an absolute [cwd]: the components of [arg]
    are walked from [cwd], or from the root when [arg] is absolute, and
    [".."] is dropped at the root. *)
Definition resolveFrom (cwd : Fs.path) (arg : string) : Fs.path :=
  PosixPath.normalizeSegments false []
    ((if Js.startsWith arg "/" then [] else cwd) ++ Js.splitChar "/" arg).

(** [SKILL_NAME_PATTERN] is the regular expression of [NAME_PATTERN]. *)
Definition SKILL_NAME_PATTERN_test (skillName : string) : bool :=
  Skill.NAME_PATTERN_test skillName.

Definition validateSkillName (skillName : string) : option string :=
  if (Js.length skillName <? 1)%nat || (64 <? Js.length skillName)%nat then
    Some "Skill name must be 1-64 characters."
  else if negb (SKILL_NAME_PATTERN_test skillName) then
    Some "Skill name must be lowercase alphanumeric with optional hyphens (e.g. my-skill)."
  else None.

Definition toUpperChar (a : ascii) : ascii :=
  let n := nat_of_ascii a in
  if ((97 <=? n) && (n <=? 122))%nat then ascii_of_nat (n - 32) else a.

(** [part.charAt(0).toUpperCase() + part.slice(1)]. *)
Definition capitalize (part : string) : string :=
  match part with
  | EmptyString => EmptyString
  | String a rest => String (toUpperChar a) rest
  end.

Definition renderSkillTemplate (skillName : string) : string :=
  let title := Js.join " " (map capitalize (Js.splitChar "-" skillName)) in
  lines ["---";
         ("name: " ++ skillName)%string;
         ("description: " ++ title ++ " description.")%string;
         "---";
         "";
         ("# " ++ title)%string;
         "";
         "Describe what this skill does and when to use it.";
         ""].

Section WithWorld.
Variable w : World.

Definition runInitCommand (args : list string) (options : RunInitCommandOptions)
  : M State Z :=
  let cwd := Js.orElse (cwd options) (processCwd w) in
  let targetArg := match args with first :: _ => first | [] => "." end in
  let targetDir := resolveFrom cwd targetArg in
  let skillName := Fs.basename targetDir in
  match validateSkillName skillName with
  | Some validationError => stderr validationError ;;; ret 1%Z
  | None =>
      onDisk (fun d => Fs.mkdirSync d targetDir) ;;;
      let skillFilePath := Fs.join targetDir "SKILL.md" in
      exists_ <- look (fun d => Fs.existsSync d skillFilePath) ;;
      let refused :=
        exists_ && negb (match yes options with Some true => true | _ => false end)
        && negb (match confirmOverwrite options with
                 | Some confirm => confirm skillFilePath
                 | None => false
                 end) in
      if refused then
        stderr ("SKILL.md already exists at " ++ Fs.toString skillFilePath
                  ++ ". Use --yes to overwrite.")%string ;;;
        ret 1%Z
      else
        let template := renderSkillTemplate skillName in
        onDisk (fun d => Fs.writeFileSync d skillFilePath template) ;;;
        stdout ("Created " ++ Fs.toString skillFilePath)%string ;;;
        ret 0%Z
  end.

End WithWorld.

End Init.

(* ===================================================================== *)
(** * src/commands/add.ts *)
(* ===================================================================== *)

Module AddCommand.

Record ParsedAddArgs : Type := {
  source : option string;
  list_ : bool;
  global : bool;
  yes : bool;
  all : bool;
  copy : bool;
  skills : list string;
  agents : list string
}.

Record SourceSkill : Type := {
  name : string;
  description : string;
  path : Fs.path
}.

Record World : Type := {
  localeCompare : string -> string -> Z;
  parseYaml : string -> string + json
}.

(** [value.split(",").map(trim).filter(nonempty)]. *)
Definition splitListValue (value : string) : list string :=
  filter (fun item => negb (String.length item =? 0)%nat)
         (map Js.trim (Js.splitChar "," value)).

(** The loop over the values of one [--agent] option. *)
Fixpoint addAgents (agentValues : list string) (agents : list string)
  : result (list string) :=
  match agentValues with
  | [] => Ok agents
  | agent :: rest =>
      if String.eqb agent "*" then addAgents rest Agents.KNOWN_AGENTS
      else if negb (Agents.isKnown agent) then
        Throw (GenericError ("Unknown agent: " ++ agent)%string)
      else addAgents rest (agents ++ [agent])
  end.

(** The [for] loop of [parseAddArgs] over the tokens still to read. *)
Fixpoint parseLoop (args : list string) (parsed : ParsedAddArgs) : result ParsedAddArgs :=
  match args with
  | [] => Ok parsed
  | token :: rest =>
      if String.eqb token "--list" || String.eqb token "-l" then
        parseLoop rest
          {| source := source parsed; list_ := true; global := global parsed;
             yes := yes parsed; all := all parsed; copy := copy parsed;
             skills := skills parsed; agents := agents parsed |}
      else if String.eqb token "--all" then
        parseLoop rest
          {| source := source parsed; list_ := list_ parsed; global := global parsed;
             yes := true; all := true; copy := copy parsed;
             skills := ["*"]; agents := agents parsed |}
      else if String.eqb token "-g" || String.eqb token "--global" then
        parseLoop rest
          {| source := source parsed; list_ := list_ parsed; global := true;
             yes := yes parsed; all := all parsed; copy := copy parsed;
             skills := skills parsed; agents := agents parsed |}
      else if String.eqb token "-y" || String.eqb token "--yes" then
        parseLoop rest
          {| source := source parsed; list_ := list_ parsed; global := global parsed;
             yes := true; all := all parsed; copy := copy parsed;
             skills := skills parsed; agents := agents parsed |}
      else if String.eqb token "--copy" then
        parseLoop rest
          {| source := source parsed; list_ := list_ parsed; global := global parsed;
             yes := yes parsed; all := all parsed; copy := true;
             skills := skills parsed; agents := agents parsed |}
      else if String.eqb token "-s" || String.eqb token "--skill" then
        match rest with
        | value :: rest' =>
            if String.eqb value "" then Throw (GenericError "Missing value for --skill")
            else
              parseLoop rest'
                {| source := source parsed; list_ := list_ parsed;
                   global := global parsed; yes := yes parsed; all := all parsed;
                   copy := copy parsed;
                   skills := skills parsed ++ splitListValue value;
                   agents := agents parsed |}
        | [] => Throw (GenericError "Missing value for --skill")
        end
      else if String.eqb token "-a" || String.eqb token "--agent" then
        match rest with
        | value :: rest' =>
            if String.eqb value "" then Throw (GenericError "Missing value for --agent")
            else
              let! agents' := addAgents (splitListValue value) (agents parsed) in
              parseLoop rest'
                {| source := source parsed; list_ := list_ parsed;
                   global := global parsed; yes := yes parsed; all := all parsed;
                   copy := copy parsed; skills := skills parsed; agents := agents' |}
        | [] => Throw (GenericError "Missing value for --agent")
        end
      else if Js.startsWith token "-" then
        Throw (GenericError ("Unknown option: " ++ token)%string)
      else if negb (Js.truthy (source parsed)) then
        parseLoop rest
          {| source := Some token; list_ := list_ parsed; global := global parsed;
             yes := yes parsed; all := all parsed; copy := copy parsed;
             skills := skills parsed; agents := agents parsed |}
      else Throw (GenericError ("Unexpected argument: " ++ token)%string)
  end.

Definition selectInstallMethod (parsed : ParsedAddArgs)
           (promptSelectInstallMethod : option Installer.InstallMethod)
  : Installer.InstallMethod :=
  if copy parsed then Installer.copy
  else if yes parsed then Installer.symlink
  else match promptSelectInstallMethod with
       | Some answer => answer
       | None => Installer.symlink
       end.

Definition isDirectory (d : Fs.node) (candidatePath : Fs.path) : bool :=
  match Fs.statSync d candidatePath with
  | Some n => Fs.isDir n
  | None => false
  end.

Definition isFile (d : Fs.node) (candidatePath : Fs.path) : bool :=
  match Fs.statSync d candidatePath with
  | Some n => Fs.isFile n
  | None => false
  end.

Definition listChildDirectories (d : Fs.node) (root : Fs.path) : result (list Fs.path) :=
  let! entries := Fs.readdirSync d root in
  Ok (flat_map (fun entry =>
                  let fullPath := Fs.join root (fst entry) in
                  match snd entry with
                  | Fs.KDir => [fullPath]
                  | Fs.KLink => if isDirectory d fullPath then [fullPath] else []
                  | Fs.KFile => []
                  end)
               entries).

(** The files named SKILL.md below the directory [n] (itself at [here]), in
    the order the loop of [findSkillFiles] pushes them: the stack is popped
    from its end, so that after the file of a directory come the files
    below its last sub-directory, then those below the one before. *)
Fixpoint skillFilesIn (here : Fs.path) (n : Fs.node) : list Fs.path :=
  match n with
  | Fs.Dir es =>
      flat_map (fun entry =>
                  if Fs.isFile (snd entry) && String.eqb (fst entry) "SKILL.md"
                  then [Fs.join here (fst entry)] else [])
               es
      ++ (fix below (es : list (string * Fs.node)) : list Fs.path :=
            match es with
            | [] => []
            | (entryName, n') :: es' =>
                below es' ++ skillFilesIn (Fs.join here entryName) n'
            end) es
  | _ => []
  end.

(** [candidates.add(p)] on a set of paths kept in insertion order. *)
Fixpoint pathEqb (p q : Fs.path) : bool :=
  match p, q with
  | [], [] => true
  | a :: p', b :: q' => String.eqb a b && pathEqb p' q'
  | _, _ => false
  end.

Definition addPath (p : Fs.path) (s : list Fs.path) : list Fs.path :=
  if existsb (pathEqb p) s then s else s ++ [p].

Section WithWorld.
Variable w : World.

(** [[...new Set(items)].sort(localeCompare)]. *)
Definition uniqueSorted (items : list string) : list string :=
  Js.sortBy (localeCompare w) (Agents.unique items).

Definition parseAddArgs (args : list string) : result ParsedAddArgs :=
  let! parsed :=
    parseLoop args
      {| source := None; list_ := false; global := false; yes := false;
         all := false; copy := false; skills := []; agents := [] |} in
  Ok {| source := source parsed; list_ := list_ parsed; global := global parsed;
        yes := yes parsed; all := all parsed; copy := copy parsed;
        skills := uniqueSorted (skills parsed);
        agents := uniqueSorted (agents parsed) |}.

Definition findSkillFiles (d : Fs.node) (root : Fs.path) : result (list Fs.path) :=
  match Fs.statSync d root with
  | Some (Fs.Dir es) =>
      Ok (Js.sortBy (fun a b => localeCompare w (Fs.toString a) (Fs.toString b))
            (skillFilesIn root (Fs.Dir es)))
  | Some _ => Throw (Fs.fsError "ENOTDIR" root)
  | None => Throw (Fs.fsError "ENOENT" root)
  end.

(** The loop that fills [candidates] from the standard roots. *)
Fixpoint collectCandidates (d : Fs.node) (roots : list Fs.path)
         (candidates : list Fs.path) : result (list Fs.path) :=
  match roots with
  | [] => Ok candidates
  | root :: rest =>
      if negb (isDirectory d root) then collectCandidates d rest candidates
      else
        let candidates := addPath root candidates in
        let! children := listChildDirectories d root in
        collectCandidates d rest
          (fold_left (fun candidates child => addPath child candidates)
                     children candidates)
  end.

(** The closure [addFromDirectory]; its state is [seen] and [skills]. *)
Definition addFromDirectory (d : Fs.node) (state : list string * list SourceSkill)
           (skillDir : Fs.path) : list string * list SourceSkill :=
  let (seen, skills) := state in
  let skillFile := Fs.join skillDir "SKILL.md" in
  if negb (isFile d skillFile) then state
  else
    match (let! text := Fs.readFileSync d skillFile in
           Skill.parseSkillMarkdown (parseYaml w) text
             {| Skill.path := Some skillFile; Skill.expectedName := None |}) with
    | Throw _ => state
    | Ok parsed =>
        let skillName := Skill.name (Skill.frontmatter parsed) in
        if existsb (String.eqb skillName) seen then state
        else
          (seen ++ [skillName],
           skills ++ [{| name := skillName;
                         description := Skill.description (Skill.frontmatter parsed);
                         path := skillDir |}])
    end.

Definition discoverSourceSkills (d : Fs.node) (contentPath : Fs.path)
  : result (list SourceSkill) :=
  let standardRoots :=
    [contentPath;
     Fs.join contentPath "skills";
     Fs.join (Fs.join contentPath "skills") ".curated";
     Fs.join (Fs.join contentPath "skills") ".experimental";
     Fs.join (Fs.join contentPath "skills") ".system"] in
  let! candidates := collectCandidates d standardRoots [] in
  let sorted :=
    Js.sortBy (fun a b => localeCompare w (Fs.toString a) (Fs.toString b)) candidates in
  let state := fold_left (addFromDirectory d) sorted ([], []) in
  let! state :=
    if (List.length (snd state) =? 0)%nat then
      let! skillFiles := findSkillFiles d contentPath in
      Ok (fold_left (addFromDirectory d) (map Fs.dirname skillFiles) state)
    else Ok state in
  Ok (Js.sortBy (fun left right => localeCompare w (name left) (name right))
        (snd state)).

Definition selectSkills (parsed : ParsedAddArgs) (availableSkills : list SourceSkill)
           (promptSelectSkills : option (list string -> list string))
  : result (list SourceSkill) :=
  let names := map name availableSkills in
  let includes (l : list string) (x : string) := existsb (String.eqb x) l in
  if includes (skills parsed) "*" then Ok availableSkills
  else if (0 <? List.length (skills parsed))%nat then
    let missing := filter (fun n => negb (includes names n)) (skills parsed) in
    if (0 <? List.length missing)%nat then
      Throw (GenericError ("Requested skill(s) not found: " ++ Js.join ", " missing)%string)
    else Ok (filter (fun skill => includes (skills parsed) (name skill)) availableSkills)
  else if yes parsed then Ok availableSkills
  else
    match promptSelectSkills with
    | Some prompt =>
        let selected := uniqueSorted (prompt names) in
        if (List.length selected =? 0)%nat then Throw (GenericError "No skills selected.")
        else
          let missing := filter (fun n => negb (includes names n)) selected in
          if (0 <? List.length missing)%nat then
            Throw (GenericError
                     ("Selected skill(s) not found: " ++ Js.join ", " missing)%string)
          else Ok (filter (fun skill => includes selected (name skill)) availableSkills)
    | None => Ok availableSkills
    end.

End WithWorld.

End AddCommand.

(* ===================================================================== *)
(** * src/commands/update.ts and the command line of src/commands/check.ts *)
(* ===================================================================== *)

Module UpdateCommand.

Record ParsedUpdateArgs : Type := {
  global : bool;
  yes : bool
}.

(** The [for] loop of [parseUpdateArgs]. *)
Fixpoint parseLoop (args : list string) (parsed : ParsedUpdateArgs)
  : result ParsedUpdateArgs :=
  match args with
  | [] => Ok parsed
  | token :: rest =>
      if String.eqb token "-g" || String.eqb token "--global" then
        parseLoop rest {| global := true; yes := yes parsed |}
      else if String.eqb token "-y" || String.eqb token "--yes" then
        parseLoop rest {| global := global parsed; yes := true |}
      else if Js.startsWith token "-" then
        Throw (GenericError ("Unknown option: " ++ token)%string)
      else parseLoop rest parsed
  end.

Definition parseUpdateArgs (args : list string) : result ParsedUpdateArgs :=
  parseLoop args {| global := false; yes := false |}.

Definition buildSourceArg (source : Check.LockfileSourceEntry) : string :=
  if String.eqb (Check.type source) "git" then
    if Js.truthy (Check.ref source)
    then (Check.url source ++ "#" ++ Js.orElse (Check.ref source) "")%string
    else Check.url source
  else Check.url source.

Definition buildAddArgs (source : Check.LockfileSourceEntry) (skills : list string)
           (global : bool) : list string :=
  [buildSourceArg source; "--skill"; Js.join "," skills]
  ++ (if (0 <? List.length (Check.agents source))%nat
      then ["--agent"; Js.join "," (Check.agents source)] else [])
  ++ (if global then ["--global"] else [])
  ++ ["-y"].

End UpdateCommand.

Module CheckCommand.

(** The [for] loop of [parseCheckArgs]. *)
Fixpoint parseLoop (args : list string) (global : bool) : result bool :=
  match args with
  | [] => Ok global
  | token :: rest =>
      if String.eqb token "-g" || String.eqb token "--global" then parseLoop rest true
      else if Js.startsWith token "-" then
        Throw (GenericError ("Unknown option: " ++ token)%string)
      else parseLoop rest global
  end.

Definition parseCheckArgs (args : list string) : result bool :=
  parseLoop args false.

Definition lockPathOf (scope : Lockfile.Scope) (cwd homeDir : Fs.path) : Fs.path :=
  match scope with
  | Lockfile.project => Fs.join cwd "skillet.lock.yaml"
  | Lockfile.global => Fs.join (Fs.join homeDir ".skillet") "skillet.lock.yaml"
  end.

Section WithYaml.
(** [parse] of the [yaml] package: the error message, or the value. *)
Variable parseYaml : string -> string + json.

(** [loadLockfile]: [None] is [undefined]; the sources are the value of
    [parsed.sources ?? []], the cast of the sources does not look at it.
    Reading a member of [null] is a [TypeError]. *)
Definition loadLockfile (scope : Lockfile.Scope) (cwd homeDir : Fs.path) (d : Fs.node)
  : result (option (Fs.path * json)) :=
  let lockPath := lockPathOf scope cwd homeDir in
  if negb (Fs.existsSync d lockPath) then Ok None
  else
    let! text := Fs.readFileSync d lockPath in
    let! parsed := match parseYaml text with
                   | inr v => Ok v
                   | inl message => Throw (OtherError message)
                   end in
    let! sources :=
      match parsed with
      | JNull => Throw (OtherError "TypeError: Cannot read properties of null")
      | JObject members =>
          Ok (if Json.nullish (Json.get members "sources") then JArray []
              else Js.orElse (Json.get members "sources") (JArray []))
      | _ => Ok (JArray [])
      end in
    Ok (Some (lockPath, sources)).

End WithYaml.

End CheckCommand.

(* ===================================================================== *)
(** * src/skills/discovery.ts *)
(* ===================================================================== *)

Module Discovery.

Inductive SkillSource : Type := standard | agent | fallback.

Record DiscoveryWarning : Type := {
  warningPath : Fs.path;
  message : string;
  field : option string
}.

Record DiscoveredSkill : Type := {
  name : string;
  description : string;
  path : Fs.path;
  source : SkillSource
}.

Record DiscoverSkillsOptions : Type := {
  cwd : option Fs.path;
  homeDir : option Fs.path;
  verbose : option bool
}.

Record DiscoverSkillsResult : Type := {
  skills : list DiscoveredSkill;
  warnings : list DiscoveryWarning;
  usedFallback : bool
}.

Definition STANDARD_SKILL_DIRS : list string :=
  ["."; "skills"; "skills/.curated"; "skills/.experimental"; "skills/.system"].

Definition KNOWN_AGENT_SKILL_DIRS : list string :=
  [".claude/skills"; ".codex/skills"; ".opencode/skills"; ".cursor/skills";
   ".windsurf/skills"].

Definition FALLBACK_IGNORED_DIRS : list string :=
  [".git"; "node_modules"; "dist"; ".worktrees"; "worktrees"].

(** The part of [CollectContext] the calls share and change: the two
    arrays and the two sets, in insertion order. *)
Record Collected : Type := {
  found : list DiscoveredSkill;
  warned : list DiscoveryWarning;
  seenCanonicalPaths : list Fs.path;
  seenNames : list string
}.

Record World : Type := {
  processCwd : Fs.path;
  osHomedir : Fs.path;
  localeCompare : string -> string -> Z;
  parseYaml : string -> string + json
}.

Definition isDirectory (d : Fs.node) (candidatePath : Fs.path) : bool :=
  match Fs.statSync d candidatePath with
  | Some n => Fs.isDir n
  | None => false
  end.

Definition isFile (d : Fs.node) (candidatePath : Fs.path) : bool :=
  match Fs.statSync d candidatePath with
  | Some n => Fs.isFile n
  | None => false
  end.

(** [fs.realpathSync], or the path itself when that throws. *)
Definition toCanonicalPath (d : Fs.node) (directoryPath : Fs.path) : Fs.path :=
  match Fs.resolve d true directoryPath with
  | Some (realPath, _) => realPath
  | None => directoryPath
  end.

Definition listChildDirectories (d : Fs.node) (root : Fs.path) : result (list Fs.path) :=
  let! entries := Fs.readdirSync d root in
  Ok (flat_map (fun dirent =>
                  let candidate := Fs.join root (fst dirent) in
                  match snd dirent with
                  | Fs.KDir => [candidate]
                  | Fs.KLink => if isDirectory d candidate then [candidate] else []
                  | Fs.KFile => []
                  end)
               entries).

(** The files the loop of [findSkillFilesRecursively] pushes for the
    directory [n] at [here], in its order: the stack is popped from its
    end, so after the file of a directory come the files below its last
    sub-directory that is not ignored, then those below the one before. *)
Fixpoint skillFilesBelow (d : Fs.node) (here : Fs.path) (n : Fs.node) : list Fs.path :=
  match n with
  | Fs.Dir es =>
      flat_map (fun dirent =>
                  let candidate := Fs.join here (fst dirent) in
                  match snd dirent with
                  | Fs.Dir _ => []
                  | _ =>
                      if String.eqb (fst dirent) "SKILL.md" && isFile d candidate
                      then [candidate] else []
                  end)
               es
      ++ (fix below (es : list (string * Fs.node)) : list Fs.path :=
            match es with
            | [] => []
            | (direntName, n') :: es' =>
                below es'
                ++ match n' with
                   | Fs.Dir _ =>
                       if existsb (String.eqb direntName) FALLBACK_IGNORED_DIRS then []
                       else skillFilesBelow d (Fs.join here direntName) n'
                   | _ => []
                   end
            end) es
  | _ => []
  end.

Section WithWorld.
Variable w : World.

Definition comparePaths (a b : Fs.path) : Z :=
  localeCompare w (Fs.toString a) (Fs.toString b).

Definition findSkillFilesRecursively (d : Fs.node) (root : Fs.path)
  : result (list Fs.path) :=
  match Fs.statSync d root with
  | Some (Fs.Dir es) => Ok (Js.sortBy comparePaths (skillFilesBelow d root (Fs.Dir es)))
  | Some _ => Throw (Fs.fsError "ENOTDIR" root)
  | None => Throw (Fs.fsError "ENOENT" root)
  end.

(** [collectFromSkillDir]: the context after the call, and its result. *)
Definition collectFromSkillDir (d : Fs.node) (source : SkillSource) (verbose : bool)
           (context : Collected) (skillDir : Fs.path) : Collected * bool :=
  let skillFile := Fs.join skillDir "SKILL.md" in
  if negb (isFile d skillFile) then (context, false)
  else
    match (let! text := Fs.readFileSync d skillFile in
           Skill.parseSkillMarkdown (parseYaml w) text
             {| Skill.path := Some skillFile; Skill.expectedName := None |}) with
    | Throw error =>
        (match error with
         | SkillParseError errorMessage errorField =>
             if verbose then
               {| found := found context;
                  warned := warned context
                            ++ [{| warningPath := skillFile; message := errorMessage;
                                   field := errorField |}];
                  seenCanonicalPaths := seenCanonicalPaths context;
                  seenNames := seenNames context |}
             else context
         | _ => context
         end, true)
    | Ok parsed =>
        let canonicalPath := toCanonicalPath d skillDir in
        let skillName := Skill.name (Skill.frontmatter parsed) in
        if existsb (AddCommand.pathEqb canonicalPath) (seenCanonicalPaths context)
           || existsb (String.eqb skillName) (seenNames context) then (context, true)
        else
          ({| found := found context
                       ++ [{| name := skillName;
                              description := Skill.description (Skill.frontmatter parsed);
                              path := skillDir;
                              source := source |}];
              warned := warned context;
              seenCanonicalPaths := seenCanonicalPaths context ++ [canonicalPath];
              seenNames := seenNames context ++ [skillName] |}, true)
    end.

(** The loop of [collectFromRoot] over the sorted candidates. *)
Fixpoint collectCandidates (d : Fs.node) (source : SkillSource) (verbose : bool)
         (skillDirs : list Fs.path) (context : Collected) (candidateCount : nat)
  : Collected * nat :=
  match skillDirs with
  | [] => (context, candidateCount)
  | skillDir :: rest =>
      let (context, hasSkillFile) := collectFromSkillDir d source verbose context skillDir in
      collectCandidates d source verbose rest context
        (if hasSkillFile then candidateCount + 1 else candidateCount)
  end.

(** [collectFromRoot]: the context after the call, [discoveredCount] and
    [candidateCount]. *)
Definition collectFromRoot (d : Fs.node) (source : SkillSource) (verbose : bool)
           (context : Collected) (root : Fs.path) : result (Collected * (nat * nat)) :=
  let discoveredBefore := List.length (found context) in
  let! children := listChildDirectories d root in
  let candidateDirs :=
    fold_left (fun candidates p => AddCommand.addPath p candidates) (root :: children) [] in
  let (context, candidateCount) :=
    collectCandidates d source verbose (Js.sortBy comparePaths candidateDirs) context 0 in
  Ok (context, (List.length (found context) - discoveredBefore, candidateCount)).

(** The two loops of [discoverSkills] over roots, with their counters. *)
Fixpoint collectRoots (d : Fs.node) (source : SkillSource) (verbose : bool)
         (roots : list Fs.path) (context : Collected) (skillCount candidateCount : nat)
  : result (Collected * (nat * nat)) :=
  match roots with
  | [] => Ok (context, (skillCount, candidateCount))
  | root :: rest =>
      let! (context, counts) := collectFromRoot d source verbose context root in
      collectRoots d source verbose rest context
        (skillCount + fst counts) (candidateCount + snd counts)
  end.

Definition collectAgentRoots (d : Fs.node) (cwd homeDir : Fs.path) : list Fs.path :=
  let roots :=
    fold_left (fun roots relativePath =>
                 AddCommand.addPath (Init.resolveFrom homeDir relativePath)
                   (AddCommand.addPath (Init.resolveFrom cwd relativePath) roots))
              KNOWN_AGENT_SKILL_DIRS [] in
  Js.sortBy comparePaths (filter (isDirectory d) roots).

(** The comparator of the last sort. *)
Definition compareSkills (left right : DiscoveredSkill) : Z :=
  let nameCompare := localeCompare w (name left) (name right) in
  if negb (nameCompare =? 0)%Z then nameCompare
  else localeCompare w (Fs.toString (path left)) (Fs.toString (path right)).

Definition discoverSkills (d : Fs.node) (options : DiscoverSkillsOptions)
  : result DiscoverSkillsResult :=
  let cwd := Js.orElse (cwd options) (processCwd w) in
  let homeDir := Js.orElse (homeDir options) (osHomedir w) in
  let verbose := match verbose options with Some true => true | _ => false end in
  let context :=
    {| found := []; warned := []; seenCanonicalPaths := []; seenNames := [] |} in
  let standardRoots :=
    Js.sortBy comparePaths
      (filter (isDirectory d) (map (Init.resolveFrom cwd) STANDARD_SKILL_DIRS)) in
  let! (context, standardCounts) :=
    collectRoots d standard verbose standardRoots context 0 0 in
  let standardSkillCount := fst standardCounts in
  let standardCandidateCount := snd standardCounts in
  let agentRoots := collectAgentRoots d cwd homeDir in
  let! (context, agentCounts) := collectRoots d agent verbose agentRoots context 0 0 in
  let agentCandidateCount := snd agentCounts in
  let useFallback :=
    (standardCandidateCount =? 0)%nat && (standardSkillCount =? 0)%nat
    && (agentCandidateCount =? 0)%nat in
  let! context :=
    if useFallback then
      let! skillFiles := findSkillFilesRecursively d cwd in
      Ok (fold_left (fun context skillFile =>
                       fst (collectFromSkillDir d fallback verbose context
                              (Fs.dirname skillFile)))
                    skillFiles context)
    else Ok context in
  Ok {| skills := Js.sortBy compareSkills (found context);
        warnings := warned context;
        usedFallback := useFallback |}.

End WithWorld.

End Discovery.

(* ===================================================================== *)
(** * Vocabulary of the statements about strings *)
(* ===================================================================== *)

Module Text.

(** The character [c] does not occur in [s]. *)
Definition without (c : ascii) (s : string) : Prop := Oci.indexOfChar c s = None.

(** [s] has no white character at either end: [trim] leaves it as it is. *)
Definition trimmed (s : string) : Prop := Js.trim s = s.

(** The text after the white character [s] starts with, when it starts
    with one. *)
Definition afterSpace (s : string) : option string :=
  match s with
  | EmptyString => None
  | String a s1 =>
      if Js.isSpace a then Some s1
      else match s1 with
           | EmptyString => None
           | String b s2 =>
               if Js.isSpace2 a b then Some s2
               else match s2 with
                    | EmptyString => None
                    | String c s3 => if Js.isSpace3 a b c then Some s3 else None
                    end
           end
  end.

(** The bytes of the ASCII characters. *)
Definition isAscii (a : ascii) : bool := (nat_of_ascii a <? 128)%nat.

(** An ASCII character that is not white: no white character starts or
    goes on with its byte. *)
Definition isBlack (a : ascii) : bool := isAscii a && negb (Js.isSpace a).

End Text.

Module LineSpec.

(** A line of a text: no line feed in it and no carriage return at its
    end, so that splitting the text leaves it as it is. *)
Definition isLine (s : string) : Prop :=
  Text.without Js.LF s /\ Js.endsWith s (String Js.CR "") = false.

(** The characters of skill names: lower-case letters, digits, hyphen. *)
Definition isNameChar (a : ascii) : bool :=
  Skill.isLowerAlnum a || Ascii.eqb a "-".

(** Non-empty runs of lower-case letters and digits separated by single
    hyphens, as [NAME_PATTERN] reads. *)
Definition wellFormedName (name : string) : Prop :=
  name <> ""
  /\ Skill.allChars isNameChar name = true
  /\ Js.startsWith name "-" = false
  /\ Js.endsWith name "-" = false
  /\ Js.includes name "--" = false.

End LineSpec.

Module DescriptorSpec.

(** What [normalizeMetadata] lets through: a boolean under [internal], a
    string under any other key. *)
Definition metadataEntryOk (entry : string * json) : Prop :=
  if String.eqb (fst entry) "internal" then exists b, snd entry = JBool b
  else exists s, snd entry = JString s.

(** The name the options of a parse ask for. *)
Definition expectedNameOf (options : Skill.ParseOptions) : option string :=
  match Skill.expectedName options with
  | Some e => Some e
  | None => Skill.deriveExpectedName (Skill.path options)
  end.

End DescriptorSpec.

(* ===================================================================== *)
(** * Vocabulary of the statements about the traces of the resolvers *)
(* ===================================================================== *)

Module TraceSpec.

(** The URLs a run has requested, in order. *)
Definition fetched (log : list event) : list string :=
  flat_map (fun e => match e with EvFetch url => [url] | _ => [] end) log.

(** The commands a run has executed, in order. *)
Definition executed (log : list event) : list (string * list string) :=
  flat_map (fun e => match e with EvExec cmd args => [(cmd, args)] | _ => [] end) log.

(** The files a run has written, in order. *)
Definition written (log : list event) : list (Fs.path * string) :=
  flat_map (fun e => match e with EvWriteFile p content => [(p, content)] | _ => [] end) log.

(** The entries a listing command has printed: one per non-blank line. *)
Definition listed (stdout : string) : list string :=
  filter (fun entry => negb (String.eqb entry ""))
         (map Js.trim (Js.splitLines (Js.trim stdout))).

End TraceSpec.

(** A registry that serves one skill artifact with a single layer, and a
    [tar] that lists and unpacks it. *)
Definition skillManifest : json :=
  JObject [("artifactType", JString "application/vnd.skillet.skill.v1+tar");
           ("layers", JArray [JObject [("digest", JString "sha256:1a2b")]])].

Definition skillRegistryWorld : Oci.World :=
  {| Oci.tmpdir := ["tmp"];
     Oci.mkdtemp := fun root prefix => root ++ [(prefix ++ "x1")%string];
     Oci.fetch := fun _ =>
       Oci.FetchResolved
         {| Oci.ok := true; Oci.status := 200; Oci.statusText := "OK";
            Oci.text := "{manifest}"; Oci.dockerContentDigest := Some "sha256:feed" |};
     Oci.JSON_parse := fun _ => Some skillManifest;
     Oci.execFileSync := fun _ _ => ExecOk (lines ["demo/"; "demo/SKILL.md"; ""]);
     Oci.extracted :=
       Fs.Dir [("tmp", Fs.Dir [("skillet-oci-x1",
                 Fs.Dir [("layer.tar", Fs.File "{manifest}");
                         ("extract", Fs.Dir [("demo",
                            Fs.Dir [("SKILL.md", Fs.File "---")])])])])];
     Oci.sha256hex := fun _ => "00" |}.

(* ===================================================================== *)
(** * Vocabulary of the statements about the check command *)
(* ===================================================================== *)

Module ReportSpec.

(** The line of the report for one skill of a lock entry. *)
Definition reportOf (w : Check.World) (source : Check.LockfileSourceEntry)
           (skill : string) : Check.CheckResult :=
  let status := Check.checkSource w source in
  {| Check.source := source;
     Check.skill := skill;
     Check.resultStatus := Check.status status;
     Check.currentDigest := Check.digest source;
     Check.resultLatestDigest := Check.latestDigest status;
     Check.resultMessage := Check.message status |}.

(** How many skills the entries of a lockfile record. *)
Definition recordedSkills (sources : list Check.LockfileSourceEntry) : nat :=
  list_sum (map (fun source => List.length (Check.skills source)) sources).

(** The two spellings of the one flag [check] knows. *)
Definition isGlobalFlag (token : string) : bool :=
  String.eqb token "-g" || String.eqb token "--global".

(** A lock entry as [add] records an OCI source. *)
Definition ociEntry (source digest : string) (skills agents : list string)
           (installMethod : string) : Check.LockfileSourceEntry :=
  {| Check.type := "oci";
     Check.url := source;
     Check.ref := None;
     Check.digest := Some digest;
     Check.installMethod := installMethod;
     Check.skills := skills;
     Check.agents := agents |}.

(** The world of [check] that talks to the registry of an OCI world. *)
Definition checkWorldOf (w : Oci.World) : Check.World :=
  {| Check.execFileSync := fun _ _ => ExecFailed None;
     Check.fetch := Oci.fetch w;
     Check.sha256hex := Oci.sha256hex w;
     Check.localeCompare := fun _ _ => 0%Z |}.

End ReportSpec.

(* ===================================================================== *)
(** * Vocabulary of the statements about the scan of the generator *)
(* ===================================================================== *)

Module LockScan.

(** The provenance of a lock entry, spelt as the grouping key spells it. *)
Definition provenanceKey (s : Lockfile.LockfileSource) : string :=
  Js.join "|" (LockSpec.identityTuple s).

(** One of the agents the generator scans. *)
Definition knownAgent (agent : string) : Prop :=
  In agent (map fst Lockfile.AGENT_SKILL_DIRS).

(** The name of the skill a directory holds: the name in the front matter
    of its SKILL.md, when that file is there and is a valid descriptor. *)
Definition skillNameAt (w : Lockfile.World) (d : Fs.node) (skillDir : Fs.path)
  : option string :=
  let skillFile := Fs.join skillDir "SKILL.md" in
  if Lockfile.isFile d skillFile then
    match Fs.readFileSync d skillFile with
    | Ok text =>
        match Skill.parseSkillMarkdown (Lockfile.parseYaml w) text
                {| Skill.path := Some skillFile; Skill.expectedName := None |} with
        | Ok skill => Some (Skill.name (Skill.frontmatter skill))
        | Throw _ => None
        end
    | Throw _ => None
    end
  else None.

(** The skill [name] is installed for [agent] below the scan root: one of
    the directories of the agent's skills directory holds it. *)
Definition installedFor (w : Lockfile.World) (d : Fs.node) (scanRoot : Fs.path)
           (agent name : string) : Prop :=
  exists relativePath skillDirs skillDir,
    In (agent, relativePath) Lockfile.AGENT_SKILL_DIRS
    /\ Lockfile.isDirectory d (scanRoot ++ relativePath) = true
    /\ Lockfile.listSkillDirectories w d (scanRoot ++ relativePath) = Ok skillDirs
    /\ In skillDir skillDirs
    /\ skillNameAt w d skillDir = Some name.

(** The groups of a scan under way are well kept: one group per key, each
    under the key of its provenance, with the skills and agents seen. *)
Definition wellKept (groupedSources : Lockfile.Groups) : Prop :=
  NoDup (map fst groupedSources)
  /\ Forall (fun entry =>
               fst entry = Lockfile.groupingKey (Lockfile.source (snd entry))
               /\ Lockfile.groupSkills (snd entry) <> []
               /\ Lockfile.groupAgents (snd entry) <> []
               /\ NoDup (Lockfile.groupSkills (snd entry))
               /\ NoDup (Lockfile.groupAgents (snd entry))
               /\ Forall knownAgent (Lockfile.groupAgents (snd entry)))
            groupedSources.

(** The groups account for the pairs of agent and skill seen so far. *)
Definition accounts (groupedSources : Lockfile.Groups) (seen : list (string * string))
  : Prop :=
  (forall agent name, In (agent, name) seen ->
     exists g, In g (map snd groupedSources)
               /\ In name (Lockfile.groupSkills g) /\ In agent (Lockfile.groupAgents g))
  /\ (forall g name, In g (map snd groupedSources) -> In name (Lockfile.groupSkills g) ->
        exists agent, In agent (Lockfile.groupAgents g) /\ In (agent, name) seen)
  /\ (forall g agent, In g (map snd groupedSources) -> In agent (Lockfile.groupAgents g) ->
        exists name, In name (Lockfile.groupSkills g) /\ In (agent, name) seen).

End LockScan.

(* ===================================================================== *)
(** * Vocabulary of the statements about agents *)
(* ===================================================================== *)

Module AgentSpec.

(** Where the skills of an agent live, for the project and for the user:
    the agent's directory of the lockfile generator below the working
    directory and below the home directory. *)
Definition skillsDirectory (cwd homeDir relativePath : Fs.path)
           (location : Agents.Location) : Fs.path :=
  match location with
  | Agents.inProject => cwd ++ relativePath
  | Agents.inGlobal => homeDir ++ relativePath
  end.

End AgentSpec.

(* ===================================================================== *)
(** * Vocabulary of the statements about the add command *)
(* ===================================================================== *)

Module AddSpec.

(** The directory [skillDir] holds a valid descriptor with this name and
    description: its SKILL.md is a file that parses, the name of the
    directory being the expected name. *)
Definition holdsSkill (w : AddCommand.World) (d : Fs.node) (skillDir : Fs.path)
           (name description : string) : Prop :=
  exists text parsed,
    AddCommand.isFile d (Fs.join skillDir "SKILL.md") = true
    /\ Fs.readFileSync d (Fs.join skillDir "SKILL.md") = Ok text
    /\ Skill.parseSkillMarkdown (AddCommand.parseYaml w) text
         {| Skill.path := Some (Fs.join skillDir "SKILL.md");
            Skill.expectedName := None |} = Ok parsed
    /\ Skill.name (Skill.frontmatter parsed) = name
    /\ Skill.description (Skill.frontmatter parsed) = description.

End AddSpec.

(* ===================================================================== *)
(** * Vocabulary of the statements about discovery *)
(* ===================================================================== *)

Module DiscoverySpec.

(** The directory [skillDir] holds a valid descriptor with this name and
    description: its SKILL.md is a file that parses, the name of the
    directory being the expected name. *)
Definition holdsSkill (w : Discovery.World) (d : Fs.node) (skillDir : Fs.path)
           (name description : string) : Prop :=
  exists text parsed,
    Discovery.isFile d (Fs.join skillDir "SKILL.md") = true
    /\ Fs.readFileSync d (Fs.join skillDir "SKILL.md") = Ok text
    /\ Skill.parseSkillMarkdown (Discovery.parseYaml w) text
         {| Skill.path := Some (Fs.join skillDir "SKILL.md");
            Skill.expectedName := None |} = Ok parsed
    /\ Skill.name (Skill.frontmatter parsed) = name
    /\ Skill.description (Skill.frontmatter parsed) = description.

(** The warning reports what the parser said of a SKILL.md that is there. *)
Definition reportsInvalid (w : Discovery.World) (d : Fs.node)
           (warning : Discovery.DiscoveryWarning) : Prop :=
  exists skillDir text,
    Discovery.warningPath warning = Fs.join skillDir "SKILL.md"
    /\ Discovery.isFile d (Fs.join skillDir "SKILL.md") = true
    /\ Fs.readFileSync d (Fs.join skillDir "SKILL.md") = Ok text
    /\ Skill.parseSkillMarkdown (Discovery.parseYaml w) text
         {| Skill.path := Some (Fs.join skillDir "SKILL.md");
            Skill.expectedName := None |}
       = Throw (SkillParseError (Discovery.message warning) (Discovery.field warning)).

(** The canonical path of the directory of a discovered skill. *)
Definition canonicalPathOf (d : Fs.node) (skill : Discovery.DiscoveredSkill) : Fs.path :=
  Discovery.toCanonicalPath d (Discovery.path skill).

(** What the collecting calls keep of their context: the two sets are the
    names and the canonical paths of the skills found, no two of which are
    the same; the skills found are held by their directories and come from
    the sources [allowed]; the warnings report invalid descriptors, and
    there is none unless [verbose]. *)
Definition kept (w : Discovery.World) (d : Fs.node)
           (allowed : Discovery.SkillSource -> Prop) (verbose : bool)
           (context : Discovery.Collected) : Prop :=
  Discovery.seenNames context = map Discovery.name (Discovery.found context)
  /\ Discovery.seenCanonicalPaths context
     = map (canonicalPathOf d) (Discovery.found context)
  /\ NoDup (Discovery.seenNames context)
  /\ NoDup (Discovery.seenCanonicalPaths context)
  /\ Forall (fun skill =>
               holdsSkill w d (Discovery.path skill) (Discovery.name skill)
                 (Discovery.description skill)
               /\ allowed (Discovery.source skill))
            (Discovery.found context)
  /\ Forall (reportsInvalid w d) (Discovery.warned context)
  /\ (verbose = false -> Discovery.warned context = []).

End DiscoverySpec.

Unset Implicit Arguments.

(* ===================================================================== *)
(** * Sanity checks of the primitives *)
(* ===================================================================== *)

Example normalize_ex1 : PosixPath.normalize "a/../../b" = "../b".
Proof. reflexivity. Qed.
Example normalize_ex2 : PosixPath.normalize "a//b/./c/.." = "a/b".
Proof. reflexivity. Qed.
Example normalize_ex3 : PosixPath.normalize "../" = "../".
Proof. reflexivity. Qed.
Example normalize_ex4 : PosixPath.normalize "/../x/" = "/x/".
Proof. reflexivity. Qed.
Example normalize_ex5 : PosixPath.normalize "a/.." = ".".
Proof. reflexivity. Qed.
Example normalize_ex6 : PosixPath.normalize "..foo/bar" = "..foo/bar".
Proof. reflexivity. Qed.
Example splitLines_ex :
  Js.splitLines ("a" ++ String Js.CR (String Js.LF "b") ++ String Js.LF "")%string
  = ["a"; "b"; ""].
Proof. reflexivity. Qed.
Example trim_ex : Js.trim "  --- 	" = "---".
Proof. reflexivity. Qed.
Example resolve_through_link :
  Fs.readFileSync demoFs ["proj"; "link"; "SKILL.md"] = Ok "x".
Proof. reflexivity. Qed.
Example lstat_link :
  Fs.lstatSync demoFs ["proj"; "link"] = Some (Fs.Symlink ["store"; "a"]).
Proof. reflexivity. Qed.
Example stat_loop : Fs.statSync demoFs ["proj"; "loop"] = None.
Proof. reflexivity. Qed.
Example mkdir_write :
  (let! r := Fs.mkdirSync demoFs ["proj"; "link"; "sub"; "deep"] in
   let! r := Fs.writeFileSync r ["proj"; "link"; "sub"; "deep"; "f"] "y" in
   Fs.readFileSync r ["store"; "a"; "sub"; "deep"; "f"]) = Ok "y".
Proof. reflexivity. Qed.
Example rename_cp :
  (let! r := Fs.cpSync demoFs ["store"; "a"] ["proj"; "tmp"] in
   let! r := Fs.rmSync r ["proj"; "link"] in
   let! r := Fs.renameSync r ["proj"; "tmp"] ["proj"; "link"] in
   Ok (Fs.lstatSync r ["proj"; "link"], Fs.existsSync r ["proj"; "tmp"]))
  = Ok (Some (Fs.Dir [("SKILL.md", Fs.File "x")]), false).
Proof. reflexivity. Qed.
Example showZ_ex : showZ 10000 = "10000".
Proof. reflexivity. Qed.

(* ===================================================================== *)
(** * Strings: prefixes, slices and separators *)
(* ===================================================================== *)

Section StringFacts.
Import Text.

Lemma append_nil_r (s : string) : (s ++ "")%string = s.
Proof. induction s as [|a s IH]; cbn [append]; [reflexivity|]. rewrite IH. reflexivity. Qed.

Lemma append_assoc (a b c : string) : ((a ++ b) ++ c = a ++ (b ++ c))%string.
Proof. induction a as [|x a IH]; cbn [append]; [reflexivity|]. rewrite IH. reflexivity. Qed.

Lemma append_length (a b : string) :
  String.length (a ++ b) = String.length a + String.length b.
Proof. induction a as [|x a IH]; cbn [append String.length]; [reflexivity|]. rewrite IH. reflexivity. Qed.

Lemma length_zero (s : string) : String.length s = 0 -> s = "".
Proof. destruct s; [reflexivity|discriminate]. Qed.

(** ** [startsWith] and [endsWith] *)

Lemma startsWith_append (p s : string) : Js.startsWith (p ++ s) p = true.
Proof.
  induction p as [|a p IH]; cbn [append Js.startsWith]; [reflexivity|].
  rewrite Ascii.eqb_refl, IH. reflexivity.
Qed.

Lemma startsWith_inv (p : string) :
  forall s, Js.startsWith s p = true -> exists rest, s = (p ++ rest)%string.
Proof.
  induction p as [|a p IH]; intros s H; cbn [Js.startsWith] in H.
  - exists s. reflexivity.
  - destruct s as [|b s]; [discriminate|].
    apply andb_prop in H as [Hab Hp]. apply Ascii.eqb_eq in Hab as ->.
    destruct (IH s Hp) as [rest ->]. exists rest. reflexivity.
Qed.

Lemma startsWith_cons (a : ascii) (s p : string) :
  Js.startsWith (String a s) (String a p) = Js.startsWith s p.
Proof. cbn [Js.startsWith]. rewrite Ascii.eqb_refl. reflexivity. Qed.

Lemma startsWith_trans (s p q : string) :
  Js.startsWith s p = true -> Js.startsWith p q = true -> Js.startsWith s q = true.
Proof.
  intros Hsp Hpq. destruct (startsWith_inv _ _ Hsp) as [r1 ->].
  destruct (startsWith_inv _ _ Hpq) as [r2 ->].
  rewrite append_assoc. apply startsWith_append.
Qed.

Lemma endsWith_refl (s : string) : Js.endsWith s s = true.
Proof. destruct s; cbn [Js.endsWith]; rewrite String.eqb_refl; reflexivity. Qed.

Lemma endsWith_append (s p : string) : Js.endsWith (s ++ p) p = true.
Proof.
  induction s as [|a s IH]; cbn [append]; [apply endsWith_refl|].
  cbn [Js.endsWith]. rewrite IH. apply orb_true_r.
Qed.

Lemma endsWith_inv (p : string) :
  forall s, Js.endsWith s p = true -> exists front, s = (front ++ p)%string.
Proof.
  intros s. induction s as [|a s IH]; cbn [Js.endsWith]; intros H.
  - rewrite orb_false_r in H. apply String.eqb_eq in H as <-. exists "". reflexivity.
  - apply orb_prop in H as [H|H].
    + apply String.eqb_eq in H as <-. exists "". reflexivity.
    + destruct (IH H) as [front ->]. exists (String a front). reflexivity.
Qed.

(** ** The characters of a string *)

Lemma without_nil (c : ascii) : without c "".
Proof. reflexivity. Qed.

Lemma without_cons (c a : ascii) (s : string) :
  without c (String a s) <-> a <> c /\ without c s.
Proof.
  unfold without. cbn [Oci.indexOfChar].
  destruct (Ascii.eqb_spec a c) as [->|Hne].
  - split; [discriminate|]. intros [H _]. contradiction.
  - destruct (Oci.indexOfChar c s); cbn [option_map].
    + split; [discriminate|]. intros [_ H]. discriminate.
    + split; [auto|reflexivity].
Qed.

Lemma without_append (c : ascii) (a b : string) :
  without c (a ++ b) <-> without c a /\ without c b.
Proof.
  induction a as [|x a IH]; cbn [append].
  - split; [intros H; split; [apply without_nil|exact H]|tauto].
  - rewrite !without_cons, IH. tauto.
Qed.

Lemma includes_char_cons (c a : ascii) (s : string) :
  Js.includes (String a s) (String c "") = Ascii.eqb c a || Js.includes s (String c "").
Proof. cbn [Js.includes Js.startsWith]. rewrite andb_true_r. reflexivity. Qed.

(** [s.includes(c)] for a one-character string. *)
Lemma includes_char (c : ascii) (s : string) :
  Js.includes s (String c "") = false <-> without c s.
Proof.
  induction s as [|a s IH].
  - cbn. split; [intros _; apply without_nil|reflexivity].
  - rewrite includes_char_cons, without_cons, <- IH, orb_false_iff.
    destruct (Ascii.eqb_spec c a) as [->|Hne]; intuition congruence.
Qed.

Lemma includes_char_true (c : ascii) (s : string) :
  Js.includes s (String c "") = true <-> ~ without c s.
Proof.
  rewrite <- includes_char. destruct (Js.includes s (String c "")); intuition congruence.
Qed.

Lemma includes_append_r (a b needle : string) :
  Js.includes b needle = true -> Js.includes (a ++ b) needle = true.
Proof.
  intros H. induction a as [|x a IH]; cbn [append]; [exact H|].
  cbn [Js.includes]. rewrite IH. apply orb_true_r.
Qed.

Lemma includes_startsWith (s needle : string) :
  Js.startsWith s needle = true -> Js.includes s needle = true.
Proof. intros H. destruct s; cbn [Js.includes]; rewrite H; reflexivity. Qed.

(** ** Slices *)

Lemma substring_all (s : string) : String.substring 0 (String.length s) s = s.
Proof. induction s as [|a s IH]; cbn; [reflexivity|]. rewrite IH. reflexivity. Qed.

Lemma sliceTo_append (a b : string) : Oci.sliceTo (a ++ b) (String.length a) = a.
Proof.
  unfold Oci.sliceTo. induction a as [|x a IH]; cbn [append String.length String.substring].
  - destruct b; reflexivity.
  - rewrite IH. reflexivity.
Qed.

Lemma sliceFrom_append (a b : string) : Oci.sliceFrom (a ++ b) (String.length a) = b.
Proof.
  unfold Oci.sliceFrom. rewrite append_length.
  replace (String.length a + String.length b - String.length a) with (String.length b) by lia.
  induction a as [|x a IH]; cbn [append String.length String.substring].
  - apply substring_all.
  - exact IH.
Qed.

Lemma sliceFrom_0 (s : string) : Oci.sliceFrom s 0 = s.
Proof. unfold Oci.sliceFrom. rewrite Nat.sub_0_r. apply substring_all. Qed.

Lemma sliceFrom_cons (a : ascii) (s : string) (n : nat) :
  Oci.sliceFrom (String a s) (S n) = Oci.sliceFrom s n.
Proof. reflexivity. Qed.

Lemma sliceTo_cons (a : ascii) (s : string) (n : nat) :
  Oci.sliceTo (String a s) (S n) = String a (Oci.sliceTo s n).
Proof. reflexivity. Qed.

Lemma sliceTo_0 (s : string) : Oci.sliceTo s 0 = "".
Proof. destruct s; reflexivity. Qed.

(** ** [indexOf] and [lastIndexOf] of a character *)

(** The first occurrence cuts the string in two; the first part is free
    of the character. *)
Lemma indexOfChar_split (c : ascii) (s : string) :
  forall i, Oci.indexOfChar c s = Some i ->
    s = (Oci.sliceTo s i ++ String c (Oci.sliceFrom s (i + 1)))%string
    /\ without c (Oci.sliceTo s i)
    /\ String.length (Oci.sliceTo s i) = i.
Proof.
  induction s as [|a s IH]; intros i H; cbn [Oci.indexOfChar] in H; [discriminate|].
  destruct (Ascii.eqb_spec a c) as [->|Hne].
  - inversion H; subst. cbn [Nat.add]. rewrite sliceFrom_cons, sliceFrom_0, sliceTo_0.
    split; [reflexivity|]. split; [apply without_nil|reflexivity].
  - destruct (Oci.indexOfChar c s) as [j|]; [|discriminate].
    cbn [option_map] in H. inversion H; subst.
    destruct (IH j eq_refl) as (Hs & Hw & Hlen).
    cbn [Nat.add]. rewrite sliceTo_cons, sliceFrom_cons. cbn [append String.length].
    split; [|split].
    + rewrite <- Hs. reflexivity.
    + apply without_cons. auto.
    + rewrite Hlen. reflexivity.
Qed.

Lemma indexOfChar_append (c : ascii) (a b : string) :
  without c a -> Oci.indexOfChar c (a ++ String c b) = Some (String.length a).
Proof.
  induction a as [|x a IH]; intros H; cbn [append Oci.indexOfChar String.length].
  - rewrite Ascii.eqb_refl. reflexivity.
  - apply without_cons in H as [Hne Hw].
    destruct (Ascii.eqb_spec x c); [contradiction|].
    rewrite (IH Hw). reflexivity.
Qed.

Lemma lastIndexOfChar_none (c : ascii) (s : string) :
  Oci.lastIndexOfChar c s = None <-> without c s.
Proof.
  induction s as [|a s IH]; cbn [Oci.lastIndexOfChar].
  - split; [intros _; apply without_nil|reflexivity].
  - rewrite without_cons, <- IH.
    destruct (Oci.lastIndexOfChar c s).
    + split; [discriminate|]. intros [_ H]. discriminate.
    + destruct (Ascii.eqb_spec a c); split; try discriminate; tauto.
Qed.

(** The last occurrence cuts the string in two; the second part is free
    of the character. *)
Lemma lastIndexOfChar_split (c : ascii) (s : string) :
  forall i, Oci.lastIndexOfChar c s = Some i ->
    s = (Oci.sliceTo s i ++ String c (Oci.sliceFrom s (i + 1)))%string
    /\ without c (Oci.sliceFrom s (i + 1))
    /\ String.length (Oci.sliceTo s i) = i.
Proof.
  induction s as [|a s IH]; intros i H; cbn [Oci.lastIndexOfChar] in H; [discriminate|].
  destruct (Oci.lastIndexOfChar c s) as [j|] eqn:Hlast.
  - inversion H; subst. destruct (IH j eq_refl) as (Hs & Hw & Hlen).
    cbn [Nat.add]. rewrite sliceTo_cons, sliceFrom_cons. cbn [append String.length].
    split; [|split].
    + rewrite <- Hs. reflexivity.
    + exact Hw.
    + rewrite Hlen. reflexivity.
  - destruct (Ascii.eqb_spec a c) as [->|Hne]; [|discriminate].
    inversion H; subst. cbn [Nat.add]. rewrite sliceFrom_cons, sliceFrom_0, sliceTo_0.
    split; [reflexivity|]. split; [|reflexivity].
    apply lastIndexOfChar_none. exact Hlast.
Qed.

Lemma lastIndexOfChar_append (c : ascii) (a b : string) :
  without c b -> Oci.lastIndexOfChar c (a ++ String c b) = Some (String.length a).
Proof.
  intros Hb. induction a as [|x a IH]; cbn [append Oci.lastIndexOfChar String.length].
  - rewrite (proj2 (lastIndexOfChar_none c b) Hb), Ascii.eqb_refl. reflexivity.
  - rewrite IH. reflexivity.
Qed.

(** ** [split] at a character *)

Lemma splitChar_nonempty (c : ascii) (s : string) : Js.splitChar c s <> [].
Proof.
  induction s as [|a s IH]; cbn [Js.splitChar]; [discriminate|].
  destruct (Ascii.eqb a c); [discriminate|].
  destruct (Js.splitChar c s); [contradiction|discriminate].
Qed.

Lemma splitChar_without (c : ascii) (s : string) :
  without c s -> Js.splitChar c s = [s].
Proof.
  induction s as [|a s IH]; intros H; cbn [Js.splitChar]; [reflexivity|].
  apply without_cons in H as [Hne Hw].
  destruct (Ascii.eqb_spec a c); [contradiction|].
  rewrite (IH Hw). reflexivity.
Qed.

Lemma splitChar_append (c : ascii) (a b : string) :
  without c a -> Js.splitChar c (a ++ String c b) = a :: Js.splitChar c b.
Proof.
  induction a as [|x a IH]; intros H; cbn [append Js.splitChar].
  - rewrite Ascii.eqb_refl. reflexivity.
  - apply without_cons in H as [Hne Hw].
    destruct (Ascii.eqb_spec x c); [contradiction|].
    rewrite (IH Hw). reflexivity.
Qed.

(** Every piece of a split is free of the separator. *)
Lemma splitChar_pieces (c : ascii) (s : string) :
  Forall (without c) (Js.splitChar c s).
Proof.
  induction s as [|a s IH]; cbn [Js.splitChar].
  - constructor; [apply without_nil|constructor].
  - destruct (Ascii.eqb_spec a c) as [->|Hne].
    + constructor; [apply without_nil|exact IH].
    + destruct (Js.splitChar c s) as [|h t]; [constructor; [|constructor]|].
      * apply without_cons. split; [exact Hne|apply without_nil].
      * inversion IH; subst. constructor; [|assumption].
        apply without_cons. auto.
Qed.

Lemma concat_cons2 (sep x y : string) (l : list string) :
  String.concat sep (x :: y :: l) = (x ++ sep ++ String.concat sep (y :: l))%string.
Proof. reflexivity. Qed.

(** Joining the pieces with the separator gives the string back. *)
Lemma join_splitChar (c : ascii) (s : string) :
  Js.join (String c "") (Js.splitChar c s) = s.
Proof.
  unfold Js.join. induction s as [|a s IH]; cbn [Js.splitChar]; [reflexivity|].
  pose proof (splitChar_nonempty c s) as Hne.
  destruct (Js.splitChar c s) as [|h t] eqn:E; [contradiction|].
  destruct (Ascii.eqb_spec a c) as [->|Hac].
  - rewrite concat_cons2, IH. reflexivity.
  - destruct t as [|h' t'].
    + cbn [String.concat] in *. rewrite IH. reflexivity.
    + rewrite concat_cons2 in *. cbn [append] in *. rewrite IH. reflexivity.
Qed.

(** ** White characters *)

Lemma isBlack_ascii (a : ascii) : isBlack a = true -> nat_of_ascii a < 128.
Proof.
  unfold isBlack, isAscii. intros H. apply andb_prop in H as [H _].
  apply Nat.ltb_lt. exact H.
Qed.

Lemma isBlack_not_space (a : ascii) : isBlack a = true -> Js.isSpace a = false.
Proof.
  unfold isBlack. intros H. apply andb_prop in H as [_ H].
  apply negb_true_iff. exact H.
Qed.

(** The bytes of a white character after its first are not ASCII, and
    neither is the first byte of a white character of several bytes. *)
Lemma isSpace2_bytes (a b : ascii) :
  Js.isSpace2 a b = true -> nat_of_ascii a = 194 /\ nat_of_ascii b = 160.
Proof.
  unfold Js.isSpace2. intros H. apply andb_prop in H as [Ha Hb].
  split; apply Nat.eqb_eq; assumption.
Qed.

Lemma isSpace3_bytes (a b c : ascii) :
  Js.isSpace3 a b c = true ->
  225 <= nat_of_ascii a /\ 128 <= nat_of_ascii b /\ 128 <= nat_of_ascii c.
Proof.
  unfold Js.isSpace3. cbv zeta. intros H.
  repeat match type of H with
         | (_ || _ = true) => apply orb_prop in H as [H|H]
         end;
    repeat match goal with
           | H : (_ && _ = true) |- _ => apply andb_prop in H as [? ?]
           | H : (_ || _ = true) |- _ => apply orb_prop in H as [H|H]
           | H : (_ =? _)%nat = true |- _ => apply Nat.eqb_eq in H
           | H : (_ <=? _)%nat = true |- _ => apply Nat.leb_le in H
           end; lia.
Qed.

Lemma isSpace2_black_l (a b : ascii) : isBlack a = true -> Js.isSpace2 a b = false.
Proof.
  intros Ha. apply isBlack_ascii in Ha. destruct (Js.isSpace2 a b) eqn:E; [|reflexivity].
  apply isSpace2_bytes in E. lia.
Qed.

Lemma isSpace2_black_r (a b : ascii) : isBlack b = true -> Js.isSpace2 a b = false.
Proof.
  intros Hb. apply isBlack_ascii in Hb. destruct (Js.isSpace2 a b) eqn:E; [|reflexivity].
  apply isSpace2_bytes in E. lia.
Qed.

Lemma isSpace3_black_l (a b c : ascii) : isBlack a = true -> Js.isSpace3 a b c = false.
Proof.
  intros Ha. apply isBlack_ascii in Ha. destruct (Js.isSpace3 a b c) eqn:E; [|reflexivity].
  apply isSpace3_bytes in E. lia.
Qed.

Lemma isSpace3_black_m (a b c : ascii) : isBlack b = true -> Js.isSpace3 a b c = false.
Proof.
  intros Hb. apply isBlack_ascii in Hb. destruct (Js.isSpace3 a b c) eqn:E; [|reflexivity].
  apply isSpace3_bytes in E. lia.
Qed.

Lemma isSpace3_black_r (a b c : ascii) : isBlack c = true -> Js.isSpace3 a b c = false.
Proof.
  intros Hc. apply isBlack_ascii in Hc. destruct (Js.isSpace3 a b c) eqn:E; [|reflexivity].
  apply isSpace3_bytes in E. lia.
Qed.

(** [trimStart], [allSpace] and [startsWithSpace] step over one white
    character at a time. *)
Lemma trimStart_step (s : string) :
  Js.trimStart s = match afterSpace s with Some rest => Js.trimStart rest | None => s end.
Proof.
  destruct s as [|a [|b [|c s3]]]; cbn [Js.trimStart afterSpace]; try reflexivity.
  - destruct (Js.isSpace a); reflexivity.
  - destruct (Js.isSpace a); [reflexivity|]. destruct (Js.isSpace2 a b); reflexivity.
  - destruct (Js.isSpace a); [reflexivity|]. destruct (Js.isSpace2 a b); [reflexivity|].
    destruct (Js.isSpace3 a b c); reflexivity.
Qed.

Lemma allSpace_step (s : string) :
  Js.allSpace s =
  match s with
  | EmptyString => true
  | String _ _ => match afterSpace s with Some rest => Js.allSpace rest | None => false end
  end.
Proof.
  destruct s as [|a [|b [|c s3]]]; cbn [Js.allSpace afterSpace]; try reflexivity.
  - destruct (Js.isSpace a); reflexivity.
  - destruct (Js.isSpace a); [reflexivity|]. destruct (Js.isSpace2 a b); reflexivity.
  - destruct (Js.isSpace a); [reflexivity|]. destruct (Js.isSpace2 a b); [reflexivity|].
    destruct (Js.isSpace3 a b c); reflexivity.
Qed.

Lemma startsWithSpace_step (s : string) :
  Js.startsWithSpace s = match afterSpace s with Some _ => true | None => false end.
Proof.
  destruct s as [|a [|b [|c s3]]]; cbn [Js.startsWithSpace afterSpace]; try reflexivity.
  - destruct (Js.isSpace a); reflexivity.
  - destruct (Js.isSpace a); [reflexivity|]. destruct (Js.isSpace2 a b); reflexivity.
  - destruct (Js.isSpace a); [reflexivity|]. destruct (Js.isSpace2 a b); [reflexivity|].
    destruct (Js.isSpace3 a b c); reflexivity.
Qed.

(** What [afterSpace] leaves is what follows the white character. *)
Lemma afterSpace_split (s rest : string) :
  afterSpace s = Some rest ->
  exists white, s = (white ++ rest)%string /\ white <> ""
                /\ forall more, afterSpace (white ++ more) = Some more.
Proof.
  destruct s as [|a s1]; cbn [afterSpace]; [discriminate|].
  destruct (Js.isSpace a) eqn:Ha.
  { intros [= <-]. exists (String a ""). split; [reflexivity|]. split; [discriminate|].
    intros more. cbn [append afterSpace]. rewrite Ha. reflexivity. }
  destruct s1 as [|b s2]; [discriminate|].
  destruct (Js.isSpace2 a b) eqn:Hab.
  { intros [= <-]. exists (String a (String b "")). split; [reflexivity|].
    split; [discriminate|].
    intros more. cbn [append afterSpace]. rewrite Ha, Hab. reflexivity. }
  destruct s2 as [|c s3]; [discriminate|].
  destruct (Js.isSpace3 a b c) eqn:Habc; [|discriminate].
  intros [= <-]. exists (String a (String b (String c ""))). split; [reflexivity|].
  split; [discriminate|].
  intros more. cbn [append afterSpace]. rewrite Ha, Hab, Habc. reflexivity.
Qed.

Lemma afterSpace_length (s rest : string) :
  afterSpace s = Some rest -> String.length rest < String.length s.
Proof.
  intros H. destruct (afterSpace_split _ _ H) as (white & -> & Hne & _).
  rewrite append_length. destruct white; [contradiction|]. cbn [String.length]. lia.
Qed.

Lemma afterSpace_append (s rest more : string) :
  afterSpace s = Some rest -> afterSpace (s ++ more) = Some (rest ++ more)%string.
Proof.
  intros H. destruct (afterSpace_split _ _ H) as (white & -> & _ & Hstep).
  rewrite append_assoc. apply Hstep.
Qed.

(** Induction over a text one white character at a time. *)
Lemma white_induction (P : string -> Prop) :
  (forall s, afterSpace s = None -> P s) ->
  (forall s rest, afterSpace s = Some rest -> P rest -> P s) ->
  forall s, P s.
Proof.
  intros Hstop Hstep s.
  assert (H : forall n s, String.length s <= n -> P s).
  { clear s. induction n as [|n IH]; intros s Hlen.
    - destruct s; [|cbn in Hlen; lia]. apply Hstop. reflexivity.
    - destruct (afterSpace s) as [rest|] eqn:E; [|apply Hstop; exact E].
      apply (Hstep s rest E). apply IH. apply afterSpace_length in E. lia. }
  apply (H (String.length s)). lia.
Qed.

Lemma afterSpace_black (a : ascii) (s : string) :
  isBlack a = true -> afterSpace (String a s) = None.
Proof.
  intros Ha. cbn [afterSpace]. rewrite (isBlack_not_space _ Ha).
  destruct s as [|b [|c s3]]; [reflexivity| |];
    rewrite (isSpace2_black_l a b Ha); [reflexivity|].
  rewrite (isSpace3_black_l a b c Ha). reflexivity.
Qed.

(** A white character does not reach over an ASCII character that is not
    white. *)
Lemma afterSpace_barrier (front : string) (c : ascii) (back rest : string) :
  isBlack c = true ->
  afterSpace (front ++ String c back) = Some rest ->
  exists front', afterSpace front = Some front' /\ rest = (front' ++ String c back)%string.
Proof.
  intros Hc. destruct front as [|a [|b [|d front3]]]; cbn [append].
  - rewrite (afterSpace_black c back Hc). discriminate.
  - cbn [afterSpace]. destruct (Js.isSpace a).
    + intros [= <-]. exists "". split; reflexivity.
    + rewrite (isSpace2_black_r a c Hc).
      destruct back as [|e back]; [discriminate|].
      rewrite (isSpace3_black_m a c e Hc). discriminate.
  - cbn [afterSpace]. destruct (Js.isSpace a).
    + intros [= <-]. exists (String b ""). split; reflexivity.
    + destruct (Js.isSpace2 a b).
      * intros [= <-]. exists "". split; reflexivity.
      * rewrite (isSpace3_black_r a b c Hc). discriminate.
  - cbn [afterSpace]. destruct (Js.isSpace a).
    + intros [= <-]. eexists. split; reflexivity.
    + destruct (Js.isSpace2 a b).
      * intros [= <-]. eexists. split; reflexivity.
      * destruct (Js.isSpace3 a b d); [|discriminate].
        intros [= <-]. eexists. split; reflexivity.
Qed.

Lemma afterSpace_barrier_none (front : string) (c : ascii) (back : string) :
  isBlack c = true -> front <> "" ->
  afterSpace front = None -> afterSpace (front ++ String c back) = None.
Proof.
  intros Hc Hne Hfront.
  destruct (afterSpace (front ++ String c back)) as [rest|] eqn:E; [|reflexivity].
  destruct (afterSpace_barrier front c back _ Hc E) as (front' & Hf & _). congruence.
Qed.

Lemma allSpace_append (white rest : string) :
  Js.allSpace white = true -> Js.allSpace (white ++ rest) = Js.allSpace rest.
Proof.
  revert white. apply (white_induction
    (fun white => Js.allSpace white = true -> Js.allSpace (white ++ rest) = Js.allSpace rest)).
  - intros s Hnone. rewrite (allSpace_step s). destruct s; [reflexivity|].
    rewrite Hnone. discriminate.
  - intros s tail Hsome IH. rewrite (allSpace_step s). destruct s as [|a s']; [discriminate|].
    rewrite Hsome. intros Htail. rewrite allSpace_step.
    rewrite (afterSpace_append _ _ rest Hsome). cbn [append]. exact (IH Htail).
Qed.

Lemma allSpace_barrier (front : string) (c : ascii) (back : string) :
  isBlack c = true -> Js.allSpace (front ++ String c back) = false.
Proof.
  intros Hc. revert front. apply (white_induction
    (fun front => Js.allSpace (front ++ String c back) = false)).
  - intros s Hnone. rewrite allSpace_step.
    destruct s as [|a s'].
    + cbn [append]. rewrite (afterSpace_black c back Hc). reflexivity.
    + rewrite (afterSpace_barrier_none (String a s') c back Hc) by (discriminate || exact Hnone).
      reflexivity.
  - intros s rest Hsome IH. rewrite allSpace_step.
    rewrite (afterSpace_append _ _ (String c back) Hsome).
    destruct s; [discriminate|]. exact IH.
Qed.

(** ** [trim] *)

Lemma trimStart_length (s : string) : String.length (Js.trimStart s) <= String.length s.
Proof.
  revert s. apply white_induction.
  - intros s Hnone. rewrite trimStart_step, Hnone. lia.
  - intros s rest Hsome IH. rewrite trimStart_step, Hsome.
    apply afterSpace_length in Hsome. lia.
Qed.

Lemma trimStart_black_start (s : string) : afterSpace (Js.trimStart s) = None.
Proof.
  revert s. apply white_induction.
  - intros s Hnone. rewrite trimStart_step, Hnone. exact Hnone.
  - intros s rest Hsome IH. rewrite trimStart_step, Hsome. exact IH.
Qed.

Lemma trimStart_fixed (s : string) : Js.trimStart s = s <-> afterSpace s = None.
Proof.
  split.
  - intros H. rewrite <- H. apply trimStart_black_start.
  - intros H. rewrite trimStart_step, H. reflexivity.
Qed.

Lemma trimEnd_length (s : string) : String.length (Js.trimEnd s) <= String.length s.
Proof.
  induction s as [|a s IH]; cbn [Js.trimEnd]; [lia|].
  destruct (Js.allSpace (String a s)); cbn [String.length]; lia.
Qed.

Lemma trimEnd_empty_inv (s : string) : Js.trimEnd s = "" -> Js.allSpace s = true.
Proof.
  destruct s as [|a s]; [reflexivity|]. cbn [Js.trimEnd].
  destruct (Js.allSpace (String a s)); [reflexivity|discriminate].
Qed.

(** What [trimEnd] drops is white. *)
Lemma trimEnd_split (s : string) :
  exists white, s = (Js.trimEnd s ++ white)%string /\ Js.allSpace white = true.
Proof.
  induction s as [|a s IH]; [exists ""; split; reflexivity|].
  cbn [Js.trimEnd]. destruct (Js.allSpace (String a s)) eqn:E.
  - exists (String a s). split; [reflexivity|exact E].
  - destruct IH as (white & Hs & Hwhite). exists white. split; [|exact Hwhite].
    cbn [append]. rewrite <- Hs. reflexivity.
Qed.

Lemma allSpace_trimEnd (s : string) : Js.allSpace (Js.trimEnd s) = Js.allSpace s.
Proof.
  destruct (Js.allSpace s) eqn:E.
  - destruct s as [|a s]; [reflexivity|]. cbn [Js.trimEnd]. rewrite E. reflexivity.
  - destruct (trimEnd_split s) as (white & Hs & Hwhite).
    destruct (Js.allSpace (Js.trimEnd s)) eqn:E'; [|reflexivity].
    rewrite Hs, (allSpace_append _ white E'), Hwhite in E. discriminate.
Qed.

Lemma trimEnd_idempotent (s : string) : Js.trimEnd (Js.trimEnd s) = Js.trimEnd s.
Proof.
  induction s as [|a s IH]; [reflexivity|].
  pose proof (allSpace_trimEnd (String a s)) as Hall.
  cbn [Js.trimEnd] in *. destruct (Js.allSpace (String a s)) eqn:E; [reflexivity|].
  cbn [Js.trimEnd]. rewrite Hall, IH. reflexivity.
Qed.

Lemma trimEnd_black_start (s : string) :
  afterSpace s = None -> afterSpace (Js.trimEnd s) = None.
Proof.
  intros Hnone. destruct (trimEnd_split s) as (white & Hs & _).
  destruct (afterSpace (Js.trimEnd s)) as [rest|] eqn:E; [|reflexivity].
  apply (afterSpace_append _ _ white) in E. rewrite <- Hs in E. congruence.
Qed.

Lemma trimStart_trimEnd (s : string) :
  Js.trimStart (Js.trimEnd (Js.trimStart s)) = Js.trimEnd (Js.trimStart s).
Proof. apply trimStart_fixed, trimEnd_black_start, trimStart_black_start. Qed.

Lemma trim_idempotent (s : string) : Js.trim (Js.trim s) = Js.trim s.
Proof. unfold Js.trim. rewrite trimStart_trimEnd. apply trimEnd_idempotent. Qed.

(** A text that starts with an ASCII character that is not white keeps it
    when trimmed. *)
Lemma trimStart_black (a : ascii) (s : string) :
  isBlack a = true -> Js.trimStart (String a s) = String a s.
Proof. intros H. apply trimStart_fixed, afterSpace_black, H. Qed.

Lemma allSpace_black (a : ascii) (s : string) :
  isBlack a = true -> Js.allSpace (String a s) = false.
Proof. intros H. exact (allSpace_barrier "" a s H). Qed.

Lemma trimEnd_cons_black (a : ascii) (s : string) :
  isBlack a = true -> Js.trimEnd (String a s) = String a (Js.trimEnd s).
Proof. intros H. cbn [Js.trimEnd]. rewrite (allSpace_black a s H). reflexivity. Qed.

(** [trimEnd] stops at the last ASCII character that is not white. *)
Lemma trimEnd_append_black (front : string) (c : ascii) (back : string) :
  isBlack c = true ->
  Js.trimEnd (front ++ String c back) = (front ++ String c (Js.trimEnd back))%string.
Proof.
  intros Hc. induction front as [|x front IH]; cbn [append].
  - apply trimEnd_cons_black, Hc.
  - cbn [Js.trimEnd]. rewrite IH.
    change (String x (front ++ String c back))%string
      with (String x front ++ String c back)%string.
    rewrite (allSpace_barrier _ c back Hc). reflexivity.
Qed.

(** A text is its own trimmed form when it neither starts with a white
    character nor ends with one. *)
Lemma trimmed_inv (s : string) :
  trimmed s -> afterSpace s = None /\ Js.trimEnd s = s.
Proof.
  unfold trimmed, Js.trim. intros H.
  assert (Hstart : Js.trimStart s = s).
  { destruct (afterSpace s) as [rest|] eqn:E; [|apply trimStart_fixed; exact E].
    exfalso. pose proof (trimEnd_length (Js.trimStart s)) as H1.
    rewrite H in H1. rewrite trimStart_step, E in H1.
    pose proof (trimStart_length rest) as H2. apply afterSpace_length in E. lia. }
  rewrite Hstart in H. split; [apply trimStart_fixed; exact Hstart|exact H].
Qed.

Lemma trimmed_intro (s : string) :
  afterSpace s = None -> Js.trimEnd s = s -> trimmed s.
Proof.
  intros Hstart Hend. unfold trimmed, Js.trim.
  rewrite (proj2 (trimStart_fixed s) Hstart). exact Hend.
Qed.

(** Two trimmed texts joined by an ASCII character that is not white make
    a trimmed text. *)
Lemma trimmed_join (left : string) (c : ascii) (right : string) :
  isBlack c = true -> trimmed left -> left <> "" -> trimmed right ->
  trimmed (left ++ String c right).
Proof.
  intros Hc Hl Hl0 Hr.
  destruct (trimmed_inv _ Hl) as [Hstart _]. destruct (trimmed_inv _ Hr) as [_ Hend].
  apply trimmed_intro.
  - apply afterSpace_barrier_none; assumption.
  - rewrite (trimEnd_append_black left c right Hc), Hend. reflexivity.
Qed.

(** A text of ASCII characters that are not white is trimmed. *)
Lemma black_trimmed (s : string) :
  Skill.allChars isBlack s = true -> trimmed s.
Proof.
  intros H. apply trimmed_intro.
  - destruct s as [|a s]; [reflexivity|]. cbn [Skill.allChars] in H.
    apply andb_prop in H as [Ha _]. apply afterSpace_black, Ha.
  - induction s as [|a s IH]; [reflexivity|]. cbn [Skill.allChars] in H.
    apply andb_prop in H as [Ha Hs]. rewrite (trimEnd_cons_black a s Ha), (IH Hs).
    reflexivity.
Qed.

Lemma allSpace_trimStart (s : string) : Js.allSpace (Js.trimStart s) = Js.allSpace s.
Proof.
  revert s. apply white_induction.
  - intros s Hnone. rewrite trimStart_step, Hnone. reflexivity.
  - intros s rest Hsome IH. rewrite trimStart_step, Hsome, IH, (allSpace_step s), Hsome.
    destruct s; [discriminate|reflexivity].
Qed.

(** Only a text of white characters is trimmed to nothing. *)
Lemma trim_not_blank (s : string) :
  Js.allSpace s = false -> (String.length (Js.trim s) =? 0)%nat = false.
Proof.
  intros H. apply Nat.eqb_neq. intros Hlen. apply length_zero in Hlen.
  unfold Js.trim in Hlen. apply trimEnd_empty_inv in Hlen.
  rewrite allSpace_trimStart in Hlen. congruence.
Qed.

(** [trim] takes away the white characters of JavaScript at both ends,
    those of two and three bytes as well, and nothing else: the byte A0
    that ends the sign U+20A0 stays. *)
Example trim_takes_all_white_characters :
  let byte_order_mark := String (Js.chr 239) (String (Js.chr 187) (String (Js.chr 191) "")) in
  let no_break_space := String (Js.chr 194) (String (Js.chr 160) "") in
  let em_space := String (Js.chr 226) (String (Js.chr 128) (String (Js.chr 131) "")) in
  let euro_currency_sign :=
    String (Js.chr 226) (String (Js.chr 130) (String (Js.chr 160) "")) in
  Js.trim (byte_order_mark ++ " a b" ++ no_break_space ++ em_space ++ String Js.LF "")
  = "a b"
  /\ Js.trim ("a" ++ euro_currency_sign) = ("a" ++ euro_currency_sign)%string
  /\ Js.firstToken ("a" ++ no_break_space ++ "b") = "a"
  /\ Js.hasSpace ("a" ++ em_space ++ "b") = true
  /\ Js.hasSpace ("a" ++ euro_currency_sign) = false.
Proof. repeat split; vm_compute; reflexivity. Qed.

(** ** [length] *)

Lemma length_append (a b : string) : Js.length (a ++ b) = Js.length a + Js.length b.
Proof.
  induction a as [|x a IH]; cbn [append Js.length]; [reflexivity|]. rewrite IH. lia.
Qed.

(** An ASCII text has as many code units as bytes. *)
Lemma length_ascii (s : string) :
  Skill.allChars isAscii s = true -> Js.length s = String.length s.
Proof.
  induction s as [|a s IH]; cbn [Skill.allChars Js.length String.length]; [reflexivity|].
  intros H. apply andb_prop in H as [Ha Hs]. unfold isAscii in Ha.
  rewrite Ha, (IH Hs). reflexivity.
Qed.

(** A text has at most two code units a byte, and none only when it has
    no byte that starts a character. *)
Lemma length_bytes (s : string) : Js.length s <= 2 * String.length s.
Proof.
  induction s as [|a s IH]; cbn [Js.length String.length]; [lia|].
  destruct (nat_of_ascii a <? 128)%nat; [lia|].
  destruct (nat_of_ascii a <? 192)%nat; [lia|].
  destruct (nat_of_ascii a <? 240)%nat; lia.
Qed.

End StringFacts.

Section MoreStringFacts.

Lemma startsWith_common (a s p : string) :
  Js.startsWith (a ++ s) (a ++ p) = Js.startsWith s p.
Proof.
  induction a as [|x a IH]; cbn [append Js.startsWith]; [reflexivity|].
  rewrite Ascii.eqb_refl, IH. reflexivity.
Qed.

(** ** Texts over a class of characters *)

Lemma allChars_append (p : ascii -> bool) (a b : string) :
  Skill.allChars p (a ++ b) = Skill.allChars p a && Skill.allChars p b.
Proof.
  induction a as [|x a IH]; cbn [append Skill.allChars]; [reflexivity|].
  rewrite IH. apply andb_assoc.
Qed.

Lemma allChars_weaken (p q : ascii -> bool) (s : string) :
  (forall a, p a = true -> q a = true) ->
  Skill.allChars p s = true -> Skill.allChars q s = true.
Proof.
  intros Hpq. induction s as [|a s IH]; cbn [Skill.allChars]; [reflexivity|].
  intros H. apply andb_prop in H as [Ha Hs]. rewrite (Hpq a Ha), (IH Hs). reflexivity.
Qed.

Lemma allChars_startsWith (p : ascii -> bool) (prefix : string) :
  forall s, Skill.allChars p s = true -> Js.startsWith s prefix = true ->
            Skill.allChars p prefix = true.
Proof.
  induction prefix as [|a prefix IH]; intros s Hs Hstart; [reflexivity|].
  destruct s as [|b s]; cbn [Js.startsWith] in Hstart; [discriminate|].
  apply andb_prop in Hstart as [Hab Hrest]. apply Ascii.eqb_eq in Hab. subst b.
  cbn [Skill.allChars] in *. apply andb_prop in Hs as [Ha Hs].
  rewrite Ha, (IH s Hs Hrest). reflexivity.
Qed.

Lemma allChars_without (p : ascii -> bool) (c : ascii) (s : string) :
  p c = false -> Skill.allChars p s = true -> Text.without c s.
Proof.
  intros Hc. induction s as [|a s IH]; cbn [Skill.allChars]; intros H;
    [apply without_nil|].
  apply andb_prop in H as [Ha Hs]. apply without_cons. split; [congruence|exact (IH Hs)].
Qed.

Lemma nameChar_black (a : ascii) : LineSpec.isNameChar a = true -> Text.isBlack a = true.
Proof.
  destruct a as [[|] [|] [|] [|] [|] [|] [|] [|]]; intros H;
    solve [reflexivity | discriminate H].
Qed.

Lemma black_ascii (s : string) :
  Skill.allChars Text.isBlack s = true -> Skill.allChars Text.isAscii s = true.
Proof.
  apply allChars_weaken. intros a H. unfold Text.isBlack in H.
  apply andb_prop in H as [H _]. exact H.
Qed.

(** A well-formed name is ASCII: it has as many code units as bytes. *)
Lemma wellFormedName_black (name : string) :
  LineSpec.wellFormedName name -> Skill.allChars Text.isBlack name = true.
Proof.
  intros (_ & Hchars & _). revert Hchars. apply allChars_weaken, nameChar_black.
Qed.

Lemma wellFormedName_length (name : string) :
  LineSpec.wellFormedName name -> Js.length name = String.length name.
Proof. intros H. apply length_ascii, black_ascii, wellFormedName_black, H. Qed.

(** ** The first line and the first token of a text *)

Lemma splitChar_prefix (c : ascii) (p s : string) :
  Text.without c p ->
  exists h t, Js.splitChar c s = h :: t /\ Js.splitChar c (p ++ s) = (p ++ h)%string :: t.
Proof.
  intros Hp. pose proof (splitChar_nonempty c s) as Hne.
  destruct (Js.splitChar c s) as [|h t] eqn:Hs; [contradiction|].
  exists h, t. split; [reflexivity|].
  induction p as [|a p IH]; cbn [append]; [exact Hs|].
  apply without_cons in Hp as [Hac Hp]. cbn [Js.splitChar].
  destruct (Ascii.eqb_spec a c); [contradiction|]. rewrite (IH Hp). reflexivity.
Qed.

(** The first line of a text is its part before the first line feed,
    without the carriage return that comes just before that line feed. *)
Lemma splitLines_head (s : string) :
  exists h t ls,
    Js.splitChar Js.LF s = h :: t
    /\ Js.splitLines s = match t with [] => h | _ :: _ => Js.dropTrailingCR h end :: ls.
Proof.
  pose proof (splitChar_nonempty Js.LF s) as Hne. unfold Js.splitLines.
  destruct (Js.splitChar Js.LF s) as [|h t]; [contradiction|].
  exists h, t. destruct t as [|x t].
  - exists []. split; reflexivity.
  - destruct (rev (x :: t)) as [|last front] eqn:Hrev.
    { apply (f_equal (@rev string)) in Hrev. rewrite rev_involutive in Hrev. discriminate. }
    change (rev (h :: x :: t)) with (rev (x :: t) ++ [h]). rewrite Hrev.
    cbn [app rev]. rewrite map_app, rev_app_distr. cbn [map rev app].
    eexists. split; reflexivity.
Qed.

Lemma dropTrailingCR_append (p q : string) :
  q <> "" -> Js.dropTrailingCR (p ++ q) = (p ++ Js.dropTrailingCR q)%string.
Proof.
  intros Hq. induction p as [|a p IH]; cbn [append]; [reflexivity|].
  cbn [Js.dropTrailingCR]. rewrite IH.
  destruct (p ++ q)%string eqn:E; [|reflexivity].
  destruct p; [|discriminate]. cbn [append] in E. contradiction.
Qed.

Lemma dropTrailingCR_cons (a : ascii) (s : string) :
  a <> Js.CR -> Js.dropTrailingCR (String a s) = String a (Js.dropTrailingCR s).
Proof.
  intros Ha. cbn [Js.dropTrailingCR]. destruct s; [|reflexivity].
  destruct (Ascii.eqb_spec a Js.CR); [contradiction|reflexivity].
Qed.

Lemma startsWithSpace_black (a : ascii) (s : string) :
  Text.isBlack a = true -> Js.startsWithSpace (String a s) = false.
Proof. intros H. rewrite startsWithSpace_step, (afterSpace_black a s H). reflexivity. Qed.

(** The first token of a text that starts with ASCII characters that are
    not white, followed by a white character or by nothing, is that
    start. *)
Lemma firstToken_black (p tail : string) :
  Skill.allChars Text.isBlack p = true ->
  tail = "" \/ Js.startsWithSpace tail = true ->
  Js.firstToken (p ++ tail) = p.
Proof.
  intros Hp Htail. induction p as [|a p IH]; cbn [append].
  - destruct Htail as [->|Htail]; [reflexivity|].
    destruct tail as [|b t]; [reflexivity|]. cbn [Js.firstToken]. rewrite Htail. reflexivity.
  - cbn [Skill.allChars] in Hp. apply andb_prop in Hp as [Ha Hp].
    cbn [Js.firstToken]. rewrite (startsWithSpace_black a _ Ha), (IH Hp). reflexivity.
Qed.

Lemma trimEnd_black_prefix (p tail : string) :
  Skill.allChars Text.isBlack p = true ->
  Js.trimEnd (p ++ tail) = (p ++ Js.trimEnd tail)%string.
Proof.
  intros Hp. induction p as [|a p IH]; cbn [append]; [reflexivity|].
  cbn [Skill.allChars] in Hp. apply andb_prop in Hp as [Ha Hp].
  rewrite (trimEnd_cons_black a _ Ha), (IH Hp). reflexivity.
Qed.

(** Of an output that starts with a token of ASCII characters that are not
    white, followed by a white character of one byte that is neither a
    line feed nor a carriage return, the first line that is not blank, once
    the output is trimmed, starts with that token, and the token ends
    there. *)
Lemma first_line_of_output (token : string) (c : ascii) (rest : string) :
  Skill.allChars Text.isBlack token = true -> token <> "" ->
  Js.isSpace c = true -> c <> Js.LF -> c <> Js.CR ->
  exists tail,
    find (fun line => negb (String.length (Js.trim line) =? 0)%nat)
         (Js.splitLines (Js.trim (token ++ String c rest)))
    = Some (token ++ tail)%string
    /\ (tail = "" \/ Js.startsWithSpace tail = true).
Proof.
  intros Htoken Hne Hc Hlf Hcr.
  assert (Hline : Text.without Js.LF token).
  { apply (allChars_without Text.isBlack Js.LF token); [reflexivity|exact Htoken]. }
  assert (Hfirst : forall tail,
    (negb (String.length (Js.trim (token ++ tail)) =? 0)%nat) = true).
  { intros tail. apply negb_true_iff, trim_not_blank.
    destruct token as [|a token]; [contradiction|]. cbn [Skill.allChars] in Htoken.
    apply andb_prop in Htoken as [Ha _]. cbn [append]. apply allSpace_black, Ha. }
  assert (Htrim : Js.trim (token ++ String c rest)
                  = (token ++ Js.trimEnd (String c rest))%string).
  { unfold Js.trim. rewrite (proj2 (trimStart_fixed _)).
    - apply trimEnd_black_prefix, Htoken.
    - destruct token as [|a token]; [contradiction|]. cbn [Skill.allChars] in Htoken.
      apply andb_prop in Htoken as [Ha _]. cbn [append]. apply afterSpace_black, Ha. }
  rewrite Htrim. cbn [Js.trimEnd]. destruct (Js.allSpace (String c rest)).
  - (* nothing but white characters after the token *)
    exists "". rewrite append_nil_r. split; [|left; reflexivity].
    unfold Js.splitLines. rewrite (splitChar_without Js.LF token Hline). cbn [rev map app find].
    pose proof (Hfirst "") as H. rewrite append_nil_r in H. rewrite H. reflexivity.
  - destruct (splitChar_prefix Js.LF token (String c (Js.trimEnd rest)) Hline)
      as (h & t & Hh & Hsplit).
    destruct (splitLines_head (token ++ String c (Js.trimEnd rest)))
      as (h' & t' & ls & Hsplit' & Hlines).
    rewrite Hsplit in Hsplit'. inversion Hsplit'; subst h' t'. clear Hsplit'.
    assert (Hhead : exists y, h = String c y).
    { cbn [Js.splitChar] in Hh. destruct (Ascii.eqb_spec c Js.LF); [contradiction|].
      destruct (Js.splitChar Js.LF (Js.trimEnd rest)); inversion Hh; eauto. }
    destruct Hhead as [y ->]. rewrite Hlines.
    assert (Hwhite : forall y', Js.startsWithSpace (String c y') = true).
    { intros y'. cbn [Js.startsWithSpace]. rewrite Hc. reflexivity. }
    destruct t as [|x t]; cbn [find].
    + exists (String c y). rewrite Hfirst. split; [reflexivity|right; apply Hwhite].
    + rewrite dropTrailingCR_append by discriminate.
      rewrite (dropTrailingCR_cons c y Hcr).
      exists (String c (Js.dropTrailingCR y)). rewrite Hfirst.
      split; [reflexivity|right; apply Hwhite].
Qed.

End MoreStringFacts.

(* ===================================================================== *)
(** * The file system *)
(* ===================================================================== *)

(** ** Names and the directories above them *)

Section ResolveFacts.
Variable root : Fs.node.

(** Following the last link changes nothing when the walk does not end on
    a link. *)
Lemma walk_nofollow_follow (recF recT : Fs.path -> option (Fs.path * Fs.node)) :
  (forall q x, recF q = Some x -> Fs.isLink (snd x) = false -> recT q = Some x) ->
  forall p n cur x,
    Fs.walk false recF n cur p = Some x ->
    Fs.isLink (snd x) = false ->
    Fs.walk true recT n cur p = Some x.
Proof.
  intros Hrec. induction p as [|c rest IH]; intros n cur x Hwalk Hx.
  - exact Hwalk.
  - cbn [Fs.walk] in *. destruct n as [|es|]; try discriminate.
    destruct (Fs.assoc c es) as [[content|sub|t]|]; try discriminate.
    + apply IH; assumption.
    + apply IH; assumption.
    + destruct rest as [|c' rest'].
      * inversion Hwalk; subst. discriminate.
      * apply Hrec; assumption.
Qed.

Lemma resolveN_nofollow_follow (fuel : nat) :
  forall p x,
    Fs.resolveN root false fuel p = Some x ->
    Fs.isLink (snd x) = false ->
    Fs.resolveN root true fuel p = Some x.
Proof.
  induction fuel as [|fuel IH]; intros p x H Hx; [discriminate|].
  cbn [Fs.resolveN] in *. eapply walk_nofollow_follow; eauto.
Qed.

(** A path with one more component resolves only below a directory. *)
Lemma walk_parent (follow : bool) (rec recT : Fs.path -> option (Fs.path * Fs.node))
      (c : string) :
  (forall q x, rec (q ++ [c]) = Some x ->
               exists rp es, recT q = Some (rp, Fs.Dir es)) ->
  forall p n cur x,
    Fs.walk follow rec n cur (p ++ [c]) = Some x ->
    exists rp es, Fs.walk true recT n cur p = Some (rp, Fs.Dir es).
Proof.
  intros Hrec. induction p as [|a p IH]; intros n cur x Hwalk.
  - cbn [app Fs.walk] in *. destruct n as [|es|]; try discriminate. eauto.
  - cbn [app Fs.walk] in *. destruct n as [|es|]; try discriminate.
    destruct (Fs.assoc a es) as [[content|sub|t]|]; try discriminate.
    + eapply IH; eassumption.
    + eapply IH; eassumption.
    + destruct p as [|b p'].
      * cbn [app] in Hwalk. eapply (Hrec t). exact Hwalk.
      * cbn [app] in Hwalk. eapply (Hrec (t ++ b :: p')).
        rewrite <- app_assoc. exact Hwalk.
Qed.

Lemma resolveN_parent (follow : bool) (c : string) (fuel : nat) :
  forall p x,
    Fs.resolveN root follow fuel (p ++ [c]) = Some x ->
    exists rp es, Fs.resolveN root true fuel p = Some (rp, Fs.Dir es).
Proof.
  induction fuel as [|fuel IH]; intros p x H; [discriminate|].
  cbn [Fs.resolveN] in *. eapply walk_parent; eauto.
Qed.

Lemma lstat_file_stat (p : Fs.path) (content : string) :
  Fs.lstatSync root p = Some (Fs.File content) ->
  Fs.statSync root p = Some (Fs.File content).
Proof.
  unfold Fs.lstatSync, Fs.statSync, Fs.resolve.
  destruct (Fs.resolveN root false _ p) as [[rp n]|] eqn:H; [|discriminate].
  cbn [option_map snd]. intros Hn. inversion Hn; subst.
  rewrite (resolveN_nofollow_follow _ _ _ H eq_refl). reflexivity.
Qed.

Lemma lstat_child_parent_dir (p : Fs.path) (c : string) (n : Fs.node) :
  Fs.lstatSync root (p ++ [c]) = Some n ->
  exists es, Fs.statSync root p = Some (Fs.Dir es).
Proof.
  unfold Fs.lstatSync, Fs.statSync, Fs.resolve.
  destruct (Fs.resolveN root false _ (p ++ [c])) as [x|] eqn:H; [|discriminate].
  intros _. destruct (resolveN_parent _ _ _ _ _ H) as (rp & es & Hp).
  rewrite Hp. cbn [option_map snd]. eauto.
Qed.

End ResolveFacts.

(** ** Writing a file twice *)

Section PutFacts.
Import FsSpec.

Lemma assoc_setEntry_same (c : string) (v : Fs.node) (es : list (string * Fs.node)) :
  Fs.assoc c (Fs.setEntry c (Some v) es) = Some v.
Proof.
  induction es as [|[k n] es IH]; cbn [Fs.setEntry Fs.assoc].
  - rewrite String.eqb_refl. reflexivity.
  - destruct (String.eqb k c) eqn:Hk; cbn [Fs.assoc]; rewrite Hk; [reflexivity|exact IH].
Qed.

Lemma assoc_setEntry_other (c c' : string) (v : Fs.node) (es : list (string * Fs.node)) :
  c' <> c -> Fs.assoc c' (Fs.setEntry c (Some v) es) = Fs.assoc c' es.
Proof.
  intros Hne. induction es as [|[k n] es IH]; cbn [Fs.setEntry Fs.assoc].
  - destruct (String.eqb_spec c c'); [congruence|reflexivity].
  - destruct (String.eqb_spec k c) as [->|Hk]; cbn [Fs.assoc].
    + destruct (String.eqb_spec c c'); [congruence|reflexivity].
    + destruct (String.eqb k c'); [reflexivity|exact IH].
Qed.

(** What [put] leaves at the place written, above it and beside it. *)
Lemma put_get_same (v : Fs.node) (p : Fs.path) :
  forall n n', Fs.put n p v = Ok n' -> get n' p = Some v.
Proof.
  unfold Fs.put. induction p as [|c rest IH]; intros n n' H; cbn [Fs.alter] in H.
  - discriminate.
  - destruct n as [|es|]; try discriminate.
    destruct rest as [|c' rest'].
    + cbn [bind] in H. inversion H; subst. cbn [get].
      rewrite assoc_setEntry_same. reflexivity.
    + destruct (Fs.assoc c es) as [child|]; [|discriminate].
      destruct (Fs.alter _ child (c' :: rest')) as [child'|e] eqn:Hc; [|discriminate].
      cbn [bind] in H. inversion H; subst.
      change (get (Fs.Dir (Fs.setEntry c (Some child') es)) (c :: c' :: rest'))
        with (match Fs.assoc c (Fs.setEntry c (Some child') es) with
              | Some n' => get n' (c' :: rest')
              | None => None
              end).
      rewrite assoc_setEntry_same. apply (IH child child' Hc).
Qed.

(** Writing at a writable place changes no node that is not above it, and
    leaves a directory where one was. *)
Lemma put_get_frame (v : Fs.node) (p : Fs.path) :
  forall n n',
    Fs.put n p v = Ok n' -> writable n p -> Fs.isDir v = false ->
    forall q,
      (above q p -> q <> p ->
       exists es es', get n q = Some (Fs.Dir es) /\ get n' q = Some (Fs.Dir es')
                      /\ forall c, ~ above (q ++ [c]) p ->
                                   Fs.assoc c es' = Fs.assoc c es)
      /\ (~ above q p -> get n' q = get n q).
Proof.
  unfold Fs.put, writable.
  induction p as [|c rest IH]; intros n n' H Hw Hv q; cbn [Fs.alter] in H.
  - discriminate.
  - destruct n as [|es|]; try discriminate.
    assert (Hstep : exists child',
      n' = Fs.Dir (Fs.setEntry c (Some child') es)
      /\ match rest with
         | [] => child' = v
         | _ => exists child, Fs.assoc c es = Some child
                              /\ Fs.alter (fun _ => Ok (Some v)) child rest = Ok child'
         end).
    { destruct rest as [|c' rest'].
      - cbn [bind] in H. inversion H. eauto.
      - destruct (Fs.assoc c es) as [child|]; [|discriminate].
        destruct (Fs.alter _ child (c' :: rest')) as [child'|e] eqn:Hc; [|discriminate].
        cbn [bind] in H. inversion H. eauto. }
    destruct Hstep as (child' & -> & Hchild). clear H.
    destruct q as [|a q'].
    + (* the root of this subtree *)
      split.
      * intros _ _. exists es, (Fs.setEntry c (Some child') es).
        repeat split. intros c0 Hc0. apply assoc_setEntry_other.
        intros ->. apply Hc0. exists rest. reflexivity.
      * intros Hnot. exfalso. apply Hnot. exists (c :: rest). reflexivity.
    + destruct (String.eqb_spec a c) as [->|Hac].
      * (* below the entry written through *)
        cbn [get]. rewrite assoc_setEntry_same.
        destruct rest as [|c' rest'].
        -- subst child'. split.
           ++ intros [r Hr] Hne. cbn [app] in Hr. inversion Hr as [Hq].
              destruct q'; [contradiction|discriminate].
           ++ intros Hnot. cbn [get] in Hw.
              destruct q' as [|b q''].
              { exfalso. apply Hnot. exists []. reflexivity. }
              destruct (Fs.assoc c es) as [[| |]|]; cbn [get] in *;
                destruct v; try discriminate; try contradiction; reflexivity.
        -- destruct Hchild as (child & Hassoc & Halter).
           cbn [get] in Hw. rewrite Hassoc in Hw |- *.
           destruct (IH child child' Halter Hw Hv q') as [Habove Hbeside].
           split.
           ++ intros [r Hr] Hne. cbn [app] in Hr. inversion Hr as [Hq].
              destruct Habove as (es0 & es0' & H1 & H2 & H3).
              { exists r. exact Hq. }
              { intros ->. apply Hne. reflexivity. }
              exists es0, es0'. repeat split; try assumption.
              intros c0 Hc0. apply H3. intros [r' Hr']. apply Hc0.
              exists r'. cbn [app]. rewrite Hr'. reflexivity.
           ++ intros Hnot. apply Hbeside. intros [r Hr]. apply Hnot.
              exists r. cbn [app]. rewrite Hr. reflexivity.
      * (* beside it *)
        split.
        -- intros [r Hr]. cbn [app] in Hr. inversion Hr. congruence.
        -- intros _. cbn [get]. rewrite assoc_setEntry_other by assumption. reflexivity.
Qed.

End PutFacts.

Section ResolveAfterPut.
Import FsSpec.

Lemma above_dec (p q : Fs.path) : above p q \/ ~ above p q.
Proof.
  revert q. induction p as [|a p IH]; intros q.
  - left. exists q. reflexivity.
  - destruct q as [|b q].
    + right. intros [r Hr]. discriminate.
    + destruct (String.eqb_spec a b) as [->|Hab].
      * destruct (IH q) as [[r ->]|Hn].
        -- left. exists r. reflexivity.
        -- right. intros [r Hr]. cbn [app] in Hr. inversion Hr; subst.
           apply Hn. exists r. reflexivity.
      * right. intros [r Hr]. cbn [app] in Hr. inversion Hr. congruence.
Qed.

Lemma get_snoc (cur : Fs.path) (c : string) :
  forall n es, get n cur = Some (Fs.Dir es) -> get n (cur ++ [c]) = Fs.assoc c es.
Proof.
  induction cur as [|a cur IH]; intros n es H; cbn [get app] in *.
  - inversion H; subst. destruct (Fs.assoc c es); reflexivity.
  - destruct n as [|es0|]; try discriminate.
    destruct (Fs.assoc a es0) as [child|]; [|discriminate].
    apply IH. exact H.
Qed.

(** The real path of a resolved name leads to its node without links. *)
Lemma walk_real (root : Fs.node) (follow : bool)
      (rec : Fs.path -> option (Fs.path * Fs.node)) :
  (forall q x, rec q = Some x -> get root (fst x) = Some (snd x)) ->
  forall p n cur x,
    get root cur = Some n ->
    Fs.walk follow rec n cur p = Some x ->
    get root (fst x) = Some (snd x).
Proof.
  intros Hrec. induction p as [|c rest IH]; intros n cur x Hcur Hwalk; cbn [Fs.walk] in Hwalk.
  - inversion Hwalk; subst. exact Hcur.
  - destruct n as [|es|]; try discriminate.
    pose proof (get_snoc cur c _ _ Hcur) as Hchild.
    destruct (Fs.assoc c es) as [[content|sub|t]|]; try discriminate.
    + eapply IH; eassumption.
    + eapply IH; eassumption.
    + destruct rest as [|c' rest'].
      * destruct follow; [eapply Hrec; eassumption|].
        inversion Hwalk; subst. exact Hchild.
      * eapply Hrec; eassumption.
Qed.

Lemma resolveN_real (root : Fs.node) (follow : bool) (fuel : nat) :
  forall q x, Fs.resolveN root follow fuel q = Some x -> get root (fst x) = Some (snd x).
Proof.
  induction fuel as [|fuel IH]; intros q x H; [discriminate|].
  cbn [Fs.resolveN] in H.
  apply (walk_real root follow _ IH q root [] x eq_refl H).
Qed.

Variables root root' : Fs.node.
Variable place : Fs.path.
Variable content : string.
Hypothesis Hput : Fs.put root place (Fs.File content) = Ok root'.
Hypothesis Hwritable : writable root place.

Let frame := put_get_frame (Fs.File content) place root root' Hput Hwritable eq_refl.

Lemma no_directory_at_place (es : list (string * Fs.node)) :
  get root place <> Some (Fs.Dir es).
Proof.
  intros H. pose proof Hwritable as Hw. unfold writable in Hw. rewrite H in Hw. exact Hw.
Qed.

Lemma file_or_nothing_at_place :
  get root place = None \/ exists old, get root place = Some (Fs.File old).
Proof.
  pose proof Hwritable as Hw. unfold writable in Hw.
  destruct (get root place) as [[old|es|t]|]; try contradiction; eauto.
Qed.

(** After the write every name that resolved still resolves, to the same
    real path. *)
Lemma walk_after_put (follow : bool) (rec rec' : Fs.path -> option (Fs.path * Fs.node)) :
  (forall q x, rec q = Some x ->
               exists n', rec' q = Some (fst x, n') /\ get root' (fst x) = Some n') ->
  forall p n n' cur x,
    get root cur = Some n ->
    get root' cur = Some n' ->
    Fs.walk follow rec n cur p = Some x ->
    exists n'', Fs.walk follow rec' n' cur p = Some (fst x, n'')
                /\ get root' (fst x) = Some n''.
Proof.
  intros Hrec. induction p as [|c rest IH]; intros n n' cur x Hcur Hcur' Hwalk;
    cbn [Fs.walk] in Hwalk.
  - inversion Hwalk; subst. cbn [Fs.walk fst]. eauto.
  - destruct n as [|es|]; try discriminate.
    pose proof (get_snoc cur c _ _ Hcur) as Hchild.
    (* the directory is still a directory *)
    assert (Hdir : exists es', n' = Fs.Dir es'
                     /\ (~ above (cur ++ [c]) place -> Fs.assoc c es' = Fs.assoc c es)).
    { destruct (above_dec cur place) as [Hab|Hnab].
      - destruct (proj1 (frame cur) Hab) as (es0 & es0' & H0 & H0' & Hsame).
        + intros ->. exact (no_directory_at_place _ Hcur).
        + rewrite Hcur' in H0'. inversion H0'; subst.
          rewrite Hcur in H0. inversion H0; subst. eauto.
      - pose proof (proj2 (frame cur) Hnab) as Heq.
        rewrite Hcur, Hcur' in Heq. inversion Heq; subst. eauto. }
    destruct Hdir as (es' & -> & Hsame).
    pose proof (get_snoc cur c _ _ Hcur') as Hchild'.
    cbn [Fs.walk].
    destruct (above_dec (cur ++ [c]) place) as [Hab|Hnab].
    + (* towards the place written *)
      destruct (list_eq_dec string_dec (cur ++ [c]) place) as [Heq|Hne].
      * (* the place itself: a file before and after *)
        pose proof (put_get_same _ _ _ _ Hput) as Hnew.
        rewrite <- Heq, Hchild' in Hnew. rewrite Hnew.
        destruct file_or_nothing_at_place as [Hold|[old Hold]];
          rewrite <- Heq, Hchild in Hold; rewrite Hold in Hwalk; [discriminate|].
        destruct rest as [|c' rest']; cbn [Fs.walk] in *; [|discriminate].
        inversion Hwalk; subst. cbn [fst]. rewrite Hchild'. eauto.
      * destruct (proj1 (frame (cur ++ [c])) Hab Hne) as (e1 & e1' & H1 & H1' & _).
        rewrite Hchild in H1. rewrite Hchild' in H1'. rewrite H1 in Hwalk. rewrite H1'.
        eapply IH; [| |exact Hwalk].
        -- rewrite Hchild. exact H1.
        -- rewrite Hchild'. exact H1'.
    + rewrite (Hsame Hnab). rewrite (Hsame Hnab) in Hchild'.
      destruct (Fs.assoc c es) as [[old|sub|t]|] eqn:Hassoc; try discriminate.
      * eapply IH; [| |exact Hwalk]; assumption.
      * eapply IH; [| |exact Hwalk]; assumption.
      * destruct rest as [|c' rest'].
        -- destruct follow; [apply Hrec; exact Hwalk|].
           inversion Hwalk; subst. cbn [fst]. eauto.
        -- apply Hrec. exact Hwalk.
Qed.

Lemma resolveN_after_put (follow : bool) (fuel : nat) :
  forall q x,
    Fs.resolveN root follow fuel q = Some x ->
    exists n', Fs.resolveN root' follow fuel q = Some (fst x, n')
               /\ get root' (fst x) = Some n'.
Proof.
  induction fuel as [|fuel IH]; intros q x H; [discriminate|].
  cbn [Fs.resolveN] in *.
  apply (walk_after_put follow _ _ IH q root root' [] x eq_refl eq_refl H).
Qed.

(** A name that resolved to a directory resolves to a directory. *)
Lemma resolve_dir_after_put (q rq : Fs.path) (es : list (string * Fs.node)) :
  Fs.resolve root true q = Some (rq, Fs.Dir es) ->
  exists es', Fs.resolve root' true q = Some (rq, Fs.Dir es').
Proof.
  unfold Fs.resolve. intros H.
  pose proof (resolveN_real _ _ _ _ _ H) as Hreal. cbn [fst snd] in Hreal.
  destruct (resolveN_after_put _ _ _ _ H) as (n' & Hres & Hget). cbn [fst] in *.
  rewrite Hres.
  destruct (above_dec rq place) as [Hab|Hnab].
  - destruct (proj1 (frame rq) Hab) as (e0 & e0' & _ & H0' & _).
    + intros ->. exact (no_directory_at_place _ Hreal).
    + rewrite Hget in H0'. inversion H0'; subst. eauto.
  - pose proof (proj2 (frame rq) Hnab) as Heq.
    rewrite Hget, Hreal in Heq. inversion Heq; subst. eauto.
Qed.

End ResolveAfterPut.

Section WriteTwice.
Import FsSpec.

(** One more component below a resolved directory. *)
Lemma walk_snoc (follow : bool) (recT recF : Fs.path -> option (Fs.path * Fs.node))
      (rq : Fs.path) (es : list (string * Fs.node)) (c : string) (child : Fs.node) :
  Fs.assoc c es = Some child ->
  follow = false \/ Fs.isLink child = false ->
  (forall q, recT q = Some (rq, Fs.Dir es) -> recF (q ++ [c]) = Some (rq ++ [c], child)) ->
  forall p n cur,
    Fs.walk true recT n cur p = Some (rq, Fs.Dir es) ->
    Fs.walk follow recF n cur (p ++ [c]) = Some (rq ++ [c], child).
Proof.
  intros Hchild Hflag Hrec. induction p as [|a p IH]; intros n cur Hwalk;
    cbn [Fs.walk app] in *.
  - inversion Hwalk; subst. rewrite Hchild.
    destruct child as [f|sub|t]; try reflexivity.
    destruct Hflag as [->|Hl]; [reflexivity|discriminate].
  - destruct n as [|es0|]; try discriminate.
    destruct (Fs.assoc a es0) as [[f|sub|t]|]; try discriminate.
    + apply IH. exact Hwalk.
    + apply IH. exact Hwalk.
    + destruct p as [|b p']; cbn [app].
      * apply Hrec. exact Hwalk.
      * rewrite app_comm_cons, app_assoc. apply Hrec. exact Hwalk.
Qed.

Lemma resolveN_snoc (root : Fs.node) (follow : bool)
      (rq : Fs.path) (es : list (string * Fs.node)) (c : string) (child : Fs.node) :
  Fs.assoc c es = Some child ->
  follow = false \/ Fs.isLink child = false ->
  forall fuel q,
    Fs.resolveN root true fuel q = Some (rq, Fs.Dir es) ->
    Fs.resolveN root follow fuel (q ++ [c]) = Some (rq ++ [c], child).
Proof.
  intros Hchild Hflag. induction fuel as [|fuel IH]; intros q H; [discriminate|].
  cbn [Fs.resolveN] in *.
  apply (walk_snoc follow _ _ rq es c child Hchild Hflag IH q root [] H).
Qed.

Lemma resolve_prefix_dir (root : Fs.node) (rest : Fs.path) :
  forall q rp es,
    Fs.resolve root true (q ++ rest) = Some (rp, Fs.Dir es) ->
    exists rq es', Fs.resolve root true q = Some (rq, Fs.Dir es').
Proof.
  induction rest as [|c rest IH] using rev_ind; intros q rp es H.
  - rewrite app_nil_r in H. eauto.
  - rewrite app_assoc in H. unfold Fs.resolve in H.
    destruct (resolveN_parent root true c _ _ _ H) as (rq & es' & Hq).
    apply (IH q rq es' Hq).
Qed.

(** Creating a directory that is there changes nothing. *)
Lemma mkdirFrom_existing (root : Fs.node) (todo : Fs.path) :
  forall done rp es,
    Fs.resolve root true (done ++ todo) = Some (rp, Fs.Dir es) ->
    Fs.mkdirFrom root done todo = Ok root.
Proof.
  induction todo as [|c rest IH]; intros done rp es H; cbn [Fs.mkdirFrom]; [reflexivity|].
  assert (Hq : exists rq es', Fs.resolve root true (done ++ [c]) = Some (rq, Fs.Dir es')).
  { apply (resolve_prefix_dir root rest (done ++ [c]) rp es).
    rewrite <- app_assoc. exact H. }
  destruct Hq as (rq & es' & Hq). rewrite Hq.
  apply (IH (done ++ [c]) rp es). rewrite <- app_assoc. exact H.
Qed.

Lemma mkdirSync_existing (root : Fs.node) (p rp : Fs.path) (es : list (string * Fs.node)) :
  Fs.resolve root true p = Some (rp, Fs.Dir es) -> Fs.mkdirSync root p = Ok root.
Proof. intros H. apply (mkdirFrom_existing root p [] rp es H). Qed.

Lemma dirname_basename (p : Fs.path) :
  p <> [] -> p = Fs.dirname p ++ [Fs.basename p].
Proof. intros H. apply app_removelast_last. exact H. Qed.

(** After a file has been written its directory is there, and writing the
    file again is a write at the real place where its content now is. *)
Lemma writeFileSync_again (root root' : Fs.node) (p : Fs.path) (content : string) :
  p <> [] ->
  Fs.writeFileSync root p content = Ok root' ->
  (exists rd es, Fs.resolve root' true (Fs.dirname p) = Some (rd, Fs.Dir es))
  /\ exists place,
       place <> [] /\ get root' place = Some (Fs.File content)
       /\ forall content',
            Fs.writeFileSync root' p content' = Fs.put root' place (Fs.File content').
Proof.
  intros Hp Hwrite. unfold Fs.writeFileSync in Hwrite.
  destruct (Fs.resolve root true p) as [[rp n]|] eqn:Hres.
  - (* the file was there *)
    destruct n as [old|es|t]; try discriminate.
    pose proof (resolveN_real _ _ _ _ _ Hres) as Hreal. cbn [fst snd] in Hreal.
    assert (Hw : writable root rp) by (unfold writable; rewrite Hreal; exact I).
    destruct (resolveN_after_put root root' rp content Hwrite Hw true _ _ _ Hres)
      as (n' & Hres' & Hget'). cbn [fst] in *.
    rewrite (put_get_same _ _ _ _ Hwrite) in Hget'. inversion Hget'; subst n'.
    split.
    + rewrite (dirname_basename p Hp) in Hres. unfold Fs.resolve in Hres.
      destruct (resolveN_parent root true _ _ _ _ Hres) as (rd & es & Hd).
      destruct (resolve_dir_after_put root root' rp content Hwrite Hw _ _ _ Hd)
        as (es' & Hd').
      eauto.
    + exists rp. split; [intros ->; discriminate Hwrite|].
      split; [exact (put_get_same _ _ _ _ Hwrite)|].
      intros content'. unfold Fs.writeFileSync, Fs.resolve. rewrite Hres'. reflexivity.
  - (* the file is new *)
    destruct (Fs.resolve root false p) as [x|] eqn:Hl; [discriminate|].
    unfold Fs.locate in Hwrite. destruct p as [|a p0]; [contradiction|].
    remember (a :: p0) as p eqn:Ep.
    destruct (Fs.resolve root true (Fs.dirname p)) as [[rd [f|es|t]]|] eqn:Hd;
      try discriminate.
    cbn [bind] in Hwrite.
    pose proof (resolveN_real _ _ _ _ _ Hd) as Hreal. cbn [fst snd] in Hreal.
    assert (Hnone : Fs.assoc (Fs.basename p) es = None).
    { destruct (Fs.assoc (Fs.basename p) es) as [child|] eqn:Hc; [|reflexivity].
      pose proof (resolveN_snoc root false rd es _ child Hc (or_introl eq_refl) _ _ Hd)
        as Hsnoc.
      rewrite <- (dirname_basename p Hp) in Hsnoc. unfold Fs.resolve in Hl.
      rewrite Hsnoc in Hl. discriminate. }
    assert (Hw : writable root (rd ++ [Fs.basename p])).
    { unfold writable. rewrite (get_snoc rd _ _ _ Hreal), Hnone. exact I. }
    destruct (resolve_dir_after_put root root' _ content Hwrite Hw _ _ _ Hd)
      as (es' & Hd').
    split; [eauto|].
    exists (rd ++ [Fs.basename p]).
    split; [intros H; apply app_eq_nil in H as [_ H]; discriminate|].
    split; [exact (put_get_same _ _ _ _ Hwrite)|].
    intros content'.
    pose proof (resolveN_real _ _ _ _ _ Hd') as Hreal'. cbn [fst snd] in Hreal'.
    pose proof (put_get_same _ _ _ _ Hwrite) as Hnew.
    rewrite (get_snoc rd _ _ _ Hreal') in Hnew.
    pose proof (resolveN_snoc root' true rd es' _ _ Hnew (or_intror eq_refl) _ _ Hd')
      as Hsnoc.
    rewrite <- (dirname_basename p Hp) in Hsnoc.
    unfold Fs.writeFileSync, Fs.resolve. rewrite Hsnoc. reflexivity.
Qed.

Lemma setEntry_same (c : string) (v : Fs.node) (es : list (string * Fs.node)) :
  Fs.assoc c es = Some v -> Fs.setEntry c (Some v) es = es.
Proof.
  induction es as [|[k n] es IH]; cbn [Fs.assoc Fs.setEntry]; [discriminate|].
  destruct (String.eqb k c).
  - intros H. inversion H. reflexivity.
  - intros H. rewrite (IH H). reflexivity.
Qed.

(** Writing what is there changes nothing. *)
Lemma put_same (v : Fs.node) (p : Fs.path) :
  forall n, p <> [] -> get n p = Some v -> Fs.put n p v = Ok n.
Proof.
  unfold Fs.put. induction p as [|c rest IH]; intros n Hne H; [contradiction|].
  cbn [get] in H. destruct n as [|es|]; try discriminate.
  destruct (Fs.assoc c es) as [child|] eqn:Hc; [|discriminate].
  cbn [Fs.alter]. destruct rest as [|c' rest'].
  - cbn [get] in H. inversion H; subst. cbn [bind].
    rewrite (setEntry_same c v es Hc). reflexivity.
  - rewrite Hc. rewrite (IH child) by (discriminate || exact H).
    cbn [bind]. rewrite (setEntry_same c child es Hc). reflexivity.
Qed.

(** A second write of the same content leaves the disk as it is. *)
Lemma writeFileSync_same (root root' : Fs.node) (p : Fs.path) (content : string) :
  p <> [] ->
  Fs.writeFileSync root p content = Ok root' ->
  Fs.mkdirSync root' (Fs.dirname p) = Ok root'
  /\ Fs.writeFileSync root' p content = Ok root'.
Proof.
  intros Hp Hwrite.
  destruct (writeFileSync_again root root' p content Hp Hwrite)
    as ((rd & es & Hd) & place & Hplace & Hget & Hagain).
  split.
  - apply (mkdirSync_existing root' _ rd es Hd).
  - rewrite Hagain. apply put_same; assumption.
Qed.

End WriteTwice.

(* ===================================================================== *)
(** * The HTTP archive resolver *)
(* ===================================================================== *)

(** Two spellings of one trace. *)
Ltac same_trace :=
  f_equal; cbn [app]; repeat rewrite <- app_assoc; cbn [app]; reflexivity.

Section HttpArchiveFacts.
Import EntrySpec.

Lemma hasDriveLetter_toSlashes (e : string) :
  HttpArchive.hasDriveLetter e = true ->
  HttpArchive.hasDriveLetter (toSlashes e) = true.
Proof.
  destruct e as [|a [|b e]]; try discriminate.
  unfold toSlashes. cbn -[Ascii.eqb Nat.leb].
  destruct (Ascii.eqb_spec a "\"%char) as [->|_]; [discriminate|].
  destruct (Ascii.eqb_spec b "\"%char) as [->|_].
  - rewrite andb_false_r. discriminate.
  - auto.
Qed.

Lemma startsWith_slash_toSlashes (e : string) :
  Js.startsWith e "/" = true -> Js.startsWith (toSlashes e) "/" = true.
Proof.
  destruct e as [|a e]; [discriminate|].
  unfold toSlashes. cbn -[Ascii.eqb].
  destruct (Ascii.eqb_spec "/"%char a) as [<-|]; [reflexivity|discriminate].
Qed.

Lemma isAbsolute_nonempty (e : string) :
  isAbsolute e = true -> (String.length (toSlashes e) =? 0)%nat = false.
Proof.
  destruct e; [discriminate|reflexivity].
Qed.

(** Every entry the statement calls unsafe is refused by the validator. *)
Lemma unsafe_entry_rejected (e : string) :
  unsafe e = true ->
  exists m, HttpArchive.validateArchiveEntryPath e = Throw (ArchiveResolveError m).
Proof.
  unfold unsafe. intros H.
  unfold HttpArchive.validateArchiveEntryPath. cbv zeta.
  change (Js.replaceAllChar "\" "/" e) with (toSlashes e).
  apply orb_true_iff in H as [Habs|Htrav].
  - rewrite (isAbsolute_nonempty _ Habs).
    unfold isAbsolute in Habs. apply orb_true_iff in Habs as [Hs|Hd].
    + apply startsWith_slash_toSlashes in Hs. rewrite Hs. simpl. eauto.
    + apply hasDriveLetter_toSlashes in Hd. rewrite Hd, orb_true_r. eauto.
  - unfold traverses, normalized in Htrav.
    destruct (toSlashes e) as [|a s] eqn:Hs; [discriminate Htrav|].
    rewrite <- Hs in *. destruct (String.length _ =? 0)%nat eqn:Hlen.
    + rewrite Hs in Hlen. discriminate Hlen.
    + destruct (Js.startsWith _ "/" || HttpArchive.hasDriveLetter _); [eauto|].
      rewrite Htrav. simpl. eauto.
Qed.

Lemma validateArchiveEntryPath_error_class (e : string) (x : exn) :
  HttpArchive.validateArchiveEntryPath e = Throw x -> isArchiveResolveError x = true.
Proof.
  unfold HttpArchive.validateArchiveEntryPath. cbv zeta.
  repeat match goal with |- context [if ?b then _ else _] => destruct b end;
    intros H; inversion H; reflexivity.
Qed.

Lemma validateAll_rejects (entries : list string) :
  (exists e, In e entries /\ unsafe e = true) ->
  exists m, HttpArchive.validateAll entries = Throw (ArchiveResolveError m).
Proof.
  induction entries as [|x entries IH]; intros (e & Hin & Hu).
  - destruct Hin.
  - simpl. destruct (HttpArchive.validateArchiveEntryPath x) as [[]|err] eqn:Hx.
    + simpl. apply IH. destruct Hin as [->|Hin].
      * destruct (unsafe_entry_rejected _ Hu) as (m & Hm). congruence.
      * eauto.
    + simpl. apply validateArchiveEntryPath_error_class in Hx.
      destruct err; try discriminate. eauto.
Qed.

Lemma totalBytes_cons (c : string) (l : list string) :
  totalBytes (c :: l) = (lengthZ c + totalBytes l)%Z.
Proof. reflexivity. Qed.

Lemma totalBytes_nonneg (l : list string) : (0 <= totalBytes l)%Z.
Proof.
  induction l as [|x l IH]; [cbn; lia|].
  rewrite totalBytes_cons. unfold lengthZ. lia.
Qed.

(** The download loop stops at the first chunk that takes the running total
    above the cap; its trace grows by the chunks read up to that one. *)
Lemma readLoop_over (cap : Z) (stream : list string) :
  forall chunks total log,
    (total <= cap)%Z \/ stream <> [] ->
    (total + totalBytes stream > cap)%Z ->
    exists pre c post,
      stream = pre ++ c :: post
      /\ (forall pre' c' post',
            pre = pre' ++ c' :: post' -> (total + totalBytes (pre' ++ [c']) <= cap)%Z)
      /\ (total + totalBytes (pre ++ [c]) > cap)%Z
      /\ HttpArchive.readLoop cap stream chunks total log
         = (Throw (ArchiveResolveError
                     ("Archive download exceeds limit (" ++ showZ cap ++ " bytes)")),
            log ++ map EvRead (pre ++ [c])).
Proof.
  induction stream as [|v stream IH]; intros chunks total log Hstart Hgt.
  - cbn in Hgt. destruct Hstart as [Hle|Hne]; [lia|contradiction].
  - rewrite totalBytes_cons in Hgt.
    cbn [HttpArchive.readLoop]. cbv beta iota delta [bindM emit].
    destruct (total + lengthZ v >? cap)%Z eqn:Hc.
    + apply Z.gtb_lt in Hc.
      exists [], v, stream. repeat split.
      * intros pre' c' post' H. destruct pre'; discriminate.
      * cbn [app]. rewrite totalBytes_cons. cbn. lia.
    + assert (Hle' : (total + lengthZ v <= cap)%Z).
      { destruct (Z.gtb_spec (total + lengthZ v) cap); [discriminate|lia]. }
      destruct (IH (chunks ++ [v]) (total + lengthZ v)%Z (log ++ [EvRead v])
                  (or_introl Hle'))
        as (pre & c & post & -> & H1 & H2 & H3); [lia|].
      exists (v :: pre), c, post. repeat split.
      * intros pre' c' post' H. destruct pre' as [|x pre'].
        -- cbn [app] in H. inversion H; subst. cbn [app].
           rewrite totalBytes_cons. cbn. lia.
        -- cbn [app] in H. inversion H; subst.
           specialize (H1 pre' c' post' eq_refl).
           cbn [app]. rewrite totalBytes_cons. lia.
      * cbn [app]. rewrite totalBytes_cons. lia.
      * rewrite H3. rewrite <- app_assoc. reflexivity.
Qed.

Lemma readLoop_under (cap : Z) (stream : list string) :
  forall chunks total log,
    stream = [] \/ (total + totalBytes stream <= cap)%Z ->
    HttpArchive.readLoop cap stream chunks total log
    = (Ok (chunks ++ stream), log ++ map EvRead stream).
Proof.
  induction stream as [|v stream IH]; intros chunks total log Hle.
  - cbn. rewrite !app_nil_r. reflexivity.
  - destruct Hle as [Hnil|Hle]; [discriminate|].
    rewrite totalBytes_cons in Hle.
    pose proof (totalBytes_nonneg stream).
    cbn [HttpArchive.readLoop]. cbv beta iota delta [bindM emit].
    destruct (Z.gtb_spec (total + lengthZ v) cap) as [Hgt|_]; [lia|].
    rewrite IH by (right; lia). rewrite <- !app_assoc. reflexivity.
Qed.

End HttpArchiveFacts.

(** C4.  When the body of the response carries more bytes than the download
    cap, the run stops with an [ArchiveResolveError] on the first chunk that
    takes the running total above the cap: every chunk before it left the
    total at or under the cap, the chunks after it are not read, and nothing
    has been written to disk.  (The cap is a byte count; the statement also
    covers a negative one as soon as the body has a chunk.) *)
Theorem download_cap_aborts_mid_stream
  (w : HttpArchive.World) (sourceUrl : string)
  (options : HttpArchive.ResolveHttpArchiveOptions)
  (response : HttpArchive.Response) (stream : list string) :
  let cap := Js.orElse (HttpArchive.maxDownloadBytes options)
               HttpArchive.DEFAULT_MAX_DOWNLOAD_BYTES in
  let tempRoot := Js.orElse (HttpArchive.tempRoot options) (HttpArchive.tmpdir w) in
  let workDir := HttpArchive.mkdtemp w tempRoot "skillet-archive-" in
  HttpArchive.fetch w sourceUrl = HttpArchive.FetchResolved response ->
  HttpArchive.ok response = true ->
  HttpArchive.body response = Some stream ->
  (0 <= cap)%Z \/ stream <> [] ->
  (totalBytes stream > cap)%Z ->
  exists pre c post,
    stream = pre ++ c :: post
    /\ (forall pre' c' post',
          pre = pre' ++ c' :: post' -> (totalBytes (pre' ++ [c']) <= cap)%Z)
    /\ (totalBytes (pre ++ [c]) > cap)%Z
    /\ let log := [EvMkdir tempRoot; EvMkdtemp workDir; EvFetch sourceUrl]
                    ++ map EvRead (pre ++ [c]) in
       HttpArchive.resolveHttpArchive w sourceUrl options []
       = (Throw (ArchiveResolveError
                   ("Archive download exceeds limit (" ++ showZ cap ++ " bytes)")), log)
       /\ existsb isWriteFile log = false.
Proof.
  intros cap tempRoot workDir Hfetch Hok Hbody Hcap Hover.
  destruct (readLoop_over cap stream [] 0%Z
              [EvMkdir tempRoot; EvMkdtemp workDir; EvFetch sourceUrl])
    as (pre & c & post & Hs & Hpre & Hc & Hrun); [tauto|lia|].
  exists pre, c, post.
  split; [exact Hs|]. split; [exact Hpre|]. split; [exact Hc|]. split.
  - unfold HttpArchive.resolveHttpArchive, HttpArchive.downloadArchive.
    cbv beta iota delta [bindM emit]. cbn [app].
    rewrite Hfetch, Hok. cbn [negb]. rewrite Hbody.
    fold cap tempRoot workDir. cbv beta iota delta [bindM].
    rewrite Hrun. reflexivity.
  - cbn [app existsb isWriteFile orb].
    clear. induction (pre ++ [c]) as [|x l IH]; [reflexivity|exact IH].
Qed.

Lemma download_cap_aborts_mid_stream_witness :
  exists pre c post,
    ["ab"; "cde"; "fg"] = pre ++ c :: post
    /\ (forall pre' c' post',
          pre = pre' ++ c' :: post' -> (totalBytes (pre' ++ [c']) <= 4)%Z)
    /\ (totalBytes (pre ++ [c]) > 4)%Z
    /\ let log := [EvMkdir ["tmp"]; EvMkdtemp ["tmp"; "skillet-archive-x1"];
                    EvFetch "https://example.com/skill.tar.gz"]
                    ++ map EvRead (pre ++ [c]) in
       HttpArchive.resolveHttpArchive hostileArchiveWorld
         "https://example.com/skill.tar.gz" smallCapOptions []
       = (Throw (ArchiveResolveError "Archive download exceeds limit (4 bytes)"), log)
       /\ existsb isWriteFile log = false.
Proof.
  apply (@download_cap_aborts_mid_stream hostileArchiveWorld
           "https://example.com/skill.tar.gz" smallCapOptions
           {| HttpArchive.ok := true;
              HttpArchive.status := 200;
              HttpArchive.statusText := "OK";
              HttpArchive.body := Some ["ab"; "cde"; "fg"];
              HttpArchive.contentTypeHeader := Some "application/gzip";
              HttpArchive.responseUrl := "https://example.com/skill.tar.gz" |}
           ["ab"; "cde"; "fg"]).
  - reflexivity.
  - reflexivity.
  - reflexivity.
  - left. vm_compute. discriminate.
  - vm_compute. reflexivity.
Defined.

(** What the validation does keep out.  Once the archive has been
    downloaded and its entries listed, an entry that is absolute (POSIX or
    drive-letter) or whose normalized form as the validator computes it
    (backslashes read as separators, then [path.posix.normalize]) is or
    begins with the parent directory makes the run fail with an
    [ArchiveResolveError]; the whole list is validated before anything is
    extracted: the listing is the only command the run has executed. *)
Theorem unsafe_entry_fails_before_extraction
  (w : HttpArchive.World) (sourceUrl : string)
  (options : HttpArchive.ResolveHttpArchiveOptions)
  (response : HttpArchive.Response) (stream : list string)
  (fmt : HttpArchive.ArchiveFormat) (out : string) :
  let cap := Js.orElse (HttpArchive.maxDownloadBytes options)
               HttpArchive.DEFAULT_MAX_DOWNLOAD_BYTES in
  let tempRoot := Js.orElse (HttpArchive.tempRoot options) (HttpArchive.tmpdir w) in
  let workDir := HttpArchive.mkdtemp w tempRoot "skillet-archive-" in
  let archivePath := Fs.join workDir (HttpArchive.archiveFileName fmt) in
  let buffer := String.concat "" stream in
  let listing := EvExec (HttpArchive.archiveTool fmt) (HttpArchive.listArgs archivePath fmt) in
  let entries := filter (fun entry => negb (String.eqb entry ""))
                   (map Js.trim (Js.splitLines (Js.trim out))) in
  HttpArchive.fetch w sourceUrl = HttpArchive.FetchResolved response ->
  HttpArchive.ok response = true ->
  HttpArchive.body response = Some stream ->
  stream = [] \/ (totalBytes stream <= cap)%Z ->
  HttpArchive.detectArchiveFormat (HttpArchive.responseUrl response)
    (Js.orElse (HttpArchive.contentTypeHeader response) "") buffer = Ok fmt ->
  HttpArchive.execFileSync w (HttpArchive.archiveTool fmt)
    (HttpArchive.listArgs archivePath fmt) = ExecOk out ->
  (exists entry, In entry entries /\ EntrySpec.unsafe entry = true) ->
  exists message log,
    HttpArchive.resolveHttpArchive w sourceUrl options []
    = (Throw (ArchiveResolveError message), log)
    /\ log = [EvMkdir tempRoot; EvMkdtemp workDir; EvFetch sourceUrl]
             ++ map EvRead stream ++ [EvWriteFile archivePath buffer; listing]
    /\ filter isExec log = [listing].
Proof.
  intros cap tempRoot workDir archivePath buffer listing entries
         Hfetch Hok Hbody Hcap Hfmt Hexec Hunsafe.
  destruct (validateAll_rejects entries Hunsafe) as (m & Hm).
  assert (Hexecs :
    filter isExec ([EvMkdir tempRoot; EvMkdtemp workDir; EvFetch sourceUrl]
                     ++ map EvRead stream ++ [EvWriteFile archivePath buffer; listing])
    = [listing]).
  { cbn [app filter isExec]. rewrite filter_app.
    replace (filter isExec (map EvRead stream)) with (@nil event).
    - reflexivity.
    - clear. induction stream as [|x l IH]; [reflexivity|exact IH]. }
  unfold HttpArchive.resolveHttpArchive, HttpArchive.downloadArchive.
  cbv beta iota delta [bindM emit]. cbn [app].
  rewrite Hfetch, Hok. cbn [negb]. rewrite Hbody.
  fold cap tempRoot workDir. cbv beta iota delta [bindM].
  rewrite readLoop_under by (fold cap; destruct Hcap; [left; assumption|right; lia]).
  cbv beta iota delta [ret lift].
  cbn [app HttpArchive.buffer HttpArchive.contentType HttpArchive.dlFinalUrl].
  fold buffer. rewrite Hfmt. fold archivePath.
  unfold HttpArchive.listArchiveEntries, HttpArchive.runCommand.
  cbv beta iota delta [bindM emit ret]. rewrite Hexec.
  fold entries.
  destruct (Z.of_nat (List.length entries) >? _)%Z.
  - cbv beta iota delta [throwM].
    eexists _, _. split; [|split; [reflexivity|exact Hexecs]]. same_trace.
  - cbv beta iota delta [bindM lift]. rewrite Hm.
    eexists _, _. split; [|split; [reflexivity|exact Hexecs]]. same_trace.
Qed.


Lemma unsafe_entry_fails_before_extraction_witness :
  exists message log,
    HttpArchive.resolveHttpArchive hostileArchiveWorld
      "https://example.com/skill.tar.gz" noHttpOptions []
    = (Throw (ArchiveResolveError message), log)
    /\ log = [EvMkdir ["tmp"]; EvMkdtemp ["tmp"; "skillet-archive-x1"];
              EvFetch "https://example.com/skill.tar.gz"]
             ++ map EvRead ["ab"; "cde"; "fg"]
             ++ [EvWriteFile ["tmp"; "skillet-archive-x1"; "archive.tar.gz"] "abcdefg";
                 EvExec "tar" ["-tzf"; "/tmp/skillet-archive-x1/archive.tar.gz"]]
    /\ filter isExec log
       = [EvExec "tar" ["-tzf"; "/tmp/skillet-archive-x1/archive.tar.gz"]].
Proof.
  apply (@unsafe_entry_fails_before_extraction hostileArchiveWorld
           "https://example.com/skill.tar.gz" noHttpOptions
           {| HttpArchive.ok := true;
              HttpArchive.status := 200;
              HttpArchive.statusText := "OK";
              HttpArchive.body := Some ["ab"; "cde"; "fg"];
              HttpArchive.contentTypeHeader := Some "application/gzip";
              HttpArchive.responseUrl := "https://example.com/skill.tar.gz" |}
           ["ab"; "cde"; "fg"] HttpArchive.tar_gz
           (lines ["skill/SKILL.md"; "skill/../../evil"; ""])).
  - reflexivity.
  - reflexivity.
  - reflexivity.
  - right. vm_compute. discriminate.
  - reflexivity.
  - reflexivity.
  - exists "skill/../../evil". split; [vm_compute; auto|reflexivity].
Defined.

(** A run that goes through: the content path is the single top-level
    folder of the archive. *)
Example resolveHttpArchive_succeeds :
  fst (HttpArchive.resolveHttpArchive friendlyArchiveWorld
         "https://example.com/skill.tgz" noHttpOptions [])
  = Ok {| HttpArchive.format := HttpArchive.tar_gz;
          HttpArchive.archivePath := ["tmp"; "skillet-archive-x1"; "archive.tar.gz"];
          HttpArchive.extractPath := ["tmp"; "skillet-archive-x1"; "extract"];
          HttpArchive.contentPath := ["tmp"; "skillet-archive-x1"; "extract"; "skill"];
          HttpArchive.finalUrl := "https://example.com/skill.tgz" |}.
Proof. vm_compute. reflexivity. Qed.

(** The validator reads a backslash as a separator even where POSIX would
    read it as part of a name: the entry below, whose first component is the
    directory [a\b] for a POSIX extractor, is accepted. *)
Example backslash_in_a_name_is_split :
  HttpArchive.validateArchiveEntryPath "a\b/../../evil" = Ok tt
  /\ PosixPath.normalize "a\b/../../evil" = "../evil".
Proof. split; reflexivity. Qed.

(** For an entry without a backslash the validator's reading is the POSIX
    one. *)
Lemma toSlashes_without (entry : string) :
  Text.without "\" entry -> EntrySpec.toSlashes entry = entry.
Proof.
  unfold EntrySpec.toSlashes. induction entry as [|a entry IH]; [reflexivity|].
  intros H. apply without_cons in H as [Ha H]. cbn [Js.replaceAllChar].
  destruct (Ascii.eqb_spec a "\"); [contradiction|]. rewrite (IH H). reflexivity.
Qed.

Lemma leavesRoot_without (entry : string) :
  Text.without "\" entry -> EntrySpec.leavesRoot entry = EntrySpec.unsafe entry.
Proof.
  intros H. unfold EntrySpec.leavesRoot, EntrySpec.unsafe, EntrySpec.traverses,
    EntrySpec.normalized.
  rewrite (toSlashes_without entry H). symmetry. apply orb_assoc.
Qed.

(** C1 at work on an archive whose listing names [a\b/../../evil].  The
    POSIX-normalized form of that entry is [../evil]: it begins with the
    parent directory, and a POSIX extractor that follows the name writes
    [evil] beside the extraction root.  The validator first turns the
    backslash into a slash, finds the normal form [evil] and accepts the
    entry; the run does not fail: it goes on to the extraction command and
    returns normally. *)
Theorem backslash_in_a_name_hides_a_traversal :
  let entry := "a\b/../../evil" in
  let run := HttpArchive.resolveHttpArchive backslashArchiveWorld
               "https://example.com/skill.tar.gz" noHttpOptions [] in
  HttpArchive.execFileSync backslashArchiveWorld "tar"
    ["-tzf"; "/tmp/skillet-archive-x1/archive.tar.gz"]
  = ExecOk (lines ["skill/SKILL.md"; entry; ""])
  /\ TraceSpec.listed (lines ["skill/SKILL.md"; entry; ""]) = ["skill/SKILL.md"; entry]
  /\ PosixPath.normalize entry = "../evil"
  /\ EntrySpec.leavesRoot entry = true
  /\ PosixPath.normalize (EntrySpec.toSlashes entry) = "evil"
  /\ HttpArchive.validateArchiveEntryPath entry = Ok tt
  /\ fst run
     = Ok {| HttpArchive.format := HttpArchive.tar_gz;
             HttpArchive.archivePath := ["tmp"; "skillet-archive-x1"; "archive.tar.gz"];
             HttpArchive.extractPath := ["tmp"; "skillet-archive-x1"; "extract"];
             HttpArchive.contentPath := ["tmp"; "skillet-archive-x1"; "extract"];
             HttpArchive.finalUrl := "https://example.com/skill.tar.gz" |}
  /\ filter isExec (snd run)
     = [EvExec "tar" ["-tzf"; "/tmp/skillet-archive-x1/archive.tar.gz"];
        EvExec "tar" ["-xzf"; "/tmp/skillet-archive-x1/archive.tar.gz";
                      "-C"; "/tmp/skillet-archive-x1/extract"]].
Proof. repeat split; vm_compute; auto. Qed.

(* ===================================================================== *)
(** * The lockfile generator *)
(* ===================================================================== *)

(** ** Sorting with a comparator *)

Section SortFacts.
Context {A : Type}.
Variable cmp : A -> A -> Z.

Let le (a b : A) : Prop := (cmp a b <= 0)%Z.

Hypothesis cmp_total : forall a b, (cmp a b > 0)%Z -> (cmp b a <= 0)%Z.
Hypothesis cmp_trans :
  forall a b c, (cmp a b <= 0)%Z -> (cmp b c <= 0)%Z -> (cmp a c <= 0)%Z.

Lemma insertBy_In (x y : A) (l : list A) :
  In y (Js.insertBy cmp x l) <-> y = x \/ In y l.
Proof.
  induction l as [|z l IH]; cbn [Js.insertBy In].
  - intuition.
  - destruct (cmp x z <=? 0)%Z; cbn [In]; [intuition|].
    rewrite IH. intuition.
Qed.

Lemma sortBy_In (y : A) (l : list A) : In y (Js.sortBy cmp l) <-> In y l.
Proof.
  induction l as [|x l IH]; cbn [Js.sortBy In]; [tauto|].
  rewrite insertBy_In, IH. intuition.
Qed.

Lemma insertBy_sorted (x : A) (l : list A) :
  StronglySorted le l -> StronglySorted le (Js.insertBy cmp x l).
Proof.
  induction 1 as [|z l Hsorted IH Hall]; cbn [Js.insertBy].
  - repeat constructor.
  - destruct (Z.leb_spec (cmp x z) 0) as [Hle|Hgt].
    + constructor; [constructor; assumption|].
      constructor; [exact Hle|].
      apply Forall_forall. intros y Hy.
      apply (cmp_trans _ z); [exact Hle|].
      exact (proj1 (Forall_forall _ _) Hall y Hy).
    + constructor; [exact IH|].
      apply Forall_forall. intros y Hy. apply insertBy_In in Hy as [->|Hy].
      * apply cmp_total. lia.
      * exact (proj1 (Forall_forall _ _) Hall y Hy).
Qed.

Lemma sortBy_sorted (l : list A) : StronglySorted le (Js.sortBy cmp l).
Proof.
  induction l as [|x l IH]; cbn [Js.sortBy]; [constructor|].
  apply insertBy_sorted. exact IH.
Qed.

Lemma insertBy_perm (x : A) (l : list A) : Permutation (x :: l) (Js.insertBy cmp x l).
Proof.
  induction l as [|z l IH]; cbn [Js.insertBy]; [reflexivity|].
  destruct (cmp x z <=? 0)%Z; [reflexivity|].
  rewrite perm_swap. constructor. exact IH.
Qed.

Lemma sortBy_perm (l : list A) : Permutation l (Js.sortBy cmp l).
Proof.
  induction l as [|x l IH]; cbn [Js.sortBy]; [constructor|].
  rewrite <- insertBy_perm. constructor. exact IH.
Qed.

End SortFacts.

(** ** The comparator of lock entries *)

Section CompareFacts.
Variable compare : string -> string -> Z.
Hypothesis Hconsistent : LockSpec.consistent compare.

Lemma compare_total (a b : string) : (compare a b > 0)%Z -> (compare b a <= 0)%Z.
Proof.
  destruct Hconsistent as [Hanti _]. specialize (Hanti a b).
  pose proof (Z.sgn_spec (compare a b)). pose proof (Z.sgn_spec (compare b a)).
  lia.
Qed.

Lemma compare_zero_sym (a b : string) : compare a b = 0%Z -> compare b a = 0%Z.
Proof.
  destruct Hconsistent as [Hanti _]. specialize (Hanti a b).
  pose proof (Z.sgn_spec (compare a b)). pose proof (Z.sgn_spec (compare b a)).
  lia.
Qed.

Lemma compare_neg_pos (a b : string) : (compare a b < 0)%Z -> (compare b a > 0)%Z.
Proof.
  destruct Hconsistent as [Hanti _]. specialize (Hanti a b).
  pose proof (Z.sgn_spec (compare a b)). pose proof (Z.sgn_spec (compare b a)).
  lia.
Qed.

Lemma compare_pos_neg (a b : string) : (compare a b > 0)%Z -> (compare b a < 0)%Z.
Proof.
  destruct Hconsistent as [Hanti _]. specialize (Hanti a b).
  pose proof (Z.sgn_spec (compare a b)). pose proof (Z.sgn_spec (compare b a)).
  lia.
Qed.

Lemma compare_le_trans (a b c : string) :
  (compare a b <= 0)%Z -> (compare b c <= 0)%Z -> (compare a c <= 0)%Z.
Proof. apply Hconsistent. Qed.

Lemma compare_zero_trans (a b c : string) :
  compare a b = 0%Z -> compare b c = 0%Z -> compare a c = 0%Z.
Proof.
  intros Hab Hbc.
  assert (compare a c <= 0)%Z by (apply (compare_le_trans a b c); lia).
  assert (compare c a <= 0)%Z.
  { apply (compare_le_trans c b a); rewrite compare_zero_sym; try assumption; lia. }
  destruct (Z.lt_total (compare a c) 0) as [Hlt|[Heq|Hgt]]; [|exact Heq|lia].
  apply compare_neg_pos in Hlt. lia.
Qed.

Lemma compare_lt_le_trans (a b c : string) :
  (compare a b < 0)%Z -> (compare b c <= 0)%Z -> (compare a c < 0)%Z.
Proof.
  intros Hab Hbc.
  assert (Hac : (compare a c <= 0)%Z) by (apply (compare_le_trans a b c); lia).
  destruct (Z.eq_dec (compare a c) 0) as [Heq|]; [|lia].
  apply compare_zero_sym in Heq.
  assert (compare b a <= 0)%Z by (apply (compare_le_trans b c a); lia).
  apply compare_neg_pos in Hab. lia.
Qed.

Lemma compare_le_lt_trans (a b c : string) :
  (compare a b <= 0)%Z -> (compare b c < 0)%Z -> (compare a c < 0)%Z.
Proof.
  intros Hab Hbc.
  assert (Hac : (compare a c <= 0)%Z) by (apply (compare_le_trans a b c); lia).
  destruct (Z.eq_dec (compare a c) 0) as [Heq|]; [|lia].
  apply compare_zero_sym in Heq.
  assert (compare c b <= 0)%Z by (apply (compare_le_trans c a b); lia).
  apply compare_neg_pos in Hbc. lia.
Qed.

End CompareFacts.

Section LockfileFacts.
Variable w : Lockfile.World.
Hypothesis Hconsistent : LockSpec.consistent (Lockfile.localeCompare w).

Let lc := Lockfile.localeCompare w.

(** The comparator of the sort decides the lexicographic order. *)
Lemma compareKeys_lexLe (l r : list string) :
  (Lockfile.compareKeys w l r <= 0)%Z <-> LockSpec.lexLe lc l r.
Proof.
  revert r. induction l as [|x l IH]; intros [|y r];
    cbn [Lockfile.compareKeys LockSpec.lexLe]; try (split; [tauto|lia]).
  specialize (IH r). fold lc.
  destruct (Z.eqb_spec (lc x y) 0) as [Heq|Hne]; cbn [negb].
  - rewrite IH. intuition lia.
  - intuition lia.
Qed.

Lemma compareKeys_total (l r : list string) :
  List.length l = List.length r ->
  (Lockfile.compareKeys w l r > 0)%Z -> (Lockfile.compareKeys w r l <= 0)%Z.
Proof.
  revert r. induction l as [|x l IH]; intros [|y r] Hlen;
    cbn [Lockfile.compareKeys]; try lia; try discriminate.
  fold lc. injection Hlen as Hlen. specialize (IH r Hlen).
  destruct (Z.eqb_spec (lc x y) 0) as [Heq|Hne]; cbn [negb].
  - rewrite (compare_zero_sym lc Hconsistent x y Heq). cbn [Z.eqb negb]. exact IH.
  - intros Hpos. pose proof (compare_pos_neg lc Hconsistent x y Hpos).
    destruct (Z.eqb_spec (lc y x) 0); cbn [negb]; lia.
Qed.

Lemma lexLe_trans (a b c : list string) :
  List.length a = List.length b -> List.length b = List.length c ->
  LockSpec.lexLe lc a b -> LockSpec.lexLe lc b c -> LockSpec.lexLe lc a c.
Proof.
  revert b c. induction a as [|x a IH]; intros [|y b] [|z c] Hab Hbc;
    cbn [LockSpec.lexLe]; try tauto; try discriminate.
  injection Hab as Hab. injection Hbc as Hbc.
  intros [Hxy|[Hxy Hle1]] [Hyz|[Hyz Hle2]].
  - left. apply (compare_lt_le_trans lc Hconsistent x y z); lia.
  - left. apply (compare_lt_le_trans lc Hconsistent x y z); lia.
  - left. apply (compare_le_lt_trans lc Hconsistent x y z); lia.
  - right. split.
    + apply (compare_zero_trans lc Hconsistent x y z); assumption.
    + apply (IH b c); assumption.
Qed.

Lemma compareSources_total (a b : Lockfile.LockfileSource) :
  (Lockfile.compareSources w a b > 0)%Z -> (Lockfile.compareSources w b a <= 0)%Z.
Proof. apply compareKeys_total. reflexivity. Qed.

Lemma compareSources_trans (a b c : Lockfile.LockfileSource) :
  (Lockfile.compareSources w a b <= 0)%Z ->
  (Lockfile.compareSources w b c <= 0)%Z ->
  (Lockfile.compareSources w a c <= 0)%Z.
Proof.
  unfold Lockfile.compareSources. rewrite !compareKeys_lexLe.
  apply lexLe_trans; reflexivity.
Qed.

(** The entries of a generated document are in lexicographic order of
    their provenance tuples. *)
Lemma sorted_sources (gs : list Lockfile.Group) :
  StronglySorted
    (fun a b => LockSpec.lexLe lc (LockSpec.identityTuple a) (LockSpec.identityTuple b))
    (Js.sortBy (Lockfile.compareSources w) (map (Lockfile.normalizeGroup w) gs)).
Proof.
  eapply StronglySorted_ind with
    (P := StronglySorted
            (fun a b => LockSpec.lexLe lc (LockSpec.identityTuple a)
                          (LockSpec.identityTuple b))).
  3: apply (sortBy_sorted (Lockfile.compareSources w)
              compareSources_total compareSources_trans).
  - constructor.
  - intros a l _ IH Hall. constructor; [exact IH|].
    eapply Forall_impl; [|exact Hall].
    intros b Hb. apply compareKeys_lexLe. exact Hb.
Qed.

Lemma sorted_names (names : list string) :
  StronglySorted (LockSpec.stringLe lc) (Js.sortBy lc names).
Proof.
  apply (sortBy_sorted lc).
  - apply (compare_total lc Hconsistent).
  - apply Hconsistent.
Qed.

End LockfileFacts.

(** ** What the scan reads *)

Section ScanFacts.
Variable w : Lockfile.World.
Variable scanRoot : Fs.path.
Variables d d' : Fs.node.
Hypothesis Hsame : LockSpec.sameInstalledSkills scanRoot d d'.

Let under := LockSpec.underAgentSkills scanRoot.

Lemma under_join (p : Fs.path) (name : string) : under p -> under (Fs.join p name).
Proof.
  intros (agent & rel & rest & Hin & ->). unfold Fs.join.
  destruct (String.eqb name "").
  - exists agent, rel, rest. auto.
  - exists agent, rel, (rest ++ [name]). split; [exact Hin|].
    rewrite <- !app_assoc. reflexivity.
Qed.

Lemma same_isDirectory (p : Fs.path) :
  under p -> Lockfile.isDirectory d p = Lockfile.isDirectory d' p.
Proof.
  intros Hp. unfold Lockfile.isDirectory. rewrite (proj1 (Hsame p Hp)). reflexivity.
Qed.

Lemma same_isFile (p : Fs.path) :
  under p -> Lockfile.isFile d p = Lockfile.isFile d' p.
Proof.
  intros Hp. unfold Lockfile.isFile. rewrite (proj1 (Hsame p Hp)). reflexivity.
Qed.

Lemma same_readFile (p : Fs.path) :
  under p -> Fs.readFileSync d p = Fs.readFileSync d' p.
Proof.
  intros Hp. unfold Fs.readFileSync. rewrite (proj1 (Hsame p Hp)). reflexivity.
Qed.

Lemma same_readdir (p : Fs.path) :
  under p -> Fs.readdirSync d p = Fs.readdirSync d' p.
Proof.
  intros Hp. unfold Fs.readdirSync. rewrite (proj1 (Hsame p Hp)). reflexivity.
Qed.

Lemma same_readSourceMetadata (skillDir : Fs.path) :
  under skillDir ->
  Lockfile.readSourceMetadata w d skillDir = Lockfile.readSourceMetadata w d' skillDir.
Proof.
  intros Hp. unfold Lockfile.readSourceMetadata. cbv zeta.
  rewrite (same_isFile _ (under_join _ _ Hp)), (same_readFile _ (under_join _ _ Hp)).
  reflexivity.
Qed.

Lemma same_scanSkillDirectory (agent : string) (groups : Lockfile.Groups)
      (skillDir : Fs.path) :
  under skillDir ->
  Lockfile.scanSkillDirectory w d agent groups skillDir
  = Lockfile.scanSkillDirectory w d' agent groups skillDir.
Proof.
  intros Hp. unfold Lockfile.scanSkillDirectory. cbv zeta.
  rewrite (same_isFile _ (under_join _ _ Hp)), (same_readFile _ (under_join _ _ Hp)),
    (same_readSourceMetadata _ Hp), (proj2 (Hsame _ Hp)).
  reflexivity.
Qed.

Lemma same_scanSkillDirectories (agent : string) (skillDirs : list Fs.path) :
  Forall under skillDirs ->
  forall groups,
    Lockfile.scanSkillDirectories w d agent groups skillDirs
    = Lockfile.scanSkillDirectories w d' agent groups skillDirs.
Proof.
  induction 1 as [|skillDir rest Hp _ IH]; intros groups;
    cbn [Lockfile.scanSkillDirectories]; [reflexivity|].
  rewrite (same_scanSkillDirectory _ _ _ Hp).
  destruct (Lockfile.scanSkillDirectory w d' agent groups skillDir); cbn [bind];
    [apply IH|reflexivity].
Qed.

Lemma listSkillDirectories_under (agentSkillsDir : Fs.path) (dirs : list Fs.path) :
  under agentSkillsDir ->
  Lockfile.listSkillDirectories w d agentSkillsDir = Ok dirs ->
  Forall under dirs.
Proof.
  intros Hp. unfold Lockfile.listSkillDirectories.
  destruct (Fs.readdirSync d agentSkillsDir) as [entries|e]; cbn [bind]; [|discriminate].
  intros H. inversion H; subst. clear H.
  apply Forall_forall. intros p Hin. apply sortBy_In in Hin.
  apply in_flat_map in Hin as (entry & _ & Hin).
  assert (Hj : under (Fs.join agentSkillsDir (fst entry))) by (apply under_join; exact Hp).
  destruct (snd entry); cbn [In] in Hin.
  - destruct Hin.
  - destruct Hin as [<-|[]]. exact Hj.
  - destruct (Lockfile.isDirectory d _); [|destruct Hin].
    destruct Hin as [<-|[]]. exact Hj.
Qed.

Lemma same_listSkillDirectories (agentSkillsDir : Fs.path) :
  under agentSkillsDir ->
  Lockfile.listSkillDirectories w d agentSkillsDir
  = Lockfile.listSkillDirectories w d' agentSkillsDir.
Proof.
  intros Hp. unfold Lockfile.listSkillDirectories.
  rewrite (same_readdir _ Hp).
  destruct (Fs.readdirSync d' agentSkillsDir) as [entries|e]; cbn [bind]; [|reflexivity].
  do 2 f_equal. apply flat_map_ext. intros entry.
  rewrite (same_isDirectory _ (under_join _ (fst entry) Hp)). reflexivity.
Qed.

Lemma same_scanAgents (configs : list (string * Fs.path)) :
  incl configs Lockfile.AGENT_SKILL_DIRS ->
  forall groups,
    Lockfile.scanAgents w d scanRoot groups configs
    = Lockfile.scanAgents w d' scanRoot groups configs.
Proof.
  induction configs as [|[agent rel] rest IH]; intros Hincl groups;
    cbn [Lockfile.scanAgents]; [reflexivity|].
  assert (Hp : under (scanRoot ++ rel)).
  { exists agent, rel, []. split; [apply Hincl; left; reflexivity|].
    rewrite app_nil_r. reflexivity. }
  assert (Hrest : incl rest Lockfile.AGENT_SKILL_DIRS).
  { intros x Hx. apply Hincl. right. exact Hx. }
  rewrite <- (same_isDirectory _ Hp).
  destruct (Lockfile.isDirectory d (scanRoot ++ rel)); cbn [negb]; [|apply IH; exact Hrest].
  rewrite <- (same_listSkillDirectories _ Hp).
  destruct (Lockfile.listSkillDirectories w d (scanRoot ++ rel)) as [dirs|e] eqn:Hdirs;
    cbn [bind]; [|reflexivity].
  rewrite <- (same_scanSkillDirectories agent dirs
                (listSkillDirectories_under _ _ Hp Hdirs)).
  destruct (Lockfile.scanSkillDirectories w d agent groups dirs); cbn [bind];
    [apply IH; exact Hrest|reflexivity].
Qed.

End ScanFacts.

(** C2.  With a comparison of strings a sort can rely on, a generated
    document lists its entries in lexicographic order of
    (type, url, ref, digest, installMethod) and, in every entry, the skills
    and the agents in order; the YAML is the rendering of that document.
    On any disk that shows the same installed skills the generator computes
    the same document and the same YAML, and only the write is repeated; on
    the disk the first run left, when that still shows the same installed
    skills, the second run succeeds, returns the same result and writes byte
    for byte what is there. *)
Theorem lockfile_generation_is_deterministic
  (w : Lockfile.World) (options : Lockfile.GenerateLockfileOptions)
  (d d1 : Fs.node) (r1 : Lockfile.GenerateLockfileResult) :
  LockSpec.consistent (Lockfile.localeCompare w) ->
  Lockfile.generateLockfile w options d = (Ok r1, d1) ->
  let doc := Lockfile.lockfile r1 in
  StronglySorted
    (fun a b => LockSpec.lexLe (Lockfile.localeCompare w)
                  (LockSpec.identityTuple a) (LockSpec.identityTuple b))
    (Lockfile.sources doc)
  /\ Forall (fun s =>
               StronglySorted (LockSpec.stringLe (Lockfile.localeCompare w))
                 (Lockfile.skills s)
               /\ StronglySorted (LockSpec.stringLe (Lockfile.localeCompare w))
                    (Lockfile.agents s))
            (Lockfile.sources doc)
  /\ Lockfile.yaml r1 = Lockfile.toYaml w doc
  /\ (forall d',
        LockSpec.sameInstalledSkills (Lockfile.scanRootOf w options) d d' ->
        Lockfile.generateLockfile w options d' = LockSpec.writeLockfile r1 d'
        /\ forall r2 d2,
             Lockfile.generateLockfile w options d' = (Ok r2, d2) ->
             Lockfile.yaml r2 = Lockfile.yaml r1
             /\ Lockfile.lockfile r2 = Lockfile.lockfile r1)
  /\ (LockSpec.sameInstalledSkills (Lockfile.scanRootOf w options) d d1 ->
      Lockfile.generateLockfile w options d1 = (Ok r1, d1)).
Proof.
  intros Hconsistent Hrun doc.
  assert (Hwritten :
    Fs.mkdirSync d1 (Fs.dirname (Lockfile.outputPath r1)) = Ok d1
    /\ Fs.writeFileSync d1 (Lockfile.outputPath r1) (Lockfile.yaml r1) = Ok d1).
  { unfold Lockfile.generateLockfile in Hrun.
    destruct (Lockfile.scanAgents w d _ [] _) as [groups|e]; [|discriminate].
    cbv zeta in Hrun.
    destruct (Fs.mkdirSync d _) as [d0|e]; [|discriminate].
    destruct (Fs.writeFileSync d0 _ _) as [d2|e] eqn:Hwrite; [|discriminate].
    inversion Hrun; subst. cbn [Lockfile.outputPath Lockfile.yaml].
    apply (writeFileSync_same d0 d1 _ _); [|exact Hwrite].
    unfold Lockfile.outputPathOf, Fs.join.
    destruct (Lockfile.scope options); cbn [String.eqb Ascii.eqb Bool.eqb];
      intros H; apply app_eq_nil in H as [_ H]; discriminate. }
  unfold Lockfile.generateLockfile in Hrun.
  destruct (Lockfile.scanAgents w d (Lockfile.scanRootOf w options) []
              Lockfile.AGENT_SKILL_DIRS) as [groups|e] eqn:Hscan; [|discriminate].
  assert (Hr1 : r1 = {| Lockfile.outputPath := Lockfile.outputPathOf w options;
                        Lockfile.yaml :=
                          Lockfile.toYaml w
                            {| Lockfile.version := 1;
                               Lockfile.sources :=
                                 Js.sortBy (Lockfile.compareSources w)
                                   (map (Lockfile.normalizeGroup w) (map snd groups)) |};
                        Lockfile.lockfile :=
                          {| Lockfile.version := 1;
                             Lockfile.sources :=
                               Js.sortBy (Lockfile.compareSources w)
                                 (map (Lockfile.normalizeGroup w) (map snd groups)) |} |}).
  { cbv zeta in Hrun.
    destruct (Fs.mkdirSync d _) as [d0|e]; [|discriminate].
    destruct (Fs.writeFileSync d0 _ _) as [d2|e]; [|discriminate].
    inversion Hrun. reflexivity. }
  clear Hrun. subst doc. subst r1.
  cbn [Lockfile.lockfile Lockfile.yaml Lockfile.sources Lockfile.outputPath] in *.
  split; [apply sorted_sources; exact Hconsistent|].
  split.
  { apply Forall_forall. intros s Hs. apply sortBy_In in Hs.
    apply in_map_iff in Hs as (g & <- & _).
    cbn [Lockfile.normalizeGroup Lockfile.skills Lockfile.agents].
    split; apply sorted_names; exact Hconsistent. }
  split; [reflexivity|].
  assert (Hsecond : forall d',
    LockSpec.sameInstalledSkills (Lockfile.scanRootOf w options) d d' ->
    Lockfile.generateLockfile w options d'
    = LockSpec.writeLockfile
        {| Lockfile.outputPath := Lockfile.outputPathOf w options;
           Lockfile.yaml :=
             Lockfile.toYaml w
               {| Lockfile.version := 1;
                  Lockfile.sources :=
                    Js.sortBy (Lockfile.compareSources w)
                      (map (Lockfile.normalizeGroup w) (map snd groups)) |};
           Lockfile.lockfile :=
             {| Lockfile.version := 1;
                Lockfile.sources :=
                  Js.sortBy (Lockfile.compareSources w)
                    (map (Lockfile.normalizeGroup w) (map snd groups)) |} |} d').
  { intros d' Hsame.
    unfold Lockfile.generateLockfile, LockSpec.writeLockfile.
    rewrite <- (same_scanAgents w _ d d' Hsame Lockfile.AGENT_SKILL_DIRS
                  (incl_refl _) []).
    rewrite Hscan. reflexivity. }
  split.
  2:{ intros Hsame. rewrite (Hsecond d1 Hsame). unfold LockSpec.writeLockfile.
      cbn [Lockfile.outputPath Lockfile.yaml].
      destruct Hwritten as [Hmk Hwr]. rewrite Hmk, Hwr. reflexivity. }
  intros d' Hsame.
  assert (Hagain :
    Lockfile.generateLockfile w options d'
    = LockSpec.writeLockfile
        {| Lockfile.outputPath := Lockfile.outputPathOf w options;
           Lockfile.yaml :=
             Lockfile.toYaml w
               {| Lockfile.version := 1;
                  Lockfile.sources :=
                    Js.sortBy (Lockfile.compareSources w)
                      (map (Lockfile.normalizeGroup w) (map snd groups)) |};
           Lockfile.lockfile :=
             {| Lockfile.version := 1;
                Lockfile.sources :=
                  Js.sortBy (Lockfile.compareSources w)
                    (map (Lockfile.normalizeGroup w) (map snd groups)) |} |} d').
  { exact (Hsecond d' Hsame). }
  split; [exact Hagain|].
  intros r2 d2 Hrun2. rewrite Hagain in Hrun2.
  unfold LockSpec.writeLockfile in Hrun2.
  cbn [Lockfile.outputPath Lockfile.yaml] in Hrun2.
  destruct (Fs.mkdirSync d' _) as [d0|e]; [|discriminate].
  destruct (Fs.writeFileSync d0 _ _) as [d3|e]; [|discriminate].
  inversion Hrun2. split; reflexivity.
Qed.

(** ** A run, and a second one *)

Lemma codeUnitCompare_consistent : LockSpec.consistent LockSpec.codeUnitCompare.
Proof.
  unfold LockSpec.consistent, LockSpec.codeUnitCompare. split.
  - intros a b. rewrite (String_as_OT.cmp_antisym b a).
    destruct (String_as_OT.cmp a b); reflexivity.
  - intros a b c.
    destruct (String_as_OT.cmp a b) eqn:Hab; try (cbn; lia);
      destruct (String_as_OT.cmp b c) eqn:Hbc; try (cbn; lia); intros _ _.
    + apply String_as_OT.cmp_eq in Hab, Hbc. subst.
      rewrite (proj2 (String_as_OT.cmp_eq c c) eq_refl). lia.
    + apply String_as_OT.cmp_eq in Hab. subst. rewrite Hbc. lia.
    + apply String_as_OT.cmp_eq in Hbc. subst. rewrite Hab. lia.
    + apply String_as_OT.cmp_lt in Hab, Hbc.
      rewrite (proj2 (String_as_OT.cmp_lt a c) (String_as_OT.lt_trans _ _ _ Hab Hbc)).
      lia.
Qed.

Lemma assoc_linkFree (c : string) (es : list (string * Fs.node)) (n : Fs.node) :
  LockSpec.linkFree (Fs.Dir es) = true -> Fs.assoc c es = Some n ->
  LockSpec.linkFree n = true.
Proof.
  induction es as [|[k v] es IH]; cbn [Fs.assoc]; [discriminate|].
  cbn [LockSpec.linkFree]. intros Hall. apply andb_true_iff in Hall as [Hv Hes].
  destruct (String.eqb k c).
  - intros H. inversion H; subst. exact Hv.
  - apply IH. exact Hes.
Qed.

(** Below a tree without links the walk never leaves the tree. *)
Lemma walk_linkFree (follow : bool) (rec rec' : Fs.path -> option (Fs.path * Fs.node))
      (p : Fs.path) :
  forall n cur, LockSpec.linkFree n = true ->
                Fs.walk follow rec n cur p = Fs.walk follow rec' n cur p.
Proof.
  induction p as [|c rest IH]; intros n cur Hn; cbn [Fs.walk]; [reflexivity|].
  destruct n as [|es|]; try reflexivity.
  destruct (Fs.assoc c es) as [child|] eqn:Hc; [|reflexivity].
  pose proof (assoc_linkFree c es child Hn Hc) as Hchild.
  destruct child as [content|sub|t]; [apply IH; exact Hchild .. |discriminate].
Qed.

Lemma lockedDisk_shows_the_same_skills :
  LockSpec.sameInstalledSkills ["proj"] LockSpec.installedDisk LockSpec.lockedDisk.
Proof.
  intros p (agent & rel & rest & Hin & ->).
  unfold Fs.statSync, Fs.lstatSync, Fs.resolve.
  cbn [In Lockfile.AGENT_SKILL_DIRS] in Hin.
  destruct Hin as [H|[H|[H|[H|[H|[]]]]]]; inversion H; subst; clear H;
    split; cbn; try reflexivity;
    f_equal; apply walk_linkFree; reflexivity.
Qed.

Lemma lockfile_generation_is_deterministic_witness :
  exists r1 r2,
    Lockfile.generateLockfile LockSpec.world LockSpec.projectOptions LockSpec.installedDisk
    = (Ok r1, LockSpec.lockedDisk)
    /\ Lockfile.generateLockfile LockSpec.world LockSpec.projectOptions LockSpec.lockedDisk
       = (Ok r2, LockSpec.lockedDisk)
    /\ Lockfile.yaml r2 = Lockfile.yaml r1
    /\ Fs.readFileSync LockSpec.lockedDisk ["proj"; "skillet.lock.yaml"]
       = Ok (Lockfile.yaml r1)
    /\ StronglySorted
         (fun a b => LockSpec.lexLe LockSpec.codeUnitCompare
                       (LockSpec.identityTuple a) (LockSpec.identityTuple b))
         (Lockfile.sources (Lockfile.lockfile r1))
    /\ map Lockfile.skills (Lockfile.sources (Lockfile.lockfile r1))
       = [["alpha"; "beta"]; ["gamma"]].
Proof.
  destruct (Lockfile.generateLockfile LockSpec.world LockSpec.projectOptions
              LockSpec.installedDisk) as [[r1|e] d1] eqn:H1;
    [|vm_compute in H1; discriminate].
  assert (Hd1 : d1 = LockSpec.lockedDisk).
  { vm_compute in H1. inversion H1. reflexivity. }
  subst d1.
  destruct (lockfile_generation_is_deterministic LockSpec.world LockSpec.projectOptions
              LockSpec.installedDisk LockSpec.lockedDisk r1
              codeUnitCompare_consistent H1)
    as (Hsorted & _ & _ & Hagain & _).
  destruct (Hagain LockSpec.lockedDisk lockedDisk_shows_the_same_skills) as [_ Hsame].
  destruct (Lockfile.generateLockfile LockSpec.world LockSpec.projectOptions
              LockSpec.lockedDisk) as [[r2|e] d2] eqn:H2;
    [|vm_compute in H2; discriminate].
  assert (Hd2 : d2 = LockSpec.lockedDisk).
  { vm_compute in H2. inversion H2. reflexivity. }
  subst d2.
  exists r1, r2. repeat split.
  - exact (proj1 (Hsame r2 LockSpec.lockedDisk eq_refl)).
  - vm_compute in H1. inversion H1. vm_compute. reflexivity.
  - exact Hsorted.
  - vm_compute in H1. inversion H1. reflexivity.
Defined.

(** ** The grouping key *)

Section KeyFacts.
Import LockSpec.

Lemma barFree_cons (c : ascii) (s : string) :
  barFree (String c s) = true -> c <> "|"%char /\ barFree s = true.
Proof.
  unfold barFree. cbn [Js.includes Js.startsWith].
  destruct (Ascii.eqb_spec "|"%char c) as [<-|Hne]; cbn [andb orb negb].
  - discriminate.
  - intros H. split; [congruence|exact H].
Qed.

(** A field without the separator ends where the separator stands. *)
Lemma split_at_bar (a b x y : string) :
  barFree a = true -> barFree b = true ->
  (a ++ String "|" x)%string = (b ++ String "|" y)%string -> a = b /\ x = y.
Proof.
  revert b. induction a as [|c a IH]; intros [|c' b] Ha Hb Heq; cbn [append] in Heq.
  - inversion Heq. auto.
  - inversion Heq; subst. apply barFree_cons in Hb as [Hb _]. contradiction.
  - inversion Heq; subst. apply barFree_cons in Ha as [Ha _]. contradiction.
  - inversion Heq; subst.
    apply barFree_cons in Ha as [_ Ha]. apply barFree_cons in Hb as [_ Hb].
    destruct (IH b Ha Hb H1) as [-> ->]. auto.
Qed.

(** Provenances without the separator in any field have the same key only
    when they are the same. *)
Lemma groupingKey_injective_without_separator (a b : Lockfile.SourceIdentity) :
  forallb barFree (identityFields a) = true ->
  forallb barFree (identityFields b) = true ->
  Lockfile.groupingKey a = Lockfile.groupingKey b ->
  identityFields a = identityFields b.
Proof.
  unfold identityFields, Lockfile.groupingKey, Js.join.
  cbn [forallb String.concat].
  rewrite !andb_true_iff.
  intros (A1 & A2 & A3 & A4 & _) (B1 & B2 & B3 & B4 & _) Hkey.
  change (?s ++ "|" ++ ?t)%string with (s ++ String "|" t)%string in Hkey.
  apply split_at_bar in Hkey as [-> Hkey]; try assumption.
  change (?s ++ "|" ++ ?t)%string with (s ++ String "|" t)%string in Hkey.
  apply split_at_bar in Hkey as [-> Hkey]; try assumption.
  change (?s ++ "|" ++ ?t)%string with (s ++ String "|" t)%string in Hkey.
  apply split_at_bar in Hkey as [-> Hkey]; try assumption.
  change (?s ++ "|" ++ ?t)%string with (s ++ String "|" t)%string in Hkey.
  apply split_at_bar in Hkey as [-> Hkey]; try assumption.
  rewrite Hkey. reflexivity.
Qed.

End KeyFacts.

(** C3 at work on two installed skills whose provenances differ in url and
    in ref: the separator of the key occurs in the fields, the two keys are
    the same string, and the document has one entry that lists both skills
    under the provenance of the first. *)
Theorem distinct_provenances_share_one_entry :
  let one := Lockfile.readSourceMetadata LockSpec.world LockSpec.collidingDisk
               ["proj"; ".claude"; "skills"; "one"] in
  let two := Lockfile.readSourceMetadata LockSpec.world LockSpec.collidingDisk
               ["proj"; ".claude"; "skills"; "two"] in
  (Lockfile.mUrl one, Lockfile.mRef one) = (Some "/repos/skills|x", Some "main")
  /\ (Lockfile.mUrl two, Lockfile.mRef two) = (Some "/repos/skills", Some "x|main")
  /\ Lockfile.groupingKey
       {| Lockfile.sType := "git"; Lockfile.sUrl := "/repos/skills|x";
          Lockfile.sRef := Some "main"; Lockfile.sDigest := None;
          Lockfile.sInstallMethod := "copy" |}
     = "git|/repos/skills|x|main||copy"
  /\ Lockfile.groupingKey
       {| Lockfile.sType := "git"; Lockfile.sUrl := "/repos/skills";
          Lockfile.sRef := Some "x|main"; Lockfile.sDigest := None;
          Lockfile.sInstallMethod := "copy" |}
     = "git|/repos/skills|x|main||copy"
  /\ option_map Lockfile.lockfile
       (match fst (Lockfile.generateLockfile LockSpec.world LockSpec.projectOptions
                     LockSpec.collidingDisk) with
        | Ok r => Some r
        | Throw _ => None
        end)
     = Some {| Lockfile.version := 1;
               Lockfile.sources :=
                 [{| Lockfile.type := "git";
                     Lockfile.url := "/repos/skills|x";
                     Lockfile.ref := Some "main";
                     Lockfile.digest := None;
                     Lockfile.installMethod := "copy";
                     Lockfile.skills := ["one"; "two"];
                     Lockfile.agents := ["claude"] |}] |}.
Proof. repeat split; vm_compute; reflexivity. Qed.

(* ===================================================================== *)
(** * The check command *)
(* ===================================================================== *)

Section LsRemoteFacts.

Lemma hexDigit_black (a : ascii) : CheckSpec.isHexDigit a = true -> Text.isBlack a = true.
Proof.
  destruct a as [[|] [|] [|] [|] [|] [|] [|] [|]]; intros H;
    solve [reflexivity | discriminate H].
Qed.

Lemma requestedRefOf_refOrHead (source : Check.LockfileSourceEntry) :
  Check.requestedRefOf (Check.ref source) = CheckSpec.refOrHead source.
Proof.
  unfold Check.requestedRefOf, CheckSpec.refOrHead, Js.truthy.
  destruct (Check.ref source) as [r|]; [|reflexivity].
  destruct (String.eqb r ""); reflexivity.
Qed.

(** What [getLatestGitDigest] makes of an output of [git ls-remote] that
    starts with hexadecimal digits followed by a tab: those digits, when
    there are 40 of them or more. *)
Lemma getLatestGitDigest_of_output (w : Check.World) (source : Check.LockfileSourceEntry)
      (hash rest : string) :
  Check.execFileSync w "git" (CheckSpec.lsRemote source)
  = ExecOk (hash ++ String CheckSpec.TAB rest) ->
  Skill.allChars CheckSpec.isHexDigit hash = true -> hash <> "" ->
  Check.getLatestGitDigest w (Check.url source) (Check.ref source)
  = if (String.length hash <? 40)%nat then
      Throw (GenericError ("Unexpected git ls-remote output for " ++ Check.url source))
    else Ok hash.
Proof.
  intros Hgit Hhex Hne.
  assert (Hblack : Skill.allChars Text.isBlack hash = true).
  { revert Hhex. apply allChars_weaken, hexDigit_black. }
  unfold Check.getLatestGitDigest, Check.runGit. cbv zeta.
  rewrite requestedRefOf_refOrHead. unfold CheckSpec.lsRemote in Hgit. rewrite Hgit.
  cbn [bind].
  destruct (first_line_of_output hash CheckSpec.TAB rest Hblack Hne)
    as (tail & -> & Htail); try reflexivity; try discriminate.
  rewrite (firstToken_black hash tail Hblack Htail).
  rewrite (length_ascii hash (black_ascii hash Hblack)).
  destruct (String.eqb_spec hash ""); [contradiction|]. reflexivity.
Qed.

End LsRemoteFacts.

(** C5.  For a lock entry of type git the status is [outdated] exactly when
    a digest is recorded and the commit hash that [git ls-remote] returns,
    asked for the entry's ref or for HEAD when none is recorded, differs
    from it; without a recorded digest the status is [up-to-date] and the
    hash just queried is still reported.  The hash is read off the output
    of the command and nothing else: when git prints hexadecimal digits, a
    tab and whatever follows (the name of the ref, further lines), those
    digits are the hash if there are 40 of them or more, and the query
    fails if there are fewer; it fails too when git does. *)
Theorem git_entry_outdated_iff_recorded_digest_differs
  (w : Check.World) (source : Check.LockfileSourceEntry) :
  Check.type source = "git" ->
  let latest := Check.getLatestGitDigest w (Check.url source) (Check.ref source) in
  let printed := Check.execFileSync w "git" (CheckSpec.lsRemote source) in
  (Check.status (Check.checkSource w source) = Check.outdated
   <-> exists recorded hash,
         Check.digest source = Some recorded /\ recorded <> ""
         /\ latest = Ok hash /\ hash <> recorded)
  /\ (forall hash,
        Js.truthy (Check.digest source) = false ->
        latest = Ok hash ->
        Check.checkSource w source
        = {| Check.status := Check.up_to_date;
             Check.latestDigest := Some hash;
             Check.message := None |})
  /\ (forall w' : Check.World,
        Check.execFileSync w' "git" (CheckSpec.lsRemote source) = printed ->
        Check.getLatestGitDigest w' (Check.url source) (Check.ref source) = latest)
  /\ (forall hash rest,
        printed = ExecOk (hash ++ String CheckSpec.TAB rest) ->
        Skill.allChars CheckSpec.isHexDigit hash = true -> hash <> "" ->
        (40 <= String.length hash ->
         latest = Ok hash
         /\ (Check.status (Check.checkSource w source) = Check.outdated
             <-> exists recorded,
                   Check.digest source = Some recorded /\ recorded <> ""
                   /\ hash <> recorded))
        /\ (String.length hash < 40 ->
            Check.status (Check.checkSource w source) = Check.error))
  /\ (forall stderr,
        printed = ExecFailed stderr ->
        Check.status (Check.checkSource w source) = Check.error).
Proof.
  intros Htype latest printed.
  assert (Hcheck : Check.checkSource w source
    = match latest with
      | Ok latestDigest =>
          if Js.truthy (Check.digest source)
             && negb (String.eqb latestDigest (Js.orElse (Check.digest source) "")) then
            {| Check.status := Check.outdated;
               Check.latestDigest := Some latestDigest; Check.message := None |}
          else
            {| Check.status := Check.up_to_date;
               Check.latestDigest := Some latestDigest; Check.message := None |}
      | Throw error =>
          {| Check.status := Check.error; Check.latestDigest := None;
             Check.message := Some (Check.messageOf error) |}
      end).
  { unfold Check.checkSource. rewrite Htype. reflexivity. }
  assert (Houtdated :
    Check.status (Check.checkSource w source) = Check.outdated
    <-> exists recorded hash,
          Check.digest source = Some recorded /\ recorded <> ""
          /\ latest = Ok hash /\ hash <> recorded).
  { rewrite Hcheck. unfold Js.truthy.
    destruct latest as [hash|e]; cbn [Check.status].
    - destruct (Check.digest source) as [r|]; cbn [Js.orElse andb negb].
      + destruct (String.eqb_spec r "") as [->|Hr]; cbn [negb andb Check.status].
        * split; [discriminate|]. intros (r & h & Hr & Hne & _). congruence.
        * destruct (String.eqb_spec hash r) as [->|Hh]; cbn [negb Check.status].
          -- split; [discriminate|]. intros (r' & h & Hr' & _ & Hh & Hne). congruence.
          -- split; [|reflexivity]. intros _. exists r, hash. auto.
      + split; [discriminate|]. intros (r & h & Hr & _). discriminate.
    - split; [discriminate|]. intros (r & h & _ & _ & H & _). discriminate. }
  split; [exact Houtdated|]. split; [|split; [|split]].
  - intros hash Hnone Hlatest. rewrite Hcheck, Hlatest, Hnone. reflexivity.
  - intros w' Hsame. subst latest printed.
    unfold Check.getLatestGitDigest, Check.runGit. cbv zeta.
    rewrite requestedRefOf_refOrHead. unfold CheckSpec.lsRemote in Hsame. rewrite Hsame.
    reflexivity.
  - intros hash rest Hprinted Hhex Hne.
    pose proof (getLatestGitDigest_of_output w source hash rest Hprinted Hhex Hne) as Hlatest.
    fold latest in Hlatest. split.
    + intros Hlong. destruct (Nat.ltb_spec (String.length hash) 40); [lia|].
      split; [exact Hlatest|]. rewrite Houtdated. split.
      * intros (recorded & hash' & Hr & Hr0 & Hh & Hdiffer).
        exists recorded. rewrite Hlatest in Hh. inversion Hh; subst hash'. auto.
      * intros (recorded & Hr & Hr0 & Hdiffer). exists recorded, hash. auto.
    + intros Hshort. destruct (Nat.ltb_spec (String.length hash) 40); [|lia].
      rewrite Hcheck, Hlatest. reflexivity.
  - intros stderr Hprinted. rewrite Hcheck. subst latest.
    unfold Check.getLatestGitDigest, Check.runGit. cbv zeta.
    rewrite requestedRefOf_refOrHead. unfold printed, CheckSpec.lsRemote in Hprinted.
    rewrite Hprinted. reflexivity.
Qed.

Lemma git_entry_outdated_iff_recorded_digest_differs_witness :
  (Check.status (Check.checkSource CheckSpec.movedRemote
                   (CheckSpec.pinnedAt (Some CheckSpec.sha1))) = Check.outdated
   <-> exists recorded,
         Some CheckSpec.sha1 = Some recorded /\ recorded <> ""
         /\ CheckSpec.sha2 <> recorded)
  /\ Check.getLatestGitDigest CheckSpec.movedRemote
       "https://github.com/acme/skills.git" (Some "main") = Ok CheckSpec.sha2
  /\ Check.checkSource CheckSpec.movedRemote (CheckSpec.pinnedAt (Some CheckSpec.sha1))
     = {| Check.status := Check.outdated;
          Check.latestDigest := Some CheckSpec.sha2;
          Check.message := None |}
  /\ Check.checkSource CheckSpec.movedRemote (CheckSpec.pinnedAt None)
     = {| Check.status := Check.up_to_date;
          Check.latestDigest := Some CheckSpec.sha2;
          Check.message := None |}.
Proof.
  pose proof (@git_entry_outdated_iff_recorded_digest_differs
                CheckSpec.movedRemote (CheckSpec.pinnedAt (Some CheckSpec.sha1)) eq_refl)
    as (_ & _ & _ & Hprinted & _).
  destruct (Hprinted CheckSpec.sha2 ("main" ++ String Js.LF "")%string
              eq_refl eq_refl ltac:(discriminate)) as [Hlong _].
  destruct (Hlong ltac:(vm_compute; repeat constructor)) as [Hlatest Hiff].
  split; [exact Hiff|]. split; [exact Hlatest|]. split.
  - vm_compute. reflexivity.
  - apply (proj1 (proj2 (@git_entry_outdated_iff_recorded_digest_differs
                           CheckSpec.movedRemote (CheckSpec.pinnedAt None) eq_refl))).
    + reflexivity.
    + exact Hlatest.
Defined.

(** Git's answer is read by its first line and its first field: further
    lines do not count, and a first field of fewer than 40 characters is
    no hash. *)
Example only_the_first_line_of_ls_remote_counts :
  let answers := fun output : string =>
    {| Check.execFileSync := fun _ _ => ExecOk output;
       Check.fetch := fun _ => Oci.FetchRejected "offline";
       Check.sha256hex := fun _ => "";
       Check.localeCompare := fun _ _ => 0%Z |} in
  Check.getLatestGitDigest
    (answers (lines [(CheckSpec.sha2 ++ String CheckSpec.TAB "refs/heads/main")%string;
                     (CheckSpec.sha1 ++ String CheckSpec.TAB "refs/tags/main")%string; ""]))
    "https://github.com/acme/skills.git" (Some "main")
  = Ok CheckSpec.sha2
  /\ Check.getLatestGitDigest (answers (String CheckSpec.TAB "HEAD"))
       "https://github.com/acme/skills.git" None
     = Throw (GenericError "Unexpected git ls-remote output for https://github.com/acme/skills.git")
  /\ Check.getLatestGitDigest (answers "")
       "https://github.com/acme/skills.git" None
     = Throw (GenericError
                "Unable to resolve latest git digest for https://github.com/acme/skills.git (HEAD)").
Proof. repeat split; vm_compute; reflexivity. Qed.

Example check_reports_errors :
  Check.checkSource
    {| Check.execFileSync := fun _ _ => ExecFailed (Some "fatal: unreachable");
       Check.fetch := fun _ => Oci.FetchRejected "offline";
       Check.sha256hex := fun _ => "";
       Check.localeCompare := fun _ _ => 0%Z |}
    (CheckSpec.pinnedAt (Some CheckSpec.sha1))
  = {| Check.status := Check.error;
       Check.latestDigest := None;
       Check.message :=
         Some "git ls-remote https://github.com/acme/skills.git main failed: fatal: unreachable" |}.
Proof. vm_compute. reflexivity. Qed.

Example check_skips_http :
  Check.status (Check.checkSource CheckSpec.movedRemote
    {| Check.type := "http"; Check.url := "https://example.com/a.zip";
       Check.ref := None; Check.digest := None; Check.installMethod := "copy";
       Check.skills := ["a"]; Check.agents := ["claude"] |})
  = Check.unsupported.
Proof. reflexivity. Qed.

(* ===================================================================== *)
(** * The OCI resolver *)
(* ===================================================================== *)

(** C6.  A manifest whose declared [artifactType] is not exactly the skill
    artifact media type, or that declares none, is rejected with an
    [OciResolveError] whatever its layers are: the manifest request is the
    only thing the run has done outside its scratch directory, no layer is
    fetched, written or unpacked. *)
Theorem foreign_artifact_type_rejected
  (w : Oci.World) (source : string) (options : Oci.ResolveOciSourceOptions)
  (parsed : Oci.ParsedOciReference) (response : Oci.Response) (manifest : json) :
  let scheme :=
    if Js.orElse (Oci.insecureHttp options) false
       || Oci.isLocalRegistry (Oci.registry parsed)
    then "http" else "https" in
  let manifestUrl :=
    (scheme ++ "://" ++ Oci.registry parsed ++ "/v2/" ++ Oci.repository parsed
       ++ "/manifests/" ++ Oci.reference parsed)%string in
  let tempRoot := Js.orElse (Oci.tempRoot options) (Oci.tmpdir w) in
  let workDir := Oci.mkdtemp w tempRoot "skillet-oci-" in
  Oci.parseOciReference source = Ok parsed ->
  Oci.fetch w manifestUrl = Oci.FetchResolved response ->
  Oci.ok response = true ->
  Oci.JSON_parse w (Oci.text response) = Some manifest ->
  declaredArtifactType manifest <> Some (JString Oci.SKILLET_ARTIFACT_TYPE) ->
  exists message,
    Oci.resolveOciSource w source options []
    = (Throw (OciResolveError message),
       [EvMkdir tempRoot; EvMkdtemp workDir; EvFetch manifestUrl])
    /\ (forall members, manifest = JObject members ->
        Js.startsWith message "Unsupported OCI artifact type: " = true).
Proof.
  intros scheme manifestUrl tempRoot workDir Hparse Hfetch Hok Hjson Htype.
  unfold Oci.resolveOciSource, Oci.fetchWithErrors.
  cbv beta iota delta [bindM lift emit]. rewrite Hparse.
  fold scheme tempRoot workDir manifestUrl. cbn [app].
  rewrite Hfetch, Hok. cbn [negb]. cbv beta iota delta [ret].
  rewrite Hjson.
  destruct manifest as [| b | n | s | items | members];
    try (eexists; split; [reflexivity|discriminate]).
  cbn [declaredArtifactType] in Htype.
  destruct (Json.strictEqString (Json.get members "artifactType")
              Oci.SKILLET_ARTIFACT_TYPE) eqn:Heq.
  - exfalso. apply Htype.
    unfold Json.strictEqString in Heq.
    destruct (Json.get members "artifactType") as [[| | | t | |]|]; try discriminate.
    apply String.eqb_eq in Heq. subst t. reflexivity.
  - cbn [negb]. eexists. split; [reflexivity|].
    intros _ _. reflexivity.
Qed.

Lemma foreign_artifact_type_rejected_witness :
  exists message,
    Oci.resolveOciSource foreignRegistryWorld "oci://ghcr.io/acme/skill:1.0"
      noOciOptions []
    = (Throw (OciResolveError message),
       [EvMkdir ["tmp"]; EvMkdtemp ["tmp"; "skillet-oci-x1"];
        EvFetch "https://ghcr.io/v2/acme/skill/manifests/1.0"])
    /\ (forall members, foreignManifest = JObject members ->
        Js.startsWith message "Unsupported OCI artifact type: " = true).
Proof.
  apply (@foreign_artifact_type_rejected foreignRegistryWorld
           "oci://ghcr.io/acme/skill:1.0" noOciOptions
           {| Oci.registry := "ghcr.io"; Oci.repository := "acme/skill";
              Oci.referenceType := Oci.tag; Oci.reference := "1.0" |}
           {| Oci.ok := true; Oci.status := 200; Oci.statusText := "OK";
              Oci.text := "{}"; Oci.dockerContentDigest := None |}
           foreignManifest).
  - reflexivity.
  - reflexivity.
  - reflexivity.
  - reflexivity.
  - vm_compute. discriminate.
Defined.

Example parseOciReference_digest :
  Oci.parseOciReference "oci://localhost:5000/acme/skill@sha256:abcd"
  = Ok {| Oci.registry := "localhost:5000"; Oci.repository := "acme/skill";
          Oci.referenceType := Oci.digest; Oci.reference := "sha256:abcd" |}.
Proof. reflexivity. Qed.

Example missing_artifact_type_message :
  fst (Oci.resolveOciSource
         {| Oci.tmpdir := ["tmp"];
            Oci.mkdtemp := fun root prefix => root ++ [prefix];
            Oci.fetch := Oci.fetch foreignRegistryWorld;
            Oci.JSON_parse := fun _ => Some (JObject [("layers", JArray [])]);
            Oci.execFileSync := fun _ _ => ExecOk "";
            Oci.extracted := Fs.Dir [];
            Oci.sha256hex := fun _ => "" |}
         "oci://ghcr.io/acme/skill:1.0" noOciOptions [])
  = Throw (OciResolveError "Unsupported OCI artifact type: missing").
Proof. reflexivity. Qed.

(* ===================================================================== *)
(** * The skill descriptor parser *)
(* ===================================================================== *)

Section SkillFacts.
Import SkillSpec.

Lemma splitLines_nonempty (s : string) : Js.splitLines s <> [].
Proof.
  unfold Js.splitLines.
  destruct (rev (Js.splitChar Js.LF s)) as [|l front] eqn:H.
  - assert (Hne : Js.splitChar Js.LF s <> []).
    { destruct s as [|a s]; cbn [Js.splitChar]; [discriminate|].
      destruct (Ascii.eqb a Js.LF); [discriminate|].
      destruct (Js.splitChar Js.LF s); discriminate. }
    apply (f_equal (@rev string)) in H. rewrite rev_involutive in H. contradiction.
  - cbn [rev]. intros Hnil. apply app_eq_nil in Hnil as [_ Hnil]. discriminate.
Qed.

(** [findClosing] returns the index of the first delimiter. *)
Lemma findClosing_none (rest : list string) (i : nat) :
  Skill.findClosing rest i = None <-> existsb isDelimiter rest = false.
Proof.
  revert i. induction rest as [|l rest IH]; intros i; cbn [Skill.findClosing existsb].
  - tauto.
  - unfold isDelimiter at 1. destruct (String.eqb (Js.trim l) "---"); cbn [orb].
    + split; discriminate.
    + apply IH.
Qed.

Lemma findClosing_split (front rest : list string) (closing : string) (i : nat) :
  existsb isDelimiter front = false ->
  isDelimiter closing = true ->
  Skill.findClosing (front ++ closing :: rest) i = Some (i + List.length front).
Proof.
  revert i. induction front as [|l front IH]; intros i Hfront Hclosing.
  - cbn [app Skill.findClosing List.length]. unfold isDelimiter in Hclosing.
    rewrite Hclosing. f_equal. lia.
  - cbn [existsb] in Hfront. apply orb_false_iff in Hfront as [Hl Hfront].
    cbn [app Skill.findClosing List.length]. unfold isDelimiter in Hl. rewrite Hl.
    rewrite IH by assumption. f_equal. lia.
Qed.

Lemma splitFrontmatter_opening (md : string) :
  Skill.splitFrontmatter md = Throw (SkillParseError Skill.OPENING_MISSING None)
  <-> isDelimiter (firstLine md) = false.
Proof.
  unfold Skill.splitFrontmatter, isDelimiter, firstLine. cbv zeta.
  pose proof (splitLines_nonempty md) as Hne.
  destruct (Js.splitLines md) as [|l0 ls]; [contradiction|].
  cbn [List.length Nat.eqb orb nth skipn].
  destruct (String.eqb (Js.trim l0) "---"); cbn [negb].
  - split; [|discriminate].
    destruct (Skill.findClosing ls 1); discriminate.
  - tauto.
Qed.

Lemma splitFrontmatter_closing (md : string) :
  Skill.splitFrontmatter md = Throw (SkillParseError Skill.CLOSING_MISSING None)
  <-> isDelimiter (firstLine md) = true /\ existsb isDelimiter (laterLines md) = false.
Proof.
  unfold Skill.splitFrontmatter, isDelimiter at 1, firstLine, laterLines. cbv zeta.
  pose proof (splitLines_nonempty md) as Hne.
  destruct (Js.splitLines md) as [|l0 ls]; [contradiction|].
  cbn [List.length Nat.eqb orb nth skipn].
  destruct (String.eqb (Js.trim l0) "---"); cbn [negb].
  - rewrite <- (findClosing_none ls 1).
    destruct (Skill.findClosing ls 1); split; intros H;
      try discriminate; try tauto; destruct H; discriminate.
  - split; [discriminate|]. intros [H _]. discriminate.
Qed.

Lemma splitFrontmatter_block (md : string) (front rest : list string) (closing : string) :
  isDelimiter (firstLine md) = true ->
  laterLines md = front ++ closing :: rest ->
  existsb isDelimiter front = false ->
  isDelimiter closing = true ->
  Skill.splitFrontmatter md = Ok (Js.join Skill.LFs front, Js.join Skill.LFs rest).
Proof.
  unfold Skill.splitFrontmatter, isDelimiter at 1, firstLine, laterLines. cbv zeta.
  pose proof (splitLines_nonempty md) as Hne.
  destruct (Js.splitLines md) as [|l0 ls]; [contradiction|].
  cbn [List.length Nat.eqb orb nth skipn].
  intros H0 -> Hfront Hclosing. rewrite H0. cbn [negb].
  rewrite findClosing_split by assumption.
  unfold Skill.slice. cbn [Nat.add skipn Nat.sub].
  rewrite Nat.sub_0_r, firstn_app, firstn_all, Nat.sub_diag. cbn [firstn].
  rewrite app_nil_r.
  replace (List.length front + 1) with (S (List.length front)) by lia.
  rewrite skipn_app, skipn_all2 by lia.
  replace (S (List.length front) - List.length front) with 1 by lia. reflexivity.
Qed.

Lemma readStringField_error (record : list (string * json)) (key : string)
      (required : bool) (e : exn) :
  Skill.readStringField record key required = Throw e -> isDelimiterError e = false.
Proof.
  unfold Skill.readStringField.
  destruct (Json.get record key) as [[| | | s | |]|]; try destruct required;
    try destruct (_ && _); intros H; inversion H; reflexivity.
Qed.

Lemma normalizeEntries_error (entries acc : list (string * json)) (e : exn) :
  Skill.normalizeEntries entries acc = Throw e -> isDelimiterError e = false.
Proof.
  revert acc. induction entries as [|[k v] entries IH]; intros acc;
    cbn [Skill.normalizeEntries]; [discriminate|].
  destruct (String.eqb k "internal"); destruct v;
    try (intros H; inversion H; reflexivity); apply IH.
Qed.

(** Past [splitFrontmatter] no error is a delimiter error. *)
Lemma parse_error_after_split (parseYaml : string -> string + json)
      (md : string) (options : Skill.ParseOptions) (block : string * string) (e : exn) :
  Skill.splitFrontmatter md = Ok block ->
  Skill.parseSkillMarkdown parseYaml md options = Throw e ->
  isDelimiterError e = false.
Proof.
  intros Hsplit. unfold Skill.parseSkillMarkdown. rewrite Hsplit.
  destruct block as [frontmatterText body]. cbn [bind].
  destruct (parseYaml frontmatterText) as [message|data]; cbn [bind];
    [intros H; inversion H; reflexivity|].
  destruct data; cbn [bind]; try (intros H; inversion H; reflexivity).
  repeat match goal with
  | |- bind (Skill.readStringField ?r ?k ?q) _ = _ -> _ =>
      let H := fresh "H" in
      destruct (Skill.readStringField r k q) eqn:H; cbn [bind];
      [|apply readStringField_error in H; intros H'; inversion H'; subst; exact H]
  end.
  destruct (Skill.readAllowedTools members) eqn:Htools; cbn [bind].
  2:{ intros H'; inversion H'; subst. revert Htools. unfold Skill.readAllowedTools.
      cbv zeta. repeat match goal with
      | |- context [match ?x with _ => _ end] => destruct x
      end; intros Hx; inversion Hx; reflexivity. }
  destruct (Skill.normalizeMetadata (Json.get members "metadata")) eqn:Hmeta; cbn [bind].
  2:{ intros H'; inversion H'; subst. revert Hmeta. unfold Skill.normalizeMetadata.
      destruct (Json.get members "metadata") as [[| | | | |ms]|];
        try (intros Hx; inversion Hx; reflexivity).
      destruct (Skill.normalizeEntries ms []) eqn:Hn; cbn [bind]; intros Hx; inversion Hx.
      subst. eapply normalizeEntries_error; eassumption. }
  destruct (Skill.validateName _ _) eqn:Hname; cbn [bind].
  2:{ intros H'; inversion H'; subst. revert Hname. unfold Skill.validateName.
      repeat match goal with
      | |- context [match ?x with _ => _ end] => destruct x
      end; intros Hx; inversion Hx; reflexivity. }
  destruct (Skill.validateDescription _) eqn:Hdesc; cbn [bind].
  2:{ intros H'; inversion H'; subst. revert Hdesc. unfold Skill.validateDescription.
      destruct (_ || _); intros Hx; inversion Hx; reflexivity. }
  destruct (Skill.validateCompatibility _) eqn:Hcomp; cbn [bind].
  2:{ intros H'; inversion H'; subst. revert Hcomp. unfold Skill.validateCompatibility.
      repeat match goal with
      | |- context [match ?x with _ => _ end] => destruct x
      end; intros Hx; inversion Hx; reflexivity. }
  discriminate.
Qed.

Lemma parse_error_of_split (parseYaml : string -> string + json)
      (md : string) (options : Skill.ParseOptions) (e : exn) :
  Skill.splitFrontmatter md = Throw e ->
  Skill.parseSkillMarkdown parseYaml md options = Throw e.
Proof.
  intros H. unfold Skill.parseSkillMarkdown. rewrite H. reflexivity.
Qed.

End SkillFacts.

(** C7, as the sources have it.  The opening delimiter is looked for on the
    first line of the text, not on its first non-empty line:
    [parseSkillMarkdown] fails with the missing-opening-delimiter error
    exactly when the first line, trimmed, is not [---] (so also when empty
    lines precede the delimiter); it fails with the missing-closing-delimiter
    error exactly when the first line is a delimiter and no later line,
    trimmed, is [---]; in every other case the frontmatter is the lines
    between the first line and the first later delimiter, the body is the
    lines after it, and no error of the parse is a delimiter error. *)
Theorem delimiter_errors_follow_the_first_line
  (parseYaml : string -> string + json) (md : string) (options : Skill.ParseOptions) :
  (Skill.parseSkillMarkdown parseYaml md options
   = Throw (SkillParseError Skill.OPENING_MISSING None)
   <-> SkillSpec.isDelimiter (SkillSpec.firstLine md) = false)
  /\ (Skill.parseSkillMarkdown parseYaml md options
      = Throw (SkillParseError Skill.CLOSING_MISSING None)
      <-> SkillSpec.isDelimiter (SkillSpec.firstLine md) = true
          /\ existsb SkillSpec.isDelimiter (SkillSpec.laterLines md) = false)
  /\ (forall front closing rest,
        SkillSpec.isDelimiter (SkillSpec.firstLine md) = true ->
        SkillSpec.laterLines md = front ++ closing :: rest ->
        existsb SkillSpec.isDelimiter front = false ->
        SkillSpec.isDelimiter closing = true ->
        Skill.splitFrontmatter md
        = Ok (Js.join Skill.LFs front, Js.join Skill.LFs rest)
        /\ forall e, Skill.parseSkillMarkdown parseYaml md options = Throw e ->
                     SkillSpec.isDelimiterError e = false).
Proof.
  assert (Hafter : forall e,
    SkillSpec.isDelimiterError e = true ->
    Skill.parseSkillMarkdown parseYaml md options = Throw e ->
    Skill.splitFrontmatter md = Throw e).
  { intros e He Hparse.
    destruct (Skill.splitFrontmatter md) as [block|e'] eqn:Hsplit.
    - pose proof (parse_error_after_split parseYaml md options _ _ Hsplit Hparse). congruence.
    - rewrite (parse_error_of_split parseYaml md options _ Hsplit) in Hparse. congruence. }
  repeat split.
  - intros H. apply splitFrontmatter_opening. apply Hafter; [reflexivity|exact H].
  - intros H. apply parse_error_of_split. apply splitFrontmatter_opening. exact H.
  - apply splitFrontmatter_closing. apply Hafter; [reflexivity|assumption].
  - apply splitFrontmatter_closing. apply Hafter; [reflexivity|assumption].
  - intros [H1 H2]. apply parse_error_of_split. apply splitFrontmatter_closing. tauto.
  - eapply splitFrontmatter_block; eassumption.
  - intros e. eapply parse_error_after_split.
    eapply splitFrontmatter_block; eassumption.
Qed.

(** C7 as stated fails: the first non-empty line of the text below is
    exactly [---] and what follows is a valid descriptor, yet the empty line
    before the delimiter makes the parse fail with the
    missing-opening-delimiter error. *)
Lemma empty_line_before_the_opening_delimiter :
  SkillSpec.firstNonEmptyLine SkillSpec.indentedByAnEmptyLine = Some "---"
  /\ SkillSpec.indentedByAnEmptyLine
     = (String Js.LF SkillSpec.withoutTheEmptyLine)
  /\ is_ok (Skill.parseSkillMarkdown ToyYaml.parse SkillSpec.withoutTheEmptyLine
              Skill.noOptions) = true
  /\ Skill.parseSkillMarkdown ToyYaml.parse SkillSpec.indentedByAnEmptyLine
       Skill.noOptions
     = Throw (SkillParseError "SKILL.md must start with frontmatter '---' delimiter" None).
Proof. repeat split; vm_compute; reflexivity. Qed.

Example parse_valid_descriptor :
  Skill.parseSkillMarkdown ToyYaml.parse SkillSpec.withoutTheEmptyLine
    {| Skill.path := Some ["proj"; ".claude"; "skills"; "demo"; "SKILL.md"];
       Skill.expectedName := None |}
  = Ok {| Skill.frontmatter :=
            {| Skill.name := "demo"; Skill.description := "A demo skill";
               Skill.license := None; Skill.compatibility := None;
               Skill.metadata := None; Skill.allowedTools := None |};
          Skill.body := "# Demo";
          Skill.isInternal := false |}.
Proof. vm_compute. reflexivity. Qed.

Example parse_name_mismatch :
  Skill.parseSkillMarkdown ToyYaml.parse SkillSpec.withoutTheEmptyLine
    {| Skill.path := Some ["proj"; ".claude"; "skills"; "other"; "SKILL.md"];
       Skill.expectedName := None |}
  = Throw (SkillParseError "name must match parent directory (other)" (Some "name")).
Proof. vm_compute. reflexivity. Qed.

Example unclosed_frontmatter :
  Skill.parseSkillMarkdown ToyYaml.parse (lines ["---"; "name: demo"]) Skill.noOptions
  = Throw (SkillParseError "SKILL.md frontmatter must be closed with '---' delimiter" None).
Proof. vm_compute. reflexivity. Qed.

(** [trim] takes away every white character of JavaScript, not only the
    ASCII ones: a byte order mark before the opening delimiter or a
    no-break space after a delimiter leaves the line a delimiter. *)
Example delimiters_are_trimmed_of_all_white_characters :
  SkillSpec.isDelimiter (SkillSpec.BOM ++ "---") = true
  /\ SkillSpec.isDelimiter ("---" ++ SkillSpec.NBSP) = true
  /\ Skill.parseSkillMarkdown ToyYaml.parse
       (lines [(SkillSpec.BOM ++ "---")%string; "name: demo";
               "description: A demo skill"; ("---" ++ SkillSpec.NBSP)%string; "# Demo"])
       Skill.noOptions
     = Ok {| Skill.frontmatter :=
               {| Skill.name := "demo"; Skill.description := "A demo skill";
                  Skill.license := None; Skill.compatibility := None;
                  Skill.metadata := None; Skill.allowedTools := None |};
             Skill.body := "# Demo";
             Skill.isInternal := false |}.
Proof. repeat split; vm_compute; reflexivity. Qed.

(* ===================================================================== *)
(** * The installer *)
(* ===================================================================== *)

(** C8, as the sources have it.  When the source skill path is a directory
    and a regular file occupies the install path, [installSkill] throws an
    [InstallConflictError] that carries the install path, and the disk is
    left as it was: nothing was created or copied. *)
Theorem blocked_install_path_is_a_conflict
  (w : Installer.World) (options : Installer.InstallSkillOptions)
  (s : Installer.State) (content : string) :
  let installedPath :=
    Fs.join (Installer.targetSkillsDir options)
            (Fs.basename (Installer.sourceSkillPath options)) in
  Installer.isDirectory (Installer.disk s) (Installer.sourceSkillPath options) = true ->
  Fs.lstatSync (Installer.disk s) installedPath = Some (Fs.File content) ->
  exists message,
    Installer.installSkill w options s
    = (Throw (InstallConflictError message (Fs.toString installedPath)), s).
Proof.
  intros installedPath Hsource Hfile.
  pose proof (lstat_file_stat _ _ _ Hfile) as Hstat.
  unfold Installer.installSkill. cbv beta iota delta [bindM Installer.look].
  rewrite Hsource. cbn [negb].
  fold installedPath.
  unfold Fs.join in installedPath.
  destruct (String.eqb (Fs.basename (Installer.sourceSkillPath options)) "") eqn:Hname.
  - (* the install path is the target directory itself *)
    subst installedPath.
    unfold Fs.existsSync, Installer.isDirectory. rewrite Hstat.
    cbn [Fs.isDir negb andb]. cbv beta iota delta [throwM]. eauto.
  - subst installedPath.
    destruct (lstat_child_parent_dir _ _ _ _ Hfile) as (es & Hparent).
    unfold Fs.existsSync at 1, Installer.isDirectory. rewrite Hparent.
    cbn [Fs.isDir negb andb].
    unfold Installer.assertReplaceableInstallPath.
    cbv beta iota delta [bindM Installer.look].
    unfold Fs.existsSync. rewrite Hstat. cbn [negb]. rewrite Hfile.
    cbn [Fs.isDir Fs.isLink orb]. cbv beta iota delta [throwM]. eauto.
Qed.

Lemma blocked_install_path_is_a_conflict_witness :
  exists message,
    Installer.installSkill InstallSamples.world (InstallSamples.options None)
      (InstallSamples.start InstallSamples.blockedDisk)
    = (Throw (InstallConflictError message "/proj/.codex/skills/alpha"),
       InstallSamples.start InstallSamples.blockedDisk).
Proof.
  apply (@blocked_install_path_is_a_conflict InstallSamples.world
           (InstallSamples.options None)
           (InstallSamples.start InstallSamples.blockedDisk) "blocking file").
  - reflexivity.
  - reflexivity.
Defined.

(** C8 as stated fails when the source skill path is not a directory: the
    install path is occupied by a regular file, yet the error carries the
    source path, not the install path. *)
Lemma conflict_names_the_source_when_it_is_no_directory :
  Fs.lstatSync InstallSamples.blockedDiskFileSource ["proj"; ".codex"; "skills"; "alpha"]
  = Some (Fs.File "blocking file")
  /\ Installer.installSkill InstallSamples.world (InstallSamples.options None)
       (InstallSamples.start InstallSamples.blockedDiskFileSource)
     = (Throw (InstallConflictError "Source skill path is not a directory: /src/alpha"
                                    "/src/alpha"),
        InstallSamples.start InstallSamples.blockedDiskFileSource)
  /\ "/src/alpha" <> Fs.toString ["proj"; ".codex"; "skills"; "alpha"].
Proof. repeat split; try (vm_compute; reflexivity). vm_compute. discriminate. Qed.

(** C9.  A result of [installSkill] always has [changed = true], and its
    method is [symlink] with a message that starts with [symlinked] or
    [copy] with a message that starts with [copied]; nothing is compared
    with what was installed before, so installing again what is already
    there reports a change again. *)
Theorem install_result_always_reports_a_change
  (w : Installer.World) (options : Installer.InstallSkillOptions)
  (s s' : Installer.State) (r : Installer.InstallSkillResult) :
  Installer.installSkill w options s = (Ok r, s') ->
  Installer.changed r = true
  /\ ((Installer.method r = Installer.symlink
       /\ Installer.message r
          = ("symlinked " ++ Installer.skillName r ++ " to "
               ++ Fs.toString (Installer.installedPath r))%string)
      \/ (Installer.method r = Installer.copy
          /\ Installer.message r
             = ("copied " ++ Installer.skillName r ++ " to "
                  ++ Fs.toString (Installer.installedPath r))%string))
  /\ (forall r2 s2,
        Installer.installSkill w options s' = (Ok r2, s2) ->
        Installer.changed r2 = true).
Proof.
  assert (Hchanged : forall s0 s1 r0,
    Installer.installSkill w options s0 = (Ok r0, s1) ->
    Installer.changed r0 = true
    /\ ((Installer.method r0 = Installer.symlink
         /\ Installer.message r0
            = ("symlinked " ++ Installer.skillName r0 ++ " to "
                 ++ Fs.toString (Installer.installedPath r0))%string)
        \/ (Installer.method r0 = Installer.copy
            /\ Installer.message r0
               = ("copied " ++ Installer.skillName r0 ++ " to "
                    ++ Fs.toString (Installer.installedPath r0))%string))).
  { intros s0 s1 r0. unfold Installer.installSkill.
    cbv beta iota delta [bindM Installer.look].
    destruct (negb _); [discriminate|].
    destruct (_ && _); [discriminate|].
    destruct (Installer.assertReplaceableInstallPath _ _) as [[[]|?] ?]; [|discriminate].
    destruct (Installer.onDisk _ _) as [[[]|?] ?]; [|discriminate].
    destruct (Installer.replaceDirectoryAtomically _ _ _ _) as [[[]|?] ?]; [|discriminate].
    destruct (Installer.installIntoTarget _ _ _ _ _ _) as [[m|?] ?]; [|discriminate].
    cbv beta iota delta [ret]. intros H. inversion H; subst. clear H.
    cbn [Installer.changed Installer.method Installer.message Installer.skillName
         Installer.installedPath].
    split; [reflexivity|]. destruct m; [left|right]; split; reflexivity. }
  intros Hrun. destruct (Hchanged _ _ _ Hrun) as [H1 H2].
  repeat split; try assumption.
  intros r2 s2 Hagain. apply (Hchanged _ _ _ Hagain).
Qed.

(** Installing twice in a row: the second run finds the disk the first one
    left, leaves it as it is, and still reports a change. *)
Lemma install_result_always_reports_a_change_witness :
  exists r1 s1 r2 s2,
    Installer.installSkill InstallSamples.world (InstallSamples.options None)
      (InstallSamples.start InstallSamples.freshDisk) = (Ok r1, s1)
    /\ Installer.installSkill InstallSamples.world (InstallSamples.options None) s1
       = (Ok r2, s2)
    /\ Installer.disk s2 = Installer.disk s1
    /\ Installer.changed r1 = true
    /\ Installer.changed r2 = true
    /\ Installer.method r2 = Installer.symlink
    /\ Installer.message r2 = "symlinked alpha to /proj/.codex/skills/alpha".
Proof.
  destruct (Installer.installSkill InstallSamples.world (InstallSamples.options None)
              (InstallSamples.start InstallSamples.freshDisk)) as [[r1|e] s1] eqn:H1;
    [|vm_compute in H1; discriminate].
  destruct (Installer.installSkill InstallSamples.world (InstallSamples.options None) s1)
    as [[r2|e] s2] eqn:H2;
    [|vm_compute in H1; inversion H1; subst; vm_compute in H2; discriminate].
  exists r1, s1, r2, s2.
  destruct (install_result_always_reports_a_change _ _ _ _ _ H1) as (C1 & _ & C2).
  repeat split; try assumption.
  - vm_compute in H1. inversion H1; subst. vm_compute in H2. inversion H2; subst.
    reflexivity.
  - exact (C2 _ _ H2).
  - vm_compute in H1. inversion H1; subst. vm_compute in H2. inversion H2; subst.
    reflexivity.
  - vm_compute in H1. inversion H1; subst. vm_compute in H2. inversion H2; subst.
    reflexivity.
Defined.

(* ===================================================================== *)
(** * Archive entry validation *)
(* ===================================================================== *)

Section EntryValidation.
Import EntrySpec.

Lemma toSlashes_idempotent (s : string) : toSlashes (toSlashes s) = toSlashes s.
Proof.
  unfold toSlashes.
  induction s as [|a s IH]; simpl; [reflexivity|].
  rewrite IH. f_equal.
  destruct (Ascii.eqb_spec a "\"%char) as [->|Hne]; [reflexivity|].
  destruct (Ascii.eqb_spec a "\"%char); [contradiction|reflexivity].
Qed.

Lemma append_differ_absolute_escape (a b : string) :
  String.eqb ("Archive entry escapes extraction root: " ++ a)
             ("Archive entry uses absolute path: " ++ b) = false.
Proof. reflexivity. Qed.

Lemma append_differ_tar (a b : string) :
  String.eqb ("Unsafe traversal path in OCI layer: " ++ a)
             ("Unsafe absolute path in OCI layer: " ++ b) = false.
Proof. reflexivity. Qed.

(** The verdict of the archive validator is a function of the entry with
    its backslashes turned into slashes. *)
Lemma archiveVerdict_spec (e : string) :
  archiveVerdict e (HttpArchive.validateArchiveEntryPath e) =
    let s := toSlashes e in
    if (String.length s =? 0)%nat then Accepted
    else if Js.startsWith s "/" || HttpArchive.hasDriveLetter s then Absolute
    else if String.eqb (PosixPath.normalize s) ".."
            || Js.startsWith (PosixPath.normalize s) "../"
            || Js.includes (PosixPath.normalize s) "/../" then Traversal
    else Accepted.
Proof.
  unfold HttpArchive.validateArchiveEntryPath, toSlashes. cbv zeta.
  destruct (String.length _ =? 0)%nat; [reflexivity|].
  destruct (Js.startsWith _ "/" || HttpArchive.hasDriveLetter _).
  - unfold archiveVerdict. rewrite String.eqb_refl. reflexivity.
  - destruct (String.eqb _ ".." || _ || _); [|reflexivity].
    unfold archiveVerdict.
    rewrite append_differ_absolute_escape, String.eqb_refl. reflexivity.
Qed.

Lemma tarVerdict_spec (e : string) :
  tarVerdict e (Oci.validateTarEntry e) =
    let s := toSlashes e in
    if Js.startsWith s "/" || HttpArchive.hasDriveLetter s then Absolute
    else if String.eqb (PosixPath.normalize s) ".."
            || Js.startsWith (PosixPath.normalize s) "../"
            || Js.includes (PosixPath.normalize s) "/../" then Traversal
    else Accepted.
Proof.
  unfold Oci.validateTarEntry, toSlashes. cbv zeta.
  destruct (Js.startsWith _ "/" || HttpArchive.hasDriveLetter _).
  - unfold tarVerdict. rewrite String.eqb_refl. reflexivity.
  - destruct (String.eqb _ ".." || _ || _); [|reflexivity].
    unfold tarVerdict. rewrite append_differ_tar, String.eqb_refl. reflexivity.
Qed.

End EntryValidation.

(** C10.  Both entry validators replace every backslash by a forward slash
    before the absolute-path and traversal checks: an entry and its
    forward-slash spelling get the same verdict (accepted, rejected as
    absolute, rejected as traversal), the Windows-style entries [..\evil] and
    [a\..\..\b] are rejected as traversals exactly like [../evil] and
    [a/../../b], and the empty entry path is accepted. *)
Theorem entry_validation_reads_backslashes_as_separators :
  (forall e,
      EntrySpec.archiveVerdict e (HttpArchive.validateArchiveEntryPath e)
      = EntrySpec.archiveVerdict (EntrySpec.toSlashes e)
          (HttpArchive.validateArchiveEntryPath (EntrySpec.toSlashes e)))
  /\ (forall e,
      EntrySpec.tarVerdict e (Oci.validateTarEntry e)
      = EntrySpec.tarVerdict (EntrySpec.toSlashes e)
          (Oci.validateTarEntry (EntrySpec.toSlashes e)))
  /\ (forall e, EntrySpec.archiveVerdict e (HttpArchive.validateArchiveEntryPath e)
                <> EntrySpec.Other)
  /\ (forall e, EntrySpec.tarVerdict e (Oci.validateTarEntry e) <> EntrySpec.Other)
  /\ HttpArchive.validateArchiveEntryPath "..\evil"
     = Throw (ArchiveResolveError "Archive entry escapes extraction root: ..\evil")
  /\ HttpArchive.validateArchiveEntryPath "../evil"
     = Throw (ArchiveResolveError "Archive entry escapes extraction root: ../evil")
  /\ HttpArchive.validateArchiveEntryPath "a\..\..\b"
     = Throw (ArchiveResolveError "Archive entry escapes extraction root: a\..\..\b")
  /\ HttpArchive.validateArchiveEntryPath "a/../../b"
     = Throw (ArchiveResolveError "Archive entry escapes extraction root: a/../../b")
  /\ Oci.validateTarEntry "..\evil"
     = Throw (OciResolveError "Unsafe traversal path in OCI layer: ..\evil")
  /\ Oci.validateTarEntry "../evil"
     = Throw (OciResolveError "Unsafe traversal path in OCI layer: ../evil")
  /\ Oci.validateTarEntry "a\..\..\b"
     = Throw (OciResolveError "Unsafe traversal path in OCI layer: a\..\..\b")
  /\ Oci.validateTarEntry "a/../../b"
     = Throw (OciResolveError "Unsafe traversal path in OCI layer: a/../../b")
  /\ HttpArchive.validateArchiveEntryPath "" = Ok tt
  /\ Oci.validateTarEntry "" = Ok tt.
Proof.
  repeat split; try reflexivity.
  - intro e. rewrite !archiveVerdict_spec. cbv zeta.
    rewrite toSlashes_idempotent. reflexivity.
  - intro e. rewrite !tarVerdict_spec. cbv zeta.
    rewrite toSlashes_idempotent. reflexivity.
  - intro e. rewrite archiveVerdict_spec. cbv zeta.
    repeat match goal with |- context [if ?b then _ else _] => destruct b end;
      discriminate.
  - intro e. rewrite tarVerdict_spec. cbv zeta.
    repeat match goal with |- context [if ?b then _ else _] => destruct b end;
      discriminate.
Qed.
(* ===================================================================== *)
(** * Trees of files *)
(* ===================================================================== *)

Section TreeFacts.
Import FsSpec.

(** Induction over a tree, the entries of a directory included. *)
Lemma node_induction (P : Fs.node -> Prop) :
  (forall content, P (Fs.File content)) ->
  (forall es, Forall (fun entry => P (snd entry)) es -> P (Fs.Dir es)) ->
  (forall target, P (Fs.Symlink target)) ->
  forall n, P n.
Proof.
  intros Hfile Hdir Hlink.
  refine (fix IH (n : Fs.node) : P n :=
            match n with
            | Fs.File content => Hfile content
            | Fs.Dir es =>
                Hdir es
                  ((fix each (es : list (string * Fs.node))
                      : Forall (fun entry => P (snd entry)) es :=
                      match es with
                      | [] => Forall_nil _
                      | entry :: es' => Forall_cons entry (IH (snd entry)) (each es')
                      end) es)
            | Fs.Symlink target => Hlink target
            end).
Qed.

Lemma below_file (content : string) (rel : Fs.path) (n : Fs.node) :
  below (Fs.File content) rel n -> rel = [] /\ n = Fs.File content.
Proof. intros H. inversion H; subst. split; reflexivity. Qed.

Lemma below_link (target rel : Fs.path) (n : Fs.node) :
  below (Fs.Symlink target) rel n -> rel = [] /\ n = Fs.Symlink target.
Proof. intros H. inversion H; subst. split; reflexivity. Qed.

(** ** The directories that hold a descriptor *)

Lemma holdsDescriptor_dir (es : list (string * Fs.node)) :
  existsb (fun e => String.eqb (fst e) "SKILL.md" && Fs.isFile (snd e)) es = true
  <-> holdsDescriptor (Fs.Dir es).
Proof.
  rewrite existsb_exists. split.
  - intros ([name n] & Hin & H). cbn [fst snd] in H. apply andb_prop in H as [Hname Hfile].
    apply String.eqb_eq in Hname. subst name. destruct n; try discriminate.
    exists es, content. split; [reflexivity|exact Hin].
  - intros (es' & content & Hes & Hin). inversion Hes; subst es'.
    exists ("SKILL.md", Fs.File content). split; [exact Hin|reflexivity].
Qed.

(** What [skillDirsIn] collects below the entries of a directory. *)
Lemma skillDirsIn_entries (here dir : Fs.path) (es : list (string * Fs.node)) :
  In dir ((fix each (es : list (string * Fs.node)) : list Fs.path :=
             match es with
             | [] => []
             | (name, n') :: es' => Oci.skillDirsIn (here ++ [name]) n' ++ each es'
             end) es)
  <-> exists name child,
        In (name, child) es /\ In dir (Oci.skillDirsIn (here ++ [name]) child).
Proof.
  induction es as [|[name child] es IH].
  - split; [intros []|intros (? & ? & [] & _)].
  - rewrite in_app_iff, IH. split.
    + intros [H|(name' & child' & Hin & H)].
      * exists name, child. split; [left; reflexivity|exact H].
      * exists name', child'. split; [right; exact Hin|exact H].
    + intros (name' & child' & [Heq|Hin] & H).
      * inversion Heq; subst. left. exact H.
      * right. exists name', child'. auto.
Qed.

(** [skillDirsIn] collects the directories that hold a regular file named
    SKILL.md, and no other. *)
Lemma skillDirsIn_spec (n : Fs.node) :
  forall here dir,
    In dir (Oci.skillDirsIn here n)
    <-> exists rel, dir = here ++ rel /\ skillDirectory n rel.
Proof.
  induction n as [content|es IH|target] using node_induction; intros here dir.
  - split; [intros []|].
    intros (rel & _ & held & Hbelow & es & c & Hheld & _).
    apply below_file in Hbelow as [_ ->]. discriminate.
  - cbn [Oci.skillDirsIn]. rewrite in_app_iff, skillDirsIn_entries. split.
    + intros [Hhere|(name & child & Hin & Hdir)].
      * destruct (existsb _ es) eqn:Hholds; [|destruct Hhere].
        destruct Hhere as [<-|[]]. exists []. rewrite app_nil_r. split; [reflexivity|].
        exists (Fs.Dir es). split; [constructor|apply holdsDescriptor_dir, Hholds].
      * pose proof (proj1 (Forall_forall _ _) IH (name, child) Hin) as IHchild.
        cbn [snd] in IHchild. apply IHchild in Hdir as (rel & -> & held & Hbelow & Hheld).
        exists (name :: rel). rewrite <- app_assoc. split; [reflexivity|].
        exists held. split; [econstructor; eassumption|exact Hheld].
    + intros (rel & -> & held & Hbelow & Hheld).
      inversion Hbelow; subst.
      * left. rewrite (proj2 (holdsDescriptor_dir es) Hheld), app_nil_r. left. reflexivity.
      * right. exists name, child. split; [assumption|].
        pose proof (proj1 (Forall_forall _ _) IH (name, child) ltac:(assumption)) as IHchild.
        cbn [snd] in IHchild. apply IHchild. exists rel0.
        rewrite <- app_assoc. split; [reflexivity|]. exists held. auto.
  - split; [intros []|].
    intros (rel & _ & held & Hbelow & es & c & Hheld & _).
    apply below_link in Hbelow as [_ ->]. discriminate.
Qed.

(** ** The weight of a tree *)

Lemma regularBytes_app (a b : list (Fs.path * string)) :
  fold_right (fun file acc => (lengthZ (snd file) + acc)%Z) 0%Z (a ++ b)
  = (fold_right (fun file acc => (lengthZ (snd file) + acc)%Z) 0%Z a
     + fold_right (fun file acc => (lengthZ (snd file) + acc)%Z) 0%Z b)%Z.
Proof. induction a as [|x a IH]; cbn [app fold_right]; [reflexivity|]. rewrite IH. lia. Qed.

Lemma regularBytes_map (name : string) (files : list (Fs.path * string)) :
  fold_right (fun file acc => (lengthZ (snd file) + acc)%Z) 0%Z
    (map (fun file => (name :: fst file, snd file)) files)
  = fold_right (fun file acc => (lengthZ (snd file) + acc)%Z) 0%Z files.
Proof. induction files as [|x l IH]; cbn [map fold_right snd]; [reflexivity|]. rewrite IH. reflexivity. Qed.

(** The size [computeDirectorySize] finds is the weight of the regular
    files of the tree. *)
Lemma treeSize_regularBytes (n : Fs.node) : HttpArchive.treeSize n = regularBytes n.
Proof.
  induction n as [content|es IH|target] using node_induction.
  - unfold regularBytes. cbn. lia.
  - unfold regularBytes. cbn [HttpArchive.treeSize regularFiles].
    induction IH as [|[name child] es Hchild Hes IHes]; [reflexivity|].
    cbn [snd] in Hchild. rewrite regularBytes_app, regularBytes_map, <- IHes.
    fold (regularBytes child). rewrite <- Hchild. reflexivity.
  - reflexivity.
Qed.

(** The regular files of a tree are the files found below it. *)
Lemma regularFiles_below (n : Fs.node) :
  forall rel content,
    In (rel, content) (regularFiles n) <-> below n rel (Fs.File content).
Proof.
  induction n as [c|es IH|target] using node_induction; intros rel content.
  - cbn [regularFiles In]. split.
    + intros [H|[]]. inversion H; subst. constructor.
    + intros H. apply below_file in H as [-> H]. inversion H. left. reflexivity.
  - cbn [regularFiles]. split.
    + induction IH as [|[name child] es Hchild Hes IHes]; [intros []|].
      rewrite in_app_iff, in_map_iff. intros [([rel' c'] & Heq & Hin)|Hin].
      * cbn [fst snd] in Heq. inversion Heq; subst.
        apply (@FsSpec.below_step _ name child); [left; reflexivity|].
        apply Hchild. exact Hin.
      * specialize (IHes Hin). inversion IHes; subst.
        apply (@FsSpec.below_step _ name0 child0); [right; assumption|assumption].
    + intros H. inversion H; subst. clear H.
      match goal with Hin : In (name, child) es |- _ => revert Hin end.
      induction IH as [|[name' child'] es Hchild Hes IHes]; [intros []|].
      rewrite in_app_iff, in_map_iff. intros [Heq|Hin].
      * inversion Heq; subst. left. exists (rel0, content). split; [reflexivity|].
        apply Hchild. assumption.
      * right. apply IHes. exact Hin.
  - split; [intros []|]. intros H. apply below_link in H as [_ H]. discriminate.
Qed.

End TreeFacts.

(* ===================================================================== *)
(** * OCI references *)
(* ===================================================================== *)

Section OciReferenceFacts.
Import Text.

Lemma nonempty_length (s : string) : s <> "" <-> String.length s <> 0.
Proof. destruct s; cbn; split; intros H; congruence. Qed.

Lemma eqb_empty_false (s : string) : s <> "" -> String.eqb s "" = false.
Proof. intros H. destruct s; [contradiction|reflexivity]. Qed.

(** The text after the scheme is cut at its first slash. *)
Lemma registry_split (withoutScheme : string) (slashIndex : nat) :
  Oci.indexOfChar "/" withoutScheme = Some slashIndex ->
  let registry := Oci.sliceTo withoutScheme slashIndex in
  let remainder := Oci.sliceFrom withoutScheme (slashIndex + 1) in
  withoutScheme = (registry ++ "/" ++ remainder)%string
  /\ without "/" registry /\ String.length registry = slashIndex.
Proof. intros H. exact (indexOfChar_split _ _ _ H). Qed.

(** The first two pieces of a split spell the beginning of the string. *)
Lemma split_two_pieces (c : ascii) (s first second : string) (more : list string) :
  Js.splitChar c s = first :: second :: more ->
  Js.startsWith s (first ++ String c second) = true
  /\ without c first /\ without c second.
Proof.
  intros H. pose proof (join_splitChar c s) as Hjoin.
  pose proof (splitChar_pieces c s) as Hpieces.
  rewrite H in Hjoin, Hpieces. unfold Js.join in Hjoin. rewrite concat_cons2 in Hjoin.
  rewrite <- Hjoin. clear Hjoin H.
  inversion Hpieces as [|? ? Hfirst Hrest]; subst.
  inversion Hrest as [|? ? Hsecond _]; subst.
  split; [|split; assumption].
  destruct more as [|third more].
  - cbn [String.concat append]. rewrite <- (append_nil_r (first ++ String c second)) at 1.
    apply startsWith_append.
  - rewrite concat_cons2. cbn [append].
    replace (first ++ String c (second ++ String c (String.concat (String c "") (third :: more))))%string
      with ((first ++ String c second) ++ String c (String.concat (String c "") (third :: more)))%string.
    + apply startsWith_append.
    + rewrite append_assoc. reflexivity.
Qed.

End OciReferenceFacts.

(** X1.  What [parseOciReference] accepts: the registry, the repository and
    the tag or digest it returns are not empty, the registry holds no slash,
    and put together again they spell the trimmed source (for a digest
    reference: its beginning, a second [@] and what follows it are
    dropped). *)
Theorem parsed_oci_reference_spells_the_source
  (source : string) (parsed : Oci.ParsedOciReference) :
  Oci.parseOciReference source = Ok parsed ->
  let registry := Oci.registry parsed in
  let repository := Oci.repository parsed in
  let reference := Oci.reference parsed in
  registry <> "" /\ repository <> "" /\ reference <> ""
  /\ Js.includes registry "/" = false
  /\ match Oci.referenceType parsed with
     | Oci.tag =>
         Js.trim source
         = ("oci://" ++ registry ++ "/" ++ repository ++ ":" ++ reference)%string
         /\ Js.includes reference ":" = false
         /\ Js.includes repository "@" = false
         /\ Js.includes reference "@" = false
     | Oci.digest =>
         Js.startsWith (Js.trim source)
           ("oci://" ++ registry ++ "/" ++ repository ++ "@" ++ reference)%string = true
         /\ Js.includes repository "@" = false
         /\ Js.includes reference "@" = false
     end.
Proof.
  unfold Oci.parseOciReference. cbv zeta.
  destruct (Js.startsWith (Js.trim source) "oci://") eqn:Hscheme; cbn [negb];
    [|discriminate].
  destruct (startsWith_inv _ _ Hscheme) as [withoutScheme Htrim].
  rewrite Htrim.
  change (String.length "oci://") with (String.length "oci://").
  rewrite (sliceFrom_append "oci://" withoutScheme).
  destruct (Oci.indexOfChar "/" withoutScheme) as [[|slashIndex]|] eqn:Hslash;
    try discriminate.
  destruct (registry_split _ _ Hslash) as (Hcut & Hregistry & Hlen).
  set (registry := Oci.sliceTo withoutScheme (S slashIndex)) in *.
  set (remainder := Oci.sliceFrom withoutScheme (S slashIndex + 1)) in *.
  assert (Hreg : registry <> "").
  { apply nonempty_length. rewrite Hlen. discriminate. }
  rewrite (eqb_empty_false _ Hreg). cbn [orb].
  destruct (String.eqb_spec remainder "") as [|Hremainder]; [discriminate|].
  destruct (Js.includes remainder "@") eqn:Hat.
  - (* a digest reference *)
    destruct (Js.splitChar "@" remainder) as [|repository pieces] eqn:Hsplit.
    { cbn [nth]. discriminate. }
    destruct pieces as [|digest more].
    { cbn [nth]. rewrite String.eqb_refl, orb_true_r. discriminate. }
    cbn [nth].
    destruct (String.eqb_spec repository "") as [|Hrepo]; [discriminate|].
    destruct (String.eqb_spec digest "") as [|Hdigest]; [discriminate|].
    cbn [orb]. intros H. inversion H; subst parsed. clear H.
    cbn [Oci.registry Oci.repository Oci.reference Oci.referenceType].
    destruct (split_two_pieces _ _ _ _ _ Hsplit) as (Hprefix & Hw1 & Hw2).
    split; [exact Hreg|]. split; [exact Hrepo|]. split; [exact Hdigest|].
    split; [apply includes_char; exact Hregistry|].
    split; [|split; apply includes_char; assumption].
    rewrite Hcut. destruct (startsWith_inv _ _ Hprefix) as [rest ->].
    replace ("oci://" ++ registry ++ "/" ++ (repository ++ String "@" digest) ++ rest)%string
      with (("oci://" ++ registry ++ "/" ++ repository ++ "@" ++ digest) ++ rest)%string.
    + apply startsWith_append.
    + repeat rewrite append_assoc. cbn [append]. repeat rewrite append_assoc. reflexivity.
  - (* a tag reference *)
    destruct (Oci.lastIndexOfChar ":" remainder) as [[|tagIndex]|] eqn:Hcolon;
      try discriminate.
    destruct (lastIndexOfChar_split _ _ _ Hcolon) as (Hcut' & Htag & Hlen').
    set (repository := Oci.sliceTo remainder (S tagIndex)) in *.
    set (reference := Oci.sliceFrom remainder (S tagIndex + 1)) in *.
    destruct (Nat.eqb_spec (S tagIndex) (String.length remainder - 1)) as [|Hlast];
      [discriminate|].
    intros H. inversion H; subst parsed. clear H.
    cbn [Oci.registry Oci.repository Oci.reference Oci.referenceType].
    assert (Hlength : String.length remainder
                      = S tagIndex + 1 + String.length reference).
    { rewrite Hcut' at 1. rewrite append_length. cbn [String.length]. rewrite Hlen'. lia. }
    assert (Hnoat : Text.without "@" remainder) by (apply includes_char; exact Hat).
    rewrite Hcut' in Hnoat. apply without_append in Hnoat as [Hat1 Hat2].
    apply without_cons in Hat2 as [_ Hat2].
    split; [exact Hreg|].
    split; [apply nonempty_length; rewrite Hlen'; discriminate|].
    split; [apply nonempty_length; lia|].
    split; [apply includes_char; exact Hregistry|].
    split; [|split; [|split]]; try (apply includes_char; assumption).
    rewrite Hcut. rewrite Hcut' at 1. reflexivity.
Qed.

Lemma parsed_oci_reference_spells_the_source_witness :
  "localhost:5000" <> "" /\ "acme/skill" <> "" /\ "sha256:abcd" <> ""
  /\ Js.includes "localhost:5000" "/" = false
  /\ Js.startsWith (Js.trim " oci://localhost:5000/acme/skill@sha256:abcd@x ")
       "oci://localhost:5000/acme/skill@sha256:abcd" = true
  /\ Js.includes "acme/skill" "@" = false
  /\ Js.includes "sha256:abcd" "@" = false.
Proof.
  exact (@parsed_oci_reference_spells_the_source
           " oci://localhost:5000/acme/skill@sha256:abcd@x "
           {| Oci.registry := "localhost:5000"; Oci.repository := "acme/skill";
              Oci.referenceType := Oci.digest; Oci.reference := "sha256:abcd" |}
           eq_refl).
Defined.

(** X2.  Printing then parsing: a registry without slash, a repository and
    a tag (without colon) or a digest, none of them empty and the last two
    without [@], written [oci://registry/repository:tag] or
    [oci://registry/repository@digest], are what [parseOciReference] reads
    back, provided the text has no white character at its ends. *)
Theorem oci_reference_round_trip (registry repository reference : string) :
  registry <> "" -> Js.includes registry "/" = false ->
  repository <> "" -> Js.includes repository "@" = false ->
  reference <> "" -> Js.includes reference "@" = false ->
  (Text.trimmed ("oci://" ++ registry ++ "/" ++ repository ++ "@" ++ reference) ->
   Oci.parseOciReference ("oci://" ++ registry ++ "/" ++ repository ++ "@" ++ reference)
   = Ok {| Oci.registry := registry; Oci.repository := repository;
           Oci.referenceType := Oci.digest; Oci.reference := reference |})
  /\ (Js.includes reference ":" = false ->
      Text.trimmed ("oci://" ++ registry ++ "/" ++ repository ++ ":" ++ reference) ->
      Oci.parseOciReference ("oci://" ++ registry ++ "/" ++ repository ++ ":" ++ reference)
      = Ok {| Oci.registry := registry; Oci.repository := repository;
              Oci.referenceType := Oci.tag; Oci.reference := reference |}).
Proof.
  intros Hreg Hslash Hrepo Hrepoat Href Hrefat.
  apply includes_char in Hslash, Hrepoat, Hrefat.
  assert (Hregistry : forall remainder,
    Oci.indexOfChar "/" (registry ++ "/" ++ remainder) = Some (String.length registry)).
  { intros remainder. apply indexOfChar_append. exact Hslash. }
  assert (Hpos : exists n, String.length registry = S n).
  { destruct registry; [contradiction|]. cbn. eauto. }
  destruct Hpos as [n Hn].
  split.
  - intros Htrimmed. unfold Oci.parseOciReference. cbv zeta.
    rewrite Htrimmed, startsWith_append. cbn [negb].
    rewrite (sliceFrom_append "oci://"), Hregistry, Hn, <- Hn.
    rewrite sliceTo_append.
    replace (registry ++ "/" ++ repository ++ "@" ++ reference)%string
      with ((registry ++ "/") ++ repository ++ "@" ++ reference)%string
      by (rewrite append_assoc; reflexivity).
    replace (String.length registry + 1) with (String.length (registry ++ "/"))
      by (rewrite append_length; reflexivity).
    rewrite sliceFrom_append.
    rewrite (eqb_empty_false _ Hreg). cbn [orb].
    destruct (String.eqb_spec (repository ++ "@" ++ reference) "") as [He|_].
    { destruct repository; [contradiction|discriminate]. }
    assert (Hat : Js.includes (repository ++ "@" ++ reference) "@" = true).
    { apply includes_append_r. reflexivity. }
    rewrite Hat. cbn [append]. rewrite (splitChar_append _ _ _ Hrepoat).
    rewrite (splitChar_without _ _ Hrefat). cbn [nth].
    rewrite (eqb_empty_false _ Hrepo), (eqb_empty_false _ Href). reflexivity.
  - intros Hcolon Htrimmed. apply includes_char in Hcolon.
    unfold Oci.parseOciReference. cbv zeta.
    rewrite Htrimmed, startsWith_append. cbn [negb].
    rewrite (sliceFrom_append "oci://"), Hregistry, Hn, <- Hn.
    rewrite sliceTo_append.
    replace (registry ++ "/" ++ repository ++ ":" ++ reference)%string
      with ((registry ++ "/") ++ repository ++ ":" ++ reference)%string
      by (rewrite append_assoc; reflexivity).
    replace (String.length registry + 1) with (String.length (registry ++ "/"))
      by (rewrite append_length; reflexivity).
    rewrite sliceFrom_append.
    rewrite (eqb_empty_false _ Hreg). cbn [orb].
    destruct (String.eqb_spec (repository ++ ":" ++ reference) "") as [He|_].
    { destruct repository; [contradiction|discriminate]. }
    assert (Hat : Js.includes (repository ++ ":" ++ reference) "@" = false).
    { apply includes_char. apply without_append. split; [exact Hrepoat|].
      cbn [append]. apply without_cons. split; [discriminate|exact Hrefat]. }
    rewrite Hat. cbn [append].
    rewrite (lastIndexOfChar_append _ repository reference Hcolon).
    assert (Hr : exists m, String.length repository = S m).
    { destruct repository; [contradiction|]. cbn. eauto. }
    destruct Hr as [m Hm]. rewrite Hm, <- Hm.
    assert (Hl : exists k, String.length reference = S k).
    { destruct reference; [contradiction|]. cbn. eauto. }
    destruct Hl as [k Hk].
    destruct (Nat.eqb_spec (String.length repository)
                (String.length (repository ++ String ":" reference) - 1)) as [He|_].
    { rewrite append_length in He. cbn [String.length] in He. lia. }
    rewrite sliceTo_append.
    replace (repository ++ String ":" reference)%string
      with ((repository ++ ":") ++ reference)%string
      by (rewrite append_assoc; reflexivity).
    replace (String.length repository + 1) with (String.length (repository ++ ":"))
      by (rewrite append_length; reflexivity).
    rewrite sliceFrom_append. reflexivity.
Qed.

Lemma oci_reference_round_trip_witness :
  Oci.parseOciReference "oci://ghcr.io/acme/skills@sha256:0a1b"
  = Ok {| Oci.registry := "ghcr.io"; Oci.repository := "acme/skills";
          Oci.referenceType := Oci.digest; Oci.reference := "sha256:0a1b" |}.
Proof.
  refine (proj1 (@oci_reference_round_trip "ghcr.io" "acme/skills" "sha256:0a1b"
                   _ _ _ _ _ _) _);
    try reflexivity; discriminate.
Defined.

(* ===================================================================== *)
(** * The runs of the OCI resolver *)
(* ===================================================================== *)

(** The run stops here with an error. *)
Ltac stopped :=
  let H := fresh "H" in
  intros H; inversion H; left; split; [reflexivity|eexists; reflexivity].

Ltac unpacked :=
  let H := fresh "H" in
  intros H; inversion H; split; [reflexivity|left; eexists; reflexivity].

Section OciRunFacts.
Import EntrySpec.

Variable w : Oci.World.
Variable source : string.
Variable options : Oci.ResolveOciSourceOptions.
Variable parsed : Oci.ParsedOciReference.
Hypothesis Hparsed : Oci.parseOciReference source = Ok parsed.

Let scheme : string :=
  if Js.orElse (Oci.insecureHttp options) false
     || Oci.isLocalRegistry (Oci.registry parsed)
  then "http" else "https".
Let tempRoot := Js.orElse (Oci.tempRoot options) (Oci.tmpdir w).
Let workDir := Oci.mkdtemp w tempRoot "skillet-oci-".
Let manifestUrl : string :=
  (scheme ++ "://" ++ Oci.registry parsed ++ "/v2/" ++ Oci.repository parsed
     ++ "/manifests/" ++ Oci.reference parsed)%string.
Let blobUrl (layerDigest : string) : string :=
  (scheme ++ "://" ++ Oci.registry parsed ++ "/v2/" ++ Oci.repository parsed
     ++ "/blobs/" ++ layerDigest)%string.
Let archivePath := Fs.join workDir "layer.tar".
Let extractPath := Fs.join workDir "extract".
Let listing := ["-tf"; Fs.toString archivePath].
Let extraction := ["-xf"; Fs.toString archivePath; "-C"; Fs.toString extractPath].
Let start := [EvMkdir tempRoot; EvMkdtemp workDir; EvFetch manifestUrl].

(** The stages of a run: it stops with an error after the manifest
    request, after the layer request, after the listing of the layer, or it
    unpacks the layer, and then fails or returns. *)
Lemma resolveOciSource_stages (outcome : result Oci.ResolvedOciSource) (log : list event) :
  Oci.resolveOciSource w source options [] = (outcome, log) ->
  (log = start /\ exists e, outcome = Throw e)
  \/ exists response members layerDigest,
       Oci.fetch w manifestUrl = Oci.FetchResolved response
       /\ Oci.ok response = true
       /\ Oci.JSON_parse w (Oci.text response) = Some (JObject members)
       /\ Json.get members "artifactType" = Some (JString Oci.SKILLET_ARTIFACT_TYPE)
       /\ (Js.startsWith layerDigest "sha256:" = true
           /\ exists layerRecord layers,
                Json.get members "layers" = Some (JArray (JObject layerRecord :: layers))
                /\ Json.get layerRecord "digest" = Some (JString layerDigest))
       /\ ((log = start ++ [EvFetch (blobUrl layerDigest)] /\ exists e, outcome = Throw e)
           \/ exists blob,
                Oci.fetch w (blobUrl layerDigest) = Oci.FetchResolved blob
                /\ Oci.ok blob = true
                /\ ((log = start ++ [EvFetch (blobUrl layerDigest);
                                     EvWriteFile archivePath (Oci.text blob);
                                     EvExec "tar" listing]
                     /\ exists e, outcome = Throw e)
                    \/ exists out,
                         Oci.execFileSync w "tar" listing = ExecOk out
                         /\ Oci.validateAll (TraceSpec.listed out) = Ok tt
                         /\ log = start ++ [EvFetch (blobUrl layerDigest);
                                            EvWriteFile archivePath (Oci.text blob);
                                            EvExec "tar" listing;
                                            EvMkdir extractPath;
                                            EvExec "tar" extraction]
                         /\ ((exists e, outcome = Throw e)
                             \/ exists only,
                                  Oci.findSkillDirectories w extractPath = Ok [only]
                                  /\ outcome
                                     = Ok {| Oci.parsed := parsed;
                                             Oci.resolvedDigest :=
                                               match Oci.referenceType parsed with
                                               | Oci.digest => Oci.reference parsed
                                               | Oci.tag =>
                                                   Js.orElse (Oci.dockerContentDigest response)
                                                     (Oci.digestManifest w (Oci.text response))
                                               end;
                                             Oci.extractPath := extractPath;
                                             Oci.contentPath := only |}))).
Proof.
  unfold Oci.resolveOciSource, Oci.fetchWithErrors.
  cbv beta iota zeta delta [bindM lift emit throwM ret]. rewrite Hparsed.
  fold scheme tempRoot workDir. fold manifestUrl. cbn [app]. fold start.
  destruct (Oci.fetch w manifestUrl) as [message|response] eqn:Hfetch;
    cbv beta iota; [stopped|].
  destruct (Oci.ok response) eqn:Hok; cbn [negb]; cbv beta iota; [|stopped].
  destruct (Oci.JSON_parse w (Oci.text response)) as [manifest|] eqn:Hjson;
    [|stopped].
  destruct manifest as [| b | n | s | items | members]; try stopped.
  destruct (Json.strictEqString (Json.get members "artifactType")
              Oci.SKILLET_ARTIFACT_TYPE) eqn:Htype; cbn [negb]; [|stopped].
  assert (Hartifact :
    Json.get members "artifactType" = Some (JString Oci.SKILLET_ARTIFACT_TYPE)).
  { unfold Json.strictEqString in Htype.
    destruct (Json.get members "artifactType") as [[| | | t | |]|]; try discriminate.
    apply String.eqb_eq in Htype. subst t. reflexivity. }
  destruct (Json.get members "layers") as [[| | | | [|firstLayer layers] |]|] eqn:Hlayers;
    try stopped.
  destruct firstLayer as [| | | | | layerRecord]; try stopped.
  destruct (Json.get layerRecord "digest") as [[| | | layerDigest | |]|] eqn:Hlayer;
    try stopped.
  destruct (Js.startsWith layerDigest "sha256:") eqn:Hdigest; [|stopped].
  fold (blobUrl layerDigest).
  intros Hrun. right. exists response, members, layerDigest.
  repeat (split; [first [assumption|reflexivity]|]).
  split; [split; [exact Hdigest|exists layerRecord, layers; split; [exact Hlayers|exact Hlayer]]|].
  revert Hrun.
  destruct (Oci.fetch w (blobUrl layerDigest)) as [message|blob] eqn:Hblob;
    cbv beta iota; [stopped|].
  destruct (Oci.ok blob) eqn:Hblobok; cbn [negb]; cbv beta iota; [|stopped].
  fold archivePath. unfold Oci.listTarEntries, Oci.runTar.
  cbv beta iota zeta delta [bindM lift emit throwM ret]. cbn [app]. fold listing.
  intros Hrun. right. exists blob. repeat (split; [first [assumption|reflexivity]|]). revert Hrun.
  destruct (Oci.execFileSync w "tar" listing) as [out|stderr] eqn:Hlist;
    cbv beta iota; [|stopped].
  change (filter (fun entry : string => negb (entry =? ""))
            (map Js.trim (Js.splitLines (Js.trim out))))
    with (TraceSpec.listed out).
  destruct (Oci.validateAll (TraceSpec.listed out)) as [[]|e] eqn:Hvalid; [|stopped].
  fold extractPath. fold extraction.
  intros Hrun. right. exists out. repeat (split; [first [assumption|reflexivity]|]). revert Hrun.
  destruct (Oci.execFileSync w "tar" extraction) as [done|stderr];
    cbv beta iota; [|unpacked].
  destruct (Oci.findSkillDirectories w extractPath) as [skillPaths|e] eqn:Hfind;
    [|unpacked].
  destruct skillPaths as [|only [|second more]]; try unpacked.
  intros H; inversion H. split; [reflexivity|]. right. exists only.
  split; reflexivity.
Qed.

(** An entry of a layer that goes out of the extraction root is refused. *)
Lemma unsafe_tar_entry_rejected (e : string) :
  unsafe e = true -> exists x, Oci.validateTarEntry e = Throw x.
Proof.
  unfold unsafe. intros H.
  unfold Oci.validateTarEntry. cbv zeta.
  change (Js.replaceAllChar "\" "/" e) with (toSlashes e).
  apply orb_true_iff in H as [Habs|Htrav].
  - unfold isAbsolute in Habs. apply orb_true_iff in Habs as [Hs|Hd].
    + apply startsWith_slash_toSlashes in Hs. rewrite Hs. cbn [orb]. eauto.
    + apply hasDriveLetter_toSlashes in Hd. rewrite Hd, orb_true_r. eauto.
  - unfold traverses, normalized in Htrav.
    destruct (Js.startsWith _ "/" || HttpArchive.hasDriveLetter _); [eauto|].
    rewrite Htrav. cbn [orb]. eauto.
Qed.

Lemma validated_tar_entries_are_safe (entries : list string) :
  Oci.validateAll entries = Ok tt ->
  forall entry, In entry entries -> unsafe entry = false.
Proof.
  induction entries as [|x entries IH]; intros H entry Hin; [destruct Hin|].
  cbn [Oci.validateAll] in H.
  destruct (Oci.validateTarEntry x) as [[]|err] eqn:Hx; [|discriminate].
  cbn [bind] in H. destruct Hin as [<-|Hin]; [|exact (IH H entry Hin)].
  destruct (unsafe x) eqn:Hu; [|reflexivity].
  destruct (unsafe_tar_entry_rejected _ Hu) as [e He]. congruence.
Qed.

Lemma validated_tar_entries_pass (entries : list string) :
  Oci.validateAll entries = Ok tt ->
  forall entry, In entry entries -> Oci.validateTarEntry entry = Ok tt.
Proof.
  induction entries as [|x entries IH]; intros H entry Hin; [destruct Hin|].
  cbn [Oci.validateAll] in H.
  destruct (Oci.validateTarEntry x) as [[]|err] eqn:Hx; [|discriminate].
  cbn [bind] in H. destruct Hin as [<-|Hin]; [exact Hx|exact (IH H entry Hin)].
Qed.

End OciRunFacts.

Section OciRunCorollaries.

Variable w : Oci.World.
Variable source : string.
Variable options : Oci.ResolveOciSourceOptions.

(** When [findSkillDirectories] finds one directory, it is the one
    directory of the tree that holds a regular file named SKILL.md. *)
Lemma findSkillDirectories_one (root only : Fs.path) :
  Oci.findSkillDirectories w root = Ok [only] ->
  exists es rel,
    Fs.statSync (Oci.extracted w) root = Some (Fs.Dir es)
    /\ only = root ++ rel
    /\ forall other, FsSpec.skillDirectory (Fs.Dir es) other <-> other = rel.
Proof.
  unfold Oci.findSkillDirectories.
  destruct (Fs.statSync (Oci.extracted w) root) as [[c|es|t]|]; try discriminate.
  intros H.
  assert (Hdirs : Oci.skillDirsIn root (Fs.Dir es) = [only]) by congruence. clear H.
  assert (Hin : In only (Oci.skillDirsIn root (Fs.Dir es))).
  { rewrite Hdirs. left. reflexivity. }
  apply skillDirsIn_spec in Hin as (rel & Honly & Hrel).
  exists es, rel. split; [reflexivity|]. split; [exact Honly|].
  intros other. split.
  - intros Hother.
    assert (Hfound : In (root ++ other) (Oci.skillDirsIn root (Fs.Dir es))).
    { apply skillDirsIn_spec. exists other. split; [reflexivity|exact Hother]. }
    rewrite Hdirs in Hfound. destruct Hfound as [Hfound|[]].
    rewrite Honly in Hfound. apply app_inv_head in Hfound. symmetry. exact Hfound.
  - intros ->. exact Hrel.
Qed.

(** A run whose reference does not parse does nothing. *)
Lemma resolveOciSource_unparsed (e : exn) (outcome : result Oci.ResolvedOciSource)
      (log : list event) :
  Oci.parseOciReference source = Throw e ->
  Oci.resolveOciSource w source options [] = (outcome, log) ->
  outcome = Throw e /\ log = [].
Proof.
  intros Hparse. unfold Oci.resolveOciSource.
  cbv beta iota zeta delta [bindM lift]. rewrite Hparse.
  intros H. inversion H. split; reflexivity.
Qed.

End OciRunCorollaries.

(** X3.  [resolveOciSource] unpacks a layer only after it has listed it and
    validated every entry: when the trace of a run holds a [tar -xf], the
    command unpacks the one file the run wrote into the fresh directory
    beside it, the listing of that file came first and succeeded, and every
    listed entry passed the validator: read with backslashes as
    separators it is not absolute and its normal form neither is nor begins
    with the parent directory.  For an entry without a backslash that is
    the POSIX reading: it stays inside the extraction root.  (An entry
    with a backslash in a name can pass and still lead out for POSIX,
    as [a\b/../../evil] does.) *)
Theorem oci_layer_is_unpacked_only_after_validation
  (w : Oci.World) (source : string) (options : Oci.ResolveOciSourceOptions)
  (outcome : result Oci.ResolvedOciSource) (log : list event) (args : list string) :
  Oci.resolveOciSource w source options [] = (outcome, log) ->
  In ("tar", "-xf" :: args) (TraceSpec.executed log) ->
  let workDir :=
    Oci.mkdtemp w (Js.orElse (Oci.tempRoot options) (Oci.tmpdir w)) "skillet-oci-" in
  let archive := Fs.toString (Fs.join workDir "layer.tar") in
  exists out blob,
    args = [archive; "-C"; Fs.toString (Fs.join workDir "extract")]
    /\ TraceSpec.written log = [(Fs.join workDir "layer.tar", blob)]
    /\ Oci.execFileSync w "tar" ["-tf"; archive] = ExecOk out
    /\ (forall entry,
          In entry (TraceSpec.listed out) ->
          Oci.validateTarEntry entry = Ok tt
          /\ EntrySpec.unsafe entry = false
          /\ (Text.without "\" entry -> EntrySpec.leavesRoot entry = false))
    /\ TraceSpec.executed log = [("tar", ["-tf"; archive]); ("tar", "-xf" :: args)].
Proof.
  intros Hrun Hin workDir archive.
  destruct (Oci.parseOciReference source) as [parsed|e] eqn:Hparse.
  2: { destruct (resolveOciSource_unparsed w source options e _ _ Hparse Hrun) as [_ ->].
       destruct Hin. }
  destruct (resolveOciSource_stages w source options parsed Hparse _ _ Hrun)
    as [[-> _]|(response & members & layerDigest & _ & _ & _ & _ & _ & Hstage)].
  { destruct Hin. }
  destruct Hstage as [[-> _]|(blob & _ & _ & Hstage)].
  { destruct Hin. }
  destruct Hstage as [[-> _]|(out & Hlist & Hvalid & -> & _)].
  { cbn in Hin. destruct Hin as [Hin|[]]. inversion Hin. }
  cbn in Hin. destruct Hin as [Hin|[Hin|[]]]; [inversion Hin|].
  inversion Hin; subst args.
  exists out, (Oci.text blob).
  split; [reflexivity|]. split; [reflexivity|]. split; [exact Hlist|].
  split; [|reflexivity].
  intros entry Hentry.
  pose proof (validated_tar_entries_are_safe _ Hvalid entry Hentry) as Hsafe.
  split; [exact (validated_tar_entries_pass _ Hvalid entry Hentry)|].
  split; [exact Hsafe|].
  intros Hplain. rewrite (leavesRoot_without entry Hplain). exact Hsafe.
Qed.

Lemma oci_layer_is_unpacked_only_after_validation_witness :
  exists out blob,
    ["/tmp/skillet-oci-x1/layer.tar"; "-C"; "/tmp/skillet-oci-x1/extract"]
    = ["/tmp/skillet-oci-x1/layer.tar"; "-C"; "/tmp/skillet-oci-x1/extract"]
    /\ TraceSpec.written
         (snd (Oci.resolveOciSource skillRegistryWorld "oci://ghcr.io/acme/demo:1.0"
                 noOciOptions []))
       = [(["tmp"; "skillet-oci-x1"; "layer.tar"], blob)]
    /\ Oci.execFileSync skillRegistryWorld "tar" ["-tf"; "/tmp/skillet-oci-x1/layer.tar"]
       = ExecOk out
    /\ (forall entry,
          In entry (TraceSpec.listed out) ->
          Oci.validateTarEntry entry = Ok tt
          /\ EntrySpec.unsafe entry = false
          /\ (Text.without "\" entry -> EntrySpec.leavesRoot entry = false))
    /\ TraceSpec.executed
         (snd (Oci.resolveOciSource skillRegistryWorld "oci://ghcr.io/acme/demo:1.0"
                 noOciOptions []))
       = [("tar", ["-tf"; "/tmp/skillet-oci-x1/layer.tar"]);
          ("tar", ["-xf"; "/tmp/skillet-oci-x1/layer.tar"; "-C";
                   "/tmp/skillet-oci-x1/extract"])].
Proof.
  apply (@oci_layer_is_unpacked_only_after_validation skillRegistryWorld
           "oci://ghcr.io/acme/demo:1.0" noOciOptions
           (fst (Oci.resolveOciSource skillRegistryWorld "oci://ghcr.io/acme/demo:1.0"
                   noOciOptions []))
           (snd (Oci.resolveOciSource skillRegistryWorld "oci://ghcr.io/acme/demo:1.0"
                   noOciOptions []))
           ["/tmp/skillet-oci-x1/layer.tar"; "-C"; "/tmp/skillet-oci-x1/extract"]).
  - reflexivity.
  - vm_compute. right. left. reflexivity.
Defined.

(** The validator of layers has the gap of the validator of archives: it
    accepts an entry that POSIX takes out of the extraction root. *)
Example backslash_in_a_layer_entry_is_split :
  Oci.validateTarEntry "a\b/../../evil" = Ok tt
  /\ EntrySpec.leavesRoot "a\b/../../evil" = true.
Proof. split; reflexivity. Qed.

(** X4.  What a successful [resolveOciSource] returns: the parsed
    reference; the extraction directory below the fresh work directory; as
    content path the one directory of the unpacked layer that holds a
    regular file named SKILL.md (it lies in the tree found at the
    extraction directory, it holds such a file, and no other directory of
    that tree does, links not being followed); and as digest the digest of
    the reference when it has one (the registry is not asked to confirm
    it), else the [docker-content-digest] header of the manifest response
    or, without header, the SHA-256 of the manifest text. *)
Theorem resolved_oci_source_is_the_one_skill_of_the_layer
  (w : Oci.World) (source : string) (options : Oci.ResolveOciSourceOptions)
  (resolved : Oci.ResolvedOciSource) (log : list event) :
  Oci.resolveOciSource w source options [] = (Ok resolved, log) ->
  let parsed := Oci.parsed resolved in
  let scheme :=
    if Js.orElse (Oci.insecureHttp options) false
       || Oci.isLocalRegistry (Oci.registry parsed)
    then "http" else "https" in
  let manifestUrl :=
    (scheme ++ "://" ++ Oci.registry parsed ++ "/v2/" ++ Oci.repository parsed
       ++ "/manifests/" ++ Oci.reference parsed)%string in
  let workDir :=
    Oci.mkdtemp w (Js.orElse (Oci.tempRoot options) (Oci.tmpdir w)) "skillet-oci-" in
  Oci.parseOciReference source = Ok parsed
  /\ Oci.extractPath resolved = Fs.join workDir "extract"
  /\ (exists es rel,
        Fs.statSync (Oci.extracted w) (Oci.extractPath resolved) = Some (Fs.Dir es)
        /\ Oci.contentPath resolved = Oci.extractPath resolved ++ rel
        /\ forall other, FsSpec.skillDirectory (Fs.Dir es) other <-> other = rel)
  /\ exists response,
       Oci.fetch w manifestUrl = Oci.FetchResolved response
       /\ Oci.resolvedDigest resolved
          = match Oci.referenceType parsed with
            | Oci.digest => Oci.reference parsed
            | Oci.tag =>
                match Oci.dockerContentDigest response with
                | Some header => header
                | None => ("sha256:" ++ Oci.sha256hex w (Oci.text response))%string
                end
            end.
Proof.
  intros Hrun.
  destruct (Oci.parseOciReference source) as [parsed0|e] eqn:Hparse.
  2: { destruct (resolveOciSource_unparsed w source options e _ _ Hparse Hrun) as [H _].
       discriminate H. }
  destruct (resolveOciSource_stages w source options parsed0 Hparse _ _ Hrun)
    as [[_ [e H]]|(response & members & layerDigest & Hfetch & _ & _ & _ & _ & Hstage)];
    [discriminate H|].
  destruct Hstage as [[_ [e H]]|(blob & _ & _ & Hstage)]; [discriminate H|].
  destruct Hstage as [[_ [e H]]|(out & _ & _ & _ & Hstage)]; [discriminate H|].
  destruct Hstage as [[e H]|(only & Hfind & H)]; [discriminate H|].
  inversion H; subst resolved. clear H.
  cbn [Oci.parsed Oci.extractPath Oci.contentPath Oci.resolvedDigest].
  split; [reflexivity|]. split; [reflexivity|]. split.
  { exact (findSkillDirectories_one w _ only Hfind). }
  exists response. split; [exact Hfetch|].
  destruct (Oci.referenceType parsed0); [|reflexivity].
  destruct (Oci.dockerContentDigest response); reflexivity.
Qed.

Lemma resolved_oci_source_is_the_one_skill_of_the_layer_witness :
  Oci.parseOciReference "oci://ghcr.io/acme/demo:1.0"
  = Ok {| Oci.registry := "ghcr.io"; Oci.repository := "acme/demo";
          Oci.referenceType := Oci.tag; Oci.reference := "1.0" |}
  /\ ["tmp"; "skillet-oci-x1"; "extract"] = ["tmp"; "skillet-oci-x1"; "extract"]
  /\ (exists es rel,
        Fs.statSync (Oci.extracted skillRegistryWorld) ["tmp"; "skillet-oci-x1"; "extract"]
        = Some (Fs.Dir es)
        /\ ["tmp"; "skillet-oci-x1"; "extract"; "demo"]
           = ["tmp"; "skillet-oci-x1"; "extract"] ++ rel
        /\ forall other, FsSpec.skillDirectory (Fs.Dir es) other <-> other = rel)
  /\ exists response,
       Oci.fetch skillRegistryWorld "https://ghcr.io/v2/acme/demo/manifests/1.0"
       = Oci.FetchResolved response
       /\ "sha256:feed"
          = match Oci.dockerContentDigest response with
            | Some header => header
            | None => ("sha256:" ++ Oci.sha256hex skillRegistryWorld (Oci.text response))%string
            end.
Proof.
  exact (@resolved_oci_source_is_the_one_skill_of_the_layer skillRegistryWorld
           "oci://ghcr.io/acme/demo:1.0" noOciOptions
           {| Oci.parsed := {| Oci.registry := "ghcr.io"; Oci.repository := "acme/demo";
                               Oci.referenceType := Oci.tag; Oci.reference := "1.0" |};
              Oci.resolvedDigest := "sha256:feed";
              Oci.extractPath := ["tmp"; "skillet-oci-x1"; "extract"];
              Oci.contentPath := ["tmp"; "skillet-oci-x1"; "extract"; "demo"] |}
           _ eq_refl).
Defined.

(** X5.  The requests of [resolveOciSource].  A run asks for the manifest
    at [<scheme>://<registry>/v2/<repository>/manifests/<reference>] and
    then for at most one thing more, the blob at
    [<scheme>://<registry>/v2/<repository>/blobs/<digest>], where the
    digest is the one of the first layer of the manifest it was answered;
    registry, repository, reference and digest stand in the URL as the
    reference and the manifest spell them.  The scheme is https; it is
    http only when the caller set [insecureHttp] or the registry name
    starts with [localhost] or [127.0.0.1]. *)
Theorem oci_requests_are_the_manifest_and_its_first_layer
  (w : Oci.World) (source : string) (options : Oci.ResolveOciSourceOptions)
  (outcome : result Oci.ResolvedOciSource) (log : list event) :
  Oci.resolveOciSource w source options [] = (outcome, log) ->
  TraceSpec.fetched log <> [] ->
  exists parsed scheme,
    Oci.parseOciReference source = Ok parsed
    /\ (scheme = "https"
        \/ (scheme = "http"
            /\ (Oci.insecureHttp options = Some true
                \/ Oci.isLocalRegistry (Oci.registry parsed) = true)))
    /\ let base := (scheme ++ "://" ++ Oci.registry parsed ++ "/v2/"
                      ++ Oci.repository parsed)%string in
       let manifestUrl := (base ++ "/manifests/" ++ Oci.reference parsed)%string in
       TraceSpec.fetched log = [manifestUrl]
       \/ exists response members layerRecord layers layerDigest,
            Oci.fetch w manifestUrl = Oci.FetchResolved response
            /\ Oci.JSON_parse w (Oci.text response) = Some (JObject members)
            /\ Json.get members "layers" = Some (JArray (JObject layerRecord :: layers))
            /\ Json.get layerRecord "digest" = Some (JString layerDigest)
            /\ TraceSpec.fetched log = [manifestUrl; (base ++ "/blobs/" ++ layerDigest)%string].
Proof.
  intros Hrun Hsome.
  destruct (Oci.parseOciReference source) as [parsed|e] eqn:Hparse.
  2: { destruct (resolveOciSource_unparsed w source options e _ _ Hparse Hrun) as [_ ->].
       contradiction Hsome. reflexivity. }
  set (scheme := if Js.orElse (Oci.insecureHttp options) false
                    || Oci.isLocalRegistry (Oci.registry parsed)
                 then "http" else "https").
  exists parsed, scheme. split; [reflexivity|]. split.
  { subst scheme.
    destruct (Js.orElse (Oci.insecureHttp options) false
              || Oci.isLocalRegistry (Oci.registry parsed)) eqn:Hplain;
      [right; split; [reflexivity|]|left; reflexivity].
    apply orb_true_iff in Hplain as [Hflag|Hlocal]; [left|right; exact Hlocal].
    destruct (Oci.insecureHttp options) as [[]|]; try discriminate. reflexivity. }
  cbv zeta.
  assert (Hassoc : forall tail : string,
    ((scheme ++ "://" ++ Oci.registry parsed ++ "/v2/" ++ Oci.repository parsed) ++ tail
     = scheme ++ "://" ++ Oci.registry parsed ++ "/v2/" ++ Oci.repository parsed ++ tail)%string).
  { intros tail. rewrite !append_assoc. reflexivity. }
  rewrite !Hassoc.
  destruct (resolveOciSource_stages w source options parsed Hparse _ _ Hrun)
    as [[-> _]|(response & members & layerDigest & Hfetch & _ & Hjson & _
                & (_ & layerRecord & layers & Hlayers & Hlayer) & Hstage)].
  { left. reflexivity. }
  right. exists response, members, layerRecord, layers, layerDigest. rewrite !Hassoc.
  split; [exact Hfetch|]. split; [exact Hjson|]. split; [exact Hlayers|].
  split; [exact Hlayer|].
  destruct Hstage as [[-> _]|(blob & _ & _ & Hstage)]; [reflexivity|].
  destruct Hstage as [[-> _]|(out & _ & _ & -> & _)]; reflexivity.
Qed.

Lemma oci_requests_are_the_manifest_and_its_first_layer_witness :
  exists parsed scheme,
    Oci.parseOciReference "oci://ghcr.io/acme/demo:1.0" = Ok parsed
    /\ (scheme = "https"
        \/ (scheme = "http"
            /\ (Oci.insecureHttp noOciOptions = Some true
                \/ Oci.isLocalRegistry (Oci.registry parsed) = true)))
    /\ let base := (scheme ++ "://" ++ Oci.registry parsed ++ "/v2/"
                      ++ Oci.repository parsed)%string in
       let manifestUrl := (base ++ "/manifests/" ++ Oci.reference parsed)%string in
       let log := snd (Oci.resolveOciSource skillRegistryWorld "oci://ghcr.io/acme/demo:1.0"
                         noOciOptions []) in
       TraceSpec.fetched log = [manifestUrl]
       \/ exists response members layerRecord layers layerDigest,
            Oci.fetch skillRegistryWorld manifestUrl = Oci.FetchResolved response
            /\ Oci.JSON_parse skillRegistryWorld (Oci.text response) = Some (JObject members)
            /\ Json.get members "layers" = Some (JArray (JObject layerRecord :: layers))
            /\ Json.get layerRecord "digest" = Some (JString layerDigest)
            /\ TraceSpec.fetched log = [manifestUrl; (base ++ "/blobs/" ++ layerDigest)%string].
Proof.
  apply (@oci_requests_are_the_manifest_and_its_first_layer skillRegistryWorld
           "oci://ghcr.io/acme/demo:1.0" noOciOptions
           (fst (Oci.resolveOciSource skillRegistryWorld "oci://ghcr.io/acme/demo:1.0"
                   noOciOptions []))
           (snd (Oci.resolveOciSource skillRegistryWorld "oci://ghcr.io/acme/demo:1.0"
                   noOciOptions []))).
  - reflexivity.
  - vm_compute. discriminate.
Defined.

(** The requests of a run against the sample registry. *)
Example requests_of_a_run :
  TraceSpec.fetched
    (snd (Oci.resolveOciSource skillRegistryWorld "oci://ghcr.io/acme/demo:1.0"
            noOciOptions []))
  = ["https://ghcr.io/v2/acme/demo/manifests/1.0";
     "https://ghcr.io/v2/acme/demo/blobs/sha256:1a2b"].
Proof. vm_compute. reflexivity. Qed.

(* ===================================================================== *)
(** * The runs of the HTTP archive resolver *)
(* ===================================================================== *)

Section HttpRunFacts.
Import EntrySpec.

Variable w : HttpArchive.World.
Variable sourceUrl : string.
Variable options : HttpArchive.ResolveHttpArchiveOptions.

Let tempRoot := Js.orElse (HttpArchive.tempRoot options) (HttpArchive.tmpdir w).
Let workDir := HttpArchive.mkdtemp w tempRoot "skillet-archive-".
Let cap := Js.orElse (HttpArchive.maxDownloadBytes options)
             HttpArchive.DEFAULT_MAX_DOWNLOAD_BYTES.
Let maxEntries := Js.orElse (HttpArchive.maxEntries options)
                    HttpArchive.DEFAULT_MAX_ENTRIES.
Let maxExtractedBytes := Js.orElse (HttpArchive.maxExtractedBytes options)
                           HttpArchive.DEFAULT_MAX_EXTRACTED_BYTES.
Let extractPath := Fs.join workDir "extract".
Let archivePath (fmt : HttpArchive.ArchiveFormat) :=
  Fs.join workDir (HttpArchive.archiveFileName fmt).
Let start := [EvMkdir tempRoot; EvMkdtemp workDir; EvFetch sourceUrl].

Lemma validated_archive_entries_are_safe (entries : list string) :
  HttpArchive.validateAll entries = Ok tt ->
  forall entry, In entry entries -> unsafe entry = false.
Proof.
  induction entries as [|x entries IH]; intros H entry Hin; [destruct Hin|].
  cbn [HttpArchive.validateAll] in H.
  destruct (HttpArchive.validateArchiveEntryPath x) as [[]|err] eqn:Hx; [|discriminate].
  cbn [bind] in H. destruct Hin as [<-|Hin]; [|exact (IH H entry Hin)].
  destruct (unsafe x) eqn:Hu; [|reflexivity].
  destruct (unsafe_entry_rejected _ Hu) as [e He]. congruence.
Qed.

Lemma validated_archive_entries_pass (entries : list string) :
  HttpArchive.validateAll entries = Ok tt ->
  forall entry, In entry entries -> HttpArchive.validateArchiveEntryPath entry = Ok tt.
Proof.
  induction entries as [|x entries IH]; intros H entry Hin; [destruct Hin|].
  cbn [HttpArchive.validateAll] in H.
  destruct (HttpArchive.validateArchiveEntryPath x) as [[]|err] eqn:Hx; [|discriminate].
  cbn [bind] in H. destruct Hin as [<-|Hin]; [exact Hx|exact (IH H entry Hin)].
Qed.

(** The download loop either reads the whole body, which then is within
    the cap, or throws. *)
Lemma readLoop_outcome (stream : list string) (log : list event) :
  (exists e reads,
      HttpArchive.readLoop cap stream [] 0%Z log = (Throw e, log ++ map EvRead reads))
  \/ ((stream = [] \/ (totalBytes stream <= cap)%Z)
      /\ HttpArchive.readLoop cap stream [] 0%Z log = (Ok stream, log ++ map EvRead stream)).
Proof.
  destruct stream as [|c stream'] eqn:Hs.
  - right. split; [left; reflexivity|]. cbn. rewrite app_nil_r. reflexivity.
  - rewrite <- Hs. destruct (Z.leb_spec (totalBytes stream) cap) as [Hle|Hgt].
    + right. split; [right; exact Hle|].
      rewrite readLoop_under by (right; lia). reflexivity.
    + left. destruct (readLoop_over cap stream [] 0%Z log) as (pre & x & post & _ & _ & _ & H).
      * right. rewrite Hs. discriminate.
      * lia.
      * eauto.
Qed.

(** The extraction runs one command, whatever the format. *)
Lemma extractArchive_run (fmt : HttpArchive.ArchiveFormat) (archive target : Fs.path)
      (log : list event) :
  HttpArchive.extractArchive w archive fmt target log
  = (match HttpArchive.execFileSync w (HttpArchive.archiveTool fmt)
             (HttpArchive.extractArgs archive fmt target) with
     | ExecOk _ => Ok tt
     | ExecFailed stderr =>
         let stderr := match stderr with Some s => Js.trim s | None => "" end in
         Throw (ArchiveResolveError
                  ((match fmt with
                    | HttpArchive.zip => "Failed to extract zip archive"
                    | HttpArchive.tar_gz => "Failed to extract tar.gz archive"
                    end) ++ (if String.eqb stderr "" then "" else ": " ++ stderr)))
     end,
     log ++ [EvExec (HttpArchive.archiveTool fmt)
               (HttpArchive.extractArgs archive fmt target)]).
Proof.
  unfold HttpArchive.extractArchive, HttpArchive.runCommand.
  destruct fmt; cbv beta iota zeta delta [bindM lift emit throwM ret];
    cbn [HttpArchive.archiveTool];
    destruct (HttpArchive.execFileSync w _ _); reflexivity.
Qed.

(** The stages of a run: it stops during the download or at the detection
    of the format; or it writes the archive and lists it, and stops there;
    or it unpacks the archive, and then fails or returns. *)
Lemma resolveHttpArchive_stages (outcome : result HttpArchive.ResolvedHttpArchive)
      (log : list event) :
  HttpArchive.resolveHttpArchive w sourceUrl options [] = (outcome, log) ->
  (exists e reads, outcome = Throw e /\ log = start ++ map EvRead reads)
  \/ exists response stream fmt,
       HttpArchive.fetch w sourceUrl = HttpArchive.FetchResolved response
       /\ HttpArchive.ok response = true
       /\ HttpArchive.body response = Some stream
       /\ (stream = [] \/ (totalBytes stream <= cap)%Z)
       /\ HttpArchive.detectArchiveFormat (HttpArchive.responseUrl response)
            (Js.orElse (HttpArchive.contentTypeHeader response) "")
            (String.concat "" stream) = Ok fmt
       /\ let listing := EvExec (HttpArchive.archiveTool fmt)
                           (HttpArchive.listArgs (archivePath fmt) fmt) in
          let downloaded :=
            start ++ map EvRead stream
              ++ [EvWriteFile (archivePath fmt) (String.concat "" stream); listing] in
          ((exists e, outcome = Throw e) /\ log = downloaded)
          \/ exists out,
               HttpArchive.execFileSync w (HttpArchive.archiveTool fmt)
                 (HttpArchive.listArgs (archivePath fmt) fmt) = ExecOk out
               /\ (Z.of_nat (List.length (TraceSpec.listed out)) <= maxEntries)%Z
               /\ HttpArchive.validateAll (TraceSpec.listed out) = Ok tt
               /\ log = downloaded
                        ++ [EvMkdir extractPath;
                            EvExec (HttpArchive.archiveTool fmt)
                              (HttpArchive.extractArgs (archivePath fmt) fmt extractPath)]
               /\ ((exists e, outcome = Throw e)
                   \/ exists size contentPath,
                        HttpArchive.computeDirectorySize w extractPath = Ok size
                        /\ (size <= maxExtractedBytes)%Z
                        /\ HttpArchive.normalizeContentPath w extractPath = Ok contentPath
                        /\ outcome
                           = Ok {| HttpArchive.format := fmt;
                                   HttpArchive.archivePath := archivePath fmt;
                                   HttpArchive.extractPath := extractPath;
                                   HttpArchive.contentPath := contentPath;
                                   HttpArchive.finalUrl :=
                                     HttpArchive.responseUrl response |}).
Proof.
  unfold HttpArchive.resolveHttpArchive, HttpArchive.downloadArchive.
  cbv beta iota zeta delta [bindM lift emit throwM ret].
  fold tempRoot workDir cap maxEntries maxExtractedBytes. cbn [app]. fold start.
  destruct (HttpArchive.fetch w sourceUrl) as [message|response] eqn:Hfetch;
    cbv beta iota.
  { intros H; inversion H. left. eexists. exists []. rewrite app_nil_r. split; reflexivity. }
  destruct (HttpArchive.ok response) eqn:Hok; cbn [negb]; cbv beta iota.
  2: { intros H; inversion H. left. eexists. exists []. rewrite app_nil_r. split; reflexivity. }
  destruct (HttpArchive.body response) as [stream|] eqn:Hbody; cbv beta iota.
  2: { intros H; inversion H. left. eexists. exists []. rewrite app_nil_r. split; reflexivity. }
  destruct (readLoop_outcome stream start) as [(e & reads & Hloop)|[Hcap Hloop]];
    rewrite Hloop; cbv beta iota.
  { intros H; inversion H. left. do 2 eexists. split; reflexivity. }
  cbn [HttpArchive.buffer HttpArchive.contentType HttpArchive.dlFinalUrl].
  destruct (HttpArchive.detectArchiveFormat _ _ _) as [fmt|e] eqn:Hfmt.
  2: { intros H; inversion H. left. do 2 eexists. split; reflexivity. }
  fold (archivePath fmt).
  unfold HttpArchive.listArchiveEntries, HttpArchive.runCommand.
  cbv beta iota zeta delta [bindM lift emit throwM ret].
  intros Hrun. right. exists response, stream, fmt.
  repeat (split; [first [assumption|reflexivity]|]). cbv zeta. revert Hrun.
  rewrite <- !app_assoc. cbn [app].
  destruct (HttpArchive.execFileSync w (HttpArchive.archiveTool fmt)
              (HttpArchive.listArgs (archivePath fmt) fmt)) as [out|stderr] eqn:Hlist;
    cbv beta iota.
  2: { intros H; inversion H. left. split; [eexists; reflexivity|reflexivity]. }
  change (filter (fun entry : string => negb (entry =? ""))
            (map Js.trim (Js.splitLines (Js.trim out))))
    with (TraceSpec.listed out).
  destruct (Z.gtb_spec (Z.of_nat (List.length (TraceSpec.listed out))) maxEntries)
    as [Hmany|Hfew].
  { intros H; inversion H. left. split; [eexists; reflexivity|reflexivity]. }
  destruct (HttpArchive.validateAll (TraceSpec.listed out)) as [[]|e] eqn:Hvalid.
  2: { intros H; inversion H. left. split; [eexists; reflexivity|reflexivity]. }
  fold extractPath.
  intros Hrun. right. exists out.
  split; [reflexivity|]. split; [exact Hfew|]. split; [exact Hvalid|]. revert Hrun.
  rewrite extractArchive_run.
  destruct (HttpArchive.execFileSync w (HttpArchive.archiveTool fmt)
              (HttpArchive.extractArgs (archivePath fmt) fmt extractPath)) as [done|stderr].
  2: { intros H; inversion H. split; [|left; eexists; reflexivity].
       rewrite <- !app_assoc. reflexivity. }
  destruct (HttpArchive.computeDirectorySize w extractPath) as [size|e] eqn:Hsize.
  2: { intros H; inversion H. split; [|left; eexists; reflexivity].
       rewrite <- !app_assoc. reflexivity. }
  destruct (Z.gtb_spec size maxExtractedBytes) as [Hbig|Hsmall].
  { intros H; inversion H. split; [|left; eexists; reflexivity].
    rewrite <- !app_assoc. reflexivity. }
  destruct (HttpArchive.normalizeContentPath w extractPath) as [contentPath|e] eqn:Hcontent.
  2: { intros H; inversion H. split; [|left; eexists; reflexivity].
       rewrite <- !app_assoc. reflexivity. }
  intros H; inversion H. split; [rewrite <- !app_assoc; reflexivity|].
  right. exists size, contentPath.
  split; [reflexivity|]. split; [exact Hsmall|]. split; reflexivity.
Qed.

End HttpRunFacts.

Section ContentPathFacts.
Variable w : HttpArchive.World.

(** The content path is the extraction directory, or the one entry it has
    besides the litter of macOS when that entry is a directory. *)
Lemma normalizeContentPath_spec (extractPath contentPath : Fs.path) :
  HttpArchive.normalizeContentPath w extractPath = Ok contentPath ->
  (exists es, Fs.statSync (HttpArchive.extracted w) contentPath = Some (Fs.Dir es))
  /\ (contentPath = extractPath
      \/ exists es name,
           Fs.statSync (HttpArchive.extracted w) extractPath = Some (Fs.Dir es)
           /\ filter (fun entry => negb (String.eqb entry ".DS_Store")
                                   && negb (String.eqb entry "__MACOSX"))
                     (map fst es) = [name]
           /\ contentPath = Fs.join extractPath name).
Proof.
  unfold HttpArchive.normalizeContentPath, Fs.readdirSync.
  destruct (Fs.statSync (HttpArchive.extracted w) extractPath) as [[c|es|t]|] eqn:Hstat;
    try discriminate.
  cbn [bind]. rewrite map_map. cbn [fst].
  replace (map (fun x : string * Fs.node => fst x) es) with (map fst es) by reflexivity.
  destruct (filter _ (map fst es)) as [|only [|second more]] eqn:Hfilter.
  - intros H. inversion H; subst. split; [eauto|left; reflexivity].
  - destruct (Fs.statSync (HttpArchive.extracted w) (Fs.join extractPath only))
      as [n|] eqn:Hcandidate; [|discriminate].
    destruct n as [c|es'|t]; cbn [Fs.isDir]; intros H; inversion H; subst.
    + split; [eauto|left; reflexivity].
    + split; [eauto|]. right. exists es, only. auto.
    + split; [eauto|left; reflexivity].
  - intros H. inversion H; subst. split; [eauto|left; reflexivity].
Qed.

(** The size [computeDirectorySize] returns is the weight of the regular
    files of the tree at the directory. *)
Lemma computeDirectorySize_weight (directoryPath : Fs.path) (size : Z) :
  HttpArchive.computeDirectorySize w directoryPath = Ok size ->
  exists es,
    Fs.statSync (HttpArchive.extracted w) directoryPath = Some (Fs.Dir es)
    /\ size = FsSpec.regularBytes (Fs.Dir es).
Proof.
  unfold HttpArchive.computeDirectorySize.
  destruct (Fs.statSync (HttpArchive.extracted w) directoryPath) as [[c|es|t]|];
    try discriminate.
  intros H. exists es. split; [reflexivity|].
  rewrite <- treeSize_regularBytes. congruence.
Qed.

End ContentPathFacts.

(** A run stops when the unpacked files weigh more than the cap, and the
    weight counts every regular file of the tree. *)
Example unpacked_files_over_the_cap :
  FsSpec.regularFiles
    (Fs.Dir [("skill", Fs.Dir [("SKILL.md", Fs.File "---")]); ("notes", Fs.File "abcd")])
  = [(["skill"; "SKILL.md"], "---"); (["notes"], "abcd")]
  /\ FsSpec.regularBytes
       (Fs.Dir [("skill", Fs.Dir [("SKILL.md", Fs.File "---")]); ("notes", Fs.File "abcd")])
     = 7%Z
  /\ fst (HttpArchive.resolveHttpArchive friendlyArchiveWorld
            "https://example.com/skill.tgz"
            {| HttpArchive.tempRoot := None;
               HttpArchive.maxDownloadBytes := None;
               HttpArchive.maxEntries := None;
               HttpArchive.maxExtractedBytes := Some 2%Z |} [])
     = Throw (ArchiveResolveError "Extracted archive size exceeds limit (2 bytes)").
Proof. repeat split; vm_compute; reflexivity. Qed.

(** X6.  [resolveHttpArchive] unpacks an archive only within its limits:
    when the trace of a run holds the extraction command ([unzip -q] or
    [tar -xzf]), the body of the response was read to its end within the
    download cap, the archive was written once, its listing came first and
    succeeded, the listed entries are no more than [maxEntries], and every
    one of them passed the validator: read with backslashes as separators
    it is not absolute and its normal form neither is nor begins with the
    parent directory.  For an entry without a backslash that is the POSIX
    reading: it stays inside the extraction root.  (An entry with a
    backslash in a name can pass and still lead out for POSIX, as
    [a\b/../../evil] does.) *)
Theorem archive_is_unpacked_only_within_limits
  (w : HttpArchive.World) (sourceUrl : string)
  (options : HttpArchive.ResolveHttpArchiveOptions)
  (outcome : result HttpArchive.ResolvedHttpArchive) (log : list event)
  (args : list string) :
  HttpArchive.resolveHttpArchive w sourceUrl options [] = (outcome, log) ->
  In ("unzip", "-q" :: args) (TraceSpec.executed log)
  \/ In ("tar", "-xzf" :: args) (TraceSpec.executed log) ->
  let workDir :=
    HttpArchive.mkdtemp w
      (Js.orElse (HttpArchive.tempRoot options) (HttpArchive.tmpdir w))
      "skillet-archive-" in
  exists response stream fmt out,
    HttpArchive.fetch w sourceUrl = HttpArchive.FetchResolved response
    /\ HttpArchive.body response = Some stream
    /\ (stream = []
        \/ (totalBytes stream
            <= Js.orElse (HttpArchive.maxDownloadBytes options)
                 HttpArchive.DEFAULT_MAX_DOWNLOAD_BYTES)%Z)
    /\ let archive := Fs.join workDir (HttpArchive.archiveFileName fmt) in
       TraceSpec.written log = [(archive, String.concat "" stream)]
       /\ HttpArchive.execFileSync w (HttpArchive.archiveTool fmt)
            (HttpArchive.listArgs archive fmt) = ExecOk out
       /\ (Z.of_nat (List.length (TraceSpec.listed out))
           <= Js.orElse (HttpArchive.maxEntries options) HttpArchive.DEFAULT_MAX_ENTRIES)%Z
       /\ (forall entry,
             In entry (TraceSpec.listed out) ->
             HttpArchive.validateArchiveEntryPath entry = Ok tt
             /\ EntrySpec.unsafe entry = false
             /\ (Text.without "\" entry -> EntrySpec.leavesRoot entry = false))
       /\ TraceSpec.executed log
          = [(HttpArchive.archiveTool fmt, HttpArchive.listArgs archive fmt);
             (HttpArchive.archiveTool fmt,
              HttpArchive.extractArgs archive fmt (Fs.join workDir "extract"))].
Proof.
  intros Hrun Hin workDir.
  assert (Hreads : forall reads, TraceSpec.executed (map EvRead reads) = []).
  { induction reads as [|x l IH]; [reflexivity|exact IH]. }
  assert (Hwrites : forall reads, TraceSpec.written (map EvRead reads) = []).
  { induction reads as [|x l IH]; [reflexivity|exact IH]. }
  assert (Hexec_app : forall a b,
    TraceSpec.executed (a ++ b) = TraceSpec.executed a ++ TraceSpec.executed b).
  { intros a b. unfold TraceSpec.executed. apply flat_map_app. }
  assert (Hwritten_app : forall a b,
    TraceSpec.written (a ++ b) = TraceSpec.written a ++ TraceSpec.written b).
  { intros a b. unfold TraceSpec.written. apply flat_map_app. }
  destruct (resolveHttpArchive_stages w sourceUrl options _ _ Hrun)
    as [(e & reads & _ & ->)
       |(response & stream & fmt & Hfetch & _ & Hbody & Hcap & _ & Hstage)].
  { rewrite Hexec_app, Hreads in Hin. cbn in Hin. tauto. }
  cbv zeta in Hstage.
  destruct Hstage as [[_ ->]|(out & Hlist & Hfew & Hvalid & -> & _)].
  { rewrite Hexec_app, Hexec_app, Hreads in Hin. cbn in Hin.
    destruct fmt; cbn in Hin; destruct Hin as [[Hin|[]]|[Hin|[]]]; inversion Hin. }
  exists response, stream, fmt, out.
  split; [exact Hfetch|]. split; [exact Hbody|]. split; [exact Hcap|]. cbv zeta.
  split.
  { rewrite !Hwritten_app, Hwrites. reflexivity. }
  split; [exact Hlist|]. split; [exact Hfew|].
  split.
  { intros entry Hentry.
    pose proof (validated_archive_entries_are_safe _ Hvalid entry Hentry) as Hsafe.
    split; [exact (validated_archive_entries_pass _ Hvalid entry Hentry)|].
    split; [exact Hsafe|].
    intros Hplain. rewrite (leavesRoot_without entry Hplain). exact Hsafe. }
  rewrite !Hexec_app, Hreads. reflexivity.
Qed.

Lemma archive_is_unpacked_only_within_limits_witness :
  exists response stream fmt out,
    HttpArchive.fetch friendlyArchiveWorld "https://example.com/skill.tar.gz"
    = HttpArchive.FetchResolved response
    /\ HttpArchive.body response = Some stream
    /\ (stream = [] \/ (totalBytes stream <= HttpArchive.DEFAULT_MAX_DOWNLOAD_BYTES)%Z)
    /\ let archive :=
         Fs.join ["tmp"; "skillet-archive-x1"] (HttpArchive.archiveFileName fmt) in
       TraceSpec.written
         (snd (HttpArchive.resolveHttpArchive friendlyArchiveWorld
                 "https://example.com/skill.tar.gz" noHttpOptions []))
       = [(archive, String.concat "" stream)]
       /\ HttpArchive.execFileSync friendlyArchiveWorld (HttpArchive.archiveTool fmt)
            (HttpArchive.listArgs archive fmt) = ExecOk out
       /\ (Z.of_nat (List.length (TraceSpec.listed out)) <= HttpArchive.DEFAULT_MAX_ENTRIES)%Z
       /\ (forall entry,
             In entry (TraceSpec.listed out) ->
             HttpArchive.validateArchiveEntryPath entry = Ok tt
             /\ EntrySpec.unsafe entry = false
             /\ (Text.without "\" entry -> EntrySpec.leavesRoot entry = false))
       /\ TraceSpec.executed
            (snd (HttpArchive.resolveHttpArchive friendlyArchiveWorld
                    "https://example.com/skill.tar.gz" noHttpOptions []))
          = [(HttpArchive.archiveTool fmt, HttpArchive.listArgs archive fmt);
             (HttpArchive.archiveTool fmt,
              HttpArchive.extractArgs archive fmt ["tmp"; "skillet-archive-x1"; "extract"])].
Proof.
  apply (@archive_is_unpacked_only_within_limits friendlyArchiveWorld
           "https://example.com/skill.tar.gz" noHttpOptions
           (fst (HttpArchive.resolveHttpArchive friendlyArchiveWorld
                   "https://example.com/skill.tar.gz" noHttpOptions []))
           (snd (HttpArchive.resolveHttpArchive friendlyArchiveWorld
                   "https://example.com/skill.tar.gz" noHttpOptions []))
           ["/tmp/skillet-archive-x1/archive.tar.gz"; "-C";
            "/tmp/skillet-archive-x1/extract"]).
  - reflexivity.
  - right. vm_compute. right. left. reflexivity.
Defined.

(** X7.  What a successful [resolveHttpArchive] returns: the format detected
    from the final URL, the content type and the first bytes of the body;
    the archive and the extraction directory below the fresh work
    directory; the URL the response came from; and a content path that is a
    directory, the extraction directory itself or the single entry it has
    besides [.DS_Store] and [__MACOSX].  The extraction directory is a
    directory, and the regular files of its tree (links are not followed)
    weigh together no more than [maxExtractedBytes]. *)
Theorem resolved_archive_is_within_the_size_limit
  (w : HttpArchive.World) (sourceUrl : string)
  (options : HttpArchive.ResolveHttpArchiveOptions)
  (resolved : HttpArchive.ResolvedHttpArchive) (log : list event) :
  HttpArchive.resolveHttpArchive w sourceUrl options [] = (Ok resolved, log) ->
  let workDir :=
    HttpArchive.mkdtemp w
      (Js.orElse (HttpArchive.tempRoot options) (HttpArchive.tmpdir w))
      "skillet-archive-" in
  let extractPath := HttpArchive.extractPath resolved in
  let contentPath := HttpArchive.contentPath resolved in
  exists response stream unpacked,
    HttpArchive.fetch w sourceUrl = HttpArchive.FetchResolved response
    /\ HttpArchive.body response = Some stream
    /\ HttpArchive.finalUrl resolved = HttpArchive.responseUrl response
    /\ HttpArchive.detectArchiveFormat (HttpArchive.responseUrl response)
         (Js.orElse (HttpArchive.contentTypeHeader response) "")
         (String.concat "" stream) = Ok (HttpArchive.format resolved)
    /\ HttpArchive.archivePath resolved
       = Fs.join workDir (HttpArchive.archiveFileName (HttpArchive.format resolved))
    /\ extractPath = Fs.join workDir "extract"
    /\ Fs.statSync (HttpArchive.extracted w) extractPath = Some (Fs.Dir unpacked)
    /\ (FsSpec.regularBytes (Fs.Dir unpacked)
        <= Js.orElse (HttpArchive.maxExtractedBytes options)
             HttpArchive.DEFAULT_MAX_EXTRACTED_BYTES)%Z
    /\ (exists es, Fs.statSync (HttpArchive.extracted w) contentPath = Some (Fs.Dir es))
    /\ (contentPath = extractPath
        \/ exists es name,
             Fs.statSync (HttpArchive.extracted w) extractPath = Some (Fs.Dir es)
             /\ filter (fun entry => negb (String.eqb entry ".DS_Store")
                                     && negb (String.eqb entry "__MACOSX"))
                       (map fst es) = [name]
             /\ contentPath = Fs.join extractPath name).
Proof.
  intros Hrun workDir extractPath contentPath.
  destruct (resolveHttpArchive_stages w sourceUrl options _ _ Hrun)
    as [(e & reads & H & _)
       |(response & stream & fmt & Hfetch & _ & Hbody & _ & Hfmt & Hstage)];
    [discriminate H|].
  cbv zeta in Hstage.
  destruct Hstage as [[[e H] _]|(out & _ & _ & _ & _ & Hstage)]; [discriminate H|].
  destruct Hstage as [[e H]|(size & content & Hsize & Hsmall & Hcontent & H)];
    [discriminate H|].
  inversion H; subst resolved. clear H.
  subst extractPath contentPath.
  cbn [HttpArchive.format HttpArchive.archivePath HttpArchive.extractPath
       HttpArchive.contentPath HttpArchive.finalUrl].
  destruct (computeDirectorySize_weight w _ _ Hsize) as (unpacked & Hstat & Hweight).
  exists response, stream, unpacked.
  repeat (split; [first [assumption|reflexivity]|]).
  split; [rewrite <- Hweight; exact Hsmall|].
  exact (normalizeContentPath_spec w _ _ Hcontent).
Qed.

Lemma resolved_archive_is_within_the_size_limit_witness :
  exists response stream unpacked,
    HttpArchive.fetch friendlyArchiveWorld "https://example.com/skill.tar.gz"
    = HttpArchive.FetchResolved response
    /\ HttpArchive.body response = Some stream
    /\ "https://example.com/skill.tar.gz" = HttpArchive.responseUrl response
    /\ HttpArchive.detectArchiveFormat (HttpArchive.responseUrl response)
         (Js.orElse (HttpArchive.contentTypeHeader response) "")
         (String.concat "" stream) = Ok HttpArchive.tar_gz
    /\ ["tmp"; "skillet-archive-x1"; "archive.tar.gz"]
       = Fs.join ["tmp"; "skillet-archive-x1"]
           (HttpArchive.archiveFileName HttpArchive.tar_gz)
    /\ ["tmp"; "skillet-archive-x1"; "extract"]
       = Fs.join ["tmp"; "skillet-archive-x1"] "extract"
    /\ Fs.statSync (HttpArchive.extracted friendlyArchiveWorld)
         ["tmp"; "skillet-archive-x1"; "extract"] = Some (Fs.Dir unpacked)
    /\ (FsSpec.regularBytes (Fs.Dir unpacked) <= HttpArchive.DEFAULT_MAX_EXTRACTED_BYTES)%Z
    /\ (exists es,
          Fs.statSync (HttpArchive.extracted friendlyArchiveWorld)
            ["tmp"; "skillet-archive-x1"; "extract"; "skill"] = Some (Fs.Dir es))
    /\ (["tmp"; "skillet-archive-x1"; "extract"; "skill"]
        = ["tmp"; "skillet-archive-x1"; "extract"]
        \/ exists es name,
             Fs.statSync (HttpArchive.extracted friendlyArchiveWorld)
               ["tmp"; "skillet-archive-x1"; "extract"] = Some (Fs.Dir es)
             /\ filter (fun entry => negb (String.eqb entry ".DS_Store")
                                     && negb (String.eqb entry "__MACOSX"))
                       (map fst es) = [name]
             /\ ["tmp"; "skillet-archive-x1"; "extract"; "skill"]
                = Fs.join ["tmp"; "skillet-archive-x1"; "extract"] name).
Proof.
  exact (@resolved_archive_is_within_the_size_limit friendlyArchiveWorld
           "https://example.com/skill.tar.gz" noHttpOptions
           {| HttpArchive.format := HttpArchive.tar_gz;
              HttpArchive.archivePath := ["tmp"; "skillet-archive-x1"; "archive.tar.gz"];
              HttpArchive.extractPath := ["tmp"; "skillet-archive-x1"; "extract"];
              HttpArchive.contentPath := ["tmp"; "skillet-archive-x1"; "extract"; "skill"];
              HttpArchive.finalUrl := "https://example.com/skill.tar.gz" |}
           _ eq_refl).
Defined.

(* ===================================================================== *)
(** * Lines, names and parsed descriptors *)
(* ===================================================================== *)

Section LineFacts.
Import Text LineSpec.

Lemma dropTrailingCR_line (s : string) :
  Js.endsWith s (String Js.CR "") = false -> Js.dropTrailingCR s = s.
Proof.
  induction s as [|a s IH]; [reflexivity|].
  cbn [Js.endsWith]. intros H. apply orb_false_iff in H as [Hhere Hrest].
  cbn [Js.dropTrailingCR]. destruct s as [|b s'].
  - destruct (Ascii.eqb_spec a Js.CR) as [->|_]; [discriminate Hhere|reflexivity].
  - rewrite (IH Hrest). reflexivity.
Qed.

Lemma splitChar_lines (ls : list string) :
  ls <> [] -> Forall (without Js.LF) ls -> Js.splitChar Js.LF (lines ls) = ls.
Proof.
  unfold lines. induction ls as [|l ls IH]; intros Hne Hall; [contradiction|].
  inversion Hall as [|? ? Hl Hls]; subst.
  destruct ls as [|l' ls'].
  - cbn [String.concat]. apply splitChar_without. exact Hl.
  - rewrite concat_cons2. cbn [append].
    rewrite (splitChar_append _ _ _ Hl), IH by (discriminate || assumption).
    reflexivity.
Qed.

(** A text given by its lines splits into them. *)
Lemma splitLines_lines (ls : list string) :
  ls <> [] -> Forall isLine ls -> Js.splitLines (lines ls) = ls.
Proof.
  intros Hne Hall. unfold Js.splitLines.
  rewrite splitChar_lines.
  - destruct (rev ls) as [|last front] eqn:Hrev.
    + apply (f_equal (@rev string)) in Hrev. rewrite rev_involutive in Hrev.
      contradiction.
    + replace (map Js.dropTrailingCR front) with front.
      * rewrite <- Hrev. apply rev_involutive.
      * symmetry. rewrite <- (map_id front) at 2. apply map_ext_in.
        intros l Hl. apply dropTrailingCR_line.
        assert (Hin : In l ls).
        { apply in_rev. rewrite Hrev. right. exact Hl. }
        exact (proj2 (proj1 (Forall_forall _ _) Hall l Hin)).
  - exact Hne.
  - eapply Forall_impl; [|exact Hall]. intros l [H _]. exact H.
Qed.

End LineFacts.

Section NameFacts.
Import LineSpec.

Let ok (run : string) : bool :=
  negb (String.eqb run "") && Skill.allChars Skill.isLowerAlnum run.

(** What the pieces of a split at the hyphens look like after the first. *)
Let tailOk (s : string) : bool :=
  match Js.splitChar "-" s with
  | [] => true
  | h :: t => Skill.allChars Skill.isLowerAlnum h && forallb ok t
  end.

Lemma hyphen_not_alnum : Skill.isLowerAlnum "-" = false.
Proof. reflexivity. Qed.

Lemma endsWith_hyphen_cons (a : ascii) (s : string) :
  Js.endsWith (String a s) "-"
  = (Ascii.eqb a "-" && String.eqb s "") || Js.endsWith s "-".
Proof.
  cbn [Js.endsWith String.eqb]. destruct (Ascii.eqb a "-"); [|reflexivity].
  destruct s; reflexivity.
Qed.

Lemma includes_hyphens_cons (a : ascii) (s : string) :
  Js.includes (String a s) "--"
  = (Ascii.eqb a "-" && Js.startsWith s "-") || Js.includes s "--".
Proof.
  cbn [Js.includes Js.startsWith]. rewrite (Ascii.eqb_sym "-" a).
  destruct (Ascii.eqb a "-"); [|reflexivity].
  destruct s as [|b s']; [reflexivity|].
  cbn [andb]. rewrite andb_true_r. reflexivity.
Qed.

Lemma startsWith_hyphen_cons (a : ascii) (s : string) :
  Js.startsWith (String a s) "-" = Ascii.eqb a "-".
Proof. cbn [Js.startsWith]. rewrite andb_true_r. apply Ascii.eqb_sym. Qed.

Lemma pattern_and_tail (s : string) :
  (Skill.NAME_PATTERN_test s = true
   <-> s <> "" /\ Js.startsWith s "-" = false
       /\ Skill.allChars isNameChar s = true
       /\ Js.endsWith s "-" = false /\ Js.includes s "--" = false)
  /\ (tailOk s = true
      <-> Skill.allChars isNameChar s = true
          /\ Js.endsWith s "-" = false /\ Js.includes s "--" = false).
Proof.
  unfold Skill.NAME_PATTERN_test, tailOk. fold ok.
  induction s as [|a s [IHp IHt]].
  - split.
    + split; [discriminate|]. intros [H _]. contradiction.
    + split; [intros _; repeat split|reflexivity].
  - pose proof (splitChar_nonempty "-" s) as Hne.
    rewrite endsWith_hyphen_cons, includes_hyphens_cons, startsWith_hyphen_cons.
    cbn [Skill.allChars Js.splitChar]. unfold isNameChar at 1 3.
    destruct (Ascii.eqb_spec a "-") as [->|Hhyphen].
    + (* a hyphen: an empty run before it *)
      rewrite hyphen_not_alnum.
      cbn [orb andb forallb negb Skill.allChars].
      unfold ok at 1. cbn [String.eqb negb andb].
      split.
      * split; [discriminate|]. intros (_ & H & _). discriminate.
      * rewrite IHp. destruct s as [|b s'].
        -- cbn [String.eqb orb].
           split; [intros [H _]; contradiction|]. intros (_ & H & _). discriminate.
        -- cbn [String.eqb orb].
           destruct (Js.startsWith (String b s') "-"); cbn [orb].
           ++ split; [intros (_ & H & _); discriminate|]. intros (_ & _ & H). discriminate.
           ++ split.
              ** intros (_ & _ & H1 & H2 & H3). auto.
              ** intros (H1 & H2 & H3). repeat split; auto. discriminate.
    + destruct (Js.splitChar "-" s) as [|h t]; [contradiction|].
      cbn [forallb andb orb]. unfold ok at 1 3. cbn [String.eqb negb Skill.allChars andb].
      rewrite orb_false_r.
      destruct (Skill.isLowerAlnum a); cbn [andb].
      * rewrite IHt.
        split; split; try tauto. intros H. repeat split; try tauto. discriminate.
      * split; split; try tauto; try discriminate; intros; tauto.
Qed.

(** [NAME_PATTERN] accepts the well-formed names. *)
Lemma NAME_PATTERN_wellFormed (name : string) :
  Skill.NAME_PATTERN_test name = true <-> wellFormedName name.
Proof.
  rewrite (proj1 (pattern_and_tail name)). unfold wellFormedName. tauto.
Qed.

End NameFacts.

(** X8.  A descriptor put together from an opening delimiter line, the
    lines of a frontmatter block none of which is a delimiter, a closing
    delimiter line and the lines of a body is split by [splitFrontmatter]
    into that block and that body, both joined with line feeds.  A line
    here holds no line feed and does not end with a carriage return; a
    delimiter is a line that is [---] once trimmed. *)
Theorem frontmatter_round_trip (opening closing : string) (front body : list string) :
  Forall LineSpec.isLine (opening :: front ++ closing :: body) ->
  SkillSpec.isDelimiter opening = true ->
  existsb SkillSpec.isDelimiter front = false ->
  SkillSpec.isDelimiter closing = true ->
  Skill.splitFrontmatter (lines (opening :: front ++ closing :: body))
  = Ok (lines front, lines body).
Proof.
  intros Hlines Hopening Hfront Hclosing.
  apply (splitFrontmatter_block _ front body closing).
  - unfold SkillSpec.firstLine. rewrite splitLines_lines by (discriminate || assumption).
    exact Hopening.
  - unfold SkillSpec.laterLines. rewrite splitLines_lines by (discriminate || assumption).
    reflexivity.
  - exact Hfront.
  - exact Hclosing.
Qed.

Lemma frontmatter_round_trip_witness :
  Skill.splitFrontmatter
    (lines ("--- " :: ["name: demo"; "description: A demo"] ++ "---" :: ["# Demo"; ""]))
  = Ok (lines ["name: demo"; "description: A demo"], lines ["# Demo"; ""]).
Proof.
  apply (@frontmatter_round_trip "--- " "---" ["name: demo"; "description: A demo"]
           ["# Demo"; ""]).
  - repeat constructor.
  - reflexivity.
  - reflexivity.
  - reflexivity.
Defined.

(** The first later line that is [---] once trimmed closes the block, a
    line padded with a no-break space as well as any: what follows it, a
    plain [---] included, is body. *)
Example padded_delimiter_closes_the_block :
  Skill.splitFrontmatter
    (lines ["---"; "name: demo"; ("---" ++ SkillSpec.NBSP)%string; "body"; "---"; "rest"])
  = Ok ("name: demo", lines ["body"; "---"; "rest"]).
Proof. vm_compute. reflexivity. Qed.

(** The limits of the description and of the compatibility count UTF-16
    code units, not bytes: 600 times the letter U+00E9 are 1200 bytes and
    600 code units, and pass; 513 times a character of four bytes are 1026
    code units, and do not. *)
Example description_limit_counts_code_units :
  let times := fix times (n : nat) (s : string) : string :=
    match n with 0 => "" | S n' => (s ++ times n' s)%string end in
  let e_acute := String (Js.chr 195) (String (Js.chr 169) "") in
  let emoji :=
    String (Js.chr 240) (String (Js.chr 159) (String (Js.chr 152) (String (Js.chr 128) ""))) in
  String.length (times 600 e_acute) = 1200
  /\ Js.length (times 600 e_acute) = 600
  /\ Skill.validateDescription (times 600 e_acute) = Ok tt
  /\ Js.length (times 513 emoji) = 1026
  /\ Skill.validateDescription (times 513 emoji)
     = Throw (SkillParseError "description must be 1-1024 characters" (Some "description")).
Proof. repeat split; vm_compute; reflexivity. Qed.

(** X9.  [validateName] accepts exactly the names of 1 to 64 characters made
    of lower-case letters, digits and hyphens that neither start nor end
    with a hyphen nor hold two hyphens in a row and that, when a non-empty
    name is expected, are that name. *)
Theorem validateName_accepts_the_well_formed_names
  (name : string) (expectedName : option string) :
  Skill.validateName name expectedName = Ok tt
  <-> LineSpec.wellFormedName name
      /\ String.length name <= 64
      /\ (forall expected,
            expectedName = Some expected -> expected <> "" -> name = expected).
Proof.
  unfold Skill.validateName.
  destruct (Skill.NAME_PATTERN_test name) eqn:Hpattern.
  2: { split.
       - destruct (_ || _); [discriminate|]. cbn [negb]. discriminate.
       - intros [H _]. apply NAME_PATTERN_wellFormed in H. congruence. }
  apply NAME_PATTERN_wellFormed in Hpattern.
  rewrite (wellFormedName_length name Hpattern).
  destruct (Nat.ltb_spec (String.length name) 1) as [Hshort|Hlong]; cbn [orb].
  { split; [discriminate|]. intros [(Hne & _) _].
    destruct name; [contradiction|cbn in Hshort; lia]. }
  destruct (Nat.ltb_spec 64 (String.length name)) as [Hbig|Hsmall].
  { split; [discriminate|]. intros (_ & H & _). lia. }
  cbn [negb].
  destruct expectedName as [expected|].
  - destruct (String.eqb_spec expected "") as [->|Hexpected]; cbn [negb andb].
    + split; [|reflexivity]. intros _. split; [exact Hpattern|split; [lia|]].
      intros e He Hne. inversion He; subst. contradiction.
    + destruct (String.eqb_spec name expected) as [->|Hdiffer]; cbn [negb].
      * split; [|reflexivity]. intros _. split; [exact Hpattern|split; [lia|]].
        intros e He _. inversion He. reflexivity.
      * split; [discriminate|]. intros (_ & _ & H).
        exfalso. apply Hdiffer. apply H; [reflexivity|assumption].
  - split; [|reflexivity]. intros _. split; [exact Hpattern|split; [lia|]].
    intros e He. discriminate He.
Qed.

Section DescriptorFacts.
Import DescriptorSpec.

Lemma readStringField_required (record : list (string * json)) (key : string)
      (v : option string) :
  Skill.readStringField record key true = Ok v ->
  exists s, v = Some s /\ Json.get record key = Some (JString s) /\ Js.trim s <> "".
Proof.
  unfold Skill.readStringField.
  destruct (Json.get record key) as [[| | | s | |]|]; try discriminate.
  cbn [andb]. destruct (Nat.eqb_spec (String.length (Js.trim s)) 0) as [|Hlen];
    [discriminate|].
  intros H. inversion H; subst. exists s. repeat split.
  intros Hs. rewrite Hs in Hlen. apply Hlen. reflexivity.
Qed.

Lemma readStringField_optional (record : list (string * json)) (key : string)
      (v : option string) :
  Skill.readStringField record key false = Ok v ->
  forall s, v = Some s <-> Json.get record key = Some (JString s).
Proof.
  unfold Skill.readStringField.
  destruct (Json.get record key) as [[| | | s | |]|]; try discriminate;
    cbn [andb]; intros H; inversion H; subst; intros s'; split; intros H';
    try discriminate; inversion H'; reflexivity.
Qed.

Lemma normalizeEntries_ok (entries : list (string * json)) :
  forall acc normalized,
    Skill.normalizeEntries entries acc = Ok normalized ->
    normalized = acc ++ entries /\ Forall metadataEntryOk entries.
Proof.
  induction entries as [|[key value] entries IH]; intros acc normalized H;
    cbn [Skill.normalizeEntries] in H.
  - inversion H. rewrite app_nil_r. split; [reflexivity|constructor].
  - destruct (String.eqb key "internal") eqn:Hkey.
    + destruct value; try discriminate.
      destruct (IH _ _ H) as [-> Hall]. rewrite <- app_assoc. split; [reflexivity|].
      constructor; [|exact Hall].
      unfold metadataEntryOk. cbn [fst snd]. rewrite Hkey. eauto.
    + destruct value; try discriminate.
      destruct (IH _ _ H) as [-> Hall]. rewrite <- app_assoc. split; [reflexivity|].
      constructor; [|exact Hall].
      unfold metadataEntryOk. cbn [fst snd]. rewrite Hkey. eauto.
Qed.

(** [normalizeMetadata] checks the mapping and returns it as it is. *)
Lemma normalizeMetadata_ok (metadata : option json)
      (normalized : option (list (string * json))) :
  Skill.normalizeMetadata metadata = Ok normalized ->
  match normalized with
  | None => metadata = None \/ metadata = Some JNull
  | Some m => metadata = Some (JObject m) /\ Forall metadataEntryOk m
  end.
Proof.
  unfold Skill.normalizeMetadata.
  destruct metadata as [[| | | | | record]|]; try discriminate;
    try (intros H; inversion H; auto; fail).
  destruct (Skill.normalizeEntries record []) as [m|e] eqn:Hm; [|discriminate].
  cbn [bind]. intros H. inversion H; subst.
  destruct (normalizeEntries_ok _ _ _ Hm) as [-> Hall]. auto.
Qed.

End DescriptorFacts.

(** X10.  What a parsed descriptor guarantees.  When [parseSkillMarkdown]
    returns, the frontmatter block parsed to a mapping; the name and the
    description are the strings the mapping holds, not blank; the name
    passes [validateName] against the expected name (the option, or the
    name of the directory of the path); the description has 1 to 1024
    UTF-16 code units and the compatibility, when given, 1 to 500; the license
    and the compatibility are the strings of the mapping; the metadata is
    the mapping's own, with a boolean under [internal] and strings
    elsewhere, and the skill is internal exactly when that boolean is
    [true]; the body is the text after the closing delimiter. *)
Theorem parsed_skill_carries_validated_fields
  (parseYaml : string -> string + json) (markdown : string)
  (options : Skill.ParseOptions) (skill : Skill.SkillFile) :
  Skill.parseSkillMarkdown parseYaml markdown options = Ok skill ->
  let fm := Skill.frontmatter skill in
  exists frontmatterText record,
    Skill.splitFrontmatter markdown = Ok (frontmatterText, Skill.body skill)
    /\ parseYaml frontmatterText = inr (JObject record)
    /\ Json.get record "name" = Some (JString (Skill.name fm))
    /\ Json.get record "description" = Some (JString (Skill.description fm))
    /\ Js.trim (Skill.name fm) <> "" /\ Js.trim (Skill.description fm) <> ""
    /\ Skill.validateName (Skill.name fm) (DescriptorSpec.expectedNameOf options) = Ok tt
    /\ 1 <= Js.length (Skill.description fm) <= 1024
    /\ (forall c, Skill.compatibility fm = Some c
                  <-> Json.get record "compatibility" = Some (JString c))
    /\ (forall c, Skill.compatibility fm = Some c -> 1 <= Js.length c <= 500)
    /\ (forall l, Skill.license fm = Some l
                  <-> Json.get record "license" = Some (JString l))
    /\ (forall m, Skill.metadata fm = Some m
                  <-> Json.get record "metadata" = Some (JObject m))
    /\ (forall m, Skill.metadata fm = Some m -> Forall DescriptorSpec.metadataEntryOk m)
    /\ (Skill.isInternal skill = true
        <-> exists m, Skill.metadata fm = Some m
                      /\ Json.get m "internal" = Some (JBool true)).
Proof.
  unfold Skill.parseSkillMarkdown.
  destruct (Skill.splitFrontmatter markdown) as [[frontmatterText body]|e] eqn:Hsplit;
    [|discriminate]. cbn [bind].
  destruct (parseYaml frontmatterText) as [message|data] eqn:Hyaml; [discriminate|].
  cbn [bind]. destruct data as [| | | | | record]; try discriminate. cbn [bind].
  destruct (Skill.readStringField record "name" true) as [name|e] eqn:Hname;
    [|discriminate]. cbn [bind].
  destruct (Skill.readStringField record "description" true) as [description|e]
    eqn:Hdescription; [|discriminate]. cbn [bind].
  destruct (Skill.readStringField record "license" false) as [license|e] eqn:Hlicense;
    [|discriminate]. cbn [bind].
  destruct (Skill.readStringField record "compatibility" false) as [compatibility|e]
    eqn:Hcompatibility; [|discriminate]. cbn [bind].
  destruct (Skill.readAllowedTools record) as [allowedTools|e]; [|discriminate].
  cbn [bind].
  destruct (Skill.normalizeMetadata (Json.get record "metadata")) as [metadata|e]
    eqn:Hmetadata; [|discriminate]. cbn [bind].
  destruct (readStringField_required _ _ _ Hname) as (n & -> & Hn & Hnblank).
  destruct (readStringField_required _ _ _ Hdescription) as (d & -> & Hd & Hdblank).
  cbn [Js.orElse].
  fold (DescriptorSpec.expectedNameOf options).
  destruct (Skill.validateName n (DescriptorSpec.expectedNameOf options)) as [[]|e]
    eqn:Hvalid; [|discriminate]. cbn [bind].
  destruct (Skill.validateDescription d) as [[]|e] eqn:Hlength; [|discriminate].
  cbn [bind].
  destruct (Skill.validateCompatibility compatibility) as [[]|e] eqn:Hcompat;
    [|discriminate]. cbn [bind].
  intros H. inversion H; subst skill. clear H.
  cbn [Skill.frontmatter Skill.body Skill.isInternal Skill.name Skill.description
       Skill.license Skill.compatibility Skill.metadata].
  exists frontmatterText, record.
  split; [reflexivity|]. split; [exact Hyaml|].
  split; [exact Hn|]. split; [exact Hd|]. split; [exact Hnblank|].
  split; [exact Hdblank|]. split; [exact Hvalid|].
  split.
  { unfold Skill.validateDescription in Hlength.
    destruct (Nat.ltb_spec (Js.length d) 1); [discriminate|].
    destruct (Nat.ltb_spec 1024 (Js.length d)); [discriminate|]. lia. }
  split; [exact (readStringField_optional _ _ _ Hcompatibility)|].
  split.
  { intros c ->. unfold Skill.validateCompatibility in Hcompat.
    destruct (Nat.ltb_spec (Js.length c) 1); [discriminate|].
    destruct (Nat.ltb_spec 500 (Js.length c)); [discriminate|]. lia. }
  split; [exact (readStringField_optional _ _ _ Hlicense)|].
  pose proof (normalizeMetadata_ok _ _ Hmetadata) as Hm.
  split.
  { intros m. destruct metadata as [m'|].
    - destruct Hm as [-> _]. split; intros H; inversion H; reflexivity.
    - split; [discriminate|]. destruct Hm as [-> | ->]; discriminate. }
  split.
  { intros m ->. exact (proj2 Hm). }
  destruct metadata as [m|].
  - destruct (Json.get m "internal") as [[| [|] | | | |]|] eqn:Hinternal;
      split; try discriminate;
      try (intros (m' & Hm' & H'); inversion Hm'; subst; congruence).
    intros _. exists m. split; [reflexivity|exact Hinternal].
  - split; [discriminate|]. intros (m' & Hm' & _). discriminate.
Qed.

Lemma parsed_skill_carries_validated_fields_witness :
  let markdown :=
    lines ["---"; "name: demo"; "description: A demo skill"; "license: MIT";
           "compatibility: any agent"; "---"; "# Demo"] in
  exists frontmatterText record,
    Skill.splitFrontmatter markdown = Ok (frontmatterText, "# Demo")
    /\ ToyYaml.parse frontmatterText = inr (JObject record)
    /\ Json.get record "name" = Some (JString "demo")
    /\ Json.get record "description" = Some (JString "A demo skill")
    /\ Js.trim "demo" <> "" /\ Js.trim "A demo skill" <> ""
    /\ Skill.validateName "demo" (DescriptorSpec.expectedNameOf Skill.noOptions) = Ok tt
    /\ 1 <= Js.length "A demo skill" <= 1024
    /\ (forall c, Some "any agent" = Some c
                  <-> Json.get record "compatibility" = Some (JString c))
    /\ (forall c, Some "any agent" = Some c -> 1 <= Js.length c <= 500)
    /\ (forall l, Some "MIT" = Some l <-> Json.get record "license" = Some (JString l))
    /\ (forall m, None = Some m <-> Json.get record "metadata" = Some (JObject m))
    /\ (forall m, None = Some m -> Forall DescriptorSpec.metadataEntryOk m)
    /\ (false = true
        <-> exists m, @None (list (string * json)) = Some m
                      /\ Json.get m "internal" = Some (JBool true)).
Proof.
  exact (@parsed_skill_carries_validated_fields ToyYaml.parse
           (lines ["---"; "name: demo"; "description: A demo skill"; "license: MIT";
                   "compatibility: any agent"; "---"; "# Demo"])
           Skill.noOptions
           {| Skill.frontmatter :=
                {| Skill.name := "demo"; Skill.description := "A demo skill";
                   Skill.license := Some "MIT"; Skill.compatibility := Some "any agent";
                   Skill.metadata := None; Skill.allowedTools := None |};
              Skill.body := "# Demo";
              Skill.isInternal := false |}
           eq_refl).
Defined.

(* ===================================================================== *)
(** * Reading what was written *)
(* ===================================================================== *)

Section ReadAfterWrite.
Import FsSpec.

(** A file that has been written holds what was written. *)
Lemma writeFileSync_stat (root root' : Fs.node) (p : Fs.path) (content : string) :
  p <> [] ->
  Fs.writeFileSync root p content = Ok root' ->
  Fs.statSync root' p = Some (Fs.File content).
Proof.
  intros Hp Hwrite. unfold Fs.writeFileSync in Hwrite. unfold Fs.statSync.
  destruct (Fs.resolve root true p) as [[rp n]|] eqn:Hres.
  - (* the file was there *)
    destruct n as [old|es|t]; try discriminate.
    pose proof (resolveN_real _ _ _ _ _ Hres) as Hreal. cbn [fst snd] in Hreal.
    assert (Hw : writable root rp) by (unfold writable; rewrite Hreal; exact I).
    destruct (resolveN_after_put root root' rp content Hwrite Hw true _ _ _ Hres)
      as (n' & Hres' & Hget'). cbn [fst] in *.
    rewrite (put_get_same _ _ _ _ Hwrite) in Hget'. inversion Hget'; subst n'.
    unfold Fs.resolve. rewrite Hres'. reflexivity.
  - (* the file is new *)
    destruct (Fs.resolve root false p) as [x|] eqn:Hl; [discriminate|].
    unfold Fs.locate in Hwrite. destruct p as [|a p0]; [contradiction|].
    remember (a :: p0) as p eqn:Ep.
    destruct (Fs.resolve root true (Fs.dirname p)) as [[rd [f|es|t]]|] eqn:Hd;
      try discriminate.
    cbn [bind] in Hwrite.
    pose proof (resolveN_real _ _ _ _ _ Hd) as Hreal. cbn [fst snd] in Hreal.
    assert (Hnone : Fs.assoc (Fs.basename p) es = None).
    { destruct (Fs.assoc (Fs.basename p) es) as [child|] eqn:Hc; [|reflexivity].
      pose proof (resolveN_snoc root false rd es _ child Hc (or_introl eq_refl) _ _ Hd)
        as Hsnoc.
      rewrite <- (dirname_basename p Hp) in Hsnoc. unfold Fs.resolve in Hl.
      rewrite Hsnoc in Hl. discriminate. }
    assert (Hw : writable root (rd ++ [Fs.basename p])).
    { unfold writable. rewrite (get_snoc rd _ _ _ Hreal), Hnone. exact I. }
    destruct (resolve_dir_after_put root root' _ content Hwrite Hw _ _ _ Hd)
      as (es' & Hd').
    pose proof (resolveN_real _ _ _ _ _ Hd') as Hreal'. cbn [fst snd] in Hreal'.
    pose proof (put_get_same _ _ _ _ Hwrite) as Hnew.
    rewrite (get_snoc rd _ _ _ Hreal') in Hnew.
    pose proof (resolveN_snoc root' true rd es' _ _ Hnew (or_intror eq_refl) _ _ Hd')
      as Hsnoc.
    rewrite <- (dirname_basename p Hp) in Hsnoc.
    unfold Fs.resolve. rewrite Hsnoc. reflexivity.
Qed.

Lemma writeFileSync_read (root root' : Fs.node) (p : Fs.path) (content : string) :
  p <> [] ->
  Fs.writeFileSync root p content = Ok root' ->
  Fs.existsSync root' p = true /\ Fs.readFileSync root' p = Ok content.
Proof.
  intros Hp Hwrite. unfold Fs.existsSync, Fs.readFileSync.
  rewrite (writeFileSync_stat _ _ _ _ Hp Hwrite). split; reflexivity.
Qed.

End ReadAfterWrite.

(* ===================================================================== *)
(** * The check command: OCI entries, the report, the command line *)
(* ===================================================================== *)

Section CheckFacts.

(** The status of an entry whose latest digest could be queried. *)
Lemma checkSource_oci (w : Check.World) (source : Check.LockfileSourceEntry) :
  Check.type source = "oci" ->
  Check.checkSource w source
  = match Check.getLatestOciDigest w (Check.url source) with
    | Ok latestDigest =>
        if Js.truthy (Check.digest source)
           && negb (String.eqb latestDigest (Js.orElse (Check.digest source) "")) then
          {| Check.status := Check.outdated;
             Check.latestDigest := Some latestDigest; Check.message := None |}
        else
          {| Check.status := Check.up_to_date;
             Check.latestDigest := Some latestDigest; Check.message := None |}
    | Throw thrown =>
        {| Check.status := Check.error; Check.latestDigest := None;
           Check.message := Some (Check.messageOf thrown) |}
    end.
Proof. intros Htype. unfold Check.checkSource. rewrite Htype. reflexivity. Qed.

End CheckFacts.

(** X11.  For a lock entry of type oci the status is [outdated] exactly
    when a digest is recorded and the digest the check computes differs
    from it.  For a reference pinned by digest that digest is the one of
    the reference, and no request is sent: the verdict is the same whatever
    the registry would answer. *)
Theorem oci_entry_outdated_iff_recorded_digest_differs
  (w : Check.World) (source : Check.LockfileSourceEntry) :
  Check.type source = "oci" ->
  let latest := Check.getLatestOciDigest w (Check.url source) in
  (Check.status (Check.checkSource w source) = Check.outdated
   <-> exists recorded digest,
         Check.digest source = Some recorded /\ recorded <> ""
         /\ latest = Ok digest /\ digest <> recorded)
  /\ (forall parsed,
        Oci.parseOciReference (Check.url source) = Ok parsed ->
        Oci.referenceType parsed = Oci.digest ->
        latest = Ok (Oci.reference parsed)
        /\ forall w' : Check.World, Check.checkSource w' source = Check.checkSource w source).
Proof.
  intros Htype latest. split.
  - rewrite (checkSource_oci w source Htype). fold latest. unfold Js.truthy.
    destruct latest as [digest|e]; cbn [Check.status].
    + destruct (Check.digest source) as [r|]; cbn [Js.orElse andb negb].
      * destruct (String.eqb_spec r "") as [->|Hr]; cbn [negb andb Check.status].
        -- split; [discriminate|]. intros (r & h & Hr & Hne & _). congruence.
        -- destruct (String.eqb_spec digest r) as [->|Hh]; cbn [negb Check.status].
           ++ split; [discriminate|]. intros (r' & h & Hr' & _ & Hh & Hne). congruence.
           ++ split; [|reflexivity]. intros _. exists r, digest. auto.
      * split; [discriminate|]. intros (r & h & Hr & _). discriminate.
    + split; [discriminate|]. intros (r & h & _ & _ & H & _). discriminate.
  - intros parsed Hparse Hdigest.
    assert (Hlatest : forall w0, Check.getLatestOciDigest w0 (Check.url source)
                                 = Ok (Oci.reference parsed)).
    { intros w0. unfold Check.getLatestOciDigest. rewrite Hparse. cbn [bind].
      rewrite Hdigest. reflexivity. }
    split; [apply Hlatest|].
    intros w'. rewrite !(checkSource_oci _ source Htype), !Hlatest. reflexivity.
Qed.

Lemma oci_entry_outdated_iff_recorded_digest_differs_witness :
  let source := ReportSpec.ociEntry "oci://ghcr.io/acme/demo@sha256:77" "sha256:66"
                  ["demo"] ["codex"] "copy" in
  (Check.status (Check.checkSource CheckSpec.movedRemote source) = Check.outdated
   <-> exists recorded digest,
         Check.digest source = Some recorded /\ recorded <> ""
         /\ Check.getLatestOciDigest CheckSpec.movedRemote (Check.url source) = Ok digest
         /\ digest <> recorded)
  /\ (forall parsed,
        Oci.parseOciReference (Check.url source) = Ok parsed ->
        Oci.referenceType parsed = Oci.digest ->
        Check.getLatestOciDigest CheckSpec.movedRemote (Check.url source)
        = Ok (Oci.reference parsed)
        /\ forall w' : Check.World,
             Check.checkSource w' source = Check.checkSource CheckSpec.movedRemote source).
Proof.
  exact (@oci_entry_outdated_iff_recorded_digest_differs CheckSpec.movedRemote
           (ReportSpec.ociEntry "oci://ghcr.io/acme/demo@sha256:77" "sha256:66"
              ["demo"] ["codex"] "copy")
           eq_refl).
Defined.

(** X12.  A source that [resolveOciSource] has just resolved is up to date
    for [check]: with the same registry answering and the same hash, an
    entry of type oci that records the source and the resolved digest gets
    the status [up-to-date] with that digest.  Two conditions: the resolver
    was not told to use plain http for a registry that is not local
    ([check] has no such option), and the resolved digest is not empty (an
    empty [docker-content-digest] header is kept by the resolver and
    skipped by [check]). *)
Theorem freshly_resolved_oci_source_is_up_to_date
  (w : Oci.World) (cw : Check.World) (source : string)
  (options : Oci.ResolveOciSourceOptions)
  (resolved : Oci.ResolvedOciSource) (log : list event)
  (entry : Check.LockfileSourceEntry) :
  Check.fetch cw = Oci.fetch w ->
  Check.sha256hex cw = Oci.sha256hex w ->
  Oci.resolveOciSource w source options [] = (Ok resolved, log) ->
  (Oci.insecureHttp options = Some true ->
   Oci.isLocalRegistry (Oci.registry (Oci.parsed resolved)) = true) ->
  Oci.resolvedDigest resolved <> "" ->
  Check.type entry = "oci" ->
  Check.url entry = source ->
  Check.digest entry = Some (Oci.resolvedDigest resolved) ->
  Check.checkSource cw entry
  = {| Check.status := Check.up_to_date;
       Check.latestDigest := Some (Oci.resolvedDigest resolved);
       Check.message := None |}.
Proof.
  intros Hfetch Hsha Hrun Hscheme Hdigest Htype Hurl Hrecorded.
  destruct (Oci.parseOciReference source) as [parsed|e] eqn:Hparse.
  2: { destruct (resolveOciSource_unparsed w source options e _ _ Hparse Hrun) as [H _].
       discriminate H. }
  destruct (resolveOciSource_stages w source options parsed Hparse _ _ Hrun)
    as [[_ [e H]]|(response & members & layerDigest & Hmanifest & Hok & _ & _ & _ & Hstage)];
    [discriminate H|].
  destruct Hstage as [[_ [e H]]|(blob & _ & _ & Hstage)]; [discriminate H|].
  destruct Hstage as [[_ [e H]]|(out & _ & _ & _ & Hstage)]; [discriminate H|].
  destruct Hstage as [[e H]|(only & _ & H)]; [discriminate H|].
  inversion H; subst resolved. clear H.
  cbn [Oci.parsed Oci.resolvedDigest] in *.
  assert (Hlatest : Check.getLatestOciDigest cw source
                    = Ok match Oci.referenceType parsed with
                         | Oci.tag =>
                             Js.orElse (Oci.dockerContentDigest response)
                               (Oci.digestManifest w (Oci.text response))
                         | Oci.digest => Oci.reference parsed
                         end).
  { unfold Check.getLatestOciDigest. rewrite Hparse. cbn [bind].
    destruct (Oci.referenceType parsed); [|reflexivity].
    rewrite Hfetch.
    assert (Hsame :
      (if Js.startsWith (Oci.registry parsed) "localhost"
          || Js.startsWith (Oci.registry parsed) "127.0.0.1"
       then "http" else "https")
      = (if Js.orElse (Oci.insecureHttp options) false
            || Oci.isLocalRegistry (Oci.registry parsed)
         then "http" else "https")).
    { fold (Oci.isLocalRegistry (Oci.registry parsed)).
      destruct (Oci.isLocalRegistry (Oci.registry parsed)) eqn:Hlocal.
      - rewrite orb_true_r. reflexivity.
      - destruct (Oci.insecureHttp options) as [[]|]; cbn [Js.orElse orb];
          try reflexivity.
        specialize (Hscheme eq_refl). discriminate Hscheme. }
    rewrite Hsame, Hmanifest, Hok. cbn [negb].
    unfold Js.truthy. destruct (Oci.dockerContentDigest response) as [header|].
    - cbn [Js.orElse] in *. destruct (String.eqb_spec header "") as [->|_];
        [contradiction|reflexivity].
    - cbn [Js.orElse]. unfold Oci.digestManifest. rewrite Hsha. reflexivity. }
  rewrite (checkSource_oci cw entry Htype), Hurl, Hlatest, Hrecorded.
  unfold Js.truthy. cbn [Js.orElse].
  destruct (String.eqb_spec
              match Oci.referenceType parsed with
              | Oci.tag => Js.orElse (Oci.dockerContentDigest response)
                             (Oci.digestManifest w (Oci.text response))
              | Oci.digest => Oci.reference parsed
              end "") as [Hempty|_]; [contradiction|].
  rewrite String.eqb_refl. reflexivity.
Qed.

Lemma freshly_resolved_oci_source_is_up_to_date_witness :
  Check.checkSource (ReportSpec.checkWorldOf skillRegistryWorld)
    (ReportSpec.ociEntry "oci://ghcr.io/acme/demo:1.0" "sha256:feed"
       ["demo"] ["codex"] "symlink")
  = {| Check.status := Check.up_to_date;
       Check.latestDigest := Some "sha256:feed";
       Check.message := None |}.
Proof.
  apply (@freshly_resolved_oci_source_is_up_to_date skillRegistryWorld
           (ReportSpec.checkWorldOf skillRegistryWorld)
           "oci://ghcr.io/acme/demo:1.0" noOciOptions
           {| Oci.parsed := {| Oci.registry := "ghcr.io"; Oci.repository := "acme/demo";
                               Oci.referenceType := Oci.tag; Oci.reference := "1.0" |};
              Oci.resolvedDigest := "sha256:feed";
              Oci.extractPath := ["tmp"; "skillet-oci-x1"; "extract"];
              Oci.contentPath := ["tmp"; "skillet-oci-x1"; "extract"; "demo"] |}
           (snd (Oci.resolveOciSource skillRegistryWorld "oci://ghcr.io/acme/demo:1.0"
                   noOciOptions []))).
  - reflexivity.
  - reflexivity.
  - reflexivity.
  - discriminate.
  - discriminate.
  - reflexivity.
  - reflexivity.
  - reflexivity.
Defined.

(** X13.  The report of [collectCheckResults] has one line for every skill
    of every entry, and no other: each line carries its entry, the recorded
    digest and the status, latest digest and message [checkSource] gives
    for that entry; an entry without skills adds nothing.  For a
    consistent [localeCompare] the lines are in the order of the skill
    names. *)
Theorem check_report_has_one_line_per_recorded_skill
  (w : Check.World) (sources : list Check.LockfileSourceEntry) :
  let results := Check.collectCheckResults w sources in
  (forall result,
      In result results
      <-> exists source,
            In source sources /\ In (Check.skill result) (Check.skills source)
            /\ result = ReportSpec.reportOf w source (Check.skill result))
  /\ List.length results = ReportSpec.recordedSkills sources
  /\ (LockSpec.consistent (Check.localeCompare w) ->
      StronglySorted
        (fun a b => (Check.localeCompare w (Check.skill a) (Check.skill b) <= 0)%Z)
        results).
Proof.
  intros results. subst results. unfold Check.collectCheckResults.
  set (lines := flat_map _ sources).
  assert (Hlines : lines
    = flat_map (fun source => map (ReportSpec.reportOf w source) (Check.skills source))
               sources) by reflexivity.
  split; [|split].
  - intros result. rewrite sortBy_In, Hlines, in_flat_map. split.
    + intros (source & Hsource & Hin). apply in_map_iff in Hin as (skill & <- & Hskill).
      exists source. cbn [ReportSpec.reportOf Check.skill]. auto.
    + intros (source & Hsource & Hskill & ->). exists source. split; [exact Hsource|].
      apply in_map_iff. exists (Check.skill result).
      cbn [ReportSpec.reportOf Check.skill]. auto.
  - rewrite <- (Permutation_length (sortBy_perm _ lines)), Hlines.
    unfold ReportSpec.recordedSkills. clear.
    induction sources as [|source sources IH]; [reflexivity|].
    cbn [flat_map map list_sum]. rewrite length_app, length_map, IH. reflexivity.
  - intros Hconsistent.
    apply (sortBy_sorted
             (fun left right => Check.localeCompare w (Check.skill left) (Check.skill right))).
    + intros a b. apply (compare_total _ Hconsistent).
    + intros a b c. apply Hconsistent.
Qed.

(** X14.  The command line of [check]: the arguments are accepted exactly
    when every one that starts with a hyphen is [-g] or [--global], and the
    scope is global exactly when one of the two occurs; anything else that
    does not start with a hyphen is ignored.  A refusal names the first
    argument that starts with a hyphen and is neither. *)
Theorem check_arguments_accept_only_the_global_flag (args : list string) :
  (forall global,
      CheckCommand.parseCheckArgs args = Ok global
      <-> (forall token, In token args ->
           Js.startsWith token "-" = true -> ReportSpec.isGlobalFlag token = true)
          /\ global = existsb ReportSpec.isGlobalFlag args)
  /\ (forall thrown,
        CheckCommand.parseCheckArgs args = Throw thrown
        <-> exists before token after,
              args = before ++ token :: after
              /\ Js.startsWith token "-" = true /\ ReportSpec.isGlobalFlag token = false
              /\ (forall earlier, In earlier before ->
                  Js.startsWith earlier "-" = true -> ReportSpec.isGlobalFlag earlier = true)
              /\ thrown = GenericError ("Unknown option: " ++ token)).
Proof.
  unfold CheckCommand.parseCheckArgs.
  assert (Hloop : forall l seen,
    (forall global,
        CheckCommand.parseLoop l seen = Ok global
        <-> (forall token, In token l ->
             Js.startsWith token "-" = true -> ReportSpec.isGlobalFlag token = true)
            /\ global = seen || existsb ReportSpec.isGlobalFlag l)
    /\ (forall thrown,
          CheckCommand.parseLoop l seen = Throw thrown
          <-> exists before token after,
                l = before ++ token :: after
                /\ Js.startsWith token "-" = true /\ ReportSpec.isGlobalFlag token = false
                /\ (forall earlier, In earlier before ->
                    Js.startsWith earlier "-" = true
                    -> ReportSpec.isGlobalFlag earlier = true)
                /\ thrown = GenericError ("Unknown option: " ++ token))).
  { induction l as [|token rest IH]; intros seen.
    - cbn [CheckCommand.parseLoop existsb]. rewrite orb_false_r. split.
      + intros global. split.
        * intros H; inversion H. split; [intros ? []|reflexivity].
        * intros [_ ->]. reflexivity.
      + intros thrown. split; [discriminate|].
        intros (before & token & after & H & _). destruct before; discriminate.
    - cbn [CheckCommand.parseLoop existsb].
      change (String.eqb token "-g" || String.eqb token "--global")
        with (ReportSpec.isGlobalFlag token).
      destruct (ReportSpec.isGlobalFlag token) eqn:Hflag.
      + destruct (IH true) as [IHok IHthrow]. split.
        * intros global. rewrite IHok. rewrite orb_true_r. cbn [orb]. split.
          -- intros [Hall ->]. split; [|reflexivity].
             intros t [<-|Hin] Ht; [exact Hflag|exact (Hall t Hin Ht)].
          -- intros [Hall ->]. split; [|reflexivity].
             intros t Hin. apply Hall. right. exact Hin.
        * intros thrown. rewrite IHthrow. split.
          -- intros (before & t & after & -> & H1 & H2 & H3 & H4).
             exists (token :: before), t, after. repeat split; try assumption.
             intros earlier [<-|Hin] He; [exact Hflag|exact (H3 earlier Hin He)].
          -- intros (before & t & after & Heq & H1 & H2 & H3 & H4).
             destruct before as [|b before]; cbn [app] in Heq; inversion Heq; subst.
             ++ congruence.
             ++ exists before, t, after. repeat split; try assumption.
                intros earlier Hin. apply H3. right. exact Hin.
      + destruct (Js.startsWith token "-") eqn:Hdash.
        * split.
          -- intros global. split; [discriminate|].
             intros [Hall _]. specialize (Hall token (or_introl eq_refl) Hdash).
             congruence.
          -- intros thrown. split.
             ++ intros H; inversion H. exists [], token, rest.
                repeat split; try assumption. intros ? [].
             ++ intros (before & t & after & Heq & H1 & H2 & H3 & H4).
                destruct before as [|b before]; cbn [app] in Heq; inversion Heq; subst.
                ** reflexivity.
                ** specialize (H3 b (or_introl eq_refl) Hdash). congruence.
        * destruct (IH seen) as [IHok IHthrow]. cbn [orb]. split.
          -- intros global. rewrite IHok. split.
             ++ intros [Hall ->]. split; [|reflexivity].
                intros t [<-|Hin] Ht; [congruence|exact (Hall t Hin Ht)].
             ++ intros [Hall ->]. split; [|reflexivity].
                intros t Hin. apply Hall. right. exact Hin.
          -- intros thrown. rewrite IHthrow. split.
             ++ intros (before & t & after & -> & H1 & H2 & H3 & H4).
                exists (token :: before), t, after. repeat split; try assumption.
                intros earlier [<-|Hin] He; [congruence|exact (H3 earlier Hin He)].
             ++ intros (before & t & after & Heq & H1 & H2 & H3 & H4).
                destruct before as [|b before]; cbn [app] in Heq; inversion Heq; subst.
                ** congruence.
                ** exists before, t, after. repeat split; try assumption.
                   intros earlier Hin. apply H3. right. exact Hin. }
  exact (Hloop args false).
Qed.

(* ===================================================================== *)
(** * The lockfile: what the scan keeps, and who reads the result *)
(* ===================================================================== *)

Section MapFacts.
Context {V : Type}.

Lemma mapGet_none (key : string) (m : list (string * V)) :
  Lockfile.mapGet key m = None -> ~ In key (map fst m).
Proof.
  induction m as [|[k v] m IH]; cbn [Lockfile.mapGet map fst In]; [tauto|].
  destruct (String.eqb_spec k key) as [->|Hne]; [discriminate|].
  intros H [Hk|Hin]; [contradiction|exact (IH H Hin)].
Qed.

Lemma mapSet_new (key : string) (v : V) (m : list (string * V)) :
  Lockfile.mapGet key m = None -> Lockfile.mapSet key v m = m ++ [(key, v)].
Proof.
  induction m as [|[k v'] m IH]; cbn [Lockfile.mapGet Lockfile.mapSet app]; [reflexivity|].
  destruct (String.eqb k key); [discriminate|]. intros H. rewrite (IH H). reflexivity.
Qed.

Lemma mapSet_old (key : string) (v old : V) (m : list (string * V)) :
  Lockfile.mapGet key m = Some old ->
  exists before after,
    m = before ++ (key, old) :: after
    /\ Lockfile.mapSet key v m = before ++ (key, v) :: after.
Proof.
  induction m as [|[k v'] m IH]; cbn [Lockfile.mapGet Lockfile.mapSet]; [discriminate|].
  destruct (String.eqb_spec k key) as [->|Hne].
  - intros H; inversion H; subst. exists [], m. split; reflexivity.
  - intros H. destruct (IH H) as (before & after & -> & ->).
    exists ((k, v') :: before), after. split; reflexivity.
Qed.

End MapFacts.

Section SetFacts.

Lemma existsb_eqb_In (x : string) (s : list string) :
  existsb (String.eqb x) s = true <-> In x s.
Proof.
  rewrite existsb_exists. split.
  - intros (y & Hin & Heq). apply String.eqb_eq in Heq. subst. exact Hin.
  - intros Hin. exists x. split; [exact Hin|apply String.eqb_refl].
Qed.

Lemma setAdd_In (x y : string) (s : list string) :
  In y (Lockfile.setAdd x s) <-> y = x \/ In y s.
Proof.
  unfold Lockfile.setAdd. destruct (existsb (String.eqb x) s) eqn:Hx.
  - apply existsb_eqb_In in Hx. split; [tauto|]. intros [->|H]; assumption.
  - rewrite in_app_iff. cbn [In]. intuition congruence.
Qed.

Lemma setAdd_NoDup (x : string) (s : list string) :
  NoDup s -> NoDup (Lockfile.setAdd x s).
Proof.
  intros Hs. unfold Lockfile.setAdd. destruct (existsb (String.eqb x) s) eqn:Hx; [exact Hs|].
  assert (Hnot : ~ In x s).
  { intros Hin. apply existsb_eqb_In in Hin. congruence. }
  clear Hx. induction Hs as [|y s Hy Hs IH]; cbn [app].
  - constructor; [intros []|constructor].
  - constructor.
    + rewrite in_app_iff. cbn [In]. intros [H|[H|[]]]; [contradiction|].
      apply Hnot. left. symmetry. exact H.
    + apply IH. intros H. apply Hnot. right. exact H.
Qed.

Lemma setAdd_nonempty (x : string) (s : list string) : Lockfile.setAdd x s <> [].
Proof.
  unfold Lockfile.setAdd. destruct (existsb (String.eqb x) s) eqn:Hx.
  - destruct s; [discriminate|discriminate].
  - destruct s; discriminate.
Qed.

End SetFacts.

Section ScanFacts.
Import LockScan.
Variable w : Lockfile.World.
Variable d : Fs.node.

(** What one installed skill does to the groups. *)
Local Abbreviation recorded source agent skillName groupedSources :=
  (Lockfile.mapSet (Lockfile.groupingKey source)
     {| Lockfile.source :=
          Lockfile.source
            (Js.orElse (Lockfile.mapGet (Lockfile.groupingKey source) groupedSources)
               {| Lockfile.source := source; Lockfile.groupSkills := [];
                  Lockfile.groupAgents := [] |});
        Lockfile.groupSkills :=
          Lockfile.setAdd skillName
            (Lockfile.groupSkills
               (Js.orElse (Lockfile.mapGet (Lockfile.groupingKey source) groupedSources)
                  {| Lockfile.source := source; Lockfile.groupSkills := [];
                     Lockfile.groupAgents := [] |}));
        Lockfile.groupAgents :=
          Lockfile.setAdd agent
            (Lockfile.groupAgents
               (Js.orElse (Lockfile.mapGet (Lockfile.groupingKey source) groupedSources)
                  {| Lockfile.source := source; Lockfile.groupSkills := [];
                     Lockfile.groupAgents := [] |})) |}
     groupedSources).

Lemma recorded_shape (source : Lockfile.SourceIdentity) (agent skillName : string)
      (groups : Lockfile.Groups) :
  wellKept groups ->
  (~ In (Lockfile.groupingKey source) (map fst groups)
   /\ recorded source agent skillName groups
      = groups ++ [(Lockfile.groupingKey source,
                    {| Lockfile.source := source; Lockfile.groupSkills := [skillName];
                       Lockfile.groupAgents := [agent] |})])
  \/ (exists before after old,
        groups = before ++ (Lockfile.groupingKey source, old) :: after
        /\ recorded source agent skillName groups
           = before ++ (Lockfile.groupingKey source,
                        {| Lockfile.source := Lockfile.source old;
                           Lockfile.groupSkills :=
                             Lockfile.setAdd skillName (Lockfile.groupSkills old);
                           Lockfile.groupAgents :=
                             Lockfile.setAdd agent (Lockfile.groupAgents old) |}) :: after).
Proof.
  intros _. destruct (Lockfile.mapGet (Lockfile.groupingKey source) groups) as [old|] eqn:Hget.
  - right. destruct (mapSet_old (Lockfile.groupingKey source)
                       {| Lockfile.source := Lockfile.source old;
                          Lockfile.groupSkills :=
                            Lockfile.setAdd skillName (Lockfile.groupSkills old);
                          Lockfile.groupAgents :=
                            Lockfile.setAdd agent (Lockfile.groupAgents old) |}
                       old groups Hget) as (before & after & Hgroups & Hset).
    exists before, after, old. split; [exact Hgroups|]. cbn [Js.orElse]. exact Hset.
  - left. split; [exact (mapGet_none _ _ Hget)|]. cbn [Js.orElse].
    rewrite (mapSet_new _ _ _ Hget). reflexivity.
Qed.

Lemma recorded_wellKept (source : Lockfile.SourceIdentity) (agent skillName : string)
      (groups : Lockfile.Groups) :
  knownAgent agent -> wellKept groups -> wellKept (recorded source agent skillName groups).
Proof.
  intros Hagent Hkept.
  destruct (recorded_shape source agent skillName groups Hkept)
    as [[Hfresh ->]|(before & after & old & Hgroups & ->)];
    destruct Hkept as [Hkeys Hall].
  - split.
    + rewrite map_app. cbn [map fst].
      apply NoDup_app_remove_l with (l := []). cbn [app].
      apply (Permutation_NoDup (l := Lockfile.groupingKey source :: map fst groups)).
      * apply Permutation_cons_append.
      * constructor; assumption.
    + apply Forall_app. split; [exact Hall|]. constructor; [|constructor].
      cbn [fst snd Lockfile.source Lockfile.groupSkills Lockfile.groupAgents].
      repeat split; try discriminate.
      * constructor; [intros []|constructor].
      * constructor; [intros []|constructor].
      * constructor; [exact Hagent|constructor].
  - subst groups. split.
    + rewrite map_app in *. cbn [map fst] in *. exact Hkeys.
    + apply Forall_app in Hall as [Hbefore Hrest].
      inversion Hrest as [|? ? Hold Hafter]; subst.
      apply Forall_app. split; [exact Hbefore|]. constructor; [|exact Hafter].
      cbn [fst snd Lockfile.source Lockfile.groupSkills Lockfile.groupAgents] in *.
      destruct Hold as (Hkey & _ & _ & Hskills & Hagents & Hknown).
      split; [exact Hkey|]. split; [apply setAdd_nonempty|].
      split; [apply setAdd_nonempty|].
      split; [apply setAdd_NoDup; exact Hskills|].
      split; [apply setAdd_NoDup; exact Hagents|].
      apply Forall_forall. intros a Ha. apply setAdd_In in Ha as [->|Ha]; [exact Hagent|].
      rewrite Forall_forall in Hknown. exact (Hknown a Ha).
Qed.

Lemma recorded_accounts (source : Lockfile.SourceIdentity) (agent skillName : string)
      (groups : Lockfile.Groups) (seen : list (string * string)) :
  wellKept groups -> accounts groups seen ->
  accounts (recorded source agent skillName groups) (seen ++ [(agent, skillName)]).
Proof.
  intros Hkept (Hseen & Hskills & Hagents).
  destruct (recorded_shape source agent skillName groups Hkept)
    as [[Hfresh ->]|(before & after & old & Hgroups & ->)]; unfold accounts.
  - rewrite map_app. cbn [map snd]. split; [|split].
    + intros a n Hin. apply in_app_iff in Hin as [Hin|[Hin|[]]].
      * destruct (Hseen a n Hin) as (g & Hg & Hn & Ha). exists g.
        rewrite in_app_iff. auto.
      * inversion Hin; subst. eexists. rewrite in_app_iff. split; [right; left; reflexivity|].
        cbn. auto.
    + intros g n Hg Hn. apply in_app_iff in Hg as [Hg|[<-|[]]].
      * destruct (Hskills g n Hg Hn) as (a & Ha & Hin). exists a. rewrite in_app_iff. auto.
      * cbn in Hn. destruct Hn as [<-|[]]. exists agent. rewrite in_app_iff. cbn. auto.
    + intros g a Hg Ha. apply in_app_iff in Hg as [Hg|[<-|[]]].
      * destruct (Hagents g a Hg Ha) as (n & Hn & Hin). exists n. rewrite in_app_iff. auto.
      * cbn in Ha. destruct Ha as [<-|[]]. exists skillName. rewrite in_app_iff. cbn. auto.
  - subst groups. rewrite map_app in *. cbn [map snd] in *.
    set (new := {| Lockfile.source := Lockfile.source old;
                   Lockfile.groupSkills :=
                     Lockfile.setAdd skillName (Lockfile.groupSkills old);
                   Lockfile.groupAgents :=
                     Lockfile.setAdd agent (Lockfile.groupAgents old) |}).
    assert (Hnew : forall g, In g (map snd before ++ old :: map snd after) ->
                   exists g', In g' (map snd before ++ new :: map snd after)
                              /\ (forall n, In n (Lockfile.groupSkills g)
                                            -> In n (Lockfile.groupSkills g'))
                              /\ (forall a, In a (Lockfile.groupAgents g)
                                            -> In a (Lockfile.groupAgents g'))).
    { intros g Hg. apply in_app_iff in Hg as [Hg|[<-|Hg]].
      - exists g. rewrite in_app_iff. auto.
      - exists new. rewrite in_app_iff. cbn [In]. split; [auto|].
        subst new. cbn [Lockfile.groupSkills Lockfile.groupAgents].
        split; intros x Hx; apply setAdd_In; auto.
      - exists g. rewrite in_app_iff. cbn [In]. auto. }
    split; [|split].
    + intros a n Hin. apply in_app_iff in Hin as [Hin|[Hin|[]]].
      * destruct (Hseen a n Hin) as (g & Hg & Hn & Ha).
        destruct (Hnew g Hg) as (g' & Hg' & Hn' & Ha'). exists g'. auto.
      * inversion Hin; subst. exists new. rewrite in_app_iff. cbn [In].
        split; [auto|]. subst new. cbn [Lockfile.groupSkills Lockfile.groupAgents].
        split; apply setAdd_In; auto.
    + intros g n Hg Hn. apply in_app_iff in Hg as [Hg|[<-|Hg]].
      * destruct (Hskills g n) as (a & Ha & Hin); [rewrite in_app_iff; auto|exact Hn|].
        exists a. rewrite in_app_iff. auto.
      * subst new. cbn [Lockfile.groupSkills Lockfile.groupAgents] in *.
        apply setAdd_In in Hn as [->|Hn].
        -- exists agent. rewrite setAdd_In, in_app_iff. cbn [In]. auto.
        -- destruct (Hskills old n) as (a & Ha & Hin);
             [rewrite in_app_iff; cbn [In]; auto|exact Hn|].
           exists a. rewrite setAdd_In, in_app_iff. auto.
      * destruct (Hskills g n) as (a & Ha & Hin);
          [rewrite in_app_iff; cbn [In]; auto|exact Hn|].
        exists a. rewrite in_app_iff. auto.
    + intros g a Hg Ha. apply in_app_iff in Hg as [Hg|[<-|Hg]].
      * destruct (Hagents g a) as (n & Hn & Hin); [rewrite in_app_iff; auto|exact Ha|].
        exists n. rewrite in_app_iff. auto.
      * subst new. cbn [Lockfile.groupSkills Lockfile.groupAgents] in *.
        apply setAdd_In in Ha as [->|Ha].
        -- exists skillName. rewrite setAdd_In, in_app_iff. cbn [In]. auto.
        -- destruct (Hagents old a) as (n & Hn & Hin);
             [rewrite in_app_iff; cbn [In]; auto|exact Ha|].
           exists n. rewrite setAdd_In, in_app_iff. auto.
      * destruct (Hagents g a) as (n & Hn & Hin);
          [rewrite in_app_iff; cbn [In]; auto|exact Ha|].
        exists n. rewrite in_app_iff. auto.
Qed.

(** One candidate directory: nothing changes when it holds no valid skill,
    and its skill is recorded otherwise. *)
Lemma scanSkillDirectory_cases (agent : string) (groups groups' : Lockfile.Groups)
      (skillDir : Fs.path) :
  Lockfile.scanSkillDirectory w d agent groups skillDir = Ok groups' ->
  (skillNameAt w d skillDir = None /\ groups' = groups)
  \/ (exists skillName source,
        skillNameAt w d skillDir = Some skillName
        /\ groups' = recorded source agent skillName groups).
Proof.
  unfold Lockfile.scanSkillDirectory, skillNameAt.
  destruct (Lockfile.isFile d (Fs.join skillDir "SKILL.md")); cbn [negb].
  2: { intros H; inversion H. left. split; reflexivity. }
  destruct (Fs.readFileSync d (Fs.join skillDir "SKILL.md")) as [text|e]; cbn [bind].
  2: { intros H; inversion H. left. split; reflexivity. }
  destruct (Skill.parseSkillMarkdown _ text _) as [skill|e]; cbn [bind].
  2: { intros H; inversion H. left. split; reflexivity. }
  destruct (match Lockfile.mInstallMethod _ with Some m => Ok m | None => _ end)
    as [installMethod|e]; cbn [bind]; [|discriminate].
  intros H; inversion H. right. do 2 eexists. split; reflexivity.
Qed.

Lemma scanSkillDirectories_kept (agent : string) (skillDirs : list Fs.path) :
  knownAgent agent ->
  forall (groups groups' : Lockfile.Groups) (seen : list (string * string)),
    Lockfile.scanSkillDirectories w d agent groups skillDirs = Ok groups' ->
    wellKept groups -> accounts groups seen ->
    exists more,
      wellKept groups' /\ accounts groups' (seen ++ more)
      /\ forall a n, In (a, n) more
                     <-> a = agent
                         /\ exists skillDir, In skillDir skillDirs
                                             /\ skillNameAt w d skillDir = Some n.
Proof.
  intros Hagent. induction skillDirs as [|skillDir rest IH]; intros groups groups' seen.
  - cbn [Lockfile.scanSkillDirectories]. intros H Hkept Hacc; inversion H; subst.
    exists []. rewrite app_nil_r. split; [exact Hkept|]. split; [exact Hacc|].
    intros a n. split; [intros []|]. intros (_ & dir & [] & _).
  - cbn [Lockfile.scanSkillDirectories].
    destruct (Lockfile.scanSkillDirectory w d agent groups skillDir) as [groups1|e] eqn:Hone;
      cbn [bind]; [|discriminate].
    intros Hrest Hkept Hacc.
    destruct (scanSkillDirectory_cases _ _ _ _ Hone)
      as [[Hnone ->]|(skillName & source & Hsome & ->)].
    + destruct (IH _ _ seen Hrest Hkept Hacc) as (more & Hkept' & Hacc' & Hmore).
      exists more. split; [exact Hkept'|]. split; [exact Hacc'|].
      intros a n. rewrite Hmore. split.
      * intros (-> & dir & Hin & Hname). split; [reflexivity|]. exists dir. cbn [In]; auto.
      * intros (-> & dir & [<-|Hin] & Hname); [congruence|].
        split; [reflexivity|]. exists dir. auto.
    + destruct (IH _ _ (seen ++ [(agent, skillName)]) Hrest
                  (recorded_wellKept source agent skillName groups Hagent Hkept)
                  (recorded_accounts source agent skillName groups seen Hkept Hacc))
        as (more & Hkept' & Hacc' & Hmore).
      exists ((agent, skillName) :: more). split; [exact Hkept'|].
      split; [rewrite <- app_assoc in Hacc'; exact Hacc'|].
      intros a n. cbn [In]. rewrite Hmore. split.
      * intros [H|(-> & dir & Hin & Hname)].
        -- inversion H; subst. split; [reflexivity|]. exists skillDir. auto.
        -- split; [reflexivity|]. exists dir. auto.
      * intros (-> & dir & [<-|Hin] & Hname).
        -- left. congruence.
        -- right. split; [reflexivity|]. exists dir. auto.
Qed.

Lemma scanAgents_kept (scanRoot : Fs.path) (configs : list (string * Fs.path)) :
  (forall agent relativePath, In (agent, relativePath) configs -> knownAgent agent) ->
  NoDup (map fst configs) ->
  forall (groups groups' : Lockfile.Groups) (seen : list (string * string)),
    Lockfile.scanAgents w d scanRoot groups configs = Ok groups' ->
    wellKept groups -> accounts groups seen ->
    exists more,
      wellKept groups' /\ accounts groups' (seen ++ more)
      /\ forall a n,
           In (a, n) more
           <-> exists relativePath skillDirs skillDir,
                 In (a, relativePath) configs
                 /\ Lockfile.isDirectory d (scanRoot ++ relativePath) = true
                 /\ Lockfile.listSkillDirectories w d (scanRoot ++ relativePath)
                    = Ok skillDirs
                 /\ In skillDir skillDirs
                 /\ skillNameAt w d skillDir = Some n.
Proof.
  induction configs as [|[agent relativePath] rest IH]; intros Hknown Hdistinct
    groups groups' seen.
  - cbn [Lockfile.scanAgents]. intros H Hkept Hacc; inversion H; subst.
    exists []. rewrite app_nil_r. split; [exact Hkept|]. split; [exact Hacc|].
    intros a n. split; [intros []|]. intros (? & ? & ? & [] & _).
  - cbn [Lockfile.scanAgents].
    assert (Hknown' : forall a r, In (a, r) rest -> knownAgent a).
    { intros a r Hin. apply (Hknown a r). right. exact Hin. }
    cbn [map fst] in Hdistinct. inversion Hdistinct as [|? ? Hfresh Hdistinct']; subst.
    destruct (Lockfile.isDirectory d (scanRoot ++ relativePath)) eqn:Hdir; cbn [negb].
    + destruct (Lockfile.listSkillDirectories w d (scanRoot ++ relativePath))
        as [skillDirs|e] eqn:Hlist; cbn [bind]; [|discriminate].
      destruct (Lockfile.scanSkillDirectories w d agent groups skillDirs)
        as [groups1|e] eqn:Hscan; cbn [bind]; [|discriminate].
      intros Hrest Hkept Hacc.
      destruct (scanSkillDirectories_kept agent skillDirs
                  (Hknown agent relativePath (or_introl eq_refl))
                  _ _ seen Hscan Hkept Hacc) as (more1 & Hkept1 & Hacc1 & Hmore1).
      destruct (IH Hknown' Hdistinct' _ _ _ Hrest Hkept1 Hacc1)
        as (more2 & Hkept2 & Hacc2 & Hmore2).
      exists (more1 ++ more2). split; [exact Hkept2|].
      split; [rewrite app_assoc; exact Hacc2|].
      intros a n. rewrite in_app_iff, Hmore1, Hmore2. split.
      * intros [(-> & dir & Hin & Hname)|(rel & dirs & dir & Hin & H)].
        -- exists relativePath, skillDirs, dir. cbn [In]. auto.
        -- exists rel, dirs, dir. cbn [In]. tauto.
      * intros (rel & dirs & dir & [Heq|Hin] & Hd & Hl & Hin' & Hname).
        -- inversion Heq; subst. left. split; [reflexivity|].
           rewrite Hlist in Hl. inversion Hl; subst. exists dir. auto.
        -- right. exists rel, dirs, dir. auto.
    + intros Hrest Hkept Hacc.
      destruct (IH Hknown' Hdistinct' _ _ _ Hrest Hkept Hacc)
        as (more & Hkept' & Hacc' & Hmore).
      exists more. split; [exact Hkept'|]. split; [exact Hacc'|].
      intros a n. rewrite Hmore. split.
      * intros (rel & dirs & dir & Hin & H). exists rel, dirs, dir. cbn [In]. tauto.
      * intros (rel & dirs & dir & [Heq|Hin] & Hd & H).
        -- inversion Heq; subst. congruence.
        -- exists rel, dirs, dir. auto.
Qed.

(** The scan of [generateLockfile], from no groups. *)
Lemma scan_kept (scanRoot : Fs.path) (groups : Lockfile.Groups) :
  Lockfile.scanAgents w d scanRoot [] Lockfile.AGENT_SKILL_DIRS = Ok groups ->
  wellKept groups
  /\ exists seen,
       accounts groups seen
       /\ forall a n, In (a, n) seen <-> installedFor w d scanRoot a n.
Proof.
  intros Hscan.
  destruct (scanAgents_kept scanRoot Lockfile.AGENT_SKILL_DIRS) with
    (groups := @nil (string * Lockfile.Group)) (groups' := groups)
    (seen := @nil (string * string))
    as (more & Hkept & Hacc & Hmore).
  - intros agent rel Hin. unfold knownAgent. apply in_map_iff. exists (agent, rel). auto.
  - cbn. repeat constructor; cbn; intuition discriminate.
  - exact Hscan.
  - split; constructor.
  - split; [intros ? ? []|]. split; intros ? ? [].
  - split; [exact Hkept|]. exists more. split; [exact Hacc|]. exact Hmore.
Qed.

(** An entry spells its provenance as the key of its group did. *)
Lemma provenanceKey_normalizeGroup (g : Lockfile.Group) :
  provenanceKey (Lockfile.normalizeGroup w g) = Lockfile.groupingKey (Lockfile.source g).
Proof.
  unfold provenanceKey, LockSpec.identityTuple, Lockfile.groupingKey, Lockfile.normalizeGroup.
  cbn [Lockfile.type Lockfile.url Lockfile.ref Lockfile.digest Lockfile.installMethod].
  assert (H : forall o, Js.orElse (if Js.truthy o then o else None) "" = Js.orElse o "").
  { intros [s|]; [|reflexivity]. unfold Js.truthy.
    destruct (String.eqb_spec s "") as [->|_]; reflexivity. }
  rewrite !H. reflexivity.
Qed.

(** What a successful run of the generator has done. *)
Lemma generateLockfile_run (options : Lockfile.GenerateLockfileOptions)
      (r : Lockfile.GenerateLockfileResult) (d' : Fs.node) :
  Lockfile.generateLockfile w options d = (Ok r, d') ->
  exists groups d1,
    Lockfile.scanAgents w d (Lockfile.scanRootOf w options) [] Lockfile.AGENT_SKILL_DIRS
    = Ok groups
    /\ Lockfile.sources (Lockfile.lockfile r)
       = Js.sortBy (Lockfile.compareSources w)
           (map (Lockfile.normalizeGroup w) (map snd groups))
    /\ Lockfile.outputPath r = Lockfile.outputPathOf w options
    /\ Lockfile.yaml r = Lockfile.toYaml w (Lockfile.lockfile r)
    /\ Fs.mkdirSync d (Fs.dirname (Lockfile.outputPathOf w options)) = Ok d1
    /\ Fs.writeFileSync d1 (Lockfile.outputPathOf w options) (Lockfile.yaml r) = Ok d'.
Proof.
  unfold Lockfile.generateLockfile.
  destruct (Lockfile.scanAgents w d _ [] _) as [groups|e]; [|discriminate].
  destruct (Fs.mkdirSync d _) as [d1|e]; [|discriminate].
  destruct (Fs.writeFileSync d1 _ _) as [d2|e] eqn:Hwrite; [|discriminate].
  intros H; inversion H; subst. exists groups, d1.
  cbn [Lockfile.sources Lockfile.lockfile Lockfile.outputPath Lockfile.yaml].
  repeat split; try reflexivity. exact Hwrite.
Qed.

End ScanFacts.

(** X15.  The entries of a generated lockfile are well formed: no two of
    them spell the same provenance (type, url, ref, digest and install
    method joined by bars), every entry names at least one skill and at
    least one agent, none of them twice, and every agent is one of the
    agents the generator scans. *)
Theorem generated_lockfile_entries_are_well_formed
  (w : Lockfile.World) (options : Lockfile.GenerateLockfileOptions)
  (d d' : Fs.node) (r : Lockfile.GenerateLockfileResult) :
  Lockfile.generateLockfile w options d = (Ok r, d') ->
  let entries := Lockfile.sources (Lockfile.lockfile r) in
  NoDup (map LockScan.provenanceKey entries)
  /\ forall entry, In entry entries ->
       Lockfile.skills entry <> [] /\ Lockfile.agents entry <> []
       /\ NoDup (Lockfile.skills entry) /\ NoDup (Lockfile.agents entry)
       /\ forall agent, In agent (Lockfile.agents entry) -> LockScan.knownAgent agent.
Proof.
  intros Hrun entries.
  destruct (generateLockfile_run w d options r d' Hrun)
    as (groups & d1 & Hscan & Hsources & _).
  destruct (scan_kept w d _ _ Hscan) as [[Hkeys Hall] _].
  subst entries. rewrite Hsources. split.
  - apply (Permutation_NoDup (l := map fst groups)); [|exact Hkeys].
    assert (Hmap : map fst groups
                   = map LockScan.provenanceKey
                       (map (Lockfile.normalizeGroup w) (map snd groups))).
    { rewrite !map_map. apply map_ext_in. intros entry Hin.
      rewrite provenanceKey_normalizeGroup. rewrite Forall_forall in Hall.
      exact (proj1 (Hall entry Hin)). }
    rewrite Hmap. apply Permutation_map. apply sortBy_perm.
  - intros entry Hin. apply sortBy_In in Hin. rewrite map_map in Hin.
    apply in_map_iff in Hin as (kg & <- & Hkg).
    rewrite Forall_forall in Hall.
    destruct (Hall kg Hkg) as (_ & Hskills & Hagents & Hs & Ha & Hknown).
    cbn [Lockfile.normalizeGroup Lockfile.skills Lockfile.agents].
    pose proof (sortBy_perm (Lockfile.localeCompare w) (Lockfile.groupSkills (snd kg)))
      as Pskills.
    pose proof (sortBy_perm (Lockfile.localeCompare w) (Lockfile.groupAgents (snd kg)))
      as Pagents.
    split; [|split; [|split; [|split]]].
    + intros Hnil. rewrite Hnil in Pskills. apply Permutation_sym in Pskills.
      apply Permutation_nil in Pskills. auto.
    + intros Hnil. rewrite Hnil in Pagents. apply Permutation_sym in Pagents.
      apply Permutation_nil in Pagents. auto.
    + exact (Permutation_NoDup Pskills Hs).
    + exact (Permutation_NoDup Pagents Ha).
    + intros agent Hagent. apply sortBy_In in Hagent.
      rewrite Forall_forall in Hknown. exact (Hknown agent Hagent).
Qed.

Lemma generated_lockfile_entries_are_well_formed_witness :
  let entries :=
    match fst (Lockfile.generateLockfile LockSpec.world LockSpec.projectOptions
                 LockSpec.installedDisk) with
    | Ok r => Lockfile.sources (Lockfile.lockfile r)
    | Throw _ => []
    end in
  map Lockfile.skills entries = [["alpha"; "beta"]; ["gamma"]]
  /\ NoDup (map LockScan.provenanceKey entries)
  /\ forall entry, In entry entries ->
       Lockfile.skills entry <> [] /\ Lockfile.agents entry <> []
       /\ NoDup (Lockfile.skills entry) /\ NoDup (Lockfile.agents entry)
       /\ forall agent, In agent (Lockfile.agents entry) -> LockScan.knownAgent agent.
Proof.
  destruct (Lockfile.generateLockfile LockSpec.world LockSpec.projectOptions
              LockSpec.installedDisk) as [[r|e] d1] eqn:Hrun;
    [|vm_compute in Hrun; discriminate].
  cbn [fst]. split.
  - vm_compute in Hrun. inversion Hrun. reflexivity.
  - exact (generated_lockfile_entries_are_well_formed LockSpec.world LockSpec.projectOptions
             LockSpec.installedDisk d1 r Hrun).
Defined.



(** X17.  The file the generator writes is the one [check] and [update]
    load for the same scope, working directory and home directory: after a
    successful run the lockfile is found at the path [loadLockfile] looks
    at, it holds the YAML text of the result, and the load does not report
    a missing lockfile; when the text parses to a mapping, the load gives
    the path of the file and the sources of that mapping. *)
Theorem generated_lockfile_is_the_one_check_loads
  (w : Lockfile.World) (options : Lockfile.GenerateLockfileOptions)
  (d d' : Fs.node) (r : Lockfile.GenerateLockfileResult)
  (parseYaml : string -> string + json) :
  Lockfile.generateLockfile w options d = (Ok r, d') ->
  let cwd := Js.orElse (Lockfile.cwd options) (Lockfile.processCwd w) in
  let homeDir := Js.orElse (Lockfile.homeDir options) cwd in
  let load := CheckCommand.loadLockfile parseYaml (Lockfile.scope options) cwd homeDir d' in
  Lockfile.outputPath r = CheckCommand.lockPathOf (Lockfile.scope options) cwd homeDir
  /\ Fs.readFileSync d' (Lockfile.outputPath r) = Ok (Lockfile.yaml r)
  /\ load <> Ok None
  /\ forall members,
       parseYaml (Lockfile.yaml r) = inr (JObject members) ->
       load = Ok (Some (Lockfile.outputPath r,
                        if Json.nullish (Json.get members "sources") then JArray []
                        else Js.orElse (Json.get members "sources") (JArray []))).
Proof.
  intros Hrun cwd homeDir load.
  destruct (generateLockfile_run w d options r d' Hrun)
    as (groups & d1 & _ & _ & Hpath & _ & _ & Hwrite).
  assert (Hsame : Lockfile.outputPathOf w options
                  = CheckCommand.lockPathOf (Lockfile.scope options) cwd homeDir).
  { unfold Lockfile.outputPathOf, CheckCommand.lockPathOf.
    destruct (Lockfile.scope options); reflexivity. }
  assert (Hnonempty : Lockfile.outputPathOf w options <> []).
  { unfold Lockfile.outputPathOf, Fs.join. cbn [String.eqb Ascii.eqb Bool.eqb].
    destruct (Lockfile.scope options); intros H; apply app_eq_nil in H as [_ H];
      discriminate. }
  destruct (writeFileSync_read d1 d' _ _ Hnonempty Hwrite) as [Hexists Hread].
  rewrite Hpath. split; [exact Hsame|]. split; [exact Hread|].
  subst load. unfold CheckCommand.loadLockfile. rewrite <- Hsame, Hexists, Hread.
  cbn [negb bind]. split.
  - destruct (parseYaml (Lockfile.yaml r)) as [message|[]]; cbn [bind]; discriminate.
  - intros members ->. reflexivity.
Qed.

Lemma generated_lockfile_is_the_one_check_loads_witness :
  match fst (Lockfile.generateLockfile LockSpec.world LockSpec.projectOptions
               LockSpec.installedDisk) with
  | Ok r =>
      Lockfile.outputPath r = ["proj"; "skillet.lock.yaml"]
      /\ Fs.readFileSync LockSpec.lockedDisk (Lockfile.outputPath r) = Ok (Lockfile.yaml r)
      /\ CheckCommand.loadLockfile (fun _ => inr (JObject [])) Lockfile.project
           ["proj"] ["proj"] LockSpec.lockedDisk
         = Ok (Some (["proj"; "skillet.lock.yaml"], JArray []))
  | Throw _ => False
  end.
Proof.
  destruct (Lockfile.generateLockfile LockSpec.world LockSpec.projectOptions
              LockSpec.installedDisk) as [[r|e] d1] eqn:Hrun;
    [|vm_compute in Hrun; discriminate].
  assert (Hd1 : d1 = LockSpec.lockedDisk).
  { vm_compute in Hrun. inversion Hrun. reflexivity. }
  subst d1. cbn [fst].
  destruct (generated_lockfile_is_the_one_check_loads LockSpec.world LockSpec.projectOptions
              LockSpec.installedDisk LockSpec.lockedDisk r (fun _ => inr (JObject [])) Hrun)
    as (Hpath & Hread & _ & Hload).
  split; [exact Hpath|]. split; [exact Hread|].
  etransitivity; [exact (Hload [] eq_refl)|]. rewrite Hpath. reflexivity.
Defined.

(* ===================================================================== *)
(** * The installer: where a skill goes, and by which method *)
(* ===================================================================== *)

Section InstallFacts.
Variable w : Installer.World.







End InstallFacts.



(** The disk a copy installation leaves: the skill stands under the
    storage root and, copied, in the target skills directory. *)
Example installed_copy_is_on_the_disk :
  let run :=
    Installer.installSkill InstallSamples.world
      {| Installer.sourceId := "git:https://github.com/acme/skills.git:main:abc";
         Installer.sourceSkillPath := ["src"; "alpha"];
         Installer.storageRoot := ["proj"; ".skillet"; "storage"];
         Installer.targetSkillsDir := ["proj"; ".codex"; "skills"];
         Installer.preferCopy := Some true;
         Installer.symlinkFn := None |}
      (InstallSamples.start InstallSamples.freshDisk) in
  FsSpec.get (Installer.disk (snd run))
    ["proj"; ".skillet"; "storage"; "0123456789abcdef"; "alpha"]
  = FsSpec.get InstallSamples.freshDisk ["src"; "alpha"]
  /\ FsSpec.get (Installer.disk (snd run)) ["proj"; ".codex"; "skills"; "alpha"]
     = FsSpec.get InstallSamples.freshDisk ["src"; "alpha"]
  /\ exists es, FsSpec.get InstallSamples.freshDisk ["src"; "alpha"] = Some (Fs.Dir es).
Proof. repeat split; try (vm_compute; reflexivity). eexists. vm_compute. reflexivity. Qed.

(* ===================================================================== *)
(** * The grammar of git sources *)
(* ===================================================================== *)


Section SlashFacts.

Lemma stripLeadingSlashes_start (s : string) :
  Js.startsWith (Git.stripLeadingSlashes s) "/" = false.
Proof.
  induction s as [|a s IH]; cbn [Git.stripLeadingSlashes]; [reflexivity|].
  destruct (Ascii.eqb a "/") eqn:Ha; [exact IH|].
  cbn [Js.startsWith]. rewrite Ascii.eqb_sym, Ha. reflexivity.
Qed.

Lemma stripTrailingSlashes_start (s : string) :
  Js.startsWith s "/" = false -> Js.startsWith (Git.stripTrailingSlashes s) "/" = false.
Proof.
  destruct s as [|a s]; [reflexivity|]. cbn [Js.startsWith Git.stripTrailingSlashes].
  rewrite andb_true_r. intros Ha.
  destruct (Git.stripTrailingSlashes s); [rewrite Ascii.eqb_sym, Ha|];
    cbn [Js.startsWith]; rewrite Ha; reflexivity.
Qed.

Lemma stripTrailingSlashes_end (s : string) :
  Js.endsWith (Git.stripTrailingSlashes s) "/" = false.
Proof.
  induction s as [|a s IH]; cbn [Git.stripTrailingSlashes]; [reflexivity|].
  destruct (Git.stripTrailingSlashes s) as [|b t] eqn:E.
  - destruct (Ascii.eqb a "/") eqn:Ha; [reflexivity|].
    cbn [Js.endsWith String.eqb]. rewrite Ha. reflexivity.
  - cbn [Js.endsWith String.eqb] in *.
    destruct (Ascii.eqb a "/"); cbn [andb orb]; exact IH.
Qed.

Lemma stripSlashes_clean (s : string) :
  Js.startsWith (Git.stripSlashes s) "/" = false
  /\ Js.endsWith (Git.stripSlashes s) "/" = false.
Proof.
  unfold Git.stripSlashes. split.
  - apply stripTrailingSlashes_start, stripLeadingSlashes_start.
  - apply stripTrailingSlashes_end.
Qed.

Lemma normalizeSubdirectory_clean (subdirectory normalized : string) :
  Git.normalizeSubdirectory subdirectory = Git.Return normalized ->
  Js.includes normalized ".." = false
  /\ Js.startsWith normalized "/" = false
  /\ Js.endsWith normalized "/" = false.
Proof.
  unfold Git.normalizeSubdirectory.
  destruct (stripSlashes_clean subdirectory) as [Hstart Hend].
  destruct (String.eqb_spec (Git.stripSlashes subdirectory) "") as [Hempty|_].
  - intros H; inversion H; subst. rewrite Hempty. repeat split; reflexivity.
  - destruct (Js.includes (Git.stripSlashes subdirectory) "..") eqn:Hdots; [discriminate|].
    intros H; inversion H; subst. auto.
Qed.

End SlashFacts.

Section CloneUrlFacts.
Import Text.

Lemma splitHash_none (source : string) :
  without "#" source -> Git.splitHash source = (source, None).
Proof. unfold without, Git.splitHash. intros ->. reflexivity. Qed.

Lemma splitHash_append (base hash : string) :
  without "#" base -> Git.splitHash (base ++ "#" ++ hash) = (base, Some hash).
Proof.
  intros Hbase. unfold Git.splitHash. cbn [append].
  rewrite (indexOfChar_append "#" base hash Hbase).
  rewrite sliceTo_append. f_equal. f_equal.
  change (base ++ String "#" hash)%string with (base ++ "#" ++ hash)%string.
  rewrite <- append_assoc.
  replace (String.length base + 1) with (String.length (base ++ "#")).
  - apply sliceFrom_append.
  - rewrite append_length. reflexivity.
Qed.

Lemma endsWith_append_r (a b p : string) :
  Js.endsWith b p = true -> Js.endsWith (a ++ b) p = true.
Proof.
  intros H. induction a as [|x a IH]; cbn [append]; [exact H|].
  cbn [Js.endsWith]. rewrite IH. apply orb_true_r.
Qed.

(** What [normalizeCloneUrl] lets through ends with [.git], or is a local
    path left as it was. *)
Lemma normalizeCloneUrl_shape (source cloneUrl : string) :
  Git.normalizeCloneUrl source = Git.Return cloneUrl ->
  Js.endsWith cloneUrl ".git" = true
  \/ (Git.isLocalPath source = true /\ cloneUrl = source).
Proof.
  unfold Git.normalizeCloneUrl.
  destruct (Git.SHORTHAND_PATTERN_test source).
  { intros H; inversion H; subst. left.
    change ("https://github.com/" ++ source ++ ".git")%string
      with (("https://github.com/" ++ source) ++ ".git")%string.
    apply endsWith_append. }
  destruct (Git.SSH_PATTERN_test source).
  { intros H; inversion H; subst. left.
    destruct (Js.endsWith source ".git") eqn:E; [exact E|apply endsWith_append]. }
  destruct (Js.startsWith source "http://" || Js.startsWith source "https://").
  { intros H; inversion H; subst. left.
    destruct (Js.endsWith (Git.stripTrailingSlashes source) ".git") eqn:E;
      [exact E|apply endsWith_append]. }
  destruct (Git.isLocalPath source) eqn:Hlocal; [|discriminate].
  intros H; inversion H; subst. right. split; reflexivity.
Qed.

Lemma parseTreeSource_shape (w : Git.World) (source : string) (tree : Git.TreeSource) :
  Git.parseTreeSource w source = Git.Return (Some tree) ->
  Js.endsWith (Git.treeCloneUrl tree) ".git" = true
  /\ Git.treeRef tree <> Some "".
Proof.
  unfold Git.parseTreeSource.
  destruct (negb _ && negb _); [discriminate|].
  destruct (Git.newURL w source) as [parsed|]; [|discriminate].
  destruct (Git.indexOf "tree" _) as [treeIndex|]; [|discriminate].
  destruct (_ || _); [discriminate|].
  intros [= <-]. cbn [Git.treeCloneUrl Git.treeRef]. split.
  - repeat apply endsWith_append_r. apply endsWith_refl.
  - destruct (String.eqb_spec (nth (treeIndex + 1)
                                 (Js.splitChar "/"
                                    (Git.stripSlashes (Git.pathname parsed))) "") "");
      congruence.
Qed.

End CloneUrlFacts.

(** X19.  A git source that parses is well formed: the original is the
    trimmed input and is not empty; a ref is never the empty text; a
    subdirectory has no leading or trailing slash and no [..] in it; and
    the clone URL ends with [.git] unless it is the resolved form of a
    local path. *)
Theorem parsed_git_source_is_well_formed
  (w : Git.World) (input : string) (parsed : Git.ParsedGitSource) :
  Git.parseGitSource w input = Git.Return parsed ->
  Git.original parsed = Js.trim input
  /\ Git.original parsed <> ""
  /\ Git.ref parsed <> Some ""
  /\ (forall subdirectory,
        Git.subdirectory parsed = Some subdirectory ->
        Js.includes subdirectory ".." = false
        /\ Js.startsWith subdirectory "/" = false
        /\ Js.endsWith subdirectory "/" = false)
  /\ (Js.endsWith (Git.cloneUrl parsed) ".git" = true
      \/ exists localPath,
           Git.isLocalPath localPath = true
           /\ Git.cloneUrl parsed = Git.resolveLocalPath w localPath).
Proof.
  unfold Git.parseGitSource.
  destruct (String.eqb_spec (Js.trim input) "") as [|Hnonempty]; [discriminate|].
  destruct (Git.splitHash (Js.trim input)) as [base hash].
  destruct (Git.parseTreeSource w base) as [tree|message] eqn:Htree;
    cbn [Git.andThen]; [|discriminate].
  set (pieces := match hash with
                 | Some h => if String.eqb h "" then [] else Js.splitChar ":" h
                 | None => []
                 end).
  destruct (match tree with
            | Some t => Git.Return (Git.treeCloneUrl t)
            | None => Git.normalizeCloneUrl base
            end) as [cloneUrl|message] eqn:Hclone; cbn [Git.andThen]; [|discriminate].
  set (ref := if String.eqb (nth 0 pieces "") "" then
                match tree with Some t => Git.treeRef t | None => None end
              else Some (nth 0 pieces "")).
  set (subdirectory := if String.eqb (nth 1 pieces "") "" then
                         match tree with Some t => Git.treeSubdirectory t | None => None end
                       else Some (nth 1 pieces "")).
  assert (Href : ref <> Some "").
  { subst ref. destruct (String.eqb_spec (nth 0 pieces "") "") as [_|Hne].
    - destruct tree as [t|]; [|discriminate].
      exact (proj2 (parseTreeSource_shape w base t Htree)).
    - congruence. }
  assert (Hurl : Js.endsWith cloneUrl ".git" = true \/ Git.isLocalPath cloneUrl = true).
  { destruct tree as [t|].
    - inversion Hclone; subst. left. exact (proj1 (parseTreeSource_shape w base t Htree)).
    - destruct (normalizeCloneUrl_shape _ _ Hclone) as [H|[H ->]]; auto. }
  destruct (Js.truthy subdirectory) eqn:Htruthy.
  - destruct (Git.normalizeSubdirectory (Js.orElse subdirectory "")) as [normalized|message]
      eqn:Hsub; cbn [Git.andThen]; [|discriminate].
    intros H; inversion H; subst parsed. clear H.
    cbn [Git.original Git.ref Git.subdirectory Git.cloneUrl].
    split; [reflexivity|]. split; [exact Hnonempty|]. split; [exact Href|]. split.
    + intros sub Heq. inversion Heq; subst. exact (normalizeSubdirectory_clean _ _ Hsub).
    + destruct (Git.isLocalPath cloneUrl) eqn:Hlocal.
      * right. exists cloneUrl. auto.
      * left. destruct Hurl as [H|H]; [exact H|discriminate].
  - cbn [Git.andThen]. intros H; inversion H; subst parsed. clear H.
    cbn [Git.original Git.ref Git.subdirectory Git.cloneUrl].
    split; [reflexivity|]. split; [exact Hnonempty|]. split; [exact Href|]. split.
    + intros sub Heq. rewrite Heq in Htruthy. cbn [Js.truthy] in Htruthy.
      apply negb_false_iff in Htruthy. apply String.eqb_eq in Htruthy. subst sub.
      repeat split; reflexivity.
    + destruct (Git.isLocalPath cloneUrl) eqn:Hlocal.
      * right. exists cloneUrl. auto.
      * left. destruct Hurl as [H|H]; [exact H|discriminate].
Qed.

Lemma parsed_git_source_is_well_formed_witness :
  let w := {| Git.newURL := fun _ => None;
              Git.pathResolve := fun p => p;
              Git.joinHome := fun rest => ("/home/me/" ++ rest)%string |} in
  let parsed := {| Git.original := "git@github.com:acme/skills#v2:/packs/core/";
                   Git.cloneUrl := "git@github.com:acme/skills.git";
                   Git.ref := Some "v2";
                   Git.subdirectory := Some "packs/core" |} in
  Git.parseGitSource w "  git@github.com:acme/skills#v2:/packs/core/ " = Git.Return parsed
  /\ Git.original parsed <> ""
  /\ Git.ref parsed <> Some ""
  /\ (forall subdirectory,
        Git.subdirectory parsed = Some subdirectory ->
        Js.includes subdirectory ".." = false
        /\ Js.startsWith subdirectory "/" = false
        /\ Js.endsWith subdirectory "/" = false)
  /\ (Js.endsWith (Git.cloneUrl parsed) ".git" = true
      \/ exists localPath,
           Git.isLocalPath localPath = true
           /\ Git.cloneUrl parsed = Git.resolveLocalPath w localPath).
Proof.
  split; [reflexivity|].
  exact (proj2 (parsed_git_source_is_well_formed
                  {| Git.newURL := fun _ => None;
                     Git.pathResolve := fun p => p;
                     Git.joinHome := fun rest => ("/home/me/" ++ rest)%string |}
                  "  git@github.com:acme/skills#v2:/packs/core/ "
                  {| Git.original := "git@github.com:acme/skills#v2:/packs/core/";
                     Git.cloneUrl := "git@github.com:acme/skills.git";
                     Git.ref := Some "v2";
                     Git.subdirectory := Some "packs/core" |}
                  eq_refl)).
Defined.

Section ShorthandFacts.
Import Text.

(** The characters of a shorthand: those of the two names, and the slash. *)
Lemma shorthand_chars (s : string) :
  Git.SHORTHAND_PATTERN_test s = true ->
  s <> ""
  /\ Skill.allChars (fun a => Git.isNameChar a || Ascii.eqb a "/") s = true.
Proof.
  unfold Git.SHORTHAND_PATTERN_test. intros H.
  pose proof (join_splitChar "/" s) as Hjoin.
  destruct (Js.splitChar "/" s) as [|owner [|repo [|more rest]]]; try discriminate.
  apply andb_prop in H as [H Hrepo]. apply andb_prop in H as [H Hrepo0].
  apply andb_prop in H as [Howner0 Howner].
  unfold Js.join in Hjoin. cbn [String.concat] in Hjoin. subst s. split.
  - destruct owner; [discriminate|discriminate].
  - rewrite !allChars_append. cbn [Skill.allChars].
    rewrite (allChars_weaken Git.isNameChar _ owner), (allChars_weaken Git.isNameChar _ repo);
      try assumption; try (intros a Ha; rewrite Ha; reflexivity).
    rewrite orb_true_r. reflexivity.
Qed.

Lemma shorthand_char_black (a : ascii) :
  Git.isNameChar a || Ascii.eqb a "/" = true -> Text.isBlack a = true.
Proof.
  destruct a as [[|] [|] [|] [|] [|] [|] [|] [|]]; vm_compute; intros H;
    first [reflexivity|discriminate].
Qed.

End ShorthandFacts.

(** X20.  The shorthand [owner/repo] (two non-empty runs of letters,
    digits, dots, underscores and hyphens around one slash) names the
    repository of that owner on github.com: it parses to the clone URL
    [https://github.com/owner/repo.git], with no ref and no subdirectory,
    whatever the URL parser and the paths of the machine are. *)
Theorem git_shorthand_names_a_github_repository (w : Git.World) (source : string) :
  Git.SHORTHAND_PATTERN_test source = true ->
  Git.parseGitSource w source
  = Git.Return {| Git.original := source;
                  Git.cloneUrl := ("https://github.com/" ++ source ++ ".git")%string;
                  Git.ref := None;
                  Git.subdirectory := None |}.
Proof.
  intros Hshort. destruct (shorthand_chars source Hshort) as [Hnonempty Hchars].
  assert (Htrim : Js.trim source = source).
  { apply black_trimmed.
    apply (allChars_weaken _ _ source shorthand_char_black Hchars). }
  assert (Hhash : Git.splitHash source = (source, None)).
  { apply splitHash_none. apply (allChars_without _ "#" source) in Hchars; [exact Hchars|].
    reflexivity. }
  assert (Hhttp : Js.startsWith source "http://" = false).
  { destruct (Js.startsWith source "http://") eqn:E; [|reflexivity].
    pose proof (allChars_startsWith _ _ _ Hchars E) as H. discriminate H. }
  assert (Hhttps : Js.startsWith source "https://" = false).
  { destruct (Js.startsWith source "https://") eqn:E; [|reflexivity].
    pose proof (allChars_startsWith _ _ _ Hchars E) as H. discriminate H. }
  unfold Git.parseGitSource. rewrite Htrim, Hhash.
  destruct (String.eqb_spec source "") as [|_]; [contradiction|].
  unfold Git.parseTreeSource. rewrite Hhttp, Hhttps. cbn [negb andb Git.andThen].
  unfold Git.normalizeCloneUrl. rewrite Hshort. cbn [Git.andThen nth String.eqb Js.truthy].
  reflexivity.
Qed.

Lemma git_shorthand_names_a_github_repository_witness :
  Git.parseGitSource {| Git.newURL := fun _ => None;
                        Git.pathResolve := fun p => p;
                        Git.joinHome := fun rest => rest |}
    "acme/agent-skills"
  = Git.Return {| Git.original := "acme/agent-skills";
                  Git.cloneUrl := "https://github.com/acme/agent-skills.git";
                  Git.ref := None;
                  Git.subdirectory := None |}.
Proof.
  exact (git_shorthand_names_a_github_repository
           {| Git.newURL := fun _ => None;
              Git.pathResolve := fun p => p;
              Git.joinHome := fun rest => rest |}
           "acme/agent-skills" eq_refl).
Defined.

(** X21.  The source argument [update] builds for a git entry with a ref
    is the url, a hash sign and the ref, and [parseGitSource] reads the
    ref back from it: when the url alone parses, the argument parses to
    the same clone URL and subdirectory, with the recorded ref.  The url
    and the ref are not empty and have no white character at their ends,
    the url has no hash sign and the ref no colon. *)
Theorem update_source_argument_carries_the_recorded_ref
  (w : Git.World) (entry : Check.LockfileSourceEntry) (recordedRef : string)
  (parsed : Git.ParsedGitSource) :
  Check.type entry = "git" ->
  Check.ref entry = Some recordedRef ->
  Text.trimmed (Check.url entry) -> Check.url entry <> "" ->
  Text.without "#" (Check.url entry) ->
  Text.trimmed recordedRef -> recordedRef <> "" -> Text.without ":" recordedRef ->
  Git.parseGitSource w (Check.url entry) = Git.Return parsed ->
  UpdateCommand.buildSourceArg entry = (Check.url entry ++ "#" ++ recordedRef)%string
  /\ Git.parseGitSource w (UpdateCommand.buildSourceArg entry)
     = Git.Return {| Git.original := UpdateCommand.buildSourceArg entry;
                     Git.cloneUrl := Git.cloneUrl parsed;
                     Git.ref := Some recordedRef;
                     Git.subdirectory := Git.subdirectory parsed |}.
Proof.
  intros Htype Href Hurl Hurl0 Hhash Hr Hr0 Hcolon Hparse.
  assert (Harg : UpdateCommand.buildSourceArg entry
                 = (Check.url entry ++ "#" ++ recordedRef)%string).
  { unfold UpdateCommand.buildSourceArg. rewrite Htype, Href. cbn [String.eqb Js.truthy].
    rewrite (eqb_empty_false _ Hr0). reflexivity. }
  split; [exact Harg|]. rewrite Harg.
  set (url := Check.url entry) in *.
  unfold Git.parseGitSource in *.
  assert (Htrim : Js.trim (url ++ "#" ++ recordedRef) = (url ++ "#" ++ recordedRef)%string)
    by exact (trimmed_join url "#" recordedRef eq_refl Hurl Hurl0 Hr).
  rewrite Htrim.
  rewrite Hurl in Hparse.
  rewrite (splitHash_append url recordedRef Hhash).
  rewrite (splitHash_none url Hhash) in Hparse.
  rewrite (eqb_empty_false _ Hurl0) in Hparse.
  assert (Hwhole : String.eqb (url ++ "#" ++ recordedRef) "" = false).
  { destruct url; [contradiction|reflexivity]. }
  rewrite Hwhole.
  destruct (Git.parseTreeSource w url) as [tree|message]; cbn [Git.andThen] in *;
    [|discriminate].
  destruct (match tree with
            | Some t => Git.Return (Git.treeCloneUrl t)
            | None => Git.normalizeCloneUrl url
            end) as [cloneUrl|message]; cbn [Git.andThen] in *; [|discriminate].
  rewrite (eqb_empty_false _ Hr0), (splitChar_without ":" recordedRef Hcolon).
  cbn [nth String.eqb] in *. rewrite (eqb_empty_false _ Hr0).
  destruct (Js.truthy match tree with
                      | Some t => Git.treeSubdirectory t
                      | None => None
                      end).
  - destruct (Git.normalizeSubdirectory _) as [normalized|message]; cbn [Git.andThen] in *;
      [|discriminate].
    injection Hparse as <-. reflexivity.
  - cbn [Git.andThen] in *. injection Hparse as <-. reflexivity.
Qed.

Lemma update_source_argument_carries_the_recorded_ref_witness :
  Git.parseGitSource {| Git.newURL := fun _ => None;
                        Git.pathResolve := fun p => p;
                        Git.joinHome := fun rest => rest |}
    (UpdateCommand.buildSourceArg
       {| Check.type := "git"; Check.url := "git@github.com:acme/skills.git";
          Check.ref := Some "v2"; Check.digest := Some "abc";
          Check.installMethod := "symlink"; Check.skills := ["alpha"];
          Check.agents := ["codex"] |})
  = Git.Return {| Git.original := "git@github.com:acme/skills.git#v2";
                  Git.cloneUrl := "git@github.com:acme/skills.git";
                  Git.ref := Some "v2";
                  Git.subdirectory := None |}.
Proof.
  refine (proj2 (update_source_argument_carries_the_recorded_ref
                   {| Git.newURL := fun _ => None;
                      Git.pathResolve := fun p => p;
                      Git.joinHome := fun rest => rest |}
                   {| Check.type := "git"; Check.url := "git@github.com:acme/skills.git";
                      Check.ref := Some "v2"; Check.digest := Some "abc";
                      Check.installMethod := "symlink"; Check.skills := ["alpha"];
                      Check.agents := ["codex"] |}
                   "v2"
                   {| Git.original := "git@github.com:acme/skills.git";
                      Git.cloneUrl := "git@github.com:acme/skills.git";
                      Git.ref := None;
                      Git.subdirectory := None |}
                   eq_refl eq_refl _ _ _ _ _ _ eq_refl)).
  - reflexivity.
  - discriminate.
  - reflexivity.
  - reflexivity.
  - discriminate.
  - reflexivity.
Defined.

(* ===================================================================== *)
(** * The arguments [update] hands to [add] *)
(* ===================================================================== *)

Section ListValueFacts.
Import Text.

Lemma splitChar_join (c : ascii) (items : list string) :
  items <> [] -> Forall (without c) items ->
  Js.splitChar c (Js.join (String c "") items) = items.
Proof.
  unfold Js.join. induction items as [|item rest IH]; [congruence|]. intros _ Hall.
  inversion Hall as [|? ? Hitem Hrest]; subst.
  destruct rest as [|next rest].
  - cbn [String.concat]. apply splitChar_without. exact Hitem.
  - rewrite concat_cons2. cbn [append].
    rewrite (splitChar_append c item _ Hitem). f_equal. apply IH; [discriminate|exact Hrest].
Qed.

(** A list of items joined by commas is split into the same items. *)
Lemma splitListValue_join (items : list string) :
  items <> [] ->
  Forall (fun item => without "," item /\ trimmed item /\ item <> "") items ->
  AddCommand.splitListValue (Js.join "," items) = items
  /\ Js.join "," items <> "".
Proof.
  intros Hnonempty Hall.
  assert (Hsplit : AddCommand.splitListValue (Js.join "," items) = items).
  { unfold AddCommand.splitListValue. rewrite splitChar_join; [|exact Hnonempty|].
    - clear Hnonempty. induction Hall as [|item rest (_ & Htrim & Hitem) _ IH];
        [reflexivity|].
      cbn [map filter]. rewrite Htrim.
      destruct (String.length item =? 0)%nat eqn:Hlen.
      + apply Nat.eqb_eq in Hlen. apply length_zero in Hlen. contradiction.
      + cbn [negb]. rewrite IH. reflexivity.
    - apply Forall_impl with (2 := Hall). intros item H. exact (proj1 H). }
  split; [exact Hsplit|]. intros Hjoin. rewrite Hjoin in Hsplit.
  cbv in Hsplit. congruence.
Qed.

Lemma addAgents_known (agentValues agents : list string) :
  Forall (fun agent => Agents.isKnown agent = true) agentValues ->
  AddCommand.addAgents agentValues agents = Ok (agents ++ agentValues).
Proof.
  intros Hall. revert agents.
  induction Hall as [|agent rest Hagent _ IH]; intros agents; cbn [AddCommand.addAgents].
  - rewrite app_nil_r. reflexivity.
  - destruct (String.eqb_spec agent "*") as [->|_]; [discriminate Hagent|].
    rewrite Hagent. cbn [negb]. rewrite IH, <- app_assoc. reflexivity.
Qed.

(** A token that does not start with a hyphen is none of the options. *)
Lemma parseLoop_source (token : string) (rest : list string)
      (parsed : AddCommand.ParsedAddArgs) :
  Js.startsWith token "-" = false ->
  AddCommand.source parsed = None ->
  AddCommand.parseLoop (token :: rest) parsed
  = AddCommand.parseLoop rest
      {| AddCommand.source := Some token;
         AddCommand.list_ := AddCommand.list_ parsed;
         AddCommand.global := AddCommand.global parsed;
         AddCommand.yes := AddCommand.yes parsed;
         AddCommand.all := AddCommand.all parsed;
         AddCommand.copy := AddCommand.copy parsed;
         AddCommand.skills := AddCommand.skills parsed;
         AddCommand.agents := AddCommand.agents parsed |}.
Proof.
  intros Hdash Hsource.
  assert (Hnot : forall option, Js.startsWith option "-" = true ->
                                String.eqb token option = false).
  { intros option Hoption. destruct (String.eqb_spec token option) as [->|_];
      [congruence|reflexivity]. }
  cbn [AddCommand.parseLoop].
  rewrite !Hnot by reflexivity. cbn [orb]. rewrite Hdash, Hsource. reflexivity.
Qed.

End ListValueFacts.

(** X22.  [add] reads the arguments [update] builds as [update] means
    them: for an entry whose source argument does not start with a hyphen,
    outdated skills and known agents that are non-empty names without
    commas or white ends, [parseAddArgs] gives that source, the scope of
    the update, [yes], the skills and the agents of the entry (each sorted,
    without repetitions), and neither [list], [all] nor [copy]; so the
    install method is [symlink], whatever method the entry records. *)
Theorem update_arguments_are_read_back_by_add
  (w : AddCommand.World) (entry : Check.LockfileSourceEntry) (skills : list string)
  (global : bool) :
  Js.startsWith (UpdateCommand.buildSourceArg entry) "-" = false ->
  skills <> [] ->
  Forall (fun skill => Text.without "," skill /\ Text.trimmed skill /\ skill <> "") skills ->
  Forall (fun agent => Agents.isKnown agent = true) (Check.agents entry) ->
  exists parsed,
    AddCommand.parseAddArgs w (UpdateCommand.buildAddArgs entry skills global) = Ok parsed
    /\ parsed
       = {| AddCommand.source := Some (UpdateCommand.buildSourceArg entry);
            AddCommand.list_ := false;
            AddCommand.global := global;
            AddCommand.yes := true;
            AddCommand.all := false;
            AddCommand.copy := false;
            AddCommand.skills := AddCommand.uniqueSorted w skills;
            AddCommand.agents := AddCommand.uniqueSorted w (Check.agents entry) |}
    /\ forall prompt, AddCommand.selectInstallMethod parsed prompt = Installer.symlink.
Proof.
  intros Hdash Hskills Hall Hagents.
  destruct (splitListValue_join skills Hskills Hall) as [Hsplit Hjoined].
  eexists. split; [|split; [reflexivity|]].
  2: { intros prompt. reflexivity. }
  unfold AddCommand.parseAddArgs, UpdateCommand.buildAddArgs. cbn [app].
  rewrite (parseLoop_source _ _ _ Hdash) by reflexivity.
  cbn [AddCommand.parseLoop String.eqb Ascii.eqb Bool.eqb andb orb
       AddCommand.source AddCommand.list_ AddCommand.global AddCommand.yes
       AddCommand.all AddCommand.copy AddCommand.skills AddCommand.agents].
  rewrite (eqb_empty_false _ Hjoined), Hsplit. cbn [app].
  destruct (Check.agents entry) as [|agent agents] eqn:Hentry.
  - cbn [List.length Nat.ltb Nat.leb app]. destruct global; reflexivity.
  - assert (Hlist : Forall (fun agent => Text.without "," agent /\ Text.trimmed agent
                                          /\ agent <> "") (agent :: agents)).
    { apply Forall_impl with (2 := Hagents). intros a Ha.
      unfold Agents.isKnown, Agents.KNOWN_AGENTS in Ha. cbn [existsb] in Ha.
      repeat (apply orb_prop in Ha as [Ha|Ha];
              [apply String.eqb_eq in Ha; subst a;
               repeat split; first [reflexivity|discriminate]|]).
      discriminate. }
    destruct (splitListValue_join (agent :: agents) ltac:(discriminate) Hlist)
      as [Hsplit' Hjoined'].
    cbn [List.length Nat.ltb Nat.leb app].
    cbn [AddCommand.parseLoop String.eqb Ascii.eqb Bool.eqb andb orb
         AddCommand.source AddCommand.list_ AddCommand.global AddCommand.yes
         AddCommand.all AddCommand.copy AddCommand.skills AddCommand.agents].
    rewrite (eqb_empty_false _ Hjoined'), Hsplit'.
    rewrite (addAgents_known _ [] Hagents). cbn [bind app].
    destruct global; reflexivity.
Qed.

Lemma update_arguments_are_read_back_by_add_witness :
  exists parsed,
    AddCommand.parseAddArgs
      {| AddCommand.localeCompare := LockSpec.codeUnitCompare;
         AddCommand.parseYaml := ToyYaml.parse |}
      ["https://github.com/acme/skills.git#v2"; "--skill"; "beta,alpha";
       "--agent"; "codex,claude"; "--global"; "-y"] = Ok parsed
    /\ parsed
       = {| AddCommand.source := Some "https://github.com/acme/skills.git#v2";
            AddCommand.list_ := false;
            AddCommand.global := true;
            AddCommand.yes := true;
            AddCommand.all := false;
            AddCommand.copy := false;
            AddCommand.skills := ["alpha"; "beta"];
            AddCommand.agents := ["claude"; "codex"] |}
    /\ forall prompt, AddCommand.selectInstallMethod parsed prompt = Installer.symlink.
Proof.
  refine (update_arguments_are_read_back_by_add
            {| AddCommand.localeCompare := LockSpec.codeUnitCompare;
               AddCommand.parseYaml := ToyYaml.parse |}
            {| Check.type := "git"; Check.url := "https://github.com/acme/skills.git";
               Check.ref := Some "v2"; Check.digest := Some "abc";
               Check.installMethod := "copy"; Check.skills := ["alpha"; "beta"];
               Check.agents := ["codex"; "claude"] |}
            ["beta"; "alpha"] true eq_refl _ _ _).
  - discriminate.
  - repeat constructor; discriminate.
  - repeat constructor.
Defined.

(* ===================================================================== *)
(** * The init command *)
(* ===================================================================== *)

Section TemplateFacts.
Import Text LineSpec.

(** Neither a line feed nor a carriage return. *)
Local Abbreviation plain :=
  (fun a : ascii => negb (Ascii.eqb a Js.LF) && negb (Ascii.eqb a Js.CR)).

Lemma allChars_splitChar (p : ascii -> bool) (c : ascii) (s : string) :
  Skill.allChars p s = true -> Forall (fun piece => Skill.allChars p piece = true)
                                 (Js.splitChar c s).
Proof.
  induction s as [|a s IH]; cbn [Skill.allChars Js.splitChar].
  - intros _. repeat constructor.
  - intros H. apply andb_prop in H as [Ha Hs]. specialize (IH Hs).
    destruct (Ascii.eqb a c).
    + constructor; [reflexivity|exact IH].
    + destruct (Js.splitChar c s) as [|h t].
      * repeat constructor. cbn [Skill.allChars]. rewrite Ha. reflexivity.
      * inversion IH; subst. constructor; [|assumption].
        cbn [Skill.allChars]. rewrite Ha. assumption.
Qed.

Lemma allChars_join (p : ascii -> bool) (sep : string) (l : list string) :
  Skill.allChars p sep = true ->
  Forall (fun piece => Skill.allChars p piece = true) l ->
  Skill.allChars p (Js.join sep l) = true.
Proof.
  intros Hsep Hall. unfold Js.join. induction Hall as [|x l Hx Hl IH]; [reflexivity|].
  destruct l as [|y l]; [exact Hx|].
  rewrite concat_cons2, !allChars_append, Hx, Hsep, IH. reflexivity.
Qed.

Lemma nameChar_plain (a : ascii) :
  isNameChar a = true -> plain a = true /\ plain (Init.toUpperChar a) = true.
Proof.
  destruct a as [[|] [|] [|] [|] [|] [|] [|] [|]]; vm_compute; intros H;
    first [discriminate|split; reflexivity].
Qed.

Lemma capitalize_plain (part : string) :
  Skill.allChars isNameChar part = true ->
  Skill.allChars plain (Init.capitalize part) = true.
Proof.
  destruct part as [|a rest]; [reflexivity|]. cbn [Init.capitalize Skill.allChars].
  intros H. apply andb_prop in H as [Ha Hrest].
  rewrite (proj2 (nameChar_plain a Ha)).
  apply (allChars_weaken isNameChar plain rest); [|exact Hrest].
  intros b Hb. exact (proj1 (nameChar_plain b Hb)).
Qed.

Lemma title_plain (skillName : string) :
  Skill.allChars isNameChar skillName = true ->
  Skill.allChars plain
    (Js.join " " (map Init.capitalize (Js.splitChar "-" skillName))) = true.
Proof.
  intros H. apply allChars_join; [reflexivity|].
  apply Forall_map. apply Forall_impl with (2 := allChars_splitChar _ "-" _ H).
  intros part. apply capitalize_plain.
Qed.

Lemma capitalize_length (part : string) :
  String.length (Init.capitalize part) = String.length part.
Proof. destruct part; reflexivity. Qed.

Lemma title_length (skillName : string) :
  String.length (Js.join " " (map Init.capitalize (Js.splitChar "-" skillName)))
  = String.length skillName.
Proof.
  rewrite <- (join_splitChar "-" skillName) at 2. unfold Js.join.
  induction (Js.splitChar "-" skillName) as [|x l IH]; [reflexivity|].
  destruct l as [|y l].
  - cbn [map String.concat]. apply capitalize_length.
  - cbn [map] in *. rewrite !concat_cons2, !append_length, IH, capitalize_length.
    reflexivity.
Qed.

Lemma plain_isLine (s : string) : Skill.allChars plain s = true -> isLine s.
Proof.
  intros H. split.
  - apply (allChars_without plain Js.LF s); [reflexivity|exact H].
  - induction s as [|a s IH]; [reflexivity|]. cbn [Skill.allChars] in H.
    apply andb_prop in H as [Ha Hs]. cbn [Js.endsWith]. rewrite (IH Hs), orb_false_r.
    cbn [String.eqb]. apply andb_prop in Ha as [_ Hcr]. apply negb_true_iff in Hcr.
    rewrite Hcr. reflexivity.
Qed.

(** A line that starts with a letter is no delimiter. *)
Lemma letter_line_not_delimiter (a : ascii) (rest : string) :
  isBlack a = true -> a <> "-"%char -> SkillSpec.isDelimiter (String a rest) = false.
Proof.
  intros Hblack Hhyphen. unfold SkillSpec.isDelimiter, Js.trim.
  rewrite (trimStart_black a rest Hblack), (trimEnd_cons_black a rest Hblack).
  cbn [String.eqb]. destruct (Ascii.eqb_spec a "-"); [contradiction|reflexivity].
Qed.

(** The template of [init] splits into its two frontmatter lines and its
    body. *)
Lemma renderSkillTemplate_split (skillName : string) :
  Skill.allChars isNameChar skillName = true ->
  let title := Js.join " " (map Init.capitalize (Js.splitChar "-" skillName)) in
  Skill.splitFrontmatter (Init.renderSkillTemplate skillName)
  = Ok (lines [("name: " ++ skillName)%string;
               ("description: " ++ title ++ " description.")%string],
        lines [""; ("# " ++ title)%string; "";
               "Describe what this skill does and when to use it."; ""]).
Proof.
  intros Hname title. unfold Init.renderSkillTemplate. fold title.
  assert (Hplain : Skill.allChars plain skillName = true).
  { apply (allChars_weaken isNameChar plain skillName); [|exact Hname].
    intros a Ha. exact (proj1 (nameChar_plain a Ha)). }
  pose proof (title_plain skillName Hname) as Htitle. fold title in Htitle.
  assert (Hlines : Forall isLine
                     ["---"; ("name: " ++ skillName)%string;
                      ("description: " ++ title ++ " description.")%string;
                      "---"; ""; ("# " ++ title)%string; "";
                      "Describe what this skill does and when to use it."; ""]).
  { repeat constructor; apply plain_isLine; rewrite ?allChars_append, ?Hplain, ?Htitle;
      reflexivity. }
  apply (splitFrontmatter_block _
           [("name: " ++ skillName)%string;
            ("description: " ++ title ++ " description.")%string]
           [""; ("# " ++ title)%string; "";
            "Describe what this skill does and when to use it."; ""] "---").
  - unfold SkillSpec.firstLine. rewrite splitLines_lines by (discriminate || assumption).
    reflexivity.
  - unfold SkillSpec.laterLines. rewrite splitLines_lines by (discriminate || assumption).
    reflexivity.
  - cbn [existsb append]. rewrite !letter_line_not_delimiter by (reflexivity || discriminate).
    reflexivity.
  - reflexivity.
Qed.

(** The name [init] accepts is a name the parser accepts. *)
Lemma validateSkillName_accepted (skillName : string) :
  Init.validateSkillName skillName = None ->
  1 <= String.length skillName <= 64
  /\ Skill.NAME_PATTERN_test skillName = true
  /\ Skill.validateName skillName (Some skillName) = Ok tt.
Proof.
  unfold Init.validateSkillName, Init.SKILL_NAME_PATTERN_test, Skill.validateName.
  destruct (Nat.ltb_spec (Js.length skillName) 1); [discriminate|].
  destruct (Nat.ltb_spec 64 (Js.length skillName)); [discriminate|]. cbn [orb].
  destruct (Skill.NAME_PATTERN_test skillName) eqn:Hpattern; [|discriminate]. cbn [negb].
  intros _. rewrite String.eqb_refl. cbn [negb]. rewrite andb_false_r.
  apply NAME_PATTERN_wellFormed, wellFormedName_length in Hpattern.
  repeat split; lia.
Qed.

(** A name other than the expected one does not pass [validateName]. *)
Lemma validateName_other (name expected : string) :
  expected <> "" -> name <> expected ->
  exists message,
    Skill.validateName name (Some expected) = Throw (SkillParseError message (Some "name")).
Proof.
  intros Hexpected Hname. unfold Skill.validateName.
  destruct (_ || _); [eauto|].
  destruct (negb (Skill.NAME_PATTERN_test name)); [eauto|].
  destruct (String.eqb_spec expected ""); [contradiction|].
  destruct (String.eqb_spec name expected); [contradiction|].
  cbn [negb andb]. eauto.
Qed.

Lemma deriveExpectedName_child (dir : Fs.path) (file : string) :
  Fs.basename dir <> "" -> Fs.basename dir <> "/" ->
  Skill.deriveExpectedName (Some (dir ++ [file])) = Some (Fs.basename dir).
Proof.
  intros Hempty Hslash. unfold Skill.deriveExpectedName.
  destruct (dir ++ [file]) as [|c rest] eqn:Hp; [destruct dir; discriminate|].
  rewrite <- Hp. unfold Fs.dirname. rewrite removelast_last.
  destruct (String.eqb_spec (Fs.basename dir) ""); [contradiction|].
  destruct (String.eqb_spec (Fs.basename dir) "/"); [contradiction|]. reflexivity.
Qed.

End TemplateFacts.

(** X23.  When [init] returns 0 it has written its template to SKILL.md in
    the target directory and printed where; the file splits into the two
    front-matter lines [name: <directory>] and
    [description: <Title> description.] and the body of the template.
    Whether the parser accepts the file rests on how the YAML reader reads
    the name: for a reader that gives the description as the string
    written, [parseSkillMarkdown] returns the skill named after the
    directory when the reader gives the name as that string, and throws a
    [SkillParseError] on the field [name] for every other reading of it, a
    number, a boolean or null among them. *)
Theorem init_descriptor_is_accepted_when_its_name_is_read_as_a_string
  (w : Init.World) (args : list string) (options : Init.RunInitCommandOptions)
  (s s' : Init.State) (parseYaml : string -> string + json) (nameValue : json) :
  let targetDir :=
    Init.resolveFrom (Js.orElse (Init.cwd options) (Init.processCwd w))
      (match args with first :: _ => first | [] => "." end) in
  let skillName := Fs.basename targetDir in
  let skillFilePath := Fs.join targetDir "SKILL.md" in
  let title := Js.join " " (map Init.capitalize (Js.splitChar "-" skillName)) in
  let description := (title ++ " description.")%string in
  let frontmatter :=
    lines [("name: " ++ skillName)%string; ("description: " ++ description)%string] in
  let body :=
    lines [""; ("# " ++ title)%string; "";
           "Describe what this skill does and when to use it."; ""] in
  let parsed :=
    Skill.parseSkillMarkdown parseYaml (Init.renderSkillTemplate skillName)
      {| Skill.path := Some skillFilePath; Skill.expectedName := None |} in
  Init.runInitCommand w args options s = (Ok 0%Z, s') ->
  parseYaml frontmatter
  = inr (JObject [("name", nameValue); ("description", JString description)]) ->
  Fs.readFileSync (Init.disk s') skillFilePath = Ok (Init.renderSkillTemplate skillName)
  /\ Init.printed s'
     = Init.printed s ++ [Init.Stdout ("Created " ++ Fs.toString skillFilePath)]
  /\ Skill.splitFrontmatter (Init.renderSkillTemplate skillName) = Ok (frontmatter, body)
  /\ (nameValue = JString skillName ->
      parsed = Ok {| Skill.frontmatter :=
                       {| Skill.name := skillName; Skill.description := description;
                          Skill.license := None; Skill.compatibility := None;
                          Skill.metadata := None; Skill.allowedTools := None |};
                     Skill.body := body;
                     Skill.isInternal := false |})
  /\ (nameValue <> JString skillName ->
      exists message, parsed = Throw (SkillParseError message (Some "name"))).
Proof.
  intros targetDir skillName skillFilePath title description frontmatter body parsed
         Hrun Hyaml.
  unfold Init.runInitCommand in Hrun. cbv zeta in Hrun.
  fold targetDir in Hrun. fold skillName in Hrun.
  destruct (Init.validateSkillName skillName) as [message|] eqn:Hvalid.
  { cbv beta iota delta [bindM Init.stderr ret] in Hrun. inversion Hrun. }
  destruct (validateSkillName_accepted skillName Hvalid) as (Hlength & Hpattern & Hname).
  pose proof (proj1 (NAME_PATTERN_wellFormed skillName) Hpattern) as Hwell.
  pose proof Hwell as (Hnonempty & Hchars & _).
  assert (Hpath : skillFilePath = targetDir ++ ["SKILL.md"]) by reflexivity.
  fold skillFilePath in Hrun.
  cbv beta iota delta [bindM Init.onDisk Init.look Init.stdout ret] in Hrun.
  destruct (Fs.mkdirSync (Init.disk s) targetDir) as [d1|e]; cbv beta iota in Hrun;
    [|discriminate].
  cbn [Init.disk Init.printed] in Hrun.
  destruct (Fs.existsSync d1 skillFilePath && _ && _); cbv beta iota in Hrun;
    [inversion Hrun|].
  cbn [Init.disk Init.printed] in Hrun.
  destruct (Fs.writeFileSync d1 skillFilePath (Init.renderSkillTemplate skillName))
    as [d2|e] eqn:Hwrite; cbv beta iota in Hrun; [|discriminate].
  cbn [Init.disk Init.printed] in Hrun. inversion Hrun; subst s'. clear Hrun.
  cbn [Init.disk Init.printed].
  assert (Hfile : skillFilePath <> []).
  { rewrite Hpath. intros H. apply app_eq_nil in H as [_ H]. discriminate. }
  split; [exact (proj2 (writeFileSync_read d1 d2 _ _ Hfile Hwrite))|].
  split; [reflexivity|].
  pose proof (renderSkillTemplate_split skillName Hchars) as Hsplit. cbv zeta in Hsplit.
  fold title in Hsplit. fold description in Hsplit. fold frontmatter in Hsplit.
  fold body in Hsplit.
  split; [exact Hsplit|].
  assert (Hdescription_blank : (String.length (Js.trim description) =? 0)%nat = false).
  { apply trim_not_blank. unfold description.
    replace (title ++ " description.")%string
      with ((title ++ " description") ++ ".")%string
      by (rewrite append_assoc; reflexivity).
    exact (allSpace_barrier (title ++ " description") "." "" eq_refl). }
  assert (Hexpected : Skill.deriveExpectedName (Some skillFilePath) = Some skillName).
  { rewrite Hpath. apply deriveExpectedName_child.
    - exact Hnonempty.
    - fold skillName. intros Hslash. rewrite Hslash in Hpattern. discriminate Hpattern. }
  assert (Hdescription : Skill.validateDescription description = Ok tt).
  { unfold Skill.validateDescription.
    assert (Hlow : 1 <= Js.length description).
    { unfold description. rewrite length_append.
      replace (Js.length " description.") with 13 by (vm_compute; reflexivity).
      apply Nat.le_trans with 13; [repeat constructor|apply Nat.le_add_l]. }
    assert (Hhigh : Js.length description <= 1024).
    { pose proof (length_bytes description) as Hbytes.
      assert (Hsize : String.length description = String.length skillName + 13).
      { unfold description, title. rewrite append_length, title_length. reflexivity. }
      rewrite Hsize in Hbytes. lia. }
    destruct (Nat.ltb_spec (Js.length description) 1); [lia|].
    destruct (Nat.ltb_spec 1024 (Js.length description)); [lia|]. reflexivity. }
  unfold parsed, Skill.parseSkillMarkdown.
  rewrite Hsplit. cbn [bind]. rewrite Hyaml. cbn [bind].
  split.
  - intros ->. unfold Skill.readStringField.
    cbn [Json.get String.eqb Ascii.eqb Bool.eqb andb].
    assert (Hname_blank : (String.length (Js.trim skillName) =? 0)%nat = false).
    { apply trim_not_blank. destruct skillName as [|a rest]; [contradiction|].
      cbn [Skill.allChars] in Hchars. apply andb_prop in Hchars as [Ha _].
      apply allSpace_black, nameChar_black, Ha. }
    rewrite Hname_blank, Hdescription_blank. cbn [andb bind Js.orElse].
    unfold Skill.readAllowedTools, Skill.normalizeMetadata.
    cbn [Json.get String.eqb Ascii.eqb Bool.eqb andb Json.nullish bind
         Skill.expectedName Skill.path].
    rewrite Hexpected, Hname. cbn [bind]. rewrite Hdescription.
    cbn [bind Skill.validateCompatibility]. reflexivity.
  - intros Hother. unfold Skill.readStringField at 1.
    cbn [Json.get String.eqb Ascii.eqb Bool.eqb andb].
    destruct nameValue as [|b|n|other|items|members]; try (cbn [bind]; eauto; fail).
    cbn [andb]. destruct (String.length (Js.trim other) =? 0)%nat; [cbn [bind]; eauto|].
    cbn [bind]. unfold Skill.readStringField.
    cbn [Json.get String.eqb Ascii.eqb Bool.eqb andb].
    rewrite Hdescription_blank. cbn [andb bind Js.orElse].
    unfold Skill.readAllowedTools, Skill.normalizeMetadata.
    cbn [Json.get String.eqb Ascii.eqb Bool.eqb andb Json.nullish bind
         Skill.expectedName Skill.path].
    rewrite Hexpected.
    destruct (validateName_other other skillName Hnonempty) as [message ->].
    + intros ->. apply Hother. reflexivity.
    + cbn [bind]. eauto.
Qed.

Lemma init_descriptor_is_accepted_when_its_name_is_read_as_a_string_witness :
  exists s',
    Init.runInitCommand {| Init.processCwd := ["work"] |} ["skills/my-skill"]
      {| Init.cwd := None; Init.yes := None; Init.confirmOverwrite := None |}
      {| Init.disk := Fs.Dir [("work", Fs.Dir [])]; Init.printed := [] |} = (Ok 0%Z, s')
    /\ Fs.readFileSync (Init.disk s') ["work"; "skills"; "my-skill"; "SKILL.md"]
       = Ok (Init.renderSkillTemplate "my-skill")
    /\ Init.printed s' = [Init.Stdout "Created /work/skills/my-skill/SKILL.md"]
    /\ Skill.splitFrontmatter (Init.renderSkillTemplate "my-skill")
       = Ok (lines ["name: my-skill"; "description: My Skill description."],
             lines [""; "# My Skill"; "";
                    "Describe what this skill does and when to use it."; ""])
    /\ (JString "my-skill" = JString "my-skill" ->
        Skill.parseSkillMarkdown ToyYaml.parse (Init.renderSkillTemplate "my-skill")
          {| Skill.path := Some ["work"; "skills"; "my-skill"; "SKILL.md"];
             Skill.expectedName := None |}
        = Ok {| Skill.frontmatter :=
                  {| Skill.name := "my-skill";
                     Skill.description := "My Skill description.";
                     Skill.license := None; Skill.compatibility := None;
                     Skill.metadata := None; Skill.allowedTools := None |};
                Skill.body :=
                  lines [""; "# My Skill"; "";
                         "Describe what this skill does and when to use it."; ""];
                Skill.isInternal := false |})
    /\ (JString "my-skill" <> JString "my-skill" ->
        exists message,
          Skill.parseSkillMarkdown ToyYaml.parse (Init.renderSkillTemplate "my-skill")
            {| Skill.path := Some ["work"; "skills"; "my-skill"; "SKILL.md"];
               Skill.expectedName := None |}
          = Throw (SkillParseError message (Some "name"))).
Proof.
  eexists. split; [vm_compute; reflexivity|].
  refine (@init_descriptor_is_accepted_when_its_name_is_read_as_a_string
            {| Init.processCwd := ["work"] |} ["skills/my-skill"]
            {| Init.cwd := None; Init.yes := None; Init.confirmOverwrite := None |}
            {| Init.disk := Fs.Dir [("work", Fs.Dir [])]; Init.printed := [] |}
            _ ToyYaml.parse (JString "my-skill") _ _).
  - vm_compute. reflexivity.
  - vm_compute. reflexivity.
Defined.

(** [init] accepts the directory name [123]; a YAML reader that reads the
    line [name: 123] as the number makes the parser reject the descriptor
    [init] has just written. *)
Example init_accepts_a_name_the_parser_rejects :
  let readsNumbers := fun _ : string =>
    @inr string json
      (JObject [("name", JNumber 123); ("description", JString "123 description.")]) in
  fst (Init.runInitCommand {| Init.processCwd := ["work"] |} ["123"]
         {| Init.cwd := None; Init.yes := None; Init.confirmOverwrite := None |}
         {| Init.disk := Fs.Dir [("work", Fs.Dir [])]; Init.printed := [] |})
  = Ok 0%Z
  /\ Skill.parseSkillMarkdown readsNumbers (Init.renderSkillTemplate "123")
       {| Skill.path := Some ["work"; "123"; "SKILL.md"]; Skill.expectedName := None |}
     = Throw (SkillParseError "Field name must be a string" (Some "name")).
Proof. split; vm_compute; reflexivity. Qed.

(** X24.  [init] does not overwrite a descriptor without consent: when the
    target directory has a valid name and already holds a SKILL.md, and
    neither [yes] is set nor the confirmation callback agrees, the command
    returns 1, says so on the error stream, and leaves the disk as it
    was. *)
Theorem init_keeps_an_existing_descriptor
  (w : Init.World) (args : list string) (options : Init.RunInitCommandOptions)
  (s : Init.State) :
  let targetDir :=
    Init.resolveFrom (Js.orElse (Init.cwd options) (Init.processCwd w))
      (match args with first :: _ => first | [] => "." end) in
  let skillFilePath := Fs.join targetDir "SKILL.md" in
  Init.validateSkillName (Fs.basename targetDir) = None ->
  Fs.existsSync (Init.disk s) skillFilePath = true ->
  Init.yes options <> Some true ->
  (forall confirm, Init.confirmOverwrite options = Some confirm ->
                   confirm skillFilePath = false) ->
  Init.runInitCommand w args options s
  = (Ok 1%Z,
     {| Init.disk := Init.disk s;
        Init.printed :=
          Init.printed s
          ++ [Init.Stderr ("SKILL.md already exists at " ++ Fs.toString skillFilePath
                             ++ ". Use --yes to overwrite.")] |}).
Proof.
  intros targetDir skillFilePath Hvalid Hexists Hyes Hconfirm.
  unfold Init.runInitCommand. cbv zeta. fold targetDir. rewrite Hvalid.
  fold skillFilePath.
  assert (Hdir : Fs.mkdirSync (Init.disk s) targetDir = Ok (Init.disk s)).
  { unfold Fs.existsSync, Fs.statSync, Fs.resolve in Hexists.
    change skillFilePath with (targetDir ++ ["SKILL.md"]) in Hexists.
    destruct (Fs.resolveN (Init.disk s) true _ (targetDir ++ ["SKILL.md"])) as [x|] eqn:Hres;
      [|discriminate].
    destruct (resolveN_parent _ _ _ _ _ _ Hres) as (rp & es & Hparent).
    exact (mkdirSync_existing _ _ rp es Hparent). }
  cbv beta iota delta [bindM Init.onDisk Init.look Init.stderr ret].
  rewrite Hdir. cbn [Init.disk Init.printed]. rewrite Hexists.
  assert (Hrefused :
    negb match Init.yes options with Some true => true | _ => false end
    && negb match Init.confirmOverwrite options with
            | Some confirm => confirm skillFilePath
            | None => false
            end = true).
  { destruct (Init.yes options) as [[|]|]; [congruence| |];
      (destruct (Init.confirmOverwrite options) as [confirm|];
       [rewrite (Hconfirm confirm eq_refl)|]; reflexivity). }
  cbn [andb]. rewrite Hrefused. reflexivity.
Qed.

Lemma init_keeps_an_existing_descriptor_witness :
  Init.runInitCommand {| Init.processCwd := ["work"] |} ["my-skill"]
    {| Init.cwd := None; Init.yes := Some false;
       Init.confirmOverwrite := Some (fun _ => false) |}
    {| Init.disk := Fs.Dir [("work", Fs.Dir [("my-skill",
                               Fs.Dir [("SKILL.md", Fs.File "mine")])])];
       Init.printed := [] |}
  = (Ok 1%Z,
     {| Init.disk := Fs.Dir [("work", Fs.Dir [("my-skill",
                                Fs.Dir [("SKILL.md", Fs.File "mine")])])];
        Init.printed :=
          [Init.Stderr
             "SKILL.md already exists at /work/my-skill/SKILL.md. Use --yes to overwrite."] |}).
Proof.
  refine (@init_keeps_an_existing_descriptor
            {| Init.processCwd := ["work"] |} ["my-skill"]
            {| Init.cwd := None; Init.yes := Some false;
               Init.confirmOverwrite := Some (fun _ => false) |}
            {| Init.disk := Fs.Dir [("work", Fs.Dir [("my-skill",
                                       Fs.Dir [("SKILL.md", Fs.File "mine")])])];
               Init.printed := [] |}
            eq_refl eq_refl _ _).
  - discriminate.
  - intros confirm H. inversion H. reflexivity.
Defined.

(* ===================================================================== *)
(** * Agents: detection and the choice of targets *)
(* ===================================================================== *)

Section UniqueFacts.

Lemma unique_from (items seen : list string) :
  NoDup seen ->
  NoDup (fold_left (fun seen item => Lockfile.setAdd item seen) items seen)
  /\ forall x, In x (fold_left (fun seen item => Lockfile.setAdd item seen) items seen)
               <-> In x seen \/ In x items.
Proof.
  revert seen. induction items as [|item items IH]; intros seen Hseen; cbn [fold_left].
  - split; [exact Hseen|]. intros x. cbn [In]. tauto.
  - destruct (IH (Lockfile.setAdd item seen) (setAdd_NoDup item seen Hseen)) as [Hnodup Hin].
    split; [exact Hnodup|]. intros x. rewrite Hin, setAdd_In. cbn [In].
    intuition congruence.
Qed.

Lemma unique_NoDup (items : list string) : NoDup (Agents.unique items).
Proof. apply (unique_from items []). constructor. Qed.

Lemma unique_In (items : list string) (x : string) :
  In x (Agents.unique items) <-> In x items.
Proof.
  unfold Agents.unique. rewrite (proj2 (unique_from items [] (NoDup_nil _))). cbn [In].
  tauto.
Qed.

Lemma filter_nil_Forall {A} (p : A -> bool) (l : list A) :
  filter p l = [] <-> Forall (fun x => p x = false) l.
Proof.
  induction l as [|x l IH]; cbn [filter].
  - split; [constructor|reflexivity].
  - destruct (p x) eqn:Hx.
    + split; [discriminate|]. intros H. inversion H; congruence.
    + rewrite IH. split; [intros H; constructor; assumption|].
      intros H. inversion H; assumption.
Qed.

End UniqueFacts.

Section AgentFacts.
Variable w : Agents.World.

(** [normalizeAgents] lets through the lists of known agents, and only
    them. *)
Lemma normalizeAgents_spec (agents : list string) :
  (Forall (fun agent => Agents.isKnown agent = true) agents
   /\ Agents.normalizeAgents w agents
      = Agents.Return (Js.sortBy (Agents.localeCompare w) (Agents.unique agents)))
  \/ (Exists (fun agent => Agents.isKnown agent = false) agents
      /\ exists message, Agents.normalizeAgents w agents = Agents.AgentDetectionError message).
Proof.
  unfold Agents.normalizeAgents.
  destruct (filter (fun agent => negb (Agents.isKnown agent)) agents) as [|bad more] eqn:Hbad.
  - left. split; [|reflexivity]. apply filter_nil_Forall in Hbad.
    apply Forall_impl with (2 := Hbad). intros a Ha. apply negb_false_iff. exact Ha.
  - right. split; [|cbn; eauto].
    assert (Hin : In bad (filter (fun agent => negb (Agents.isKnown agent)) agents)).
    { rewrite Hbad. left. reflexivity. }
    apply filter_In in Hin as [Hin Hunknown]. apply Exists_exists. exists bad.
    split; [exact Hin|]. apply negb_true_iff. exact Hunknown.
Qed.

Lemma normalizeAgents_result (agents result : list string) :
  Agents.normalizeAgents w agents = Agents.Return result ->
  NoDup result
  /\ (forall agent, In agent result <-> In agent agents)
  /\ (forall agent, In agent result -> Agents.isKnown agent = true)
  /\ (LockSpec.consistent (Agents.localeCompare w) ->
      StronglySorted (fun a b => (Agents.localeCompare w a b <= 0)%Z) result).
Proof.
  intros Hrun.
  destruct (normalizeAgents_spec agents) as [[Hknown Heq]|[_ [message Heq]]];
    rewrite Heq in Hrun; [|discriminate].
  injection Hrun as <-.
  assert (Hin : forall agent,
             In agent (Js.sortBy (Agents.localeCompare w) (Agents.unique agents))
             <-> In agent agents).
  { intros agent. rewrite sortBy_In. apply unique_In. }
  split; [|split; [exact Hin|split]].
  - apply (Permutation_NoDup (sortBy_perm _ _)). apply unique_NoDup.
  - intros agent Hagent. apply Hin in Hagent. rewrite Forall_forall in Hknown. auto.
  - intros Hconsistent. apply sortBy_sorted.
    + intros a b. apply (compare_total _ Hconsistent).
    + intros a b c. apply Hconsistent.
Qed.

Variable d : Fs.node.
Variable options : Agents.PathOptions.

(** What the scan of one known agent adds. *)
Lemma detectAgent_spec (agent : string) (relativePath : Fs.path) :
  In (agent, relativePath) Lockfile.AGENT_SKILL_DIRS ->
  let cwd := Js.orElse (Agents.cwd options) (Agents.processCwd w) in
  let homeDir := Js.orElse (Agents.homeDir options) cwd in
  let found :=
    filter (fun location =>
              Agents.isDirectory d
                (AgentSpec.skillsDirectory cwd homeDir relativePath location))
           [Agents.inProject; Agents.inGlobal] in
  Agents.detectAgent d (Agents.getAgentPathMap w options) agent
  = if (0 <? List.length found)%nat
    then [{| Agents.agent := agent;
             Agents.locations := found;
             Agents.paths :=
               map (AgentSpec.skillsDirectory cwd homeDir relativePath) found |}]
    else [].
Proof.
  intros Hin. cbn [In Lockfile.AGENT_SKILL_DIRS] in Hin.
  destruct Hin as [H|[H|[H|[H|[H|[]]]]]]; inversion H; subst; clear H;
    cbv zeta; unfold Agents.detectAgent, Agents.getAgentPathMap, Fs.join;
    cbn [Lockfile.mapGet String.eqb Ascii.eqb Bool.eqb andb filter map Agents.pathAt
         Agents.project Agents.global AgentSpec.skillsDirectory];
    rewrite <- !app_assoc; reflexivity.
Qed.

End AgentFacts.

(** X25.  An agent is detected exactly when its skills directory exists,
    as a directory, below the working directory or below the home
    directory (the working directory when none is given): the directory
    the lockfile generator scans for that agent.  Every detected agent is
    listed once, with the locations found and their paths, in the order
    project, global. *)
Theorem agent_is_detected_by_its_skills_directory
  (w : Agents.World) (d : Fs.node) (options : Agents.PathOptions) :
  let cwd := Js.orElse (Agents.cwd options) (Agents.processCwd w) in
  let homeDir := Js.orElse (Agents.homeDir options) cwd in
  let detected := Agents.detectInstalledAgents w d options in
  NoDup (map Agents.agent detected)
  /\ (forall agent relativePath,
        In (agent, relativePath) Lockfile.AGENT_SKILL_DIRS ->
        ((exists found, In found detected /\ Agents.agent found = agent)
         <-> Agents.isDirectory d (cwd ++ relativePath) = true
             \/ Agents.isDirectory d (homeDir ++ relativePath) = true))
  /\ (forall found,
        In found detected ->
        exists relativePath,
          In (Agents.agent found, relativePath) Lockfile.AGENT_SKILL_DIRS
          /\ Agents.locations found
             = filter (fun location =>
                         Agents.isDirectory d
                           (AgentSpec.skillsDirectory cwd homeDir relativePath location))
                      [Agents.inProject; Agents.inGlobal]
          /\ Agents.locations found <> []
          /\ Agents.paths found
             = map (AgentSpec.skillsDirectory cwd homeDir relativePath)
                   (Agents.locations found)).
Proof.
  intros cwd homeDir detected.
  set (one := fun entry : string * Fs.path =>
                Agents.detectAgent d (Agents.getAgentPathMap w options) (fst entry)).
  assert (Hscan : flat_map (Agents.detectAgent d (Agents.getAgentPathMap w options))
                           Agents.KNOWN_AGENTS
                  = flat_map one Lockfile.AGENT_SKILL_DIRS) by reflexivity.
  assert (Hone : forall entry found,
             In entry Lockfile.AGENT_SKILL_DIRS -> In found (one entry) ->
             Agents.agent found = fst entry
             /\ one entry = [found]
             /\ Agents.locations found
                = filter (fun location =>
                            Agents.isDirectory d
                              (AgentSpec.skillsDirectory cwd homeDir (snd entry) location))
                         [Agents.inProject; Agents.inGlobal]
             /\ Agents.locations found <> []
             /\ Agents.paths found
                = map (AgentSpec.skillsDirectory cwd homeDir (snd entry))
                      (Agents.locations found)).
  { intros [agent rel] found Hentry Hfound. subst one. cbn [fst snd] in *.
    rewrite (detectAgent_spec w d options agent rel Hentry) in *. cbv zeta in *.
    fold cwd homeDir in Hfound |- *.
    destruct (filter _ [Agents.inProject; Agents.inGlobal]) as [|l ls] eqn:Hfilter;
      cbn [List.length Nat.ltb Nat.leb] in *; [contradiction|].
    destruct Hfound as [<-|[]]. cbn [Agents.agent Agents.locations Agents.paths].
    repeat split; discriminate. }
  assert (Hin : forall found,
             In found detected
             <-> exists entry, In entry Lockfile.AGENT_SKILL_DIRS /\ In found (one entry)).
  { intros found. subst detected. unfold Agents.detectInstalledAgents.
    rewrite sortBy_In, Hscan, in_flat_map. reflexivity. }
  split; [|split].
  - subst detected. unfold Agents.detectInstalledAgents. rewrite Hscan.
    apply (Permutation_NoDup (Permutation_map _ (sortBy_perm _ _))).
    assert (Hnames : forall entries : list (string * Fs.path),
               incl entries Lockfile.AGENT_SKILL_DIRS -> NoDup (map fst entries) ->
               NoDup (map Agents.agent (flat_map one entries))
               /\ incl (map Agents.agent (flat_map one entries)) (map fst entries)).
    { induction entries as [|entry entries IH]; intros Hincl Hnodup.
      - split; [constructor|intros ? []].
      - cbn [flat_map map] in *. inversion Hnodup as [|? ? Hfresh Hrest]; subst.
        destruct (IH (fun x Hx => Hincl x (or_intror Hx)) Hrest) as [IHn IHi].
        destruct (one entry) as [|found more] eqn:Hentry.
        + cbn [app]. split; [exact IHn|]. intros x Hx. right. exact (IHi x Hx).
        + destruct (Hone entry found (Hincl entry (or_introl eq_refl)))
            as (Hagent & Honly & _); [rewrite Hentry; left; reflexivity|].
          rewrite Hentry in Honly. injection Honly as ->. cbn [app map].
          rewrite Hagent. split.
          * constructor; [|exact IHn]. intros Hx. apply Hfresh. exact (IHi _ Hx).
          * intros x [<-|Hx]; [left; reflexivity|right; exact (IHi x Hx)]. }
    apply Hnames; [intros x Hx; exact Hx|].
    cbn. repeat constructor; cbn; intuition discriminate.
  - intros agent rel Hentry. split.
    + intros (found & Hfound & Hagent). apply Hin in Hfound as (entry & Hentry' & Hfound).
      destruct (Hone entry found Hentry' Hfound) as (Hname & _ & Hlocations & Hsome & _).
      assert (Hsame : entry = (agent, rel)).
      { assert (Ha : fst entry = agent) by congruence. clear - Hentry Hentry' Ha.
        destruct entry as [a r]. cbn [fst] in Ha. subst a.
        cbn [In Lockfile.AGENT_SKILL_DIRS] in *.
        destruct Hentry as [H|[H|[H|[H|[H|[]]]]]]; inversion H; subst; clear H;
          destruct Hentry' as [H|[H|[H|[H|[H|[]]]]]]; inversion H; subst; reflexivity. }
      subst entry. cbn [snd] in *. rewrite Hlocations in Hsome. cbn [filter] in Hsome.
      cbn [AgentSpec.skillsDirectory] in Hsome.
      destruct (Agents.isDirectory d (cwd ++ rel)); [left; reflexivity|].
      destruct (Agents.isDirectory d (homeDir ++ rel)); [right; reflexivity|].
      contradiction.
    + intros Hdir.
      pose proof (detectAgent_spec w d options agent rel Hentry) as Hspec. cbv zeta in Hspec.
      fold cwd homeDir in Hspec. cbn [filter AgentSpec.skillsDirectory] in Hspec.
      assert (Hsome : exists found, one (agent, rel) = [found] /\ Agents.agent found = agent).
      { subst one. cbn [fst]. rewrite Hspec.
        destruct (Agents.isDirectory d (cwd ++ rel)) eqn:Hproject;
          destruct (Agents.isDirectory d (homeDir ++ rel)) eqn:Hglobal;
          cbn [List.length Nat.ltb Nat.leb];
          try (eexists; split; reflexivity).
        destruct Hdir; discriminate. }
      destruct Hsome as (found & Hfound & Hagent). exists found. split; [|exact Hagent].
      apply Hin. exists (agent, rel). split; [exact Hentry|]. rewrite Hfound. left.
      reflexivity.
  - intros found Hfound. apply Hin in Hfound as ([agent rel] & Hentry & Hfound).
    destruct (Hone _ found Hentry Hfound) as (Hname & _ & Hlocations & Hsome & Hpaths).
    cbn [fst snd] in *. exists rel. rewrite Hname. auto.
Qed.

(** X26.  The agents [resolveTargetAgents] returns are known agents, each
    once, in the order of their names, and come from one origin: the
    explicit agents when some are given, whatever is installed; else the
    detected agents when some are detected.  Explicit agents with an
    unknown name among them are refused. *)
Theorem target_agents_are_known_and_come_from_one_origin
  (w : Agents.World) (d : Fs.node) (options : Agents.ResolveTargetAgentsOptions) :
  let detected := Agents.detectInstalledAgents w d (Agents.where_ options) in
  (forall agents,
      Agents.resolveTargetAgents w d options = Agents.Return agents ->
      NoDup agents
      /\ (forall agent, In agent agents -> Agents.isKnown agent = true)
      /\ (LockSpec.consistent (Agents.localeCompare w) ->
          StronglySorted (fun a b => (Agents.localeCompare w a b <= 0)%Z) agents)
      /\ (forall explicit,
            Agents.explicitAgents options = Some explicit -> explicit <> [] ->
            forall agent, In agent agents <-> In agent explicit)
      /\ (Agents.explicitAgents options = None
          \/ Agents.explicitAgents options = Some [] ->
          detected <> [] ->
          forall agent,
            In agent agents
            <-> exists found, In found detected /\ Agents.agent found = agent))
  /\ (forall explicit,
        Agents.explicitAgents options = Some explicit ->
        Exists (fun agent => Agents.isKnown agent = false) explicit ->
        exists message,
          Agents.resolveTargetAgents w d options = Agents.AgentDetectionError message).
Proof.
  intros detected. split.
  - intros agents Hrun. unfold Agents.resolveTargetAgents in Hrun. fold detected in Hrun.
    assert (Hdetected : (0 <? List.length (map Agents.agent detected))%nat = false ->
                        detected = []).
    { destruct detected; cbn; [reflexivity|discriminate]. }
    assert (Hnames : forall agent,
               In agent (map Agents.agent detected)
               <-> exists found, In found detected /\ Agents.agent found = agent).
    { intros agent. rewrite in_map_iff. split; intros (found & H1 & H2); eauto. }
    destruct (Agents.explicitAgents options) as [[|first more]|] eqn:Hexplicit.
    + destruct (0 <? List.length (map Agents.agent detected))%nat eqn:Hsome.
      * destruct (normalizeAgents_result w _ _ Hrun) as (H1 & H2 & H3 & H4).
        split; [exact H1|]. split; [exact H3|]. split; [exact H4|]. split.
        -- intros explicit Heq Hne. inversion Heq; subst. contradiction.
        -- intros _ _ agent. rewrite H2. apply Hnames.
      * destruct (Agents.promptWhenNone options) as [prompt|]; [|discriminate].
        destruct (normalizeAgents_result w _ _ Hrun) as (H1 & H2 & H3 & H4).
        split; [exact H1|]. split; [exact H3|]. split; [exact H4|]. split.
        -- intros explicit Heq Hne. inversion Heq; subst. contradiction.
        -- intros _ Hne. exfalso. apply Hne, Hdetected. reflexivity.
    + destruct (normalizeAgents_result w _ _ Hrun) as (H1 & H2 & H3 & H4).
      split; [exact H1|]. split; [exact H3|]. split; [exact H4|]. split.
      * intros explicit Heq _. inversion Heq; subst. exact H2.
      * intros [H|H]; discriminate.
    + destruct (0 <? List.length (map Agents.agent detected))%nat eqn:Hsome.
      * destruct (normalizeAgents_result w _ _ Hrun) as (H1 & H2 & H3 & H4).
        split; [exact H1|]. split; [exact H3|]. split; [exact H4|]. split.
        -- intros explicit Heq. discriminate.
        -- intros _ _ agent. rewrite H2. apply Hnames.
      * destruct (Agents.promptWhenNone options) as [prompt|]; [|discriminate].
        destruct (normalizeAgents_result w _ _ Hrun) as (H1 & H2 & H3 & H4).
        split; [exact H1|]. split; [exact H3|]. split; [exact H4|]. split.
        -- intros explicit Heq. discriminate.
        -- intros _ Hne. exfalso. apply Hne, Hdetected. reflexivity.
  - intros explicit Hexplicit Hunknown. unfold Agents.resolveTargetAgents.
    rewrite Hexplicit. destruct explicit as [|first more]; [inversion Hunknown|].
    destruct (normalizeAgents_spec w (first :: more)) as [[Hknown _]|[_ Hrefused]];
      [|exact Hrefused].
    apply Exists_exists in Hunknown as (agent & Hin & Hagent).
    rewrite Forall_forall in Hknown. rewrite (Hknown agent Hin) in Hagent. discriminate.
Qed.

(* ===================================================================== *)
(** * The add command: discovery and selection *)
(* ===================================================================== *)

Section DiscoveryFacts.
Variable w : AddCommand.World.
Variable d : Fs.node.

(** What [addFromDirectory] keeps: the names seen are those of the skills
    found, each once, and every skill found is held by its directory. *)
Lemma addFromDirectory_kept (state : list string * list AddCommand.SourceSkill)
      (skillDir : Fs.path) :
  fst state = map AddCommand.name (snd state) ->
  NoDup (fst state) ->
  Forall (fun skill => AddSpec.holdsSkill w d (AddCommand.path skill)
                         (AddCommand.name skill) (AddCommand.description skill))
         (snd state) ->
  let state' := AddCommand.addFromDirectory w d state skillDir in
  fst state' = map AddCommand.name (snd state')
  /\ NoDup (fst state')
  /\ Forall (fun skill => AddSpec.holdsSkill w d (AddCommand.path skill)
                            (AddCommand.name skill) (AddCommand.description skill))
            (snd state').
Proof.
  destruct state as [seen skills]. cbn [fst snd]. intros Hseen Hnodup Hall.
  unfold AddCommand.addFromDirectory.
  destruct (AddCommand.isFile d (Fs.join skillDir "SKILL.md")) eqn:Hfile; cbn [negb];
    [|cbn [fst snd]; auto].
  destruct (Fs.readFileSync d (Fs.join skillDir "SKILL.md")) as [text|e] eqn:Hread;
    cbn [bind]; [|cbn [fst snd]; auto].
  destruct (Skill.parseSkillMarkdown _ text _) as [parsed|e] eqn:Hparse;
    [|cbn [fst snd]; auto].
  destruct (existsb (String.eqb (Skill.name (Skill.frontmatter parsed))) seen) eqn:Hold;
    cbn [fst snd]; [auto|].
  split; [|split].
  - rewrite map_app, Hseen. reflexivity.
  - apply NoDup_app_remove_l with (l := []). cbn [app].
    apply (Permutation_NoDup (l := Skill.name (Skill.frontmatter parsed) :: seen)).
    + apply Permutation_cons_append.
    + constructor; [|exact Hnodup]. intros Hin. apply existsb_eqb_In in Hin. congruence.
  - apply Forall_app. split; [exact Hall|]. constructor; [|constructor].
    cbn [AddCommand.path AddCommand.name AddCommand.description].
    exists text, parsed. auto.
Qed.

Lemma addFromDirectory_fold (dirs : list Fs.path) :
  forall state : list string * list AddCommand.SourceSkill,
    fst state = map AddCommand.name (snd state) ->
    NoDup (fst state) ->
    Forall (fun skill => AddSpec.holdsSkill w d (AddCommand.path skill)
                           (AddCommand.name skill) (AddCommand.description skill))
           (snd state) ->
    let state' := fold_left (AddCommand.addFromDirectory w d) dirs state in
    fst state' = map AddCommand.name (snd state')
    /\ NoDup (fst state')
    /\ Forall (fun skill => AddSpec.holdsSkill w d (AddCommand.path skill)
                              (AddCommand.name skill) (AddCommand.description skill))
              (snd state').
Proof.
  induction dirs as [|skillDir dirs IH]; intros state H1 H2 H3; cbn [fold_left].
  - auto.
  - destruct (addFromDirectory_kept state skillDir H1 H2 H3) as (K1 & K2 & K3).
    exact (IH _ K1 K2 K3).
Qed.

(** A descriptor that parses under its path names its directory. *)
Lemma holdsSkill_named (skillDir : Fs.path) (name description : string) :
  AddSpec.holdsSkill w d skillDir name description ->
  Fs.basename skillDir <> "" -> Fs.basename skillDir <> "/" ->
  name = Fs.basename skillDir.
Proof.
  intros (text & parsed & _ & _ & Hparse & <- & _) Hempty Hslash.
  unfold Skill.parseSkillMarkdown in Hparse.
  destruct (Skill.splitFrontmatter text) as [[frontmatterText body]|e]; [|discriminate].
  cbn [bind] in Hparse.
  destruct (AddCommand.parseYaml w frontmatterText) as [message|data]; [discriminate|].
  cbn [bind] in Hparse. destruct data as [| | | | | record]; try discriminate.
  cbn [bind] in Hparse.
  destruct (Skill.readStringField record "name" true) as [name|e]; [|discriminate].
  cbn [bind] in Hparse.
  destruct (Skill.readStringField record "description" true) as [description'|e];
    [|discriminate]. cbn [bind] in Hparse.
  destruct (Skill.readStringField record "license" false) as [license|e]; [|discriminate].
  cbn [bind] in Hparse.
  destruct (Skill.readStringField record "compatibility" false) as [compatibility|e];
    [|discriminate]. cbn [bind] in Hparse.
  destruct (Skill.readAllowedTools record) as [allowedTools|e]; [|discriminate].
  cbn [bind] in Hparse.
  destruct (Skill.normalizeMetadata (Json.get record "metadata")) as [metadata|e];
    [|discriminate]. cbn [bind Skill.expectedName Skill.path] in Hparse.
  unfold Fs.join in Hparse. cbn [String.eqb Ascii.eqb Bool.eqb andb] in Hparse.
  match type of Hparse with
  | context [Skill.deriveExpectedName ?p] =>
      replace (Skill.deriveExpectedName p) with (Some (Fs.basename skillDir)) in Hparse
        by (symmetry; exact (deriveExpectedName_child skillDir "SKILL.md" Hempty Hslash))
  end.
  destruct (Skill.validateName (Js.orElse name "") (Some (Fs.basename skillDir)))
    as [[]|e] eqn:Hvalid; [|discriminate]. cbn [bind] in Hparse.
  destruct (Skill.validateDescription _) as [[]|e]; [|discriminate]. cbn [bind] in Hparse.
  destruct (Skill.validateCompatibility _) as [[]|e]; [|discriminate]. cbn [bind] in Hparse.
  injection Hparse as <-. cbn [Skill.frontmatter Skill.name].
  unfold Skill.validateName in Hvalid.
  destruct (_ || _); [discriminate|]. destruct (negb _); [discriminate|].
  destruct (String.eqb_spec (Fs.basename skillDir) ""); [contradiction|]. cbn [negb andb] in Hvalid.
  destruct (String.eqb_spec (Js.orElse name "") (Fs.basename skillDir)); [assumption|].
  discriminate.
Qed.

End DiscoveryFacts.

(** X27.  The skills [discoverSourceSkills] finds in a source have
    pairwise distinct names and come in the order of their names; each is
    held by its directory: the SKILL.md there is a file that parses to the
    name and description listed, and the name is the name of the
    directory (for a directory whose last component is neither empty nor a
    slash, as the parser derives the expected name). *)
Theorem discovered_skills_are_valid_and_distinct
  (w : AddCommand.World) (d : Fs.node) (contentPath : Fs.path)
  (skills : list AddCommand.SourceSkill) :
  AddCommand.discoverSourceSkills w d contentPath = Ok skills ->
  NoDup (map AddCommand.name skills)
  /\ (LockSpec.consistent (AddCommand.localeCompare w) ->
      StronglySorted
        (fun a b => (AddCommand.localeCompare w (AddCommand.name a) (AddCommand.name b)
                     <= 0)%Z) skills)
  /\ forall skill,
       In skill skills ->
       AddSpec.holdsSkill w d (AddCommand.path skill) (AddCommand.name skill)
         (AddCommand.description skill)
       /\ (Fs.basename (AddCommand.path skill) <> "" ->
           Fs.basename (AddCommand.path skill) <> "/" ->
           AddCommand.name skill = Fs.basename (AddCommand.path skill)).
Proof.
  unfold AddCommand.discoverSourceSkills.
  destruct (AddCommand.collectCandidates d _ []) as [candidates|e]; cbn [bind];
    [|discriminate].
  set (sorted := Js.sortBy _ candidates).
  destruct (addFromDirectory_fold w d sorted ([], []) eq_refl (NoDup_nil _)
              (Forall_nil _)) as (K1 & K2 & K3).
  set (state := fold_left (AddCommand.addFromDirectory w d) sorted ([], [])) in *.
  assert (Hfinal : forall state' : list string * list AddCommand.SourceSkill,
             fst state' = map AddCommand.name (snd state') ->
             NoDup (fst state') ->
             Forall (fun skill => AddSpec.holdsSkill w d (AddCommand.path skill)
                                    (AddCommand.name skill) (AddCommand.description skill))
                    (snd state') ->
             Ok (Js.sortBy (fun left right =>
                              AddCommand.localeCompare w (AddCommand.name left)
                                (AddCommand.name right)) (snd state')) = Ok skills ->
             NoDup (map AddCommand.name skills)
             /\ (LockSpec.consistent (AddCommand.localeCompare w) ->
                 StronglySorted
                   (fun a b => (AddCommand.localeCompare w (AddCommand.name a)
                                  (AddCommand.name b) <= 0)%Z) skills)
             /\ forall skill,
                  In skill skills ->
                  AddSpec.holdsSkill w d (AddCommand.path skill) (AddCommand.name skill)
                    (AddCommand.description skill)
                  /\ (Fs.basename (AddCommand.path skill) <> "" ->
                      Fs.basename (AddCommand.path skill) <> "/" ->
                      AddCommand.name skill = Fs.basename (AddCommand.path skill))).
  { intros state' H1 H2 H3 Heq. injection Heq as <-. split; [|split].
    - apply (Permutation_NoDup (Permutation_map _ (sortBy_perm _ _))).
      rewrite <- H1. exact H2.
    - intros Hconsistent.
      apply (sortBy_sorted
               (fun left right => AddCommand.localeCompare w (AddCommand.name left)
                                    (AddCommand.name right))).
      + intros a b. apply (compare_total _ Hconsistent).
      + intros a b c. apply Hconsistent.
    - intros skill Hin. apply sortBy_In in Hin. rewrite Forall_forall in H3.
      specialize (H3 skill Hin). split; [exact H3|].
      apply (holdsSkill_named w d _ _ _ H3). }
  destruct (List.length (snd state) =? 0)%nat.
  - destruct (AddCommand.findSkillFiles w d contentPath) as [skillFiles|e]; cbn [bind];
      [|discriminate].
    destruct (addFromDirectory_fold w d (map Fs.dirname skillFiles) state K1 K2 K3)
      as (L1 & L2 & L3).
    apply Hfinal; assumption.
  - cbn [bind]. apply Hfinal; assumption.
Qed.

Lemma discovered_skills_are_valid_and_distinct_witness :
  exists skills,
    AddCommand.discoverSourceSkills
      {| AddCommand.localeCompare := LockSpec.codeUnitCompare;
         AddCommand.parseYaml := ToyYaml.parse |}
      InstallSamples.freshDisk ["src"] = Ok skills
    /\ map AddCommand.name skills = ["alpha"]
    /\ map AddCommand.path skills = [["src"; "alpha"]]
    /\ NoDup (map AddCommand.name skills)
    /\ forall skill,
         In skill skills ->
         AddSpec.holdsSkill
           {| AddCommand.localeCompare := LockSpec.codeUnitCompare;
              AddCommand.parseYaml := ToyYaml.parse |}
           InstallSamples.freshDisk (AddCommand.path skill) (AddCommand.name skill)
           (AddCommand.description skill)
         /\ (Fs.basename (AddCommand.path skill) <> "" ->
             Fs.basename (AddCommand.path skill) <> "/" ->
             AddCommand.name skill = Fs.basename (AddCommand.path skill)).
Proof.
  destruct (AddCommand.discoverSourceSkills
              {| AddCommand.localeCompare := LockSpec.codeUnitCompare;
                 AddCommand.parseYaml := ToyYaml.parse |}
              InstallSamples.freshDisk ["src"]) as [skills|e] eqn:Hrun;
    [|vm_compute in Hrun; discriminate].
  exists skills. split; [reflexivity|].
  destruct (discovered_skills_are_valid_and_distinct _ _ _ _ Hrun) as (Hdistinct & _ & Hheld).
  split; [vm_compute in Hrun; injection Hrun as <-; reflexivity|].
  split; [vm_compute in Hrun; injection Hrun as <-; reflexivity|].
  split; [exact Hdistinct|exact Hheld].
Defined.

(** X28.  What [selectSkills] selects is available.  With [*] among the
    requested names everything available is selected.  With requested
    names and no [*], the selection is the available skills that are
    requested when every requested name is available, and every requested
    name is then selected; when a requested name is not available the call
    throws and nothing is selected. *)
Theorem requested_skills_are_selected_or_reported
  (w : AddCommand.World) (parsed : AddCommand.ParsedAddArgs)
  (available : list AddCommand.SourceSkill)
  (prompt : option (list string -> list string)) :
  let requested := AddCommand.skills parsed in
  let outcome := AddCommand.selectSkills w parsed available prompt in
  (forall selected, outcome = Ok selected -> incl selected available)
  /\ (In "*" requested -> outcome = Ok available)
  /\ (requested <> [] -> ~ In "*" requested ->
      ((forall name, In name requested ->
                     exists skill, In skill available /\ AddCommand.name skill = name) ->
       exists selected,
         outcome = Ok selected
         /\ (forall skill, In skill selected
                           <-> In skill available /\ In (AddCommand.name skill) requested)
         /\ (forall name, In name requested ->
                          exists skill, In skill selected /\ AddCommand.name skill = name))
      /\ ((exists name, In name requested
                        /\ forall skill, In skill available -> AddCommand.name skill <> name) ->
          exists message, outcome = Throw (GenericError message))).
Proof.
  intros requested outcome.
  assert (Hincludes : forall (l : list string) x, existsb (String.eqb x) l = true <-> In x l).
  { intros l x. apply existsb_eqb_In. }
  assert (Hnames : forall name,
             existsb (String.eqb name) (map AddCommand.name available) = true
             <-> exists skill, In skill available /\ AddCommand.name skill = name).
  { intros name. rewrite Hincludes, in_map_iff. split; intros (skill & H1 & H2); eauto. }
  assert (Hfilter : forall (p : AddCommand.SourceSkill -> bool), incl (filter p available) available).
  { intros p skill Hin. apply filter_In in Hin. tauto. }
  split; [|split].
  - intros selected. subst outcome. unfold AddCommand.selectSkills.
    destruct (existsb (String.eqb "*") (AddCommand.skills parsed)).
    { intros H; injection H as <-. apply incl_refl. }
    destruct (0 <? List.length (AddCommand.skills parsed))%nat.
    { destruct (0 <? List.length (filter _ (AddCommand.skills parsed)))%nat; [discriminate|].
      intros H; injection H as <-. apply Hfilter. }
    destruct (AddCommand.yes parsed).
    { intros H; injection H as <-. apply incl_refl. }
    destruct prompt as [ask|].
    + destruct (List.length _ =? 0)%nat; [discriminate|].
      destruct (0 <? List.length (filter _ _))%nat; [discriminate|].
      intros H; injection H as <-. apply Hfilter.
    + intros H; injection H as <-. apply incl_refl.
  - intros Hstar. subst outcome. unfold AddCommand.selectSkills.
    apply Hincludes in Hstar. fold requested. rewrite Hstar. reflexivity.
  - intros Hsome Hnostar.
    assert (Hstar : existsb (String.eqb "*") requested = false).
    { destruct (existsb (String.eqb "*") requested) eqn:E; [|reflexivity].
      apply Hincludes in E. contradiction. }
    assert (Hlen : (0 <? List.length requested)%nat = true).
    { destruct requested; [contradiction|reflexivity]. }
    subst outcome. unfold AddCommand.selectSkills. fold requested.
    rewrite Hstar, Hlen.
    set (missing := filter (fun n => negb (existsb (String.eqb n)
                                             (map AddCommand.name available))) requested).
    split.
    + intros Hall.
      assert (Hmissing : missing = []).
      { apply filter_nil_Forall. apply Forall_forall. intros name Hin.
        apply negb_false_iff. apply Hnames. exact (Hall name Hin). }
      rewrite Hmissing. cbn [List.length Nat.ltb Nat.leb]. eexists. split; [reflexivity|].
      split.
      * intros skill. rewrite filter_In, Hincludes. reflexivity.
      * intros name Hin. destruct (Hall name Hin) as (skill & Hskill & <-).
        exists skill. split; [|reflexivity]. apply filter_In. split; [exact Hskill|].
        apply Hincludes. exact Hin.
    + intros (name & Hin & Hnone).
      assert (Hmissing : In name missing).
      { apply filter_In. split; [exact Hin|]. apply negb_true_iff.
        destruct (existsb (String.eqb name) (map AddCommand.name available)) eqn:E;
          [|reflexivity].
        apply Hnames in E as (skill & Hskill & Hname). exfalso. exact (Hnone skill Hskill Hname). }
      destruct missing as [|m ms]; [contradiction|].
      cbn [List.length Nat.ltb Nat.leb]. eauto.
Qed.

Section ArgumentFacts.
Import Text.

Lemma splitListValue_items (value : string) :
  Forall (fun item => item <> "" /\ trimmed item) (AddCommand.splitListValue value).
Proof.
  unfold AddCommand.splitListValue. apply Forall_forall. intros item Hin.
  apply filter_In in Hin as [Hin Hlen]. apply in_map_iff in Hin as (piece & <- & _).
  split.
  - intros Hempty. rewrite Hempty in Hlen. discriminate.
  - apply trim_idempotent.
Qed.

Lemma addAgents_result (agentValues agents result : list string) :
  AddCommand.addAgents agentValues agents = Ok result ->
  Forall (fun agent => Agents.isKnown agent = true) agents ->
  Forall (fun agent => Agents.isKnown agent = true) result.
Proof.
  revert agents. induction agentValues as [|agent rest IH]; intros agents;
    cbn [AddCommand.addAgents].
  - intros H; injection H as <-. auto.
  - destruct (String.eqb agent "*").
    + intros Hrest _. apply (IH _ Hrest). repeat constructor.
    + destruct (Agents.isKnown agent) eqn:Hagent; cbn [negb]; [|discriminate].
      intros Hrest Hknown. apply (IH _ Hrest). apply Forall_app. split; [exact Hknown|].
      repeat constructor. exact Hagent.
Qed.

(** What the loop of [parseAddArgs] keeps. *)
Lemma parseLoop_kept (all : list string) (args : list string) :
  forall parsed result : AddCommand.ParsedAddArgs,
    incl args all ->
    AddCommand.parseLoop args parsed = Ok result ->
    Forall (fun agent => Agents.isKnown agent = true) (AddCommand.agents parsed) ->
    Forall (fun item => item <> "" /\ trimmed item) (AddCommand.skills parsed) ->
    (AddCommand.all parsed = true ->
     AddCommand.yes parsed = true /\ In "*" (AddCommand.skills parsed)) ->
    (forall source, AddCommand.source parsed = Some source ->
                    In source all /\ Js.startsWith source "-" = false) ->
    Forall (fun agent => Agents.isKnown agent = true) (AddCommand.agents result)
    /\ Forall (fun item => item <> "" /\ trimmed item) (AddCommand.skills result)
    /\ (AddCommand.all result = true ->
        AddCommand.yes result = true /\ In "*" (AddCommand.skills result))
    /\ (forall source, AddCommand.source result = Some source ->
                       In source all /\ Js.startsWith source "-" = false).
Proof.
  remember (List.length args) as size eqn:Hsize.
  assert (Hbound : List.length args <= size) by lia. clear Hsize.
  revert args Hbound. induction size as [|size IHsize]; intros args Hbound.
  { destruct args; [|cbn in Hbound; lia]. cbn [AddCommand.parseLoop].
    intros parsed result _ H; injection H as <-. auto. }
  assert (IH : forall shorter, List.length shorter < List.length args ->
               forall parsed result : AddCommand.ParsedAddArgs,
                 incl shorter all ->
                 AddCommand.parseLoop shorter parsed = Ok result ->
                 Forall (fun agent => Agents.isKnown agent = true)
                        (AddCommand.agents parsed) ->
                 Forall (fun item => item <> "" /\ trimmed item)
                        (AddCommand.skills parsed) ->
                 (AddCommand.all parsed = true ->
                  AddCommand.yes parsed = true /\ In "*" (AddCommand.skills parsed)) ->
                 (forall source, AddCommand.source parsed = Some source ->
                                 In source all /\ Js.startsWith source "-" = false) ->
                 Forall (fun agent => Agents.isKnown agent = true)
                        (AddCommand.agents result)
                 /\ Forall (fun item => item <> "" /\ trimmed item)
                           (AddCommand.skills result)
                 /\ (AddCommand.all result = true ->
                     AddCommand.yes result = true /\ In "*" (AddCommand.skills result))
                 /\ (forall source, AddCommand.source result = Some source ->
                                    In source all /\ Js.startsWith source "-" = false)).
  { intros shorter Hshorter. apply IHsize. lia. }
  clear IHsize Hbound.
  intros parsed result Hincl. destruct args as [|token rest]; cbn [AddCommand.parseLoop].
  - intros H; injection H as <-. auto.
  - assert (Hrest : forall more, incl more rest -> incl more all).
    { intros more Hmore x Hx. apply Hincl. right. exact (Hmore x Hx). }
    assert (Hnext : forall parsed',
               AddCommand.parseLoop rest parsed' = Ok result ->
               Forall (fun agent => Agents.isKnown agent = true) (AddCommand.agents parsed') ->
               Forall (fun item => item <> "" /\ trimmed item) (AddCommand.skills parsed') ->
               (AddCommand.all parsed' = true ->
                AddCommand.yes parsed' = true /\ In "*" (AddCommand.skills parsed')) ->
               (forall source, AddCommand.source parsed' = Some source ->
                               In source all /\ Js.startsWith source "-" = false) ->
               Forall (fun agent => Agents.isKnown agent = true) (AddCommand.agents result)
               /\ Forall (fun item => item <> "" /\ trimmed item) (AddCommand.skills result)
               /\ (AddCommand.all result = true ->
                   AddCommand.yes result = true /\ In "*" (AddCommand.skills result))
               /\ (forall source, AddCommand.source result = Some source ->
                                  In source all /\ Js.startsWith source "-" = false)).
    { intros parsed'. apply (IH rest); [cbn; lia|]. apply Hrest. apply incl_refl. }
    destruct (String.eqb token "--list" || String.eqb token "-l").
    { intros Hrun H1 H2 H3 H4. apply (Hnext _ Hrun); assumption. }
    destruct (String.eqb token "--all").
    { intros Hrun H1 H2 H3 H4. apply (Hnext _ Hrun); cbn; try assumption.
      - repeat constructor; discriminate.
      - intros _. auto. }
    destruct (String.eqb token "-g" || String.eqb token "--global").
    { intros Hrun H1 H2 H3 H4. apply (Hnext _ Hrun); assumption. }
    destruct (String.eqb token "-y" || String.eqb token "--yes").
    { intros Hrun H1 H2 H3 H4. apply (Hnext _ Hrun); cbn; try assumption.
      intros Hall. split; [reflexivity|]. exact (proj2 (H3 Hall)). }
    destruct (String.eqb token "--copy").
    { intros Hrun H1 H2 H3 H4. apply (Hnext _ Hrun); assumption. }
    destruct (String.eqb token "-s" || String.eqb token "--skill").
    { destruct rest as [|value rest']; [discriminate|].
      destruct (String.eqb value ""); [discriminate|].
      intros Hrun H1 H2 H3 H4.
      apply (IH rest' ltac:(cbn; lia) _ result (Hrest _ (incl_tl _ (incl_refl _))) Hrun);
        cbn; try assumption.
      - apply Forall_app. split; [exact H2|apply splitListValue_items].
      - intros Hall. destruct (H3 Hall) as [Hyes Hstar]. split; [exact Hyes|].
        apply in_or_app. left. exact Hstar. }
    destruct (String.eqb token "-a" || String.eqb token "--agent").
    { destruct rest as [|value rest']; [discriminate|].
      destruct (String.eqb value ""); [discriminate|].
      destruct (AddCommand.addAgents _ (AddCommand.agents parsed)) as [agents'|e] eqn:Hadd;
        cbn [bind]; [|discriminate].
      intros Hrun H1 H2 H3 H4.
      apply (IH rest' ltac:(cbn; lia) _ result (Hrest _ (incl_tl _ (incl_refl _))) Hrun);
        cbn; try assumption.
      exact (addAgents_result _ _ _ Hadd H1). }
    destruct (Js.startsWith token "-") eqn:Hdash; [discriminate|].
    destruct (negb (Js.truthy (AddCommand.source parsed))); [|discriminate].
    intros Hrun H1 H2 H3 H4. apply (Hnext _ Hrun); cbn; try assumption.
    intros source Hsource. injection Hsource as <-. split; [|exact Hdash].
    apply Hincl. left. reflexivity.
Qed.

End ArgumentFacts.

(** X30.  What [parseAddArgs] lets through: the agents are known agents
    and the skills non-empty names without white ends, each list without
    repetitions and in the order of its members; the source is one of the
    arguments and does not start with a hyphen; and [all] comes with
    [yes] and with [*] among the skills. *)
Theorem add_arguments_are_checked
  (w : AddCommand.World) (args : list string) (parsed : AddCommand.ParsedAddArgs) :
  AddCommand.parseAddArgs w args = Ok parsed ->
  NoDup (AddCommand.agents parsed)
  /\ (forall agent, In agent (AddCommand.agents parsed) -> Agents.isKnown agent = true)
  /\ NoDup (AddCommand.skills parsed)
  /\ (forall skill, In skill (AddCommand.skills parsed) ->
                    skill <> "" /\ Text.trimmed skill)
  /\ (LockSpec.consistent (AddCommand.localeCompare w) ->
      StronglySorted (fun a b => (AddCommand.localeCompare w a b <= 0)%Z)
        (AddCommand.agents parsed)
      /\ StronglySorted (fun a b => (AddCommand.localeCompare w a b <= 0)%Z)
           (AddCommand.skills parsed))
  /\ (forall source, AddCommand.source parsed = Some source ->
                     In source args /\ Js.startsWith source "-" = false)
  /\ (AddCommand.all parsed = true ->
      AddCommand.yes parsed = true /\ In "*" (AddCommand.skills parsed)).
Proof.
  unfold AddCommand.parseAddArgs.
  destruct (AddCommand.parseLoop args _) as [result|e] eqn:Hloop; cbn [bind];
    [|discriminate].
  assert (Hkept : Forall (fun agent => Agents.isKnown agent = true)
                         (AddCommand.agents result)
                  /\ Forall (fun item => item <> "" /\ Text.trimmed item)
                            (AddCommand.skills result)
                  /\ (AddCommand.all result = true ->
                      AddCommand.yes result = true /\ In "*" (AddCommand.skills result))
                  /\ (forall source, AddCommand.source result = Some source ->
                                     In source args /\ Js.startsWith source "-" = false)).
  { apply (parseLoop_kept args args _ result (incl_refl _) Hloop); cbn.
    - constructor.
    - constructor.
    - discriminate.
    - discriminate. }
  destruct Hkept as (Hagents & Hskills & Hall & Hsource).
  intros H; injection H as <-.
  cbn [AddCommand.agents AddCommand.skills AddCommand.source AddCommand.all
       AddCommand.yes].
  unfold AddCommand.uniqueSorted.
  assert (Hin : forall items x,
             In x (Js.sortBy (AddCommand.localeCompare w) (Agents.unique items))
             <-> In x items).
  { intros items x. rewrite sortBy_In. apply unique_In. }
  assert (Hnodup : forall items,
             NoDup (Js.sortBy (AddCommand.localeCompare w) (Agents.unique items))).
  { intros items. apply (Permutation_NoDup (sortBy_perm _ _)). apply unique_NoDup. }
  split; [apply Hnodup|]. split.
  { intros agent Hagent. apply (proj1 (Hin _ _)) in Hagent.
    rewrite Forall_forall in Hagents.
    exact (Hagents agent Hagent). }
  split; [apply Hnodup|]. split.
  { intros skill Hskill. apply (proj1 (Hin _ _)) in Hskill.
    rewrite Forall_forall in Hskills.
    exact (Hskills skill Hskill). }
  split.
  { intros Hconsistent. split.
    - apply sortBy_sorted.
      + intros a b. apply (compare_total _ Hconsistent).
      + intros a b c. apply Hconsistent.
    - apply sortBy_sorted.
      + intros a b. apply (compare_total _ Hconsistent).
      + intros a b c. apply Hconsistent. }
  split; [exact Hsource|].
  intros Htrue. destruct (Hall Htrue) as [Hyes Hstar]. split; [exact Hyes|].
  apply (proj2 (Hin _ _)). exact Hstar.
Qed.

Lemma add_arguments_are_checked_witness :
  exists parsed,
    AddCommand.parseAddArgs
      {| AddCommand.localeCompare := LockSpec.codeUnitCompare;
         AddCommand.parseYaml := ToyYaml.parse |}
      ["acme/skills"; "--skill"; " beta , alpha,beta"; "-a"; "codex,*"; "--all"] = Ok parsed
    /\ AddCommand.skills parsed = ["*"]
    /\ AddCommand.agents parsed = ["claude"; "codex"; "cursor"; "opencode"; "windsurf"]
    /\ NoDup (AddCommand.agents parsed)
    /\ (forall agent, In agent (AddCommand.agents parsed) -> Agents.isKnown agent = true)
    /\ (AddCommand.all parsed = true ->
        AddCommand.yes parsed = true /\ In "*" (AddCommand.skills parsed)).
Proof.
  destruct (AddCommand.parseAddArgs
              {| AddCommand.localeCompare := LockSpec.codeUnitCompare;
                 AddCommand.parseYaml := ToyYaml.parse |}
              ["acme/skills"; "--skill"; " beta , alpha,beta"; "-a"; "codex,*"; "--all"])
    as [parsed|e] eqn:Hrun; [|vm_compute in Hrun; discriminate].
  exists parsed. split; [reflexivity|].
  destruct (add_arguments_are_checked _ _ _ Hrun) as (H1 & H2 & _ & _ & _ & _ & H7).
  split; [vm_compute in Hrun; injection Hrun as <-; reflexivity|].
  split; [vm_compute in Hrun; injection Hrun as <-; reflexivity|].
  auto.
Defined.

(* ===================================================================== *)
(** * Discovery of the skills of a project *)
(* ===================================================================== *)

Section PathFacts.

Lemma pathEqb_eq (p q : Fs.path) : AddCommand.pathEqb p q = true <-> p = q.
Proof.
  revert q. induction p as [|a p IH]; intros [|b q]; cbn [AddCommand.pathEqb];
    try (split; [discriminate|discriminate]); [split; reflexivity|].
  rewrite andb_true_iff, String.eqb_eq, IH. split.
  - intros [-> ->]. reflexivity.
  - intros H. inversion H. auto.
Qed.

Lemma existsb_pathEqb_In (p : Fs.path) (l : list Fs.path) :
  existsb (AddCommand.pathEqb p) l = true <-> In p l.
Proof.
  rewrite existsb_exists. split.
  - intros (q & Hin & Heq). apply pathEqb_eq in Heq. subst. exact Hin.
  - intros Hin. exists p. split; [exact Hin|apply pathEqb_eq; reflexivity].
Qed.

Lemma NoDup_snoc {A} (x : A) (l : list A) : NoDup l -> ~ In x l -> NoDup (l ++ [x]).
Proof.
  intros Hl Hx. apply NoDup_app_remove_l with (l := []). cbn [app].
  apply (Permutation_NoDup (l := x :: l)); [apply Permutation_cons_append|].
  constructor; assumption.
Qed.

Lemma StronglySorted_weaken {A} (R R' : A -> A -> Prop) (l : list A) :
  StronglySorted R l -> (forall a b, R a b -> R' a b) -> StronglySorted R' l.
Proof.
  intros Hsorted Hweaker. induction Hsorted as [|a l _ IH Hall]; constructor; [exact IH|].
  apply Forall_impl with (2 := Hall). intros b. apply Hweaker.
Qed.

End PathFacts.

Section CollectFacts.
Import DiscoverySpec.
Variable w : Discovery.World.
Variable d : Fs.node.
Variable allowed : Discovery.SkillSource -> Prop.
Variable verbose : bool.

(** One candidate directory. *)
Lemma collectFromSkillDir_kept (source : Discovery.SkillSource)
      (context : Discovery.Collected) (skillDir : Fs.path) :
  allowed source -> kept w d allowed verbose context ->
  kept w d allowed verbose
    (fst (Discovery.collectFromSkillDir w d source verbose context skillDir))
  /\ (snd (Discovery.collectFromSkillDir w d source verbose context skillDir) = false ->
      fst (Discovery.collectFromSkillDir w d source verbose context skillDir) = context)
  /\ exists more,
       Discovery.found
         (fst (Discovery.collectFromSkillDir w d source verbose context skillDir))
       = Discovery.found context ++ more.
Proof.
  intros Hsource (Hnames & Hpaths & Hdn & Hdp & Hfound & Hwarned & Hquiet).
  assert (Hsame : kept w d allowed verbose context).
  { repeat split; assumption. }
  unfold Discovery.collectFromSkillDir.
  destruct (Discovery.isFile d (Fs.join skillDir "SKILL.md")) eqn:Hfile; cbn [negb fst snd].
  2: { split; [exact Hsame|]. split; [reflexivity|]. exists []. symmetry. apply app_nil_r. }
  destruct (Fs.readFileSync d (Fs.join skillDir "SKILL.md")) as [text|e] eqn:Hread;
    cbn [bind].
  2: { assert (He : exists m, e = OtherError m).
       { unfold Fs.readFileSync in Hread.
         destruct (Fs.statSync d (Fs.join skillDir "SKILL.md")) as [[| |]|];
           inversion Hread; unfold Fs.fsError; eauto. }
       destruct He as [m ->]. cbn [fst snd].
       split; [exact Hsame|]. split; [discriminate|]. exists []. symmetry.
       apply app_nil_r. }
  destruct (Skill.parseSkillMarkdown _ text _) as [parsed|e] eqn:Hparse.
  - destruct (existsb _ (Discovery.seenCanonicalPaths context)
              || existsb _ (Discovery.seenNames context)) eqn:Hseen; cbn [fst snd].
    + split; [exact Hsame|]. split; [discriminate|]. exists []. symmetry. apply app_nil_r.
    + apply orb_false_iff in Hseen as [Hpath Hname].
      split; [|split; [discriminate|eexists; reflexivity]].
      unfold kept.
      cbn [Discovery.found Discovery.warned Discovery.seenCanonicalPaths
           Discovery.seenNames].
      rewrite !map_app, <- Hnames, <- Hpaths. cbn [map Discovery.name canonicalPathOf].
      unfold canonicalPathOf at 1. cbn [Discovery.path].
      split; [reflexivity|]. split; [reflexivity|].
      split.
      { apply NoDup_snoc; [exact Hdn|]. intros Hin. apply existsb_eqb_In in Hin.
        congruence. }
      split.
      { apply NoDup_snoc; [exact Hdp|]. intros Hin. apply existsb_pathEqb_In in Hin.
        congruence. }
      split.
      { apply Forall_app. split; [exact Hfound|]. constructor; [|constructor].
        cbn [Discovery.path Discovery.name Discovery.description Discovery.source].
        split; [|exact Hsource]. exists text, parsed. auto. }
      split; assumption.
  - destruct e as [m|m|m f|m p|m|m]; cbn [fst snd];
      try (split; [exact Hsame|]; split; [discriminate|]; exists []; symmetry;
           apply app_nil_r).
    destruct verbose eqn:Hverbose; cbn [fst snd].
    + split; [|split; [discriminate|exists []; symmetry; apply app_nil_r]].
      unfold kept.
      cbn [Discovery.found Discovery.warned Discovery.seenCanonicalPaths
           Discovery.seenNames].
      repeat (split; [assumption|]). split; [|discriminate].
      apply Forall_app. split; [exact Hwarned|]. constructor; [|constructor].
      exists skillDir, text. cbn [Discovery.warningPath Discovery.message Discovery.field].
      auto.
    + split; [exact Hsame|]. split; [discriminate|]. exists []. symmetry.
      apply app_nil_r.
Qed.

(** The candidates of one root. *)
Lemma collectCandidates_kept (source : Discovery.SkillSource) (skillDirs : list Fs.path) :
  allowed source ->
  forall (context : Discovery.Collected) (candidateCount : nat),
    kept w d allowed verbose context ->
    let after :=
      Discovery.collectCandidates w d source verbose skillDirs context candidateCount in
    kept w d allowed verbose (fst after)
    /\ candidateCount <= snd after
    /\ (snd after = candidateCount -> fst after = context)
    /\ exists more, Discovery.found (fst after) = Discovery.found context ++ more.
Proof.
  intros Hsource. induction skillDirs as [|skillDir rest IH]; intros context count Hkept;
    cbn [Discovery.collectCandidates].
  - cbn [fst snd]. split; [exact Hkept|]. split; [lia|]. split; [reflexivity|].
    exists []. symmetry. apply app_nil_r.
  - destruct (collectFromSkillDir_kept source context skillDir Hsource Hkept)
      as (Hkept1 & Hnone & more1 & Hmore1).
    destruct (Discovery.collectFromSkillDir w d source verbose context skillDir)
      as [context1 hasSkillFile].
    cbn [fst snd] in *. cbv zeta.
    destruct (IH context1 (if hasSkillFile then count + 1 else count) Hkept1)
      as (Hkept2 & Hle & Hsame & more2 & Hmore2).
    split; [exact Hkept2|]. split; [destruct hasSkillFile; lia|]. split.
    + intros Hcount. destruct hasSkillFile; [lia|].
      rewrite (Hsame Hcount). apply Hnone. reflexivity.
    + exists (more1 ++ more2). rewrite Hmore2, Hmore1, app_assoc. reflexivity.
Qed.

Lemma collectFromRoot_kept (source : Discovery.SkillSource) (context after : Discovery.Collected)
      (root : Fs.path) (counts : nat * nat) :
  allowed source -> kept w d allowed verbose context ->
  Discovery.collectFromRoot w d source verbose context root = Ok (after, counts) ->
  kept w d allowed verbose after
  /\ (snd counts = 0 -> after = context)
  /\ List.length (Discovery.found after)
     = List.length (Discovery.found context) + fst counts.
Proof.
  intros Hsource Hkept. unfold Discovery.collectFromRoot.
  destruct (Discovery.listChildDirectories d root) as [children|e]; cbn [bind];
    [|discriminate].
  match goal with
  | |- context [Discovery.collectCandidates w d source verbose ?dirs context 0] =>
      destruct (collectCandidates_kept source dirs Hsource context 0 Hkept)
        as (Hkept1 & _ & Hsame & more & Hmore);
      destruct (Discovery.collectCandidates w d source verbose dirs context 0)
        as [context1 candidateCount]
  end.
  cbn [fst snd] in *. intros H. injection H as <- <-. cbn [fst snd].
  split; [exact Hkept1|]. split; [exact Hsame|].
  rewrite Hmore, length_app. lia.
Qed.

Lemma collectRoots_kept (source : Discovery.SkillSource) (roots : list Fs.path) :
  allowed source ->
  forall (context after : Discovery.Collected) (skillCount candidateCount : nat)
         (counts : nat * nat),
    kept w d allowed verbose context ->
    Discovery.collectRoots w d source verbose roots context skillCount candidateCount
    = Ok (after, counts) ->
    kept w d allowed verbose after
    /\ (snd counts = candidateCount -> after = context)
    /\ candidateCount <= snd counts
    /\ List.length (Discovery.found after) + skillCount
       = List.length (Discovery.found context) + fst counts.
Proof.
  intros Hsource. induction roots as [|root rest IH];
    intros context after skillCount candidateCount counts Hkept;
    cbn [Discovery.collectRoots].
  - intros H. injection H as <- <-. cbn [fst snd].
    split; [exact Hkept|]. split; [reflexivity|]. split; lia.
  - destruct (Discovery.collectFromRoot w d source verbose context root)
      as [[context1 counts1]|e] eqn:Hroot; cbn [bind]; [|discriminate].
    destruct (collectFromRoot_kept source context context1 root counts1 Hsource Hkept Hroot)
      as (Hkept1 & Hsame1 & Hlen1).
    intros Hrest.
    destruct (IH _ _ _ _ _ Hkept1 Hrest) as (Hkept2 & Hsame2 & Hle & Hlen2).
    split; [exact Hkept2|]. split; [|split; [lia|lia]].
    intros Hcount. rewrite Hsame2 by lia. apply Hsame1. lia.
Qed.

Lemma fallback_kept (source : Discovery.SkillSource) (skillFiles : list Fs.path) :
  allowed source ->
  forall context : Discovery.Collected,
    kept w d allowed verbose context ->
    kept w d allowed verbose
      (fold_left (fun context skillFile =>
                    fst (Discovery.collectFromSkillDir w d source verbose context
                           (Fs.dirname skillFile)))
                 skillFiles context).
Proof.
  intros Hsource. induction skillFiles as [|skillFile rest IH]; intros context Hkept;
    cbn [fold_left]; [exact Hkept|].
  apply IH. exact (proj1 (collectFromSkillDir_kept source context _ Hsource Hkept)).
Qed.

End CollectFacts.

Section CompareSkillsFacts.
Variable w : Discovery.World.
Hypothesis Hconsistent : LockSpec.consistent (Discovery.localeCompare w).

Let lc := Discovery.localeCompare w.

Lemma compareSkills_cases (a b : Discovery.DiscoveredSkill) :
  (Discovery.compareSkills w a b <= 0)%Z
  <-> (lc (Discovery.name a) (Discovery.name b) < 0)%Z
      \/ (lc (Discovery.name a) (Discovery.name b) = 0%Z
          /\ (lc (Fs.toString (Discovery.path a)) (Fs.toString (Discovery.path b)) <= 0)%Z).
Proof.
  unfold Discovery.compareSkills. fold lc.
  destruct (Z.eqb_spec (lc (Discovery.name a) (Discovery.name b)) 0) as [Heq|Hne];
    cbn [negb]; lia.
Qed.

Lemma compareSkills_total (a b : Discovery.DiscoveredSkill) :
  (Discovery.compareSkills w a b > 0)%Z -> (Discovery.compareSkills w b a <= 0)%Z.
Proof.
  intros Hpos. apply compareSkills_cases.
  unfold Discovery.compareSkills in Hpos. fold lc in Hpos.
  destruct (Z.eqb_spec (lc (Discovery.name a) (Discovery.name b)) 0) as [Heq|Hne];
    cbn [negb] in Hpos.
  - right. split; [apply (compare_zero_sym lc Hconsistent); exact Heq|].
    apply (compare_total lc Hconsistent). exact Hpos.
  - left. apply (compare_pos_neg lc Hconsistent). exact Hpos.
Qed.

Lemma compareSkills_trans (a b c : Discovery.DiscoveredSkill) :
  (Discovery.compareSkills w a b <= 0)%Z -> (Discovery.compareSkills w b c <= 0)%Z ->
  (Discovery.compareSkills w a c <= 0)%Z.
Proof.
  rewrite !compareSkills_cases. intros [Hab|[Hab Hp]] [Hbc|[Hbc Hq]].
  - left. apply (compare_lt_le_trans lc Hconsistent _ (Discovery.name b)); lia.
  - left. apply (compare_lt_le_trans lc Hconsistent _ (Discovery.name b)); lia.
  - left. apply (compare_le_lt_trans lc Hconsistent _ (Discovery.name b)); lia.
  - right. split.
    + apply (compare_zero_trans lc Hconsistent _ (Discovery.name b)); assumption.
    + apply (compare_le_trans lc Hconsistent _ (Fs.toString (Discovery.path b)));
        assumption.
Qed.

End CompareSkillsFacts.

(** X29.  The skills [discoverSkills] reports have pairwise distinct
    names and pairwise distinct canonical directories, and come in the
    order of their names; each is held by its directory (the SKILL.md
    there is a file that parses to the name and description reported).
    There are warnings only when [verbose] is set, and each reports the
    parse error of a SKILL.md that is there.  When the broad fallback scan
    is used every skill reported has the source [fallback], and otherwise
    none has. *)
Theorem project_skills_are_discovered_once_each
  (w : Discovery.World) (d : Fs.node) (options : Discovery.DiscoverSkillsOptions)
  (r : Discovery.DiscoverSkillsResult) :
  Discovery.discoverSkills w d options = Ok r ->
  NoDup (map Discovery.name (Discovery.skills r))
  /\ NoDup (map (DiscoverySpec.canonicalPathOf d) (Discovery.skills r))
  /\ (LockSpec.consistent (Discovery.localeCompare w) ->
      StronglySorted
        (fun a b => (Discovery.localeCompare w (Discovery.name a) (Discovery.name b)
                     <= 0)%Z) (Discovery.skills r))
  /\ (forall skill,
        In skill (Discovery.skills r) ->
        DiscoverySpec.holdsSkill w d (Discovery.path skill) (Discovery.name skill)
          (Discovery.description skill)
        /\ (Discovery.source skill = Discovery.fallback
            <-> Discovery.usedFallback r = true))
  /\ (Discovery.verbose options <> Some true -> Discovery.warnings r = [])
  /\ (forall warning, In warning (Discovery.warnings r) ->
                      DiscoverySpec.reportsInvalid w d warning).
Proof.
  unfold Discovery.discoverSkills.
  set (cwd := Js.orElse (Discovery.cwd options) (Discovery.processCwd w)).
  set (homeDir := Js.orElse (Discovery.homeDir options) (Discovery.osHomedir w)).
  set (verbose := match Discovery.verbose options with Some true => true | _ => false end).
  set (context0 := {| Discovery.found := []; Discovery.warned := [];
                      Discovery.seenCanonicalPaths := []; Discovery.seenNames := [] |}).
  set (early := fun source : Discovery.SkillSource => source <> Discovery.fallback).
  set (late := fun source : Discovery.SkillSource => source = Discovery.fallback).
  assert (Hstart : forall allowed, DiscoverySpec.kept w d allowed verbose context0).
  { intros allowed. unfold DiscoverySpec.kept. cbn.
    repeat split; try constructor. }
  destruct (Discovery.collectRoots w d Discovery.standard verbose _ context0 0 0)
    as [[context1 standardCounts]|e] eqn:Hstandard; cbn [bind]; [|discriminate].
  destruct (collectRoots_kept w d early verbose Discovery.standard _ ltac:(discriminate)
              _ _ _ _ _ (Hstart early) Hstandard) as (Hkept1 & _ & _ & Hlen1).
  cbn [Discovery.found context0 List.length] in Hlen1.
  destruct (Discovery.collectRoots w d Discovery.agent verbose _ context1 0 0)
    as [[context2 agentCounts]|e] eqn:Hagent; cbn [bind]; [|discriminate].
  destruct (collectRoots_kept w d early verbose Discovery.agent _ ltac:(discriminate)
              _ _ _ _ _ Hkept1 Hagent) as (Hkept2 & Hsame2 & _ & _).
  assert (Hresult : forall (allowed : Discovery.SkillSource -> Prop)
                           (context : Discovery.Collected) (used : bool),
             DiscoverySpec.kept w d allowed verbose context ->
             (forall source, allowed source ->
                             (source = Discovery.fallback <-> used = true)) ->
             Ok {| Discovery.skills :=
                     Js.sortBy (Discovery.compareSkills w) (Discovery.found context);
                   Discovery.warnings := Discovery.warned context;
                   Discovery.usedFallback := used |} = Ok r ->
             NoDup (map Discovery.name (Discovery.skills r))
             /\ NoDup (map (DiscoverySpec.canonicalPathOf d) (Discovery.skills r))
             /\ (LockSpec.consistent (Discovery.localeCompare w) ->
                 StronglySorted
                   (fun a b => (Discovery.localeCompare w (Discovery.name a)
                                  (Discovery.name b) <= 0)%Z) (Discovery.skills r))
             /\ (forall skill,
                   In skill (Discovery.skills r) ->
                   DiscoverySpec.holdsSkill w d (Discovery.path skill)
                     (Discovery.name skill) (Discovery.description skill)
                   /\ (Discovery.source skill = Discovery.fallback
                       <-> Discovery.usedFallback r = true))
             /\ (Discovery.verbose options <> Some true -> Discovery.warnings r = [])
             /\ (forall warning, In warning (Discovery.warnings r) ->
                                 DiscoverySpec.reportsInvalid w d warning)).
  { intros allowed context used
           (Hnames & Hpaths & Hdn & Hdp & Hfound & Hwarned & Hquiet) Hused Heq.
    injection Heq as <-.
    cbn [Discovery.skills Discovery.warnings Discovery.usedFallback].
    pose proof (sortBy_perm (Discovery.compareSkills w) (Discovery.found context)) as Hperm.
    split; [|split; [|split; [|split; [|split]]]].
    - apply (Permutation_NoDup (Permutation_map _ Hperm)). rewrite <- Hnames. exact Hdn.
    - apply (Permutation_NoDup (Permutation_map _ Hperm)). rewrite <- Hpaths. exact Hdp.
    - intros Hconsistent.
      pose proof (sortBy_sorted (Discovery.compareSkills w)
                    (compareSkills_total w Hconsistent)
                    (compareSkills_trans w Hconsistent) (Discovery.found context))
        as Hsorted.
      apply (StronglySorted_weaken _ _ _ Hsorted). intros a b Hab.
      apply (compareSkills_cases w) in Hab. lia.
    - intros skill Hin. apply sortBy_In in Hin. rewrite Forall_forall in Hfound.
      destruct (Hfound skill Hin) as [Hheld Hallowed]. split; [exact Hheld|].
      apply Hused. exact Hallowed.
    - intros Hverbose. apply Hquiet. subst verbose.
      destruct (Discovery.verbose options) as [[|]|]; congruence.
    - intros warning Hin. rewrite Forall_forall in Hwarned. exact (Hwarned warning Hin). }
  destruct ((snd standardCounts =? 0)%nat && (fst standardCounts =? 0)%nat
            && (snd agentCounts =? 0)%nat) eqn:Hfallback.
  - apply andb_prop in Hfallback as [Hfallback Hagents].
    apply andb_prop in Hfallback as [_ Hskills].
    apply Nat.eqb_eq in Hagents. apply Nat.eqb_eq in Hskills.
    destruct (Discovery.findSkillFilesRecursively w d cwd) as [skillFiles|e]; cbn [bind];
      [|discriminate].
    assert (Hempty : Discovery.found context2 = []).
    { rewrite (Hsame2 Hagents). destruct (Discovery.found context1); [reflexivity|].
      cbn [List.length] in Hlen1. lia. }
    assert (Hlate : DiscoverySpec.kept w d late verbose context2).
    { destruct Hkept2 as (K1 & K2 & K3 & K4 & K5 & K6 & K7).
      unfold DiscoverySpec.kept. rewrite Hempty in *.
      repeat split; try assumption. constructor. }
    apply (Hresult late _ true (fallback_kept w d late verbose Discovery.fallback
                                  skillFiles eq_refl context2 Hlate)).
    intros source Hsource. split; [reflexivity|]. intros _. exact Hsource.
  - apply (Hresult early context2 false Hkept2).
    intros source Hsource. split; [intros H; contradiction|discriminate].
Qed.

Lemma project_skills_are_discovered_once_each_witness :
  exists r,
    Discovery.discoverSkills
      {| Discovery.processCwd := ["proj"]; Discovery.osHomedir := ["home"];
         Discovery.localeCompare := LockSpec.codeUnitCompare;
         Discovery.parseYaml := ToyYaml.parse |}
      LockSpec.installedDisk
      {| Discovery.cwd := None; Discovery.homeDir := None;
         Discovery.verbose := Some true |} = Ok r
    /\ map Discovery.path (Discovery.skills r)
       = [["proj"; ".claude"; "skills"; "alpha"]; ["proj"; ".claude"; "skills"; "beta"];
          ["proj"; ".codex"; "skills"; "gamma"]]
    /\ NoDup (map Discovery.name (Discovery.skills r))
    /\ NoDup (map (DiscoverySpec.canonicalPathOf LockSpec.installedDisk)
                  (Discovery.skills r))
    /\ Discovery.usedFallback r = false.
Proof.
  destruct (Discovery.discoverSkills
              {| Discovery.processCwd := ["proj"]; Discovery.osHomedir := ["home"];
                 Discovery.localeCompare := LockSpec.codeUnitCompare;
                 Discovery.parseYaml := ToyYaml.parse |}
              LockSpec.installedDisk
              {| Discovery.cwd := None; Discovery.homeDir := None;
                 Discovery.verbose := Some true |}) as [r|e] eqn:Hrun;
    [|vm_compute in Hrun; discriminate].
  exists r. split; [reflexivity|].
  destruct (project_skills_are_discovered_once_each _ _ _ _ Hrun)
    as (Hnames & Hpaths & _).
  split; [vm_compute in Hrun; injection Hrun as <-; reflexivity|].
  split; [exact Hnames|]. split; [exact Hpaths|].
  vm_compute in Hrun. injection Hrun as <-. reflexivity.
Defined.
